(** * agent-task-manager: the policy-and-encoding engine

    A shallow embedding of the metadata codec ([src/linear-metadata.ts]),
    the effort and uncertainty policies, the task filter, the tree
    evaluator and the parts of the orchestrator and of the Linear service
    that compose them, together with the properties stated about them.

    JavaScript strings are modelled as lists of 8-bit code units, that is
    the Latin-1 range U+0000..U+00FF.  On that range the character classes
    of the regular expressions, [String.prototype.trim] and
    [String.prototype.toLowerCase] are given exactly. *)

From Stdlib Require Import Ascii String List ZArith NArith Lia Bool Arith.
From Stdlib Require Decimal DecimalN.
Import ListNotations.

Set Implicit Arguments.

Local Open Scope list_scope.

(* ====================================================================== *)
(** ** JavaScript strings *)
(* ====================================================================== *)

Definition str := list ascii.

(** [js "..."] is the string literal. *)
Definition js (s : string) : str := list_ascii_of_string s.

Definition LF : ascii := "010"%char.
Definition CR : ascii := "013"%char.
Definition nl : str := [LF].

Definition code (a : ascii) : nat := nat_of_ascii a.

Definition in_range (lo hi : nat) (a : ascii) : bool :=
  (lo <=? code a) && (code a <=? hi).

(** LineTerminator: LF and CR (U+2028 and U+2029 lie outside Latin-1). *)
Definition is_line_terminator (a : ascii) : bool :=
  (code a =? 10) || (code a =? 13).

(** WhiteSpace and LineTerminator, the set used by [\s] and by [trim]:
    TAB, LF, VT, FF, CR, SP and NBSP. *)
Definition is_space (a : ascii) : bool :=
  in_range 9 13 a || (code a =? 32) || (code a =? 160).

(** [.] without the s flag. *)
Definition is_dot (a : ascii) : bool := negb (is_line_terminator a).

(** [\d] *)
Definition is_digit (a : ascii) : bool := in_range 48 57 a.

(** [\w] is [A-Za-z0-9_]. *)
Definition is_word (a : ascii) : bool :=
  in_range 65 90 a || in_range 97 122 a || is_digit a || (code a =? 95).

(** [[\s\S]] *)
Definition is_any (a : ascii) : bool := true.

(** [[ x]] *)
Definition is_space_or_x (a : ascii) : bool := (code a =? 32) || (code a =? 120).

(** [String.prototype.toLowerCase], one code unit at a time: A-Z and the
    Latin-1 capitals U+00C0..U+00DE (except the multiplication sign U+00D7)
    move up by 32, everything else is unchanged. *)
Definition lower_char (a : ascii) : ascii :=
  if in_range 65 90 a || (in_range 192 222 a && negb (code a =? 215))
  then ascii_of_nat (code a + 32) else a.

Definition toLowerCase (s : str) : str := map lower_char s.

(** Canonicalisation of a code unit under the [i] flag (non-unicode mode):
    only the ASCII letters fold, since a code unit of 128 or more never
    canonicalises to one below 128 and the patterns are ASCII. *)
Definition fold_char (a : ascii) : ascii :=
  if in_range 97 122 a then ascii_of_nat (code a - 32) else a.

Fixpoint drop_while (p : ascii -> bool) (s : str) : str :=
  match s with
  | a :: s' => if p a then drop_while p s' else s
  | [] => []
  end.

Definition trimStart (s : str) : str := drop_while is_space s.
Definition trimEnd (s : str) : str := rev (drop_while is_space (rev s)).
Definition trim (s : str) : str := trimEnd (trimStart s).

Definition str_eqb (a b : str) : bool :=
  if list_eq_dec ascii_dec a b then true else false.

(** [strip_prefix p s] is [Some r] when [s = p ++ r]. *)
Fixpoint strip_prefix (p s : str) : option str :=
  match p with
  | [] => Some s
  | a :: p' =>
      match s with
      | b :: s' => if Ascii.eqb a b then strip_prefix p' s' else None
      | [] => None
      end
  end.

(** The same under the [i] flag. *)
Fixpoint strip_prefix_ci (p s : str) : option str :=
  match p with
  | [] => Some s
  | a :: p' =>
      match s with
      | b :: s' =>
          if Ascii.eqb (fold_char a) (fold_char b) then strip_prefix_ci p' s' else None
      | [] => None
      end
  end.

Definition startsWith (p s : str) : bool :=
  match strip_prefix p s with Some _ => true | None => false end.

(** [String.prototype.includes]. *)
Fixpoint includes (p s : str) : bool :=
  startsWith p s ||
  match s with
  | _ :: s' => includes p s'
  | [] => false
  end.

(** [s.split('\n')]: a string with n line feeds gives n + 1 pieces. *)
Fixpoint split_nl (s : str) : list str :=
  match s with
  | [] => [[]]
  | a :: s' =>
      if Ascii.eqb a LF then [] :: split_nl s'
      else match split_nl s' with
           | l :: ls => (a :: l) :: ls
           | [] => [[a]]
           end
  end.

(** [lines.join('\n')] *)
Fixpoint join_nl (ls : list str) : str :=
  match ls with
  | [] => []
  | [l] => l
  | l :: ls' => l ++ nl ++ join_nl ls'
  end.


(* ---------------------------------------------------------------------- *)
(** *** Numbers in template literals and [parseInt] *)

(** The characters of a decimal numeral, most significant digit first. *)
Fixpoint chars_of_uint (d : Decimal.uint) : str :=
  match d with
  | Decimal.Nil => []
  | Decimal.D0 d' => "0"%char :: chars_of_uint d'
  | Decimal.D1 d' => "1"%char :: chars_of_uint d'
  | Decimal.D2 d' => "2"%char :: chars_of_uint d'
  | Decimal.D3 d' => "3"%char :: chars_of_uint d'
  | Decimal.D4 d' => "4"%char :: chars_of_uint d'
  | Decimal.D5 d' => "5"%char :: chars_of_uint d'
  | Decimal.D6 d' => "6"%char :: chars_of_uint d'
  | Decimal.D7 d' => "7"%char :: chars_of_uint d'
  | Decimal.D8 d' => "8"%char :: chars_of_uint d'
  | Decimal.D9 d' => "9"%char :: chars_of_uint d'
  end.

(** Decimal digits of a natural number, without leading zeros. *)
Definition show_N (n : N) : str := chars_of_uint (N.to_uint n).

(** [`${n}`] for an integer [n]. *)
Definition show_int (z : Z) : str :=
  match z with
  | Zneg p => "-"%char :: show_N (Npos p)
  | _ => show_N (Z.to_N z)
  end.

Definition digit_val (a : ascii) : N := (N_of_ascii a - 48)%N.

Fixpoint parse_digits (acc : N) (s : str) : N :=
  match s with
  | a :: s' => if is_digit a then parse_digits (10 * acc + digit_val a)%N s' else acc
  | [] => acc
  end.

(** [parseInt(s, 10)] on a string that starts with a digit, which is all
    the codec passes to it (the capture of [(\d+)]): the value of the
    leading run of digits. *)
Definition parseInt (s : str) : Z := Z.of_N (parse_digits 0 s).

(* ====================================================================== *)
(** ** Regular expressions

    A backtracking matcher for the fragment of ECMAScript regular
    expressions the codec uses, written as in the language specification
    with continuations.  Quantifiers range over single-character classes,
    which is all the source has. *)
(* ====================================================================== *)

Inductive re : Type :=
| Lit (l : str)                       (* a run of literal characters *)
| LitI (l : str)                      (* the same under the i flag *)
| Cls (p : ascii -> bool)             (* one character of a class *)
| Star (p : ascii -> bool)            (* p*  greedy *)
| Plus (p : ascii -> bool)            (* p+  greedy *)
| LazyStar (p : ascii -> bool)        (* p*? *)
| Grp (n : nat) (r : re)              (* capture group number n *)
| Seq (r1 r2 : re)
| Alt (r1 r2 : re)
| Ahead (r : re)                      (* (?=r) *)
| NotAhead (r : re)                   (* (?!r) *)
| Eoi.                                (* $ without the m flag *)

Definition caps := list (nat * str).
Definition cont := str -> caps -> option (caps * str).

Definition accept : cont := fun s c => Some (c, s).

Fixpoint star_greedy (p : ascii -> bool) (k : cont) (s : str) (c : caps)
  : option (caps * str) :=
  match s with
  | a :: s' =>
      if p a then
        match star_greedy p k s' c with
        | Some r => Some r
        | None => k s c
        end
      else k s c
  | [] => k s c
  end.

Fixpoint star_lazy (p : ascii -> bool) (k : cont) (s : str) (c : caps)
  : option (caps * str) :=
  match k s c with
  | Some r => Some r
  | None =>
      match s with
      | a :: s' => if p a then star_lazy p k s' c else None
      | [] => None
      end
  end.

Fixpoint rmatch (r : re) (k : cont) (s : str) (c : caps) : option (caps * str) :=
  match r with
  | Lit l => match strip_prefix l s with Some s' => k s' c | None => None end
  | LitI l => match strip_prefix_ci l s with Some s' => k s' c | None => None end
  | Cls p =>
      match s with
      | a :: s' => if p a then k s' c else None
      | [] => None
      end
  | Star p => star_greedy p k s c
  | Plus p =>
      match s with
      | a :: s' => if p a then star_greedy p k s' c else None
      | [] => None
      end
  | LazyStar p => star_lazy p k s c
  | Grp n r1 =>
      rmatch r1 (fun s' c' => k s' ((n, firstn (length s - length s') s) :: c')) s c
  | Seq r1 r2 => rmatch r1 (rmatch r2 k) s c
  | Alt r1 r2 =>
      match rmatch r1 k s c with
      | Some x => Some x
      | None => rmatch r2 k s c
      end
  | Ahead r1 =>
      match rmatch r1 accept s c with
      | Some (c', _) => k s c'
      | None => None
      end
  | NotAhead r1 =>
      match rmatch r1 accept s c with
      | Some _ => None
      | None => k s c
      end
  | Eoi => match s with [] => k s c | _ :: _ => None end
  end.

(** The result of a successful match: the text before it, the captures
    and the text after it. *)
Record match_result := MatchResult {
  before : str;
  groups : caps;
  after : str
}.

Definition shift (a : ascii) (m : match_result) : match_result :=
  MatchResult (a :: before m) (groups m) (after m).

Definition match_here (r : re) (s : str) : option match_result :=
  match rmatch r accept s [] with
  | Some (c, rest) => Some (MatchResult [] c rest)
  | None => None
  end.

(** Leftmost match: every start index in turn. *)
Fixpoint find_match (r : re) (s : str) : option match_result :=
  match match_here r s with
  | Some m => Some m
  | None =>
      match s with
      | a :: s' => option_map (shift a) (find_match r s')
      | [] => None
      end
  end.

(** A regular expression literal: a leading [^] (without the m flag) is
    the [anchored] flag, under which only index 0 is tried. *)
Record regex := Regex { anchored : bool; body : re }.

Definition exec (R : regex) (s : str) : option match_result :=
  if anchored R then match_here (body R) s else find_match (body R) s.

(** [m[n]] of a match array. *)
Fixpoint group (n : nat) (c : caps) : option str :=
  match c with
  | (i, v) :: c' => if Nat.eqb i n then Some v else group n c'
  | [] => None
  end.

Definition group_or_empty (n : nat) (m : match_result) : str :=
  match group n (groups m) with Some v => v | None => [] end.

(** [re.test(s)] *)
Definition test (R : regex) (s : str) : bool :=
  match exec R s with Some _ => true | None => false end.

(** [s.replace(re, '')] for a regular expression without the g flag. *)
Definition replace_first (R : regex) (s : str) : str :=
  match exec R s with
  | Some m => before m ++ after m
  | None => s
  end.

Declare Scope re_scope.
Delimit Scope re_scope with re.
Infix ">>" := Seq (at level 61, right associativity) : re_scope.
Local Open Scope re_scope.

(* ====================================================================== *)
(** ** Data model ([types.ts]) *)
(* ====================================================================== *)

(** A property that may be absent.  JavaScript treats both an absent
    property and the empty string as falsy. *)
Definition truthy (o : option str) : bool :=
  match o with
  | Some (_ :: _) => true
  | _ => false
  end.

(** The text a template literal prints for a property known to be truthy. *)
Definition text (o : option str) : str :=
  match o with Some s => s | None => [] end.

Definition nonempty (s : str) : bool :=
  match s with [] => false | _ :: _ => true end.

Inductive LessonCategory : Type :=
| pattern | decision | gotcha | solution | performance | balance.

Definition category_name (c : LessonCategory) : str :=
  match c with
  | pattern => js "pattern"
  | decision => js "decision"
  | gotcha => js "gotcha"
  | solution => js "solution"
  | performance => js "performance"
  | balance => js "balance"
  end.

Definition all_categories : list LessonCategory :=
  [pattern; decision; gotcha; solution; performance; balance].

(** [LessonCategorySchema.safeParse]: success exactly on the six names. *)
Definition safeParse_category (s : str) : option LessonCategory :=
  find (fun c => str_eqb (category_name c) s) all_categories.

Module Uncertainty.
Record t : Type := Build {
  title : str;
  description : option str;
  resolution : option str;
  resolvedAt : option str;
  resolvedBy : option str
}.
Definition of_title (s : str) : t := Build s None None None None.
Definition with_description (u : t) (v : option str) : t :=
  Build (title u) v (resolution u) (resolvedAt u) (resolvedBy u).
Definition with_resolution (u : t) (v : option str) : t :=
  Build (title u) (description u) v (resolvedAt u) (resolvedBy u).
Definition with_resolvedAt (u : t) (v : option str) : t :=
  Build (title u) (description u) (resolution u) v (resolvedBy u).
Definition with_resolvedBy (u : t) (v : option str) : t :=
  Build (title u) (description u) (resolution u) (resolvedAt u) v.
End Uncertainty.

Module Lesson.
Record t : Type := Build {
  content : str;
  category : option LessonCategory;
  tags : option (list str)
}.
End Lesson.

Module Metadata.
Record t : Type := Build {
  goal : option str;
  effort : Z;
  effortReason : option str;
  complexityBias : option str;
  uncertainties : list Uncertainty.t;
  lessonsLearned : list Lesson.t
}.
Definition with_goal (m : t) (v : option str) : t :=
  Build v (effort m) (effortReason m) (complexityBias m) (uncertainties m) (lessonsLearned m).
Definition with_effort (m : t) (v : Z) : t :=
  Build (goal m) v (effortReason m) (complexityBias m) (uncertainties m) (lessonsLearned m).
Definition with_effortReason (m : t) (v : option str) : t :=
  Build (goal m) (effort m) v (complexityBias m) (uncertainties m) (lessonsLearned m).
Definition with_complexityBias (m : t) (v : option str) : t :=
  Build (goal m) (effort m) (effortReason m) v (uncertainties m) (lessonsLearned m).
Definition with_uncertainties (m : t) (v : list Uncertainty.t) : t :=
  Build (goal m) (effort m) (effortReason m) (complexityBias m) v (lessonsLearned m).
Definition with_lessonsLearned (m : t) (v : list Lesson.t) : t :=
  Build (goal m) (effort m) (effortReason m) (complexityBias m) (uncertainties m) v.
End Metadata.

(* ====================================================================== *)
(** ** The metadata codec ([linear-metadata.ts]) *)
(* ====================================================================== *)

Definition metadataDefaultEffort : Z := 5.

Definition METADATA_SEPARATOR : str := js "---WORKFLOW-METADATA---".
Definition METADATA_END : str := js "---END-METADATA---".

Definition uncertainty_lines (u : Uncertainty.t) : list str :=
  let resolved := truthy (Uncertainty.resolution u) in
  [js "- [" ++ (if resolved then js "x" else js " ") ++ js "] " ++ Uncertainty.title u]
  ++ (if truthy (Uncertainty.description u)
      then [js "  - Description: " ++ text (Uncertainty.description u)] else [])
  ++ (if truthy (Uncertainty.resolution u)
      then [js "  - Resolution: " ++ text (Uncertainty.resolution u)] else [])
  ++ (if truthy (Uncertainty.resolvedBy u)
      then [js "  - Resolved By: " ++ text (Uncertainty.resolvedBy u)] else [])
  ++ (if truthy (Uncertainty.resolvedAt u)
      then [js "  - Resolved At: " ++ text (Uncertainty.resolvedAt u)] else []).

Definition lesson_line (l : Lesson.t) : str :=
  let category :=
    match Lesson.category l with
    | Some c => js "[" ++ category_name c ++ js "]"
    | None => []
    end in
  js "- " ++ category ++ js " " ++ Lesson.content l.

Definition metadata_lines (metadata : Metadata.t) : list str :=
  [ METADATA_SEPARATOR;
    js "**Goal:** " ++ (if truthy (Metadata.goal metadata)
                        then text (Metadata.goal metadata) else js "Not specified");
    js "**Effort:** " ++ show_int (Metadata.effort metadata) ]
  ++ (if truthy (Metadata.effortReason metadata)
      then [js "**Effort Reason:** " ++ text (Metadata.effortReason metadata)] else [])
  ++ (if truthy (Metadata.complexityBias metadata)
      then [js "**Complexity Bias:** " ++ text (Metadata.complexityBias metadata)] else [])
  ++ [ []; js "**Uncertainties:**" ]
  ++ flat_map uncertainty_lines (Metadata.uncertainties metadata)
  ++ [ []; js "**Lessons Learned:**" ]
  ++ map lesson_line (Metadata.lessonsLearned metadata)
  ++ [ METADATA_END ].

Definition buildDescriptionWithMetadata (plainDescription : str) (metadata : Metadata.t)
  : str :=
  join_nl (metadata_lines metadata) ++ nl ++ nl ++ plainDescription.

(** The regular expressions of [parseMetadata], in source order. *)

(* "new RegExp(`${METADATA_SEPARATOR}([\\s\\S]*?)${METADATA_END}`)" *)
Definition re_block : regex :=
  Regex false (Lit METADATA_SEPARATOR >> Grp 1 (LazyStar is_any) >> Lit METADATA_END).

(* "/\*\*Goal:\*\*\s*(.+)/" *)
Definition re_goal : regex :=
  Regex false (Lit (js "**Goal:**") >> Star is_space >> Grp 1 (Plus is_dot)).

(* "/\*\*Effort:\*\*\s*(\d+)/" *)
Definition re_effort : regex :=
  Regex false (Lit (js "**Effort:**") >> Star is_space >> Grp 1 (Plus is_digit)).

(* "/\*\*Effort Reason:\*\*\s*(.+)/" *)
Definition re_effortReason : regex :=
  Regex false (Lit (js "**Effort Reason:**") >> Star is_space >> Grp 1 (Plus is_dot)).

(* "/\*\*Complexity Bias:\*\*\s*(\w+)/" *)
Definition re_complexityBias : regex :=
  Regex false (Lit (js "**Complexity Bias:**") >> Star is_space >> Grp 1 (Plus is_word)).

(* "(?=\*\*|$)" *)
Definition re_section_end : re := Ahead (Alt (Lit (js "**")) Eoi).

(* "/\*\*Uncertainties:\*\*([\s\S]*?)(?=\*\*|$)/" *)
Definition re_uncertainties : regex :=
  Regex false (Lit (js "**Uncertainties:**") >> Grp 1 (LazyStar is_any) >> re_section_end).

(* "/^- \[([ x])\]\s*(.+)$/" *)
Definition re_bullet : regex :=
  Regex true (Lit (js "- [") >> Grp 1 (Cls is_space_or_x) >> Lit (js "]")
              >> Star is_space >> Grp 2 (Plus is_dot) >> Eoi).

(* start of input, "\s*-\s+(?!\[)", then a captured run of [.] up to the end of input *)
Definition re_detail : regex :=
  Regex true (Star is_space >> Lit (js "-") >> Plus is_space >> NotAhead (Lit (js "["))
              >> Grp 1 (Star is_dot) >> Eoi).

(* "/^Resolution:\s*/i" *)
Definition re_key (key : string) : regex :=
  Regex true (LitI (js key) >> Star is_space).

(* "/\*\*Lessons Learned:\*\*([\s\S]*?)(?=\*\*|$)/" *)
Definition re_lessons : regex :=
  Regex false (Lit (js "**Lessons Learned:**") >> Grp 1 (LazyStar is_any) >> re_section_end).

(* "/- \[(\w+)\]\s*(.+)/" *)
Definition re_category : regex :=
  Regex false (Lit (js "- [") >> Grp 1 (Plus is_word) >> Lit (js "]")
               >> Star is_space >> Grp 2 (Plus is_dot)).

(* "/^- /" *)
Definition re_dash : regex := Regex true (Lit (js "- ")).

(* "new RegExp(`${METADATA_SEPARATOR}[\\s\\S]*?${METADATA_END}\\n\\n`)" *)
Definition re_strip : regex :=
  Regex false (Lit METADATA_SEPARATOR >> LazyStar is_any >> Lit METADATA_END
               >> Lit (nl ++ nl)).

(** The loop over the lines of the uncertainties section keeps the record
    being filled in [current] and whether its box was checked. *)
Record uloop : Type := ULoop {
  out : list Uncertainty.t;
  current : option Uncertainty.t;
  currentResolved : bool
}.

Definition flushCurrent (st : uloop) : uloop :=
  match current st with
  | Some cur =>
      let cur' :=
        if currentResolved st && negb (truthy (Uncertainty.resolution cur))
        then Uncertainty.with_resolution cur (Some (js "Resolved (no details provided)"))
        else cur in
      ULoop (out st ++ [cur']) None false
  | None => ULoop (out st) None false
  end.

Definition detail_update (cur : Uncertainty.t) (detail : str) : Uncertainty.t :=
  if test (re_key "Resolution:") detail then
    Uncertainty.with_resolution cur
      (Some (trim (replace_first (re_key "Resolution:") detail)))
  else if test (re_key "Resolved By:") detail then
    Uncertainty.with_resolvedBy cur
      (Some (trim (replace_first (re_key "Resolved By:") detail)))
  else if test (re_key "Resolved At:") detail then
    Uncertainty.with_resolvedAt cur
      (Some (trim (replace_first (re_key "Resolved At:") detail)))
  else if test (re_key "Description:") detail then
    Uncertainty.with_description cur
      (Some (trim (replace_first (re_key "Description:") detail)))
  else Uncertainty.with_description cur (Some detail).

Definition uncertainty_step (st : uloop) (rawLine : str) : uloop :=
  let trimmed := trim rawLine in
  if negb (nonempty trimmed) then st
  else
    match exec re_bullet trimmed with
    | Some bulletMatch =>
        let st' := flushCurrent st in
        ULoop (out st')
              (Some (Uncertainty.of_title (trim (group_or_empty 2 bulletMatch))))
              (str_eqb (group_or_empty 1 bulletMatch) (js "x"))
    | None =>
        match exec re_detail rawLine, current st with
        | Some detailMatch, Some cur =>
            let detail := trim (group_or_empty 1 detailMatch) in
            if negb (nonempty detail) then st
            else ULoop (out st) (Some (detail_update cur detail)) (currentResolved st)
        | _, _ => st
        end
    end.

Definition parse_uncertainties (section : str) : list Uncertainty.t :=
  out (flushCurrent (fold_left uncertainty_step (split_nl section) (ULoop [] None false))).

Definition lesson_step (acc : list Lesson.t) (line : str) : list Lesson.t :=
  match exec re_category line with
  | Some categoryMatch =>
      let categoryValue := trim (group_or_empty 1 categoryMatch) in
      let contentValue := trim (group_or_empty 2 categoryMatch) in
      match safeParse_category categoryValue with
      | Some c => acc ++ [Lesson.Build contentValue (Some c) None]
      | None =>
          if nonempty contentValue then acc ++ [Lesson.Build contentValue None None]
          else acc
      end
  | None =>
      let content := trim (replace_first re_dash line) in
      if nonempty content then acc ++ [Lesson.Build content None None] else acc
  end.

Definition parse_lessons (section : str) : list Lesson.t :=
  let lessonLines :=
    filter (fun line => startsWith (js "- ") (trim line)) (split_nl section) in
  fold_left lesson_step lessonLines [].

Definition default_metadata : Metadata.t :=
  Metadata.Build None metadataDefaultEffort None None [] [].

(** The six blocks of [parseMetadata] that follow the match of the
    block, each updating the metadata from the text between the
    sentinels. *)

Definition parse_goal (metadataText : str) (metadata : Metadata.t) : Metadata.t :=
  match exec re_goal metadataText with
  | Some goalMatch =>
      if negb (str_eqb (group_or_empty 1 goalMatch) (js "Not specified"))
      then Metadata.with_goal metadata (Some (trim (group_or_empty 1 goalMatch)))
      else metadata
  | None => metadata
  end.

Definition parse_effort (metadataText : str) (metadata : Metadata.t) : Metadata.t :=
  match exec re_effort metadataText with
  | Some effortMatch =>
      Metadata.with_effort metadata (parseInt (group_or_empty 1 effortMatch))
  | None => metadata
  end.

Definition parse_effortReason (metadataText : str) (metadata : Metadata.t) : Metadata.t :=
  match exec re_effortReason metadataText with
  | Some effortReasonMatch =>
      let reason := trim (group_or_empty 1 effortReasonMatch) in
      if nonempty reason then Metadata.with_effortReason metadata (Some reason)
      else metadata
  | None => metadata
  end.

Definition parse_complexityBias (metadataText : str) (metadata : Metadata.t)
  : Metadata.t :=
  match exec re_complexityBias metadataText with
  | Some complexityBiasMatch =>
      Metadata.with_complexityBias metadata (Some (group_or_empty 1 complexityBiasMatch))
  | None => metadata
  end.

Definition parse_uncertaintiesSection (metadataText : str) (metadata : Metadata.t)
  : Metadata.t :=
  match exec re_uncertainties metadataText with
  | Some uncertaintiesSection =>
      Metadata.with_uncertainties metadata
        (parse_uncertainties (group_or_empty 1 uncertaintiesSection))
  | None => metadata
  end.

Definition parse_lessonsSection (metadataText : str) (metadata : Metadata.t)
  : Metadata.t :=
  match exec re_lessons metadataText with
  | Some lessonsSection =>
      Metadata.with_lessonsLearned metadata
        (parse_lessons (group_or_empty 1 lessonsSection))
  | None => metadata
  end.

Definition parse_block (metadataText : str) (metadata : Metadata.t) : Metadata.t :=
  parse_lessonsSection metadataText
    (parse_uncertaintiesSection metadataText
       (parse_complexityBias metadataText
          (parse_effortReason metadataText
             (parse_effort metadataText
                (parse_goal metadataText metadata))))).

Definition parseMetadata (description : str) : Metadata.t :=
  let metadata := default_metadata in
  match exec re_block description with
  | None => metadata
  | Some metadataMatch => parse_block (group_or_empty 1 metadataMatch) metadata
  end.

Definition extractPlainDescription (description : str) : str :=
  trim (replace_first re_strip description).


(* ====================================================================== *)
(** ** Tasks and inputs ([types.ts]) *)
(* ====================================================================== *)

Inductive TaskStatus : Type :=
| backlog | todo | in_progress | in_review | done | canceled.

Definition status_eqb (a b : TaskStatus) : bool :=
  match a, b with
  | backlog, backlog | todo, todo | in_progress, in_progress
  | in_review, in_review | done, done | canceled, canceled => true
  | _, _ => false
  end.

Inductive TaskDependencyType : Type := blocks | blocked_by | relates_to.

Record TaskDependency : Type := Dependency {
  dep_taskID : str;
  dep_type : TaskDependencyType
}.

Module Task.
#[warnings="-register-all"]
Inductive t : Type := Build {
  taskID : str;
  title : str;
  description : option str;
  linearIssueKey : option str;
  goal : option str;
  effort : Z;
  effortReason : option str;
  complexityBias : option str;
  status : TaskStatus;
  project : option str;
  parentTaskID : option str;
  subtasks : option (list t);
  uncertainties : option (list Uncertainty.t);
  lessonsLearned : option (list Lesson.t);
  dependencies : option (list TaskDependency);
  assignee : option str;
  dueDate : option str;
  labels : option (list str)
}.
Definition with_uncertainties (k : t) (v : option (list Uncertainty.t)) : t :=
  Build (taskID k) (title k) (description k) (linearIssueKey k) (goal k) (effort k)
        (effortReason k) (complexityBias k) (status k) (project k) (parentTaskID k)
        (subtasks k) v (lessonsLearned k) (dependencies k) (assignee k) (dueDate k)
        (labels k).
End Task.

(** An uncertainty as a caller may pass it: a bare title or an object. *)
Inductive UncertaintyInput : Type :=
| UTitle (s : str)
| UObject (u : Uncertainty.t).

(** [CreateTaskInput], and [BatchTaskInput] which extends it with
    [dependsOnBatchIndex] (an array of integers that the schema bounds
    below by 0). *)
Module TaskInput.
Record t : Type := Build {
  title : str;
  description : option str;
  goal : option str;
  effort : Z;
  effortReason : option str;
  complexityBias : option str;
  project : option str;
  uncertainties : option (list UncertaintyInput);
  dependencies : option (list TaskDependency);
  assignee : option str;
  dueDate : option str;
  labels : option (list str);
  dependsOnBatchIndex : option (list nat)
}.
Definition with_project (i : t) (v : option str) : t :=
  Build (title i) (description i) (goal i) (effort i) (effortReason i)
        (complexityBias i) v (uncertainties i) (dependencies i) (assignee i)
        (dueDate i) (labels i) (dependsOnBatchIndex i).
End TaskInput.

(** [x ?? []] and [x || []] on an optional array. *)
Definition or_nil {A : Type} (o : option (list A)) : list A :=
  match o with Some l => l | None => [] end.

(* ====================================================================== *)
(** ** Errors, advisories and effects *)
(* ====================================================================== *)

(** Every failure in the source is [new Error(message)]; the constructors
    keep the data each message is built from. *)
Inductive Error : Type :=
| InvalidEffort (got : Z)
| MissingUncertainties (taskTitle : str) (effort : Z)
| UnresolvedUncertainties (taskKey : str) (count : nat)
| UnknownProject (requested : str) (available : list str)
| BatchTooLarge
| BatchInvalidEffort (i : nat) (title : str) (got : Z)
| BatchMissingUncertainties (i : nat) (title : str)
| BatchIndexOutOfRange (i idx size : nat)
| SelfDependency (i : nat)
| ForwardDependency (i idx : nat)
| CreateFailed (i : nat) (title : str)
| TaskNotFound (taskID : str)
| External (what : str).

(** The texts handed to the logger, likewise kept structured. *)
Inductive Message : Type :=
| EffortReasonAdvisory (effort : Z)
| LowEffortAdvisory (effort : Z)
| RequiresDecomposition (issueKey : str) (effort : Z)
| HighUncertaintyCount (n : nat)
| DefaultingToSoleProject (project : str)
| MultipleProjects (keys : list str)
| ProceedingAnyway (taskKey : str) (unresolvedCount : nat).

Record CreateIssueInput : Type := BuildCreateIssueInput {
  ci_teamId : str;
  ci_title : str;
  ci_description : str;
  ci_projectId : option str;
  ci_dueDate : option str;
  ci_estimate : option Z
}.

Record Issue : Type := BuildIssue {
  issue_id : str;
  issue_description : option str
}.

(** Calls that leave the core. *)
Inductive Call : Type :=
| CallCreateIssue (input : CreateIssueInput)
| CallAddLabelsToIssue (issueId : str) (labels : list str)
| CallIssueToTask (issueId : str)
| CallCreateComment (issueId : str) (blockedBy : list str)
| CallLinearCreateTask (input : TaskInput.t)
| CallLoader (taskID : str)
| CallIssue (taskID : str)
| CallUpdateIssue (taskID : str) (description : str).

Inductive Event : Type :=
| Log (m : Message)        (* logger.log *)
| Warn (m : Message)       (* logger.warn *)
| Called (c : Call).

Section Effects.

(** The state of the world outside the core. *)
Variable W : Type.

(** A computation leaves a trace of events in order, a new outside
    state, and either throws or returns. *)
Definition M (A : Type) : Type := W -> list Event * W * (Error + A).

Definition ret {A : Type} (a : A) : M A := fun w => ([], w, inr a).

Definition throw {A : Type} (e : Error) : M A := fun w => ([], w, inl e).

Definition bind {A B : Type} (m : M A) (f : A -> M B) : M B :=
  fun w =>
    match m w with
    | (t, w', inl e) => (t, w', inl e)
    | (t, w', inr a) =>
        match f a w' with
        | (t', w'', r) => (t ++ t', w'', r)
        end
    end.

Definition emit (e : Event) : M unit := fun w => ([e], w, inr tt).

(** An awaited call of an outside service. *)
Definition call {A : Type} (c : Call) (f : W -> (Error + A) * W) : M A :=
  fun w => match f w with (r, w') => ([Called c], w', r) end.

Definition when (b : bool) (m : M unit) : M unit := if b then m else ret tt.

End Effects.

Arguments ret {W A} a.
Arguments throw {W A} e.
Arguments bind {W A B} m f.
Arguments emit {W} e.
Arguments call {W A} c f.
Arguments when {W} b m.

Notation "x <- m ;; k" := (bind m (fun x => k))
  (at level 61, m at next level, right associativity).
Notation "m ;;; k" := (bind m (fun _ => k))
  (at level 61, right associativity).

Definition trace {W A : Type} (r : list Event * W * (Error + A)) : list Event :=
  fst (fst r).
Definition outcome {W A : Type} (r : list Event * W * (Error + A)) : Error + A :=
  snd r.

(* ====================================================================== *)
(** ** EffortPolicy ([domain/effort/effort-policy.ts]) *)
(* ====================================================================== *)

Definition FIBONACCI_EFFORT_VALUES : list Z := [1; 2; 3; 5; 8; 13; 21]%Z.

Definition isFibonacciEffort (value : Z) : bool :=
  existsb (Z.eqb value) FIBONACCI_EFFORT_VALUES.

Definition needsDecomposition (effort : Z) : bool := (3 <? effort)%Z.

Definition assertValidEffort {W : Type} (effort : Z) : M W unit :=
  if negb (isFibonacciEffort effort) then throw (InvalidEffort effort) else ret tt.

Definition assertSubtaskEffort {W : Type} (effort : Z) : M W unit :=
  assertValidEffort effort.

Definition validateEffortReason (effort : Z) (effortReason : option str) : option Message :=
  if (3 <? effort)%Z && negb (truthy effortReason)
  then Some (EffortReasonAdvisory effort) else None.

(* ====================================================================== *)
(** ** UncertaintyPolicy ([domain/uncertainty/uncertainty-policy.ts]) *)
(* ====================================================================== *)

Inductive UncertaintyResolutionMode : Type := off | warn | block.

(** [Array.isArray(uncertainties) ? uncertainties.length : 0] *)
Definition array_count {A : Type} (uncertainties : option (list A)) : nat :=
  match uncertainties with Some l => length l | None => 0 end.

Definition validateForCreation {W A : Type} (taskTitle : str) (effort : Z)
    (uncertainties : option (list A)) : M W unit :=
  if negb (needsDecomposition effort) then ret tt
  else
    let count := array_count uncertainties in
    if Nat.eqb count 0 then throw (MissingUncertainties taskTitle effort)
    else ret tt.

(** [!uncertainty.resolution && !uncertainty.resolvedAt] *)
Definition unresolved (u : Uncertainty.t) : bool :=
  negb (truthy (Uncertainty.resolution u)) && negb (truthy (Uncertainty.resolvedAt u)).

Definition unresolvedCount (task : Task.t) : nat :=
  match Task.uncertainties task with
  | Some us => length (filter unresolved us)
  | None => 0
  end.

Definition taskKey (task : Task.t) : str :=
  match Task.linearIssueKey task with
  | Some k => k
  | None => Task.taskID task
  end.

Definition handleDecompositionGuard {W : Type} (mode : UncertaintyResolutionMode)
    (task : Task.t) : M W unit :=
  match mode with
  | off => ret tt
  | _ =>
      let n := unresolvedCount task in
      if Nat.eqb n 0 then ret tt
      else
        match mode with
        | block => throw (UnresolvedUncertainties (taskKey task) n)
        | _ => emit (Warn (ProceedingAnyway (taskKey task) n))
        end
  end.

(* ====================================================================== *)
(** ** ProjectResolver ([domain/projects/project-resolver.ts]) *)
(* ====================================================================== *)

Record ProjectMapping : Type := Mapping { linearProjectId : str }.

(** A JavaScript object used as a dictionary: keys in insertion order. *)
Definition ProjectsConfig := list (str * ProjectMapping).

Fixpoint lookup_project (projects : ProjectsConfig) (key : str) : option ProjectMapping :=
  match projects with
  | (k, v) :: rest => if str_eqb k key then Some v else lookup_project rest key
  | [] => None
  end.

Definition has_project (projects : ProjectsConfig) (key : str) : bool :=
  match lookup_project projects key with Some _ => true | None => false end.

Definition object_keys (projects : ProjectsConfig) : list str := map fst projects.

Record ResolverConfig : Type := BuildResolverConfig {
  cfg_projects : ProjectsConfig;
  cfg_defaultProject : option str
}.

Definition resolve {W : Type} (cfg : ResolverConfig) (requested : option str)
  : M W (option str) :=
  if truthy requested then
    if negb (has_project (cfg_projects cfg) (text requested))
    then throw (UnknownProject (text requested) (object_keys (cfg_projects cfg)))
    else ret requested
  else if truthy (cfg_defaultProject cfg)
          && has_project (cfg_projects cfg) (text (cfg_defaultProject cfg))
  then ret (cfg_defaultProject cfg)
  else
    let projectKeys := object_keys (cfg_projects cfg) in
    match projectKeys with
    | [soleProject] =>
        emit (Log (DefaultingToSoleProject soleProject)) ;;;
        ret (Some soleProject)
    | _ :: _ :: _ =>
        emit (Warn (MultipleProjects projectKeys)) ;;;
        ret None
    | [] => ret None
    end.

(* ====================================================================== *)
(** ** TaskFilter ([domain/tasks/task-filters.ts]) *)
(* ====================================================================== *)

Record TaskFilter : Type := BuildFilter {
  filter_project : option str;
  status_in : option (list TaskStatus);
  labels_has_every : option (list str);
  has_unresolved_uncertainties : option bool;
  ready : option bool;
  search : option str
}.

Record TaskFilterContext : Type := BuildContext {
  readyStatuses : option (list TaskStatus)
}.

Definition array_includes (l : list str) (x : str) : bool := existsb (str_eqb x) l.

Definition set_has (desired : list TaskStatus) (s : TaskStatus) : bool :=
  existsb (status_eqb s) desired.

Definition is_true (o : option bool) : bool :=
  match o with Some true => true | _ => false end.

(** [(task.uncertainties ?? []).some((uncertainty) => !uncertainty.resolution)] *)
Definition hasUnresolved (task : Task.t) : bool :=
  existsb (fun uncertainty => negb (truthy (Uncertainty.resolution uncertainty)))
          (or_nil (Task.uncertainties task)).

Definition hasNeedsDecomposition (task : Task.t) : bool :=
  array_includes (or_nil (Task.labels task)) (js "needs-decomposition").

Definition filterTasks (tasks : list Task.t) (filter : option TaskFilter)
    (context : TaskFilterContext) : list Task.t :=
  match filter with
  | None => tasks
  | Some f =>
      let filtered := tasks in
      let filtered :=
        match status_in f with
        | Some (_ :: _ as desired) =>
            List.filter (fun task => set_has desired (Task.status task)) filtered
        | _ =>
            match is_true (ready f), readyStatuses context with
            | true, Some desired =>
                List.filter (fun task => set_has desired (Task.status task)) filtered
            | _, _ => filtered
            end
        end in
      let filtered :=
        match labels_has_every f with
        | Some (_ :: _ as wanted) =>
            List.filter
              (fun task =>
                 let taskLabels := or_nil (Task.labels task) in
                 forallb (fun label => array_includes taskLabels label) wanted)
              filtered
        | _ => filtered
        end in
      let filtered :=
        match has_unresolved_uncertainties f with
        | Some wanted =>
            List.filter
              (fun task => if wanted then hasUnresolved task else negb (hasUnresolved task))
              filtered
        | None => filtered
        end in
      let filtered :=
        if is_true (ready f) then
          List.filter
            (fun task => negb (hasUnresolved task) && negb (hasNeedsDecomposition task))
            filtered
        else filtered in
      let filtered :=
        if truthy (search f) then
          let searchTerm := toLowerCase (text (search f)) in
          List.filter
            (fun task =>
               let titleMatch := includes searchTerm (toLowerCase (Task.title task)) in
               let descriptionMatch :=
                 match Task.description task with
                 | Some d => includes searchTerm (toLowerCase d)
                 | None => false
                 end in
               titleMatch || descriptionMatch)
            filtered
        else filtered in
      filtered
  end.

(* ====================================================================== *)
(** ** TaskTreeEvaluator ([domain/tasks/task-tree.ts]) *)
(* ====================================================================== *)

Section TaskTree.

Variable W : Type.

(** [loader(taskID)] resolves to a task or to null, or rejects. *)
Definition Loader : Type := str -> W -> (Error + option Task.t) * W.

(** [subtask.subtasks && subtask.subtasks.length > 0] *)
Definition populated (task : Task.t) : bool :=
  match Task.subtasks task with
  | Some (_ :: _) => true
  | _ => false
  end.

(** The copy of a subtask the recursion continues with. *)
Definition enrich (loader : Loader) (subtask : Task.t) : M W Task.t :=
  if populated subtask then ret subtask
  else
    loaded <- call (CallLoader (Task.taskID subtask)) (loader (Task.taskID subtask)) ;;
    ret (match loaded with Some k => k | None => subtask end).

(** The source has no cycle guard and a loader may keep producing
    subtasks, so the recursion is bounded by [fuel], the depth it may
    reach; [None] is "fuel ran out". *)
Definition Partial (A : Type) : Type := W -> option (list Event * W * (Error + A)).

(** The [for] loop over the subtasks, given the recursive call. *)
Fixpoint subtasks_done (self : Task.t -> Partial bool) (loader : Loader)
    (subs : list Task.t) : Partial bool :=
  fun w =>
    match subs with
    | [] => Some ([], w, inr true)
    | subtask :: rest =>
        match enrich loader subtask w with
        | (t1, w1, inl e) => Some (t1, w1, inl e)
        | (t1, w1, inr enriched) =>
            match self enriched w1 with
            | None => None
            | Some (t2, w2, inl e) => Some (t1 ++ t2, w2, inl e)
            | Some (t2, w2, inr false) => Some (t1 ++ t2, w2, inr false)
            | Some (t2, w2, inr true) =>
                match subtasks_done self loader rest w2 with
                | None => None
                | Some (t3, w3, r) => Some (t1 ++ t2 ++ t3, w3, r)
                end
            end
        end
    end.

Fixpoint isEntireTreeDone (fuel : nat) (task : Task.t) (loader : Loader)
  : Partial bool :=
  fun w =>
    match fuel with
    | O => None
    | S fuel' =>
        if negb (status_eqb (Task.status task) done) then Some ([], w, inr false)
        else
          match Task.subtasks task with
          | None | Some [] => Some ([], w, inr true)
          | Some subs =>
              subtasks_done (fun k => isEntireTreeDone fuel' k loader) loader subs w
          end
    end.

End TaskTree.

(* ====================================================================== *)
(** ** LinearService ([integrations/linear/service.ts]) *)
(* ====================================================================== *)

Definition trimmed_field (o : option str) : option str :=
  match o with
  | Some v => let v' := trim v in if nonempty v' then Some v' else None
  | None => None
  end.

Definition normalize_one (candidate : UncertaintyInput) : option Uncertainty.t :=
  match candidate with
  | UTitle s =>
      let title := trim s in
      if nonempty title then Some (Uncertainty.of_title title) else None
  | UObject u =>
      let title := trim (Uncertainty.title u) in
      if negb (nonempty title) then None
      else Some (Uncertainty.Build title
                   (trimmed_field (Uncertainty.description u))
                   (trimmed_field (Uncertainty.resolution u))
                   (trimmed_field (Uncertainty.resolvedAt u))
                   (trimmed_field (Uncertainty.resolvedBy u)))
  end.

Fixpoint filter_some {A : Type} (l : list (option A)) : list A :=
  match l with
  | Some a :: l' => a :: filter_some l'
  | None :: l' => filter_some l'
  | [] => []
  end.

Definition normalizeUncertainties (input : option (list UncertaintyInput))
  : list Uncertainty.t :=
  match input with
  | None => []
  | Some l => filter_some (map normalize_one l)
  end.

Section Linear.

Variable W : Type.

(** The tracker's client, and the two service methods the modelled
    functions await without this development looking inside them. *)
Record LinearClient : Type := BuildClient {
  createIssue : CreateIssueInput -> W -> (Error + option Issue) * W;
  addLabelsToIssue : str -> list str -> W -> (Error + unit) * W;
  issueToTask : Issue -> W -> (Error + Task.t) * W;
  createComment : str -> list str -> W -> (Error + unit) * W;
  issue : str -> W -> (Error + option Issue) * W;
  updateIssue : str -> str -> W -> (Error + unit) * W
}.

Record LinearService : Type := BuildService {
  client : LinearClient;
  teamId : str;
  projects : ProjectsConfig
}.

Variable this : LinearService.

Fixpoint for_each {A : Type} (f : A -> M W unit) (l : list A) : M W unit :=
  match l with
  | [] => ret tt
  | a :: l' => f a ;;; for_each f l'
  end.

(** [for (let i = start; ...; i++)] over the items of an array. *)
Fixpoint for_indexed {A : Type} (f : nat -> A -> M W unit) (i : nat) (l : list A)
  : M W unit :=
  match l with
  | [] => ret tt
  | a :: l' => f i a ;;; for_indexed f (S i) l'
  end.

(** Step 1 of [batchCreateTasks], for the item at index [i]. *)
Definition validate_item (size : nat) (i : nat) (task : TaskInput.t) : M W unit :=
  (if negb (isFibonacciEffort (TaskInput.effort task))
   then throw (BatchInvalidEffort i (TaskInput.title task) (TaskInput.effort task))
   else ret tt) ;;;
  let normalizedUncertainties := normalizeUncertainties (TaskInput.uncertainties task) in
  (if (3 <? TaskInput.effort task)%Z && Nat.eqb (length normalizedUncertainties) 0
   then throw (BatchMissingUncertainties i (TaskInput.title task))
   else ret tt) ;;;
  let batchIndexes := or_nil (TaskInput.dependsOnBatchIndex task) in
  for_each
    (fun idx =>
       if size <=? idx then throw (BatchIndexOutOfRange i idx size)
       else if Nat.eqb idx i then throw (SelfDependency i)
       else if i <? idx then throw (ForwardDependency i idx)
       else ret tt)
    batchIndexes.

Definition build_labels (taskInput : TaskInput.t) : list str :=
  let allLabels :=
    or_nil (TaskInput.labels taskInput)
    ++ [js "effort:" ++ show_int (TaskInput.effort taskInput)] in
  if needsDecomposition (TaskInput.effort taskInput)
  then allLabels ++ [js "needs-decomposition"] else allLabels.

Definition build_createInput (taskInput : TaskInput.t) : CreateIssueInput :=
  let normalizedUncertainties := normalizeUncertainties (TaskInput.uncertainties taskInput) in
  let metadata :=
    Metadata.Build (TaskInput.goal taskInput) (TaskInput.effort taskInput)
      (TaskInput.effortReason taskInput) (TaskInput.complexityBias taskInput)
      normalizedUncertainties [] in
  let fullDescription :=
    buildDescriptionWithMetadata (text (TaskInput.description taskInput)) metadata in
  BuildCreateIssueInput (teamId this) (TaskInput.title taskInput) fullDescription
    (if truthy (TaskInput.project taskInput) then
       match lookup_project (projects this) (text (TaskInput.project taskInput)) with
       | Some mapping => Some (linearProjectId mapping)
       | None => None
       end
     else None)
    (if truthy (TaskInput.dueDate taskInput) then TaskInput.dueDate taskInput else None)
    (Some (TaskInput.effort taskInput)).

(** Step 2: the loop state is [createdTasks] and [taskIDMap], the latter
    kept as the list of issue ids by batch index. *)
Fixpoint create_all (i : nat) (tasks : list TaskInput.t)
    (createdTasks : list Task.t) (taskIDMap : list str)
  : M W (list Task.t * list str) :=
  match tasks with
  | [] => ret (createdTasks, taskIDMap)
  | taskInput :: rest =>
      let allLabels := build_labels taskInput in
      let createInput := build_createInput taskInput in
      created <- call (CallCreateIssue createInput) (createIssue (client this) createInput) ;;
      match created with
      | None => throw (CreateFailed i (TaskInput.title taskInput))
      | Some iss =>
          when (0 <? length allLabels)
               (call (CallAddLabelsToIssue (issue_id iss) allLabels)
                     (addLabelsToIssue (client this) (issue_id iss) allLabels)) ;;;
          task <- call (CallIssueToTask (issue_id iss)) (issueToTask (client this) iss) ;;
          create_all (S i) rest (createdTasks ++ [task]) (taskIDMap ++ [issue_id iss])
      end
  end.

Definition is_blocked_by (dep : TaskDependency) : bool :=
  match dep_type dep with blocked_by => true | _ => false end.

(** Step 3 for the item at index [i]. *)
Definition annotate_item (taskIDMap : list str) (i : nat) (taskInput : TaskInput.t)
  : M W unit :=
  let taskID := nth i taskIDMap [] in
  let batchDeps :=
    map (fun idx => nth idx taskIDMap []) (or_nil (TaskInput.dependsOnBatchIndex taskInput)) in
  let externalDeps :=
    map dep_taskID (filter is_blocked_by (or_nil (TaskInput.dependencies taskInput))) in
  let allDeps := batchDeps ++ externalDeps in
  when (0 <? length allDeps)
       (call (CallCreateComment taskID allDeps) (createComment (client this) taskID allDeps)).

Definition batchCreateTasks (tasks : list TaskInput.t) : M W (list Task.t) :=
  if Nat.eqb (length tasks) 0 then ret []
  else if 50 <? length tasks then throw BatchTooLarge
  else
    for_indexed (validate_item (length tasks)) 0 tasks ;;;
    created <- create_all 0 tasks [] [] ;;
    for_indexed (annotate_item (snd created)) 0 tasks ;;;
    ret (fst created).

(** The key under which [addUncertainties] compares titles. *)
Definition normalized_key (title : str) : str := toLowerCase (trim title).

(** The loop of [addUncertainties]: the metadata's uncertainty list and
    the set of normalised titles seen so far. *)
Fixpoint merge_uncertainties (existing : list Uncertainty.t) (seen : list str)
    (inputs : list Uncertainty.t) : list Uncertainty.t :=
  match inputs with
  | [] => existing
  | uncertainty :: rest =>
      let normalizedTitle := trim (Uncertainty.title uncertainty) in
      if negb (nonempty normalizedTitle)
         || array_includes seen (toLowerCase normalizedTitle)
      then merge_uncertainties existing seen rest
      else
        merge_uncertainties
          (existing ++ [Uncertainty.Build normalizedTitle
                          (Uncertainty.description uncertainty) None None None])
          (seen ++ [toLowerCase normalizedTitle])
          rest
  end.

Definition add_to_metadata (metadata : Metadata.t) (normalizedInputs : list Uncertainty.t)
  : Metadata.t :=
  let normalizedExistingTitles :=
    map (fun item => normalized_key (Uncertainty.title item))
        (Metadata.uncertainties metadata) in
  Metadata.with_uncertainties metadata
    (merge_uncertainties (Metadata.uncertainties metadata) normalizedExistingTitles
                         normalizedInputs).

Definition addUncertainties (taskID : str) (uncertainties : list UncertaintyInput)
  : M W unit :=
  let normalizedInputs := normalizeUncertainties (Some uncertainties) in
  if Nat.eqb (length normalizedInputs) 0 then ret tt
  else
    found <- call (CallIssue taskID) (issue (client this) taskID) ;;
    match found with
    | None => throw (TaskNotFound taskID)
    | Some iss =>
        let metadata := parseMetadata (text (issue_description iss)) in
        let metadata := add_to_metadata metadata normalizedInputs in
        let plainDescription := extractPlainDescription (text (issue_description iss)) in
        let description := buildDescriptionWithMetadata plainDescription metadata in
        call (CallUpdateIssue taskID description)
             (updateIssue (client this) taskID description)
    end.

End Linear.

(* ====================================================================== *)
(** ** WorkflowOrchestrator ([orchestrator/workflow-orchestrator.ts]) *)
(* ====================================================================== *)

Section Orchestrator.

Variable W : Type.

Record Orchestrator : Type := BuildOrchestrator {
  resolverConfig : ResolverConfig;
  uncertaintyMode : UncertaintyResolutionMode;
  (** [this.linear.createTask], the delegated creation *)
  linear_createTask : TaskInput.t -> W -> (Error + Task.t) * W
}.

Variable this : Orchestrator.

Definition option_str_eqb (a b : option str) : bool :=
  match a, b with
  | Some x, Some y => str_eqb x y
  | None, None => true
  | _, _ => false
  end.

Definition createTask (input : TaskInput.t) : M W Task.t :=
  projectKey <- resolve (resolverConfig this) (TaskInput.project input) ;;
  let createInput :=
    if truthy projectKey && negb (option_str_eqb projectKey (TaskInput.project input))
    then TaskInput.with_project input projectKey else input in
  assertValidEffort (TaskInput.effort createInput) ;;;
  validateForCreation (TaskInput.title createInput) (TaskInput.effort createInput)
                      (Some (or_nil (TaskInput.uncertainties createInput))) ;;;
  match validateEffortReason (TaskInput.effort createInput)
                             (TaskInput.effortReason createInput) with
  | Some effortReasonWarning => emit (Log effortReasonWarning)
  | None => ret tt
  end ;;;
  when (TaskInput.effort createInput <? 3)%Z
       (emit (Log (LowEffortAdvisory (TaskInput.effort createInput)))) ;;;
  task <- call (CallLinearCreateTask createInput) (linear_createTask this createInput) ;;
  when (needsDecomposition (TaskInput.effort createInput))
       (emit (Log (RequiresDecomposition (taskKey task) (TaskInput.effort createInput))) ;;;
        match TaskInput.uncertainties createInput with
        | Some us =>
            when (3 <=? length us) (emit (Log (HighUncertaintyCount (length us))))
        | None => ret tt
        end) ;;;
  ret task.

End Orchestrator.

(* ====================================================================== *)
(** ** Concrete inputs used in examples *)
(* ====================================================================== *)

Definition plain_task (taskID : str) (effort : Z) (status : TaskStatus) : Task.t :=
  Task.Build taskID (js "Sample Task") None None None effort None None status
             None None None (Some []) (Some []) None None None (Some []).

Definition plain_input (title : str) (effort : Z)
    (uncertainties : option (list UncertaintyInput)) (deps : option (list nat))
  : TaskInput.t :=
  TaskInput.Build title None None effort None None None uncertainties None None None None
                  deps.

Definition draft (title description : string) : UncertaintyInput :=
  UObject (Uncertainty.Build (js title) (Some (js description)) None None None).

(** An orchestrator over a tracker that answers every creation with the
    same task, with no project configured. *)
Definition stub_orchestrator : Orchestrator unit :=
  BuildOrchestrator (BuildResolverConfig [] None) warn
    (fun _ w => (inr (plain_task (js "task-123") 8 todo), w)).

Definition three_risks : TaskInput.t :=
  plain_input (js "High effort task") 8
    (Some [draft "Risk 1" "desc"; draft "Risk 2" "desc"; draft "Risk 3" "desc"]) None.

(** A loader over an outside world that holds nothing: it answers from a
    fixed table of tasks. *)
Definition table_loader (table : list Task.t) : Loader unit :=
  fun taskID w =>
    (inr (find (fun k => str_eqb (Task.taskID k) taskID) table), w).

Definition with_subtasks (k : Task.t) (v : option (list Task.t)) : Task.t :=
  Task.Build (Task.taskID k) (Task.title k) (Task.description k) (Task.linearIssueKey k)
             (Task.goal k) (Task.effort k) (Task.effortReason k) (Task.complexityBias k)
             (Task.status k) (Task.project k) (Task.parentTaskID k) v
             (Task.uncertainties k) (Task.lessonsLearned k) (Task.dependencies k)
             (Task.assignee k) (Task.dueDate k) (Task.labels k).

(** A leaf: [subtasks] absent or empty. *)
Definition is_leaf (k : Task.t) : Prop :=
  Task.subtasks k = None \/ Task.subtasks k = Some [].

(** Replaces the [resolvedAt] of every uncertainty of a task. *)
Definition set_resolvedAt (g : Uncertainty.t -> option str) (task : Task.t) : Task.t :=
  Task.with_uncertainties task
    (option_map (map (fun u => Uncertainty.with_resolvedAt u (g u)))
                (Task.uncertainties task)).

(** The filter made of the [has_unresolved_uncertainties] clause alone. *)
Definition only_has_unresolved (wanted : bool) : TaskFilter :=
  BuildFilter None None None (Some wanted) None None.

(** *** What step 1 of [batchCreateTasks] checks, as a pure function *)

Fixpoint index_error (size i : nat) (batchIndexes : list nat) : option Error :=
  match batchIndexes with
  | [] => None
  | idx :: rest =>
      if size <=? idx then Some (BatchIndexOutOfRange i idx size)
      else if Nat.eqb idx i then Some (SelfDependency i)
      else if i <? idx then Some (ForwardDependency i idx)
      else index_error size i rest
  end.

Definition item_error (size i : nat) (task : TaskInput.t) : option Error :=
  if negb (isFibonacciEffort (TaskInput.effort task))
  then Some (BatchInvalidEffort i (TaskInput.title task) (TaskInput.effort task))
  else if (3 <? TaskInput.effort task)%Z
          && Nat.eqb (length (normalizeUncertainties (TaskInput.uncertainties task))) 0
  then Some (BatchMissingUncertainties i (TaskInput.title task))
  else index_error size i (or_nil (TaskInput.dependsOnBatchIndex task)).

Fixpoint batch_error (size i : nat) (tasks : list TaskInput.t) : option Error :=
  match tasks with
  | [] => None
  | task :: rest =>
      match item_error size i task with
      | Some e => Some e
      | None => batch_error size (S i) rest
      end
  end.

(** An item of a batch is valid at position [i]. *)
Definition item_valid (size i : nat) (task : TaskInput.t) : Prop :=
  isFibonacciEffort (TaskInput.effort task) = true
  /\ ((3 < TaskInput.effort task)%Z ->
      normalizeUncertainties (TaskInput.uncertainties task) <> [])
  /\ (forall idx, In idx (or_nil (TaskInput.dependsOnBatchIndex task)) ->
        idx < size /\ idx <> i /\ idx < i).

(** A tracker that creates every issue asked for, numbering them, and
    whose world is the number of issues created so far. *)
Definition counting_client : LinearClient nat :=
  BuildClient
    (fun input n => (inr (Some (BuildIssue (js "issue-" ++ show_int (Z.of_nat n))
                                           (Some (ci_description input)))), S n))
    (fun _ _ n => (inr tt, n))
    (fun iss n => (inr (plain_task (issue_id iss) 0 backlog), n))
    (fun _ _ n => (inr tt, n))
    (fun _ n => (inr None, n))
    (fun _ _ n => (inr tt, n)).

Definition counting_service : LinearService nat :=
  BuildService counting_client (js "team-1") [].

Definition batch_backward : list TaskInput.t :=
  [plain_input (js "A") 2 None None; plain_input (js "B") 3 None (Some [0])].

Definition batch_forward : list TaskInput.t :=
  [plain_input (js "A") 2 None (Some [1]); plain_input (js "B") 3 None (Some [0])].

(** The trees of the repository's tests: a done root over one child stub,
    and the child as the loader returns it. *)
Definition child_done : Task.t := plain_task (js "child") 3 done.
Definition child_todo : Task.t := plain_task (js "child") 3 todo.
Definition root_over (child : Task.t) : Task.t :=
  with_subtasks (plain_task (js "task-1") 3 done) (Some [child]).

(** A task whose only uncertainty carries a [resolvedAt] and no
    [resolution]. *)
Definition stamped_task : Task.t :=
  Task.with_uncertainties (plain_task (js "task-1") 5 todo)
    (Some [Uncertainty.Build (js "Risk") None None (Some (js "2024-01-02")) None]).

(* ====================================================================== *)
(** ** Reasoning about where a literal can occur *)
(* ====================================================================== *)

(** [clash p s]: [p] and [s] differ at some position both have, so [p] is
    not a prefix of [s] whatever follows [s]. *)
Fixpoint clash (p s : str) : bool :=
  match p, s with
  | a :: p', b :: s' => if Ascii.eqb a b then clash p' s' else true
  | _, _ => false
  end.

(** [keyfree p b]: [p] clashes with every non-empty suffix of [b]. *)
Fixpoint keyfree (p b : str) : bool :=
  match b with
  | [] => true
  | _ :: b' => clash p b && keyfree p b'
  end.

(** [nowhere p b t]: in the text [b ++ t] no occurrence of [p] starts
    inside [b]. *)
Fixpoint nowhere (p b t : str) : Prop :=
  match b with
  | [] => True
  | _ :: b' => strip_prefix p (b ++ t) = None /\ nowhere p b' t
  end.

Definition prepend (b : str) (m : match_result) : match_result :=
  MatchResult (b ++ before m) (groups m) (after m).

(* ====================================================================== *)
(** ** Metadata the text format represents faithfully *)
(* ====================================================================== *)

Definition star : ascii := "*"%char.

Definition no_star (s : str) : bool := forallb (fun c => negb (Ascii.eqb star c)) s.

Definition single_line (s : str) : bool := forallb is_dot s.

Definition starts_solid (s : str) : bool :=
  match s with c :: _ => negb (is_space c) | [] => false end.

Definition ends_solid (s : str) : bool := starts_solid (rev s).

(** A string the codec can carry as a field: not empty, no white space at
    either end, on a single line, without [*] and without the end
    sentinel. *)
Definition plain_field (s : str) : bool :=
  starts_solid s && ends_solid s && single_line s && no_star s
  && negb (includes METADATA_END s).

Definition plain_opt (o : option str) : bool :=
  match o with Some s => plain_field s | None => true end.

Definition goal_ok (o : option str) : bool :=
  plain_opt o && negb (option_str_eqb o (Some (js "Not specified"))).

Definition bias_ok (o : option str) : bool :=
  match o with
  | Some b => nonempty b && forallb is_word b
  | None => true
  end.

Definition uncertainty_ok (u : Uncertainty.t) : bool :=
  plain_field (Uncertainty.title u)
  && plain_opt (Uncertainty.description u)
  && plain_opt (Uncertainty.resolution u)
  && plain_opt (Uncertainty.resolvedAt u)
  && plain_opt (Uncertainty.resolvedBy u).

Definition lesson_ok (l : Lesson.t) : bool :=
  plain_field (Lesson.content l)
  && match Lesson.category l with
     | Some _ => true
     | None => negb (includes (js "- [") (Lesson.content l))
     end
  && match Lesson.tags l with Some _ => false | None => true end.

Definition metadata_ok (m : Metadata.t) : bool :=
  goal_ok (Metadata.goal m)
  && (0 <=? Metadata.effort m)%Z
  && plain_opt (Metadata.effortReason m)
  && bias_ok (Metadata.complexityBias m)
  && forallb uncertainty_ok (Metadata.uncertainties m)
  && forallb lesson_ok (Metadata.lessonsLearned m).

(** Metadata none of whose strings contains the end sentinel. *)
Definition sentinel_free (s : str) : bool := negb (includes METADATA_END s).

Definition sentinel_free_opt (o : option str) : bool :=
  match o with Some s => sentinel_free s | None => true end.

Definition uncertainty_sentinel_free (u : Uncertainty.t) : bool :=
  sentinel_free (Uncertainty.title u)
  && sentinel_free_opt (Uncertainty.description u)
  && sentinel_free_opt (Uncertainty.resolution u)
  && sentinel_free_opt (Uncertainty.resolvedAt u)
  && sentinel_free_opt (Uncertainty.resolvedBy u).

Definition metadata_sentinel_free (m : Metadata.t) : bool :=
  sentinel_free_opt (Metadata.goal m)
  && sentinel_free_opt (Metadata.effortReason m)
  && sentinel_free_opt (Metadata.complexityBias m)
  && forallb uncertainty_sentinel_free (Metadata.uncertainties m)
  && forallb (fun l => sentinel_free (Lesson.content l)) (Metadata.lessonsLearned m).

(** The text between the two sentinels, laid out as one string. *)
Definition lines_text (ls : list str) : str := concat (map (fun l => nl ++ l) ls).

Definition body_lines (metadata : Metadata.t) : list str :=
  [ js "**Goal:** " ++ (if truthy (Metadata.goal metadata)
                        then text (Metadata.goal metadata) else js "Not specified");
    js "**Effort:** " ++ show_int (Metadata.effort metadata) ]
  ++ (if truthy (Metadata.effortReason metadata)
      then [js "**Effort Reason:** " ++ text (Metadata.effortReason metadata)] else [])
  ++ (if truthy (Metadata.complexityBias metadata)
      then [js "**Complexity Bias:** " ++ text (Metadata.complexityBias metadata)] else [])
  ++ [ []; js "**Uncertainties:**" ]
  ++ flat_map uncertainty_lines (Metadata.uncertainties metadata)
  ++ [ []; js "**Lessons Learned:**" ]
  ++ map lesson_line (Metadata.lessonsLearned metadata).

Definition block_text (metadata : Metadata.t) : str :=
  lines_text (body_lines metadata) ++ nl.

(** [finds r s n v]: the leftmost match of [r] in [s] exists and its
    group [n] is [v]. *)
Definition finds (r : re) (s : str) (n : nat) (v : str) : Prop :=
  exists m, find_match r s = Some m /\ group n (groups m) = Some v.

(** The next character, if any, is outside the class. *)
Definition stops (p : ascii -> bool) (s : str) : Prop :=
  match s with [] => True | a :: _ => p a = false end.

(** A line of the block in which the end sentinel cannot start, given
    that a line feed follows. *)
Definition line_safe (l : str) : Prop := forall t, nowhere METADATA_END l (nl ++ t).

(** Metadata whose effort reason ends with the end sentinel. *)
Definition sentinel_in_reason : Metadata.t :=
  Metadata.Build None 5 (Some (js "x---END-METADATA---")) None [] [].

(** The metadata of the repository's round-trip test. *)
Definition sample_metadata : Metadata.t :=
  Metadata.Build (Some (js "Ship feature")) 5 (Some (js "Team sized after spike"))
    (Some (js "high"))
    [Uncertainty.Build (js "OAuth flow") (Some (js "Need to confirm PKCE"))
       (Some (js "Decided on authorization code with PKCE"))
       (Some (js "2024-01-02T03:04:05.000Z")) (Some (js "alice"))]
    [Lesson.Build (js "Document the OAuth redirect URI constraints") (Some pattern) None].

(** [inert key s]: the literal [key] cannot start inside [s], whatever
    follows. *)
Definition inert (key s : str) : Prop := forall t, nowhere key s t.

(** A description whose block holds an effort line and nothing else. *)
Definition effort_only (digits : str) : str :=
  METADATA_SEPARATOR ++ nl ++ js "**Effort:** " ++ digits ++ nl ++ METADATA_END.

(** The pieces of the block, in order. *)
Definition goal_text (m : Metadata.t) : str :=
  if truthy (Metadata.goal m) then text (Metadata.goal m) else js "Not specified".

Definition reason_part (m : Metadata.t) : str :=
  if truthy (Metadata.effortReason m)
  then nl ++ js "**Effort Reason:** " ++ text (Metadata.effortReason m) else [].

Definition bias_part (m : Metadata.t) : str :=
  if truthy (Metadata.complexityBias m)
  then nl ++ js "**Complexity Bias:** " ++ text (Metadata.complexityBias m) else [].

Definition uncertainties_text (m : Metadata.t) : str :=
  lines_text (flat_map uncertainty_lines (Metadata.uncertainties m)).

Definition lessons_text (m : Metadata.t) : str :=
  lines_text (map lesson_line (Metadata.lessonsLearned m)).

(** What follows the effort line. *)
Definition after_effort (m : Metadata.t) : str :=
  reason_part m ++ bias_part m ++ nl ++ nl ++ js "**Uncertainties:**"
  ++ uncertainties_text m ++ nl ++ nl ++ js "**Lessons Learned:**"
  ++ lessons_text m ++ nl.

Definition lf_free (s : str) : bool := forallb (fun c => negb (Ascii.eqb c LF)) s.

Definition uncertainties_piece (m : Metadata.t) : str :=
  js "**Uncertainties:**" ++ uncertainties_text m ++ nl.

Definition lessons_piece (m : Metadata.t) : str :=
  js "**Lessons Learned:**" ++ lessons_text m ++ nl.

(** Metadata with a title written in bold. *)
Definition bold_title : Metadata.t :=
  Metadata.Build None 5 None None [Uncertainty.of_title (js "Use **bold** text")] [].

(* ====================================================================== *)
(** ** Adding uncertainties *)
(* ====================================================================== *)

Definition key_of (u : Uncertainty.t) : str := normalized_key (Uncertainty.title u).

(** The records the loop of [addUncertainties] appends, given the keys
    seen so far. *)
Fixpoint fresh (seen : list str) (inputs : list Uncertainty.t) : list Uncertainty.t :=
  match inputs with
  | [] => []
  | uncertainty :: rest =>
      let normalizedTitle := trim (Uncertainty.title uncertainty) in
      if negb (nonempty normalizedTitle)
         || array_includes seen (toLowerCase normalizedTitle)
      then fresh seen rest
      else Uncertainty.Build normalizedTitle (Uncertainty.description uncertainty)
                             None None None
           :: fresh (seen ++ [toLowerCase normalizedTitle]) rest
  end.

(** Every title of [later] has the normalised key of a title of [earlier]. *)
Definition variant_of (later earlier : list Uncertainty.t) : Prop :=
  forall u', In u' later -> exists u, In u earlier /\ key_of u' = key_of u.

(** The description [addUncertainties] writes over [description]. *)
Definition add_to_description (description : str) (normalizedInputs : list Uncertainty.t)
  : str :=
  buildDescriptionWithMetadata (extractPlainDescription description)
    (add_to_metadata (parseMetadata description) normalizedInputs).

(** A tracker that keeps the description of each issue and nothing else. *)
Definition Store : Type := list (str * str).

Fixpoint store_get (w : Store) (taskID : str) : option str :=
  match w with
  | (k, d) :: w' => if str_eqb k taskID then Some d else store_get w' taskID
  | [] => None
  end.

Fixpoint store_set (w : Store) (taskID description : str) : Store :=
  match w with
  | (k, d) :: w' =>
      if str_eqb k taskID then (k, description) :: w'
      else (k, d) :: store_set w' taskID description
  | [] => []
  end.

Definition store_client : LinearClient Store :=
  BuildClient
    (fun _ w => (inr None, w))
    (fun _ _ w => (inr tt, w))
    (fun iss w => (inr (plain_task (issue_id iss) 0 backlog), w))
    (fun _ _ w => (inr tt, w))
    (fun taskID w =>
       (inr (option_map (fun d => BuildIssue taskID (Some d)) (store_get w taskID)), w))
    (fun taskID description w => (inr tt, store_set w taskID description)).

Definition store_service : LinearService Store :=
  BuildService store_client (js "team-1") [].

(** The outside state after a computation. *)
Definition world {W A : Type} (r : list Event * W * (Error + A)) : W := snd (fst r).

Definition stored_titles (w : Store) (taskID : str) : list str :=
  map Uncertainty.title
      (Metadata.uncertainties (parseMetadata (text (store_get w taskID)))).

Definition empty_issue : Store := [(js "T-1", [])].

Definition after_risk : Store :=
  world (addUncertainties store_service (js "T-1") [UTitle (js "Risk")] empty_issue).

Definition after_risk_again : Store :=
  world (addUncertainties store_service (js "T-1") [UTitle (js "risk ")] after_risk).

Definition risk : list Uncertainty.t := normalizeUncertainties (Some [UTitle (js "Risk")]).

Definition risk_variant : list Uncertainty.t :=
  normalizeUncertainties (Some [UTitle (js "risk ")]).

(** The advisories [createTask] logs once the delegated creation returned. *)
Definition decomposition_advisory (e : Event) : Prop :=
  (exists k n, e = Log (RequiresDecomposition k n))
  \/ (exists n, e = Log (HighUncertaintyCount n)).

Definition bold_risk : list UncertaintyInput := [UTitle (js "Use **bold** text")].

Definition after_bold : Store :=
  world (addUncertainties store_service (js "T-1") bold_risk empty_issue).

Definition after_bold_again : Store :=
  world (addUncertainties store_service (js "T-1") bold_risk after_bold).

(* ====================================================================== *)
(** ** Descriptions used as examples below *)
(* ====================================================================== *)

(** A description nobody has attached metadata to. *)
Definition bare_description : str := js "  Written by hand.  ".

(** A block whose end sentinel is followed by a single line feed. *)
Definition tight_block : str :=
  METADATA_SEPARATOR ++ nl ++ js "**Effort:** 8" ++ nl ++ METADATA_END ++ nl ++ js "Text".

(** What every rewrite of a stored description starts from and ends
    with: the description is decoded and stripped, and the two parts are
    encoded again ([addLessonLearned], [addUncertainties],
    [resolveUncertainty] and [updateTaskEffort] change the metadata in
    between). *)
Definition reencode (description : str) : str :=
  buildDescriptionWithMetadata (extractPlainDescription description)
                               (parseMetadata description).

(* ====================================================================== *)
(** ** Normalised uncertainties *)
(* ====================================================================== *)

(** A string that is not empty and has no white space at either end. *)
Definition tidy (s : str) : bool := starts_solid s && ends_solid s.

Definition tidy_opt (o : option str) : bool :=
  match o with Some s => tidy s | None => true end.

Definition normalized (u : Uncertainty.t) : bool :=
  tidy (Uncertainty.title u)
  && tidy_opt (Uncertainty.description u)
  && tidy_opt (Uncertainty.resolution u)
  && tidy_opt (Uncertainty.resolvedAt u)
  && tidy_opt (Uncertainty.resolvedBy u).

(** The title a caller passed, whichever way. *)
Definition input_title (candidate : UncertaintyInput) : str :=
  match candidate with
  | UTitle s => s
  | UObject u => Uncertainty.title u
  end.

(** The state of the loop over the lines of the uncertainties section
    holds only uncertainties with a tidy title. *)
Definition titled (u : Uncertainty.t) : bool := tidy (Uncertainty.title u).

Definition loop_titled (st : uloop) : Prop :=
  Forall (fun u => titled u = true) (out st)
  /\ match current st with Some cur => titled cur = true | None => True end.

(** A bracketed token that names no lesson category. *)
Definition unknown_token : str := js "idea".

(* ====================================================================== *)
(** ** ProjectResolver.resolveFromLinearProjectId *)
(* ====================================================================== *)

(** The [for ... of Object.entries(this.projects)] loop: the key of the
    first entry whose mapping carries the identifier. *)
Fixpoint first_project_with (projects : ProjectsConfig) (id : str) : option str :=
  match projects with
  | (projectKey, projectConfig) :: rest =>
      if str_eqb (linearProjectId projectConfig) id then Some projectKey
      else first_project_with rest id
  | [] => None
  end.

Definition resolveFromLinearProjectId (projects : ProjectsConfig) (id : option str)
  : option str :=
  if negb (truthy id) then None else first_project_with projects (text id).

Definition two_projects : ProjectsConfig :=
  [(js "web", Mapping (js "uuid-web")); (js "api", Mapping (js "uuid-api"))].

(* ====================================================================== *)
(** ** filterTasks, every clause with its whole list *)
(* ====================================================================== *)

(** In [filterTasks] above the patterns that recognise a non-empty
    [status_in] and a non-empty [labels_has_every] bind the list without
    its first element.  Nothing proved about the
    [has_unresolved_uncertainties] clause depends on them.  The definition
    below follows [task-filters.ts] with the whole list bound, and is the
    one the rest of this development uses. *)
Module TaskFilters.

Definition filterTasks (tasks : list Task.t) (filter : option TaskFilter)
    (context : TaskFilterContext) : list Task.t :=
  match filter with
  | None => tasks
  | Some f =>
      let filtered := tasks in
      let filtered :=
        match status_in f with
        | Some ((_ :: _) as desired) =>
            List.filter (fun task => set_has desired (Task.status task)) filtered
        | _ =>
            match is_true (ready f), readyStatuses context with
            | true, Some desired =>
                List.filter (fun task => set_has desired (Task.status task)) filtered
            | _, _ => filtered
            end
        end in
      let filtered :=
        match labels_has_every f with
        | Some ((_ :: _) as wanted) =>
            List.filter
              (fun task =>
                 let taskLabels := or_nil (Task.labels task) in
                 forallb (fun label => array_includes taskLabels label) wanted)
              filtered
        | _ => filtered
        end in
      let filtered :=
        match has_unresolved_uncertainties f with
        | Some wanted =>
            List.filter
              (fun task => if wanted then hasUnresolved task else negb (hasUnresolved task))
              filtered
        | None => filtered
        end in
      let filtered :=
        if is_true (ready f) then
          List.filter
            (fun task => negb (hasUnresolved task) && negb (hasNeedsDecomposition task))
            filtered
        else filtered in
      let filtered :=
        if truthy (search f) then
          let searchTerm := toLowerCase (text (search f)) in
          List.filter
            (fun task =>
               let titleMatch := includes searchTerm (toLowerCase (Task.title task)) in
               let descriptionMatch :=
                 match Task.description task with
                 | Some d => includes searchTerm (toLowerCase d)
                 | None => false
                 end in
               titleMatch || descriptionMatch)
            filtered
        else filtered in
      filtered
  end.

End TaskFilters.

(** The clauses of a filter, for one task. *)
Definition status_clause (f : TaskFilter) (context : TaskFilterContext) (task : Task.t)
  : bool :=
  match status_in f with
  | Some ((_ :: _) as desired) => set_has desired (Task.status task)
  | _ =>
      match is_true (ready f), readyStatuses context with
      | true, Some desired => set_has desired (Task.status task)
      | _, _ => true
      end
  end.

Definition labels_clause (f : TaskFilter) (task : Task.t) : bool :=
  match labels_has_every f with
  | Some ((_ :: _) as wanted) =>
      forallb (fun label => array_includes (or_nil (Task.labels task)) label) wanted
  | _ => true
  end.

Definition unresolved_clause (f : TaskFilter) (task : Task.t) : bool :=
  match has_unresolved_uncertainties f with
  | Some wanted => if wanted then hasUnresolved task else negb (hasUnresolved task)
  | None => true
  end.

Definition ready_clause (f : TaskFilter) (task : Task.t) : bool :=
  if is_true (ready f)
  then negb (hasUnresolved task) && negb (hasNeedsDecomposition task)
  else true.

Definition matches_search (term : str) (task : Task.t) : bool :=
  includes (toLowerCase term) (toLowerCase (Task.title task))
  || match Task.description task with
     | Some d => includes (toLowerCase term) (toLowerCase d)
     | None => false
     end.

Definition search_clause (f : TaskFilter) (task : Task.t) : bool :=
  if truthy (search f) then matches_search (text (search f)) task else true.

(** The conjunction of the clauses of a filter. *)
Definition keeps (f : TaskFilter) (context : TaskFilterContext) (task : Task.t) : bool :=
  status_clause f context task && labels_clause f task && unresolved_clause f task
  && ready_clause f task && search_clause f task.

Definition with_search (f : TaskFilter) (v : option str) : TaskFilter :=
  BuildFilter (filter_project f) (status_in f) (labels_has_every f)
              (has_unresolved_uncertainties f) (ready f) v.

Definition no_filter : TaskFilter := BuildFilter None None None None None None.

Definition ready_filter : TaskFilter :=
  BuildFilter None (Some [todo; backlog]) None None (Some true) None.

(** Tasks of the repository's test of the ready filter. *)
Definition ready_task : Task.t := plain_task (js "ready") 3 todo.

Definition dark_task : Task.t :=
  Task.Build (js "task-1") (js "Implement dark mode toggle") None None None 3 None None
             todo None None None (Some []) (Some []) None None None (Some []).

(* ====================================================================== *)
(** ** LinearService: the other methods over the client *)
(* ====================================================================== *)

Definition dquote : ascii := "034"%char.

(** [values.join(', ')] *)
Fixpoint join_comma (ls : list str) : str :=
  match ls with
  | [] => []
  | [l] => l
  | l :: ls' => l ++ js ", " ++ join_comma ls'
  end.

(** The metadata [createTask] and [batchCreateTasks] store for an input. *)
Definition metadata_of_input (input : TaskInput.t) : Metadata.t :=
  Metadata.Build (TaskInput.goal input) (TaskInput.effort input)
    (TaskInput.effortReason input) (TaskInput.complexityBias input)
    (normalizeUncertainties (TaskInput.uncertainties input)) [].

(** [metadata.uncertainties.find((u) => u.title === uncertaintyTitle)]
    followed by the two assignments to the uncertainty found; [None] when
    there is none. *)
Fixpoint resolve_first (us : list Uncertainty.t) (uncertaintyTitle resolution now : str)
  : option (list Uncertainty.t) :=
  match us with
  | [] => None
  | u :: rest =>
      if str_eqb (Uncertainty.title u) uncertaintyTitle
      then Some (Uncertainty.with_resolvedAt
                   (Uncertainty.with_resolution u (Some resolution)) (Some now)
                 :: rest)
      else option_map (cons u) (resolve_first rest uncertaintyTitle resolution now)
  end.

(** [issueToTask] on the values it awaits from the tracker's issue
    object: the state's name, the identifiers of project, parent and
    assignee, and the names of the labels. *)
Module IssueData.

Record t : Type := Build {
  id : str;
  title : str;
  identifier : option str;
  description : option str;
  stateName : option str;
  projectId : option str;
  parentId : option str;
  assigneeId : option str;
  dueDate : option str;
  labels : list str
}.

(** [mapLinearStateToStatus] *)
Definition mapLinearStateToStatus (name : str) : TaskStatus :=
  let lowerName := toLowerCase name in
  if includes (js "backlog") lowerName then backlog
  else if includes (js "todo") lowerName || includes (js "planned") lowerName then todo
  else if includes (js "progress") lowerName || includes (js "started") lowerName
  then in_progress
  else if includes (js "review") lowerName then in_review
  else if includes (js "done") lowerName || includes (js "completed") lowerName then done
  else if includes (js "cancel") lowerName then canceled
  else todo.

Definition issueToTask (issue : t) : Task.t :=
  let metadata := parseMetadata (text (description issue)) in
  Task.Build (id issue) (title issue)
    (Some (extractPlainDescription (text (description issue))))
    (identifier issue)
    (Metadata.goal metadata) (Metadata.effort metadata)
    (Metadata.effortReason metadata) (Metadata.complexityBias metadata)
    (mapLinearStateToStatus
       (if truthy (stateName issue) then text (stateName issue) else js "Backlog"))
    (projectId issue) (parentId issue) None
    (Some (Metadata.uncertainties metadata))
    (Some (Metadata.lessonsLearned metadata))
    None (assigneeId issue) (dueDate issue) (Some (labels issue)).

End IssueData.

Module Linear.
Section Methods.

Variable W : Type.
Variable this : LinearService W.

Definition createTask (input : TaskInput.t) : M W Task.t :=
  if negb (isFibonacciEffort (TaskInput.effort input))
  then throw (External (js "Task " ++ [dquote] ++ TaskInput.title input ++ [dquote]
                        ++ js " effort must be one of "
                        ++ join_comma (map show_int FIBONACCI_EFFORT_VALUES)
                        ++ js ", got " ++ show_int (TaskInput.effort input)))
  else
    let allLabels := build_labels input in
    let createInput := build_createInput this input in
    created <- call (CallCreateIssue createInput) (createIssue (client this) createInput) ;;
    match created with
    | None => throw (External (js "Failed to create Linear issue"))
    | Some iss =>
        when (0 <? length allLabels)
             (call (CallAddLabelsToIssue (issue_id iss) allLabels)
                   (addLabelsToIssue (client this) (issue_id iss) allLabels)) ;;;
        call (CallIssueToTask (issue_id iss)) (issueToTask (client this) iss)
    end.

Definition getTask (taskID : str) : M W (option Task.t) :=
  found <- call (CallIssue taskID) (issue (client this) taskID) ;;
  match found with
  | Some iss =>
      task <- call (CallIssueToTask (issue_id iss)) (issueToTask (client this) iss) ;;
      ret (Some task)
  | None => ret None
  end.

Definition addLessonLearned (taskID : str) (lesson : Lesson.t) : M W unit :=
  found <- call (CallIssue taskID) (issue (client this) taskID) ;;
  match found with
  | None => throw (TaskNotFound taskID)
  | Some iss =>
      let metadata := parseMetadata (text (issue_description iss)) in
      let metadata :=
        Metadata.with_lessonsLearned metadata
          (Metadata.lessonsLearned metadata ++ [lesson]) in
      let plainDescription := extractPlainDescription (text (issue_description iss)) in
      let description := buildDescriptionWithMetadata plainDescription metadata in
      call (CallUpdateIssue taskID description)
           (updateIssue (client this) taskID description)
  end.

(** [now] is [new Date().toISOString()] at the time of the call; the
    comment is built from the title and the resolution. *)
Definition resolveUncertainty (now : str) (taskID uncertaintyTitle resolution : str)
  : M W unit :=
  found <- call (CallIssue taskID) (issue (client this) taskID) ;;
  match found with
  | None => throw (TaskNotFound taskID)
  | Some iss =>
      let metadata := parseMetadata (text (issue_description iss)) in
      match resolve_first (Metadata.uncertainties metadata) uncertaintyTitle
                          resolution now with
      | None =>
          throw (External (js "Uncertainty " ++ [dquote] ++ uncertaintyTitle ++ [dquote]
                           ++ js " not found in task " ++ taskID))
      | Some us =>
          let metadata := Metadata.with_uncertainties metadata us in
          let plainDescription :=
            extractPlainDescription (text (issue_description iss)) in
          let description := buildDescriptionWithMetadata plainDescription metadata in
          call (CallUpdateIssue taskID description)
               (updateIssue (client this) taskID description) ;;;
          call (CallCreateComment taskID [uncertaintyTitle; resolution])
               (createComment (client this) taskID [uncertaintyTitle; resolution])
      end
  end.

End Methods.
End Linear.

Arguments Linear.createTask {W} this input.
Arguments Linear.getTask {W} this taskID.
Arguments Linear.addLessonLearned {W} this taskID lesson.
Arguments Linear.resolveUncertainty {W} this now taskID uncertaintyTitle resolution.

(** The description [addLessonLearned] writes over [description]. *)
Definition lesson_description (description : str) (lesson : Lesson.t) : str :=
  let metadata := parseMetadata description in
  buildDescriptionWithMetadata (extractPlainDescription description)
    (Metadata.with_lessonsLearned metadata (Metadata.lessonsLearned metadata ++ [lesson])).

(** The description [resolveUncertainty] writes over [description], when
    it finds the uncertainty. *)
Definition resolved_description (description : str) (us : list Uncertainty.t) : str :=
  buildDescriptionWithMetadata (extractPlainDescription description)
    (Metadata.with_uncertainties (parseMetadata description) us).

Definition sample_lesson : Lesson.t :=
  Lesson.Build (js "Cache the lookup") (Some pattern) None.

Definition sample_description : str :=
  buildDescriptionWithMetadata (js "Plain description") sample_metadata.

Definition sample_issue : Store := [(js "T-1", sample_description)].

(** The uncertainty as [resolveUncertainty] leaves it. *)
Definition resolved_with (u : Uncertainty.t) (resolution now : str) : Uncertainty.t :=
  Uncertainty.with_resolvedAt (Uncertainty.with_resolution u (Some resolution)) (Some now).

Definition open_risk : Metadata.t :=
  Metadata.Build None 5 None None [Uncertainty.of_title (js "Risk")] [].

Definition open_risk_issue : Store :=
  [(js "T-1", buildDescriptionWithMetadata (js "Plain") open_risk)].

(** An input of effort 8 whose only uncertainty has a blank title. *)
Definition blank_risk : TaskInput.t :=
  plain_input (js "Big task") 8 (Some [UTitle (js "   ")]) None.

(** An input that is off the effort scale. *)
Definition off_scale : TaskInput.t := plain_input (js "Odd task") 4 None None.

Definition sample_input : TaskInput.t :=
  TaskInput.Build (js "Ship it") (Some (js " Plain text ")) (Some (js "Ship feature")) 8
    (Some (js "Sized after spike")) (Some (js "high")) None
    (Some [UTitle (js " OAuth flow "); draft "Rate limits" "Ask the vendor"])
    None None None (Some [js "feature"]) None.

Definition fetched (description : str) : IssueData.t :=
  IssueData.Build (js "issue-0") (js "Ship it") None (Some description) None None None
                  None None [].

(* ====================================================================== *)
(** ** Calls on the service, and the computations that make them *)
(* ====================================================================== *)

(** [TaskPatch] *)
Record TaskPatch : Type := BuildPatch {
  patch_taskID : str;
  patch_status : option TaskStatus;
  patch_description : option str;
  patch_assignee : option str;
  patch_dueDate : option str;
  patch_labels : option (list str)
}.

(** The payload of [updateTaskEffort]. *)
Record EffortPayload : Type := BuildPayload {
  payload_effort : option Z;
  payload_effortReason : option str;
  payload_complexityBias : option str
}.

Module SubtaskInput.
Record t : Type := Build {
  title : str;
  description : option str;
  goal : option str;
  effort : Z;
  effortReason : option str;
  complexityBias : option str;
  sequenceOrder : option nat;
  assignee : option str;
  uncertainties : option (list UncertaintyInput)
}.
End SubtaskInput.

Record DecomposeTaskInput : Type := BuildDecompose {
  decompose_taskID : str;
  decompositionReason : option str;
  decompose_subtasks : list SubtaskInput.t
}.

Record PageInfo : Type := BuildPageInfo {
  hasNextPage : bool;
  endCursor : option str
}.

(** The methods of [LinearService] that the update engine and the
    orchestrator await, as requests. *)
Inductive Request : Type :=
| ReqGetTask (taskID : str)
| ReqUpdateTask (patch : TaskPatch)
| ReqUpdateTaskEffort (taskID : str) (payload : EffortPayload)
| ReqAddLessonLearned (taskID : str) (lesson : Lesson.t)
| ReqAddUncertainties (taskID : str) (uncertainties : list UncertaintyInput)
| ReqResolveUncertainty (taskID title resolution : str)
| ReqListTasks (project : option str) (limit : option Z) (after : option str)
| ReqBatchCreateTasks (tasks : list TaskInput.t)
| ReqDecomposeTask (input : DecomposeTaskInput).

(** The texts the orchestrator logs around those requests. *)
Inductive Notice : Type :=
| BatchEffortReason (i : nat) (title : str) (effort : Z)
| BatchNeedsDecomposition (n : nat)
| BatchCreated (n : nat)
| SubtaskEffortReason (title : str) (effort : Z)
| Decomposed (parentKey : str) (n : nat)
| TreeCompleted (rootID title : str).

Inductive Step : Type :=
| Core (e : Event)          (* an event of the policies *)
| Noted (n : Notice)        (* logger.log *)
| Asked (r : Request).      (* an awaited method of the service *)

(** The service as the callers see it: one function per method. *)
Record LinearPort (W : Type) : Type := BuildPort {
  port_getTask : str -> W -> (Error + option Task.t) * W;
  port_updateTask : TaskPatch -> W -> (Error + Task.t) * W;
  port_updateTaskEffort : str -> EffortPayload -> W -> (Error + unit) * W;
  port_addLessonLearned : str -> Lesson.t -> W -> (Error + unit) * W;
  port_addUncertainties : str -> list UncertaintyInput -> W -> (Error + unit) * W;
  port_resolveUncertainty : str -> str -> str -> W -> (Error + unit) * W;
  port_listTasks : option str -> option Z -> option str -> W
                   -> (Error + (list Task.t * PageInfo)) * W;
  port_batchCreateTasks : list TaskInput.t -> W -> (Error + list Task.t) * W;
  port_decomposeTask : DecomposeTaskInput -> W -> (Error + list Task.t) * W
}.

Module Svc.
Section Monad.

Variable W : Type.

Definition t (A : Type) : Type := W -> list Step * W * (Error + A).

Definition ret {A : Type} (a : A) : t A := fun w => ([], w, inr a).

Definition throw {A : Type} (e : Error) : t A := fun w => ([], w, inl e).

Definition bind {A B : Type} (m : t A) (f : A -> t B) : t B :=
  fun w =>
    match m w with
    | (tr, w', inl e) => (tr, w', inl e)
    | (tr, w', inr a) =>
        match f a w' with
        | (tr', w'', r) => (tr ++ tr', w'', r)
        end
    end.

Definition note (n : Notice) : t unit := fun w => ([Noted n], w, inr tt).

Definition ask {A : Type} (r : Request) (f : W -> (Error + A) * W) : t A :=
  fun w => match f w with (x, w') => ([Asked r], w', x) end.

(** A computation of the policies, run here. *)
Definition lift {A : Type} (m : M W A) : t A :=
  fun w => match m w with (tr, w', x) => (map Core tr, w', x) end.

Fixpoint for_each {A : Type} (f : A -> t unit) (l : list A) : t unit :=
  match l with
  | [] => ret tt
  | a :: l' => bind (f a) (fun _ => for_each f l')
  end.

Fixpoint for_indexed {A : Type} (f : nat -> A -> t unit) (i : nat) (l : list A) : t unit :=
  match l with
  | [] => ret tt
  | a :: l' => bind (f i a) (fun _ => for_indexed f (S i) l')
  end.

(** [array.map(f)] with a callback that may log or throw. *)
Fixpoint map_each {A B : Type} (f : A -> t B) (l : list A) : t (list B) :=
  match l with
  | [] => ret []
  | a :: l' => bind (f a) (fun b => bind (map_each f l') (fun bs => ret (b :: bs)))
  end.

End Monad.
End Svc.

Arguments Svc.ret {W A} a.
Arguments Svc.throw {W A} e.
Arguments Svc.bind {W A B} m f.
Arguments Svc.note {W} n.
Arguments Svc.ask {W A} r f.
Arguments Svc.lift {W A} m.
Arguments Svc.for_each {W A} f l.
Arguments Svc.for_indexed {W A} f i l.
Arguments Svc.map_each {W A B} f l.

Declare Scope svc_scope.
Delimit Scope svc_scope with svc.
Notation "x <- m ;; k" := (Svc.bind m (fun x => k))
  (at level 61, m at next level, right associativity) : svc_scope.
Notation "m ;;; k" := (Svc.bind m (fun _ => k))
  (at level 61, right associativity) : svc_scope.

Definition is_some {A : Type} (o : option A) : bool :=
  match o with Some _ => true | None => false end.

(** [[...new Set(values)]]: the values in order, each at its first
    occurrence only. *)
Fixpoint spread_set_from (seen values : list str) : list str :=
  match values with
  | [] => []
  | v :: rest =>
      if array_includes seen v then spread_set_from seen rest
      else v :: spread_set_from (seen ++ [v]) rest
  end.

Definition spread_set (values : list str) : list str := spread_set_from [] values.

(* ====================================================================== *)
(** ** applyTaskUpdates ([domain/tasks/task-updates.ts]) *)
(* ====================================================================== *)

Record TaskUpdateSet : Type := BuildSet {
  set_status : option TaskStatus;
  set_description : option str;
  set_assignee : option str;
  set_dueDate : option str;
  set_effort : option Z;
  set_effortReason : option str;
  set_complexityBias : option str
}.

Record TaskUpdateAdd : Type := BuildAdd {
  add_lessonsLearned : option (list Lesson.t);
  add_labels : option (list str);
  add_uncertainties : option (list UncertaintyInput)
}.

Record TaskUpdateRemove : Type := BuildRemove {
  remove_labels : option (list str)
}.

Record TaskUpdateResolveUncertainty : Type := BuildResolveItem {
  resolve_title : str;
  resolve_resolution : str
}.

Record TaskUpdateResolve : Type := BuildResolve {
  resolve_uncertainties : list TaskUpdateResolveUncertainty
}.

Record TaskUpdateOperation : Type := BuildOperation {
  op_taskID : str;
  op_set : option TaskUpdateSet;
  op_add : option TaskUpdateAdd;
  op_remove : option TaskUpdateRemove;
  op_resolve : option TaskUpdateResolve
}.

Definition labels_patch (taskID : str) (labels : list str) : TaskPatch :=
  BuildPatch taskID None None None None (Some labels).

Section Updates.

Variable W : Type.

(** [context.linear] *)
Variable linear : LinearPort W.

Local Open Scope svc_scope.

(** The [if (set)] block; the result is the new value of [task]. *)
Definition apply_set (taskID : str) (task : Task.t) (set : TaskUpdateSet)
  : Svc.t W Task.t :=
  let linearPatch :=
    BuildPatch taskID (set_status set) (set_description set) (set_assignee set)
               (set_dueDate set) None in
  let hasStandardUpdates :=
    is_some (patch_status linearPatch) || is_some (patch_description linearPatch)
    || is_some (patch_assignee linearPatch) || is_some (patch_dueDate linearPatch) in
  task <- (if hasStandardUpdates
           then Svc.ask (ReqUpdateTask linearPatch) (port_updateTask linear linearPatch)
           else Svc.ret task) ;;
  (if is_some (set_effort set) || is_some (set_effortReason set)
      || is_some (set_complexityBias set)
   then
     let payload :=
       BuildPayload (set_effort set) (set_effortReason set) (set_complexityBias set) in
     Svc.ask (ReqUpdateTaskEffort taskID payload)
             (port_updateTaskEffort linear taskID payload)
   else Svc.ret tt) ;;;
  Svc.ret task.

(** The [if (add)] block. *)
Definition apply_add (taskID : str) (task : Task.t) (add : TaskUpdateAdd)
  : Svc.t W Task.t :=
  match add_lessonsLearned add with
  | Some lessons =>
      Svc.for_each
        (fun lesson =>
           Svc.ask (ReqAddLessonLearned taskID lesson)
                   (port_addLessonLearned linear taskID lesson))
        lessons
  | None => Svc.ret tt
  end ;;;
  match add_uncertainties add with
  | Some uncertainties =>
      if 0 <? length uncertainties
      then Svc.ask (ReqAddUncertainties taskID uncertainties)
                   (port_addUncertainties linear taskID uncertainties)
      else Svc.ret tt
  | None => Svc.ret tt
  end ;;;
  match add_labels add with
  | Some labels =>
      if 0 <? length labels then
        let currentLabels := or_nil (Task.labels task) in
        let newLabels := spread_set (currentLabels ++ labels) in
        Svc.ask (ReqUpdateTask (labels_patch taskID newLabels))
                (port_updateTask linear (labels_patch taskID newLabels))
      else Svc.ret task
  | None => Svc.ret task
  end.

(** The [if (remove?.labels)] block. *)
Definition apply_remove (taskID : str) (task : Task.t) (remove : option TaskUpdateRemove)
  : Svc.t W Task.t :=
  match remove with
  | Some r =>
      match remove_labels r with
      | Some labels =>
          let currentLabels := or_nil (Task.labels task) in
          let nextLabels :=
            filter (fun label => negb (array_includes labels label)) currentLabels in
          Svc.ask (ReqUpdateTask (labels_patch taskID nextLabels))
                  (port_updateTask linear (labels_patch taskID nextLabels))
      | None => Svc.ret task
      end
  | None => Svc.ret task
  end.

(** The [if (resolve?.uncertainties)] block. *)
Definition apply_resolve (taskID : str) (resolve : option TaskUpdateResolve)
  : Svc.t W unit :=
  match resolve with
  | Some r =>
      Svc.for_each
        (fun uncertainty =>
           Svc.ask (ReqResolveUncertainty taskID (resolve_title uncertainty)
                                          (resolve_resolution uncertainty))
                   (port_resolveUncertainty linear taskID (resolve_title uncertainty)
                                            (resolve_resolution uncertainty)))
        (resolve_uncertainties r)
  | None => Svc.ret tt
  end.

(** The body of the loop over [input.tasks]. *)
Definition apply_one (taskUpdate : TaskUpdateOperation) : Svc.t W Task.t :=
  let taskID := op_taskID taskUpdate in
  found <- Svc.ask (ReqGetTask taskID) (port_getTask linear taskID) ;;
  match found with
  | None => Svc.throw (TaskNotFound taskID)
  | Some task =>
      task <- match op_set taskUpdate with
              | Some set => apply_set taskID task set
              | None => Svc.ret task
              end ;;
      task <- match op_add taskUpdate with
              | Some add => apply_add taskID task add
              | None => Svc.ret task
              end ;;
      task <- apply_remove taskID task (op_remove taskUpdate) ;;
      apply_resolve taskID (op_resolve taskUpdate) ;;;
      again <- Svc.ask (ReqGetTask taskID) (port_getTask linear taskID) ;;
      match again with
      | None => Svc.throw (External (js "Task " ++ taskID ++ js " not found after update"))
      | Some task => Svc.ret task
      end
  end.

Fixpoint apply_all (updates : list TaskUpdateOperation) (updatedTasks : list Task.t)
  : Svc.t W (list Task.t) :=
  match updates with
  | [] => Svc.ret updatedTasks
  | taskUpdate :: rest =>
      task <- apply_one taskUpdate ;;
      apply_all rest (updatedTasks ++ [task])
  end.

Definition applyTaskUpdates (tasks : list TaskUpdateOperation) : Svc.t W (list Task.t) :=
  apply_all tasks [].

End Updates.

(* ====================================================================== *)
(** ** A service kept in memory, after the mock of the repository's tests *)
(* ====================================================================== *)

(** [{ ...task, status, description, labels }] and the like. *)
Definition task_with (k : Task.t) (status : option TaskStatus) (description : option str)
    (labels : option (list str)) : Task.t :=
  Task.Build (Task.taskID k) (Task.title k)
    (match description with Some d => Some d | None => Task.description k end)
    (Task.linearIssueKey k) (Task.goal k) (Task.effort k) (Task.effortReason k)
    (Task.complexityBias k)
    (match status with Some s => s | None => Task.status k end)
    (Task.project k) (Task.parentTaskID k) (Task.subtasks k) (Task.uncertainties k)
    (Task.lessonsLearned k) (Task.dependencies k) (Task.assignee k) (Task.dueDate k)
    (match labels with Some l => Some l | None => Task.labels k end).

Definition task_with_effort (k : Task.t) (payload : EffortPayload) : Task.t :=
  Task.Build (Task.taskID k) (Task.title k) (Task.description k) (Task.linearIssueKey k)
    (Task.goal k)
    (match payload_effort payload with Some e => e | None => Task.effort k end)
    (if truthy (payload_effortReason payload) then payload_effortReason payload
     else Task.effortReason k)
    (if truthy (payload_complexityBias payload) then payload_complexityBias payload
     else Task.complexityBias k)
    (Task.status k) (Task.project k) (Task.parentTaskID k) (Task.subtasks k)
    (Task.uncertainties k) (Task.lessonsLearned k) (Task.dependencies k)
    (Task.assignee k) (Task.dueDate k) (Task.labels k).

Definition task_with_lessons (k : Task.t) (v : option (list Lesson.t)) : Task.t :=
  Task.Build (Task.taskID k) (Task.title k) (Task.description k) (Task.linearIssueKey k)
    (Task.goal k) (Task.effort k) (Task.effortReason k) (Task.complexityBias k)
    (Task.status k) (Task.project k) (Task.parentTaskID k) (Task.subtasks k)
    (Task.uncertainties k) v (Task.dependencies k) (Task.assignee k) (Task.dueDate k)
    (Task.labels k).

Definition TaskTable : Type := list Task.t.

Definition table_get (w : TaskTable) (taskID : str) : option Task.t :=
  find (fun k => str_eqb (Task.taskID k) taskID) w.

Fixpoint table_put (w : TaskTable) (task : Task.t) : TaskTable :=
  match w with
  | k :: w' =>
      if str_eqb (Task.taskID k) (Task.taskID task) then task :: w'
      else k :: table_put w' task
  | [] => [task]
  end.

Definition table_change (w : TaskTable) (taskID : str) (f : Task.t -> Task.t)
  : (Error + unit) * TaskTable :=
  match table_get w taskID with
  | Some current => (inr tt, table_put w (f current))
  | None => (inr tt, w)
  end.

Fixpoint set_resolution (us : list Uncertainty.t) (title resolution : str)
  : list Uncertainty.t :=
  match us with
  | [] => []
  | u :: rest =>
      if str_eqb (Uncertainty.title u) title
      then Uncertainty.with_resolution u (Some resolution) :: rest
      else u :: set_resolution rest title resolution
  end.

Definition table_port : LinearPort TaskTable :=
  BuildPort
    (fun taskID w => (inr (table_get w taskID), w))
    (fun patch w =>
       match table_get w (patch_taskID patch) with
       | Some current =>
           let next := task_with current (patch_status patch) (patch_description patch)
                                 (patch_labels patch) in
           (inr next, table_put w next)
       | None => (inl (TaskNotFound (patch_taskID patch)), w)
       end)
    (fun taskID payload w =>
       match table_get w taskID with
       | Some current => (inr tt, table_put w (task_with_effort current payload))
       | None => (inl (TaskNotFound taskID), w)
       end)
    (fun taskID lesson w =>
       table_change w taskID
         (fun k => task_with_lessons k (Some (or_nil (Task.lessonsLearned k) ++ [lesson]))))
    (fun taskID uncertainties w =>
       table_change w taskID
         (fun k => Task.with_uncertainties k
                     (Some (or_nil (Task.uncertainties k)
                            ++ normalizeUncertainties (Some uncertainties)))))
    (fun taskID title resolution w =>
       table_change w taskID
         (fun k => Task.with_uncertainties k
                     (Some (set_resolution (or_nil (Task.uncertainties k))
                                           title resolution))))
    (fun _ _ _ w => (inr (w, BuildPageInfo false None), w))
    (fun _ w => (inr [], w))
    (fun _ w => (inr [], w)).

(** The base task and the update of the repository's test. *)
Definition legacy_task : Task.t :=
  Task.Build (js "task-1") (js "Root task") None None None 3 None None todo None None None
             (Some [Uncertainty.of_title (js "Open risk")]) (Some []) None None None
             (Some [js "legacy"]).

Definition full_update : TaskUpdateOperation :=
  BuildOperation (js "task-1")
    (Some (BuildSet (Some done) (Some (js "Updated")) None None (Some 5%Z)
                    (Some (js "Re-estimated")) (Some (js "high"))))
    (Some (BuildAdd (Some [Lesson.Build (js "Captured lesson") None None])
                    (Some [js "new"])
                    (Some [draft "New risk" "fresh"])))
    (Some (BuildRemove (Some [js "legacy"])))
    (Some (BuildResolve [BuildResolveItem (js "Open risk") (js "handled")])).

Definition missing_update : TaskUpdateOperation :=
  BuildOperation (js "missing")
    (Some (BuildSet (Some done) None None None None None None)) None None None.

(** The task a request is about, for the requests that name one. *)
Definition request_task (r : Request) : option str :=
  match r with
  | ReqGetTask taskID => Some taskID
  | ReqUpdateTask patch => Some (patch_taskID patch)
  | ReqUpdateTaskEffort taskID _ => Some taskID
  | ReqAddLessonLearned taskID _ => Some taskID
  | ReqAddUncertainties taskID _ => Some taskID
  | ReqResolveUncertainty taskID _ _ => Some taskID
  | ReqListTasks _ _ _ => None
  | ReqBatchCreateTasks _ => None
  | ReqDecomposeTask input => Some (decompose_taskID input)
  end.

(** Every step a computation can leave satisfies [P], whatever the
    outside state. *)
Definition steps_all {W A : Type} (P : Step -> Prop) (m : Svc.t W A) : Prop :=
  forall w, Forall P (fst (fst (m w))).

Definition svc_trace {W A : Type} (r : list Step * W * (Error + A)) : list Step :=
  fst (fst r).

Definition svc_outcome {W A : Type} (r : list Step * W * (Error + A)) : Error + A :=
  snd r.

(* ====================================================================== *)
(** ** WorkflowOrchestrator: the other operations *)
(* ====================================================================== *)

Module Workflow.
Section Orchestration.

Variable W : Type.

(** The orchestrator, and [this.linear] with all its methods. *)
Variable this : Orchestrator W.
Variable linear : LinearPort W.

Local Open Scope svc_scope.

(** The validation of one subtask in [decomposeTask]. *)
Definition validate_subtask (subtask : SubtaskInput.t) : Svc.t W unit :=
  Svc.lift (assertSubtaskEffort (SubtaskInput.effort subtask)) ;;;
  Svc.lift (validateForCreation (SubtaskInput.title subtask) (SubtaskInput.effort subtask)
                                (Some (or_nil (SubtaskInput.uncertainties subtask)))) ;;;
  match validateEffortReason (SubtaskInput.effort subtask)
                             (SubtaskInput.effortReason subtask) with
  | Some _ =>
      Svc.note (SubtaskEffortReason (SubtaskInput.title subtask)
                                    (SubtaskInput.effort subtask))
  | None => Svc.ret tt
  end.

Definition decomposeTask (input : DecomposeTaskInput) : Svc.t W (list Task.t) :=
  found <- Svc.ask (ReqGetTask (decompose_taskID input))
                   (port_getTask linear (decompose_taskID input)) ;;
  match found with
  | None => Svc.throw (TaskNotFound (decompose_taskID input))
  | Some parent =>
      Svc.lift (handleDecompositionGuard (uncertaintyMode this) parent) ;;;
      Svc.for_each validate_subtask (decompose_subtasks input) ;;;
      subtasks <- Svc.ask (ReqDecomposeTask input) (port_decomposeTask linear input) ;;
      let parentKey := taskKey parent in
      Svc.note (Decomposed parentKey (length subtasks)) ;;;
      Svc.ret subtasks
  end.

(** The callback of [tasks.map] in [batchCreateTasks]. *)
Definition resolve_batch_project (task : TaskInput.t) : Svc.t W TaskInput.t :=
  if negb (truthy (TaskInput.project task)) then
    defaultProject <- Svc.lift (resolve (resolverConfig this) None) ;;
    Svc.ret (if truthy defaultProject then TaskInput.with_project task defaultProject
             else task)
  else
    resolvedProject <- Svc.lift (resolve (resolverConfig this) (TaskInput.project task)) ;;
    Svc.ret (if negb (option_str_eqb resolvedProject (TaskInput.project task))
             then TaskInput.with_project task resolvedProject else task).

(** The validation of the item at index [i] in [batchCreateTasks]. *)
Definition validate_batch_item (i : nat) (task : TaskInput.t) : Svc.t W unit :=
  Svc.lift (assertValidEffort (TaskInput.effort task)) ;;;
  Svc.lift (validateForCreation (TaskInput.title task) (TaskInput.effort task)
                                (Some (or_nil (TaskInput.uncertainties task)))) ;;;
  match validateEffortReason (TaskInput.effort task) (TaskInput.effortReason task) with
  | Some _ => Svc.note (BatchEffortReason i (TaskInput.title task) (TaskInput.effort task))
  | None => Svc.ret tt
  end.

Definition batchCreateTasks (tasks : list TaskInput.t) : Svc.t W (list Task.t) :=
  if Nat.eqb (length tasks) 0 then Svc.ret []
  else
    tasksWithResolvedProjects <- Svc.map_each resolve_batch_project tasks ;;
    Svc.for_indexed validate_batch_item 0 tasksWithResolvedProjects ;;;
    createdTasks <- Svc.ask (ReqBatchCreateTasks tasksWithResolvedProjects)
                            (port_batchCreateTasks linear tasksWithResolvedProjects) ;;
    let needsDecomp :=
      filter (fun task => needsDecomposition (Task.effort task)) createdTasks in
    (if 0 <? length needsDecomp
     then Svc.note (BatchNeedsDecomposition (length needsDecomp))
     else Svc.ret tt) ;;;
    Svc.note (BatchCreated (length createdTasks)) ;;;
    Svc.ret createdTasks.

Definition listTasks (filter : option TaskFilter) (limit : option Z) (after : option str)
  : Svc.t W (list Task.t * PageInfo) :=
  projectKey <- match filter with
                | Some f =>
                    if truthy (filter_project f)
                    then Svc.lift (resolve (resolverConfig this) (filter_project f))
                    else Svc.ret None
                | None => Svc.ret None
                end ;;
  page <- Svc.ask (ReqListTasks projectKey limit after)
                  (port_listTasks linear projectKey limit after) ;;
  let readyStatuses :=
    match filter with
    | Some f => if is_true (ready f) then Some [todo; backlog] else None
    | None => None
    end in
  let filtered := TaskFilters.filterTasks (fst page) filter (BuildContext readyStatuses) in
  Svc.ret (filtered, snd page).

(** [getReadyTasks(limit = 10)] *)
Definition getReadyTasks (limit : option Z) : Svc.t W (list Task.t) :=
  let limit := match limit with Some n => n | None => 10%Z end in
  page <- listTasks (Some (BuildFilter None (Some [todo; backlog]) None None
                                       (Some true) None))
                    (Some limit) None ;;
  Svc.ret (fst page).

End Orchestration.
End Workflow.

Arguments Workflow.validate_subtask {W} subtask.
Arguments Workflow.decomposeTask {W} this linear input.
Arguments Workflow.resolve_batch_project {W} this task.
Arguments Workflow.validate_batch_item {W} i task.
Arguments Workflow.batchCreateTasks {W} this linear tasks.
Arguments Workflow.listTasks {W} this linear filter limit after.
Arguments Workflow.getReadyTasks {W} this linear limit.

(** What the validation loops of [decomposeTask] and of the
    orchestrator's [batchCreateTasks] throw for one item, if anything. *)
Definition creation_error (title : str) (effort : Z) (uncertainties : list UncertaintyInput)
  : option Error :=
  if negb (isFibonacciEffort effort) then Some (InvalidEffort effort)
  else if (3 <? effort)%Z && Nat.eqb (length uncertainties) 0
  then Some (MissingUncertainties title effort)
  else None.

Definition subtask_error (subtask : SubtaskInput.t) : option Error :=
  creation_error (SubtaskInput.title subtask) (SubtaskInput.effort subtask)
                 (or_nil (SubtaskInput.uncertainties subtask)).

Definition input_error (task : TaskInput.t) : option Error :=
  creation_error (TaskInput.title task) (TaskInput.effort task)
                 (or_nil (TaskInput.uncertainties task)).

(** A step that is not the given kind of request. *)
Definition not_decompose (s : Step) : Prop :=
  forall input, s <> Asked (ReqDecomposeTask input).

Definition not_batch_create (s : Step) : Prop :=
  forall tasks, s <> Asked (ReqBatchCreateTasks tasks).

Definition creation_valid (effort : Z) (uncertainties : list UncertaintyInput) : Prop :=
  isFibonacciEffort effort = true /\ ((3 < effort)%Z -> uncertainties <> []).

Definition subtask_valid (subtask : SubtaskInput.t) : Prop :=
  creation_valid (SubtaskInput.effort subtask)
                 (or_nil (SubtaskInput.uncertainties subtask)).

Definition input_valid (task : TaskInput.t) : Prop :=
  creation_valid (TaskInput.effort task) (or_nil (TaskInput.uncertainties task)).

Definition is_noted (s : Step) : Prop := exists n, s = Noted n.

(** A parent with one open uncertainty, and a decomposition of it. *)
Definition open_parent : Task.t :=
  Task.with_uncertainties (plain_task (js "task-1") 8 todo)
    (Some [Uncertainty.of_title (js "Open risk")]).

Definition small_subtask : SubtaskInput.t :=
  SubtaskInput.Build (js "Part one") None None 2 None None None None None.

Definition blocking_orchestrator : Orchestrator TaskTable :=
  BuildOrchestrator (BuildResolverConfig [] None) block
    (fun _ w => (inr (plain_task (js "task-123") 8 todo), w)).

Definition warning_orchestrator : Orchestrator TaskTable :=
  BuildOrchestrator (BuildResolverConfig [] None) warn
    (fun _ w => (inr (plain_task (js "task-123") 8 todo), w)).

(** [resolved] is [task] with, at most, another project. *)
Definition same_but_project (resolved task : TaskInput.t) : Prop :=
  resolved = TaskInput.with_project task (TaskInput.project resolved).

Definition is_core (s : Step) : Prop := exists e, s = Core e.

Definition odd_inputs : list TaskInput.t :=
  [plain_input (js "A") 2 None None; plain_input (js "B") 4 None None].

(* ====================================================================== *)
(** ** LinearService: effort and labels, down to the Linear SDK *)
(* ====================================================================== *)

(** A node of a labels connection. *)
Record IssueLabel : Type := BuildLabel {
  label_id : str;
  label_name : str
}.

(** The second argument of [client.updateIssue]. *)
Record IssueUpdate : Type := BuildUpdate {
  input_description : option str;
  input_estimate : option Z;
  input_labelIds : option (list str)
}.

(** The argument of [client.createIssue] in [decomposeTask]. *)
Record SubIssueInput : Type := BuildSubIssue {
  sub_teamId : str;
  sub_title : str;
  sub_description : str;
  sub_parentId : str;
  sub_projectId : option str
}.

Inductive SdkCall : Type :=
| SdkTeamLabels (teamId : str)     (* client.team(teamId), then team?.labels() *)
| SdkIssue (issueId : str)         (* client.issue(issueId) *)
| SdkIssueLabels (issueId : str)   (* client.issue(issueId), then issue?.labels() *)
| SdkUpdateIssue (issueId : str) (input : IssueUpdate)
| SdkIssueProject (issueId : str)  (* await issue.project, then project?.id *)
| SdkCreateComment (issueId body : str)
| SdkCreateIssue (input : SubIssueInput)
| SdkIssueToTask (issueId : str).  (* this.issueToTask(issue) and its awaits *)

(** The client of the SDK.  A labels connection is the list of its nodes,
    absent when the team or the issue is; [sdk_updateIssue] answers with
    the labels of the issue of its payload, absent when that issue is, and
    [sdk_createIssue] with the issue of its payload. *)
Record SdkClient (W : Type) : Type := BuildSdk {
  sdk_teamLabels : str -> W -> (Error + option (list IssueLabel)) * W;
  sdk_issue : str -> W -> (Error + option Issue) * W;
  sdk_issueLabels : str -> W -> (Error + option (list IssueLabel)) * W;
  sdk_updateIssue : str -> IssueUpdate -> W -> (Error + option (list IssueLabel)) * W;
  sdk_issueProject : str -> W -> (Error + option str) * W;
  sdk_createComment : str -> str -> W -> (Error + unit) * W;
  sdk_createIssue : SubIssueInput -> W -> (Error + option Issue) * W;
  sdk_issueToTask : Issue -> W -> (Error + Task.t) * W
}.

Arguments sdk_teamLabels {W} s teamId w.
Arguments sdk_issue {W} s issueId w.
Arguments sdk_issueLabels {W} s issueId w.
Arguments sdk_updateIssue {W} s issueId input w.
Arguments sdk_issueProject {W} s issueId w.
Arguments sdk_createComment {W} s issueId body w.
Arguments sdk_createIssue {W} s input w.
Arguments sdk_issueToTask {W} s issue w.

Module Sdk.
Section Monad.

Variable W : Type.

Definition t (A : Type) : Type := W -> list SdkCall * W * (Error + A).

Definition ret {A : Type} (a : A) : t A := fun w => ([], w, inr a).

Definition throw {A : Type} (e : Error) : t A := fun w => ([], w, inl e).

Definition bind {A B : Type} (m : t A) (f : A -> t B) : t B :=
  fun w =>
    match m w with
    | (tr, w', inl e) => (tr, w', inl e)
    | (tr, w', inr a) =>
        match f a w' with
        | (tr', w'', r) => (tr ++ tr', w'', r)
        end
    end.

(** An awaited call of the client. *)
Definition call {A : Type} (c : SdkCall) (f : W -> (Error + A) * W) : t A :=
  fun w => match f w with (x, w') => ([c], w', x) end.

Fixpoint for_each {A : Type} (f : A -> t unit) (l : list A) : t unit :=
  match l with
  | [] => ret tt
  | a :: l' => bind (f a) (fun _ => for_each f l')
  end.

End Monad.
End Sdk.

Arguments Sdk.ret {W A} a.
Arguments Sdk.throw {W A} e.
Arguments Sdk.bind {W A B} m f.
Arguments Sdk.call {W A} c f.
Arguments Sdk.for_each {W A} f l.

Declare Scope sdk_scope.
Delimit Scope sdk_scope with sdk.
Notation "x <- m ;; k" := (Sdk.bind m (fun x => k))
  (at level 61, m at next level, right associativity) : sdk_scope.
Notation "m ;;; k" := (Sdk.bind m (fun _ => k))
  (at level 61, right associativity) : sdk_scope.

Definition labels_update (labelIds : list str) : IssueUpdate :=
  BuildUpdate None None (Some labelIds).

(** The loop of [addLabelsToIssue] over the names, on the ids so far. *)
Definition add_label_id (teamLabels : list IssueLabel) (labelIds : list str) (name : str)
  : list str :=
  match find (fun teamLabel => str_eqb (label_name teamLabel) name) teamLabels with
  | None => labelIds
  | Some label =>
      if negb (array_includes labelIds (label_id label))
      then labelIds ++ [label_id label]
      else labelIds
  end.

Module LinearSdk.
Section Methods.

Variable W : Type.

(** [this.client] and [this.teamId] *)
Variable client : SdkClient W.
Variable teamId : str.

Local Open Scope sdk_scope.

Definition addLabelsToIssue (issueId : str) (labelNames : list str) : Sdk.t W unit :=
  teamLabels <- Sdk.call (SdkTeamLabels teamId) (sdk_teamLabels client teamId) ;;
  issueLabels <- Sdk.call (SdkIssueLabels issueId) (sdk_issueLabels client issueId) ;;
  let labelIds := map label_id (or_nil issueLabels) in
  let labelIds := fold_left (add_label_id (or_nil teamLabels)) labelNames labelIds in
  Sdk.call (SdkUpdateIssue issueId (labels_update labelIds))
           (sdk_updateIssue client issueId (labels_update labelIds)) ;;;
  Sdk.ret tt.

Definition removeLabelFromIssue (issueId : str) (labelName : str) : Sdk.t W unit :=
  labelsConnection <- Sdk.call (SdkIssueLabels issueId) (sdk_issueLabels client issueId) ;;
  match find (fun issueLabel => str_eqb (label_name issueLabel) labelName)
             (or_nil labelsConnection) with
  | Some label =>
      let labelIds :=
        map label_id
            (filter (fun issueLabel => negb (str_eqb (label_id issueLabel) (label_id label)))
                    (or_nil labelsConnection)) in
      Sdk.call (SdkUpdateIssue issueId (labels_update labelIds))
               (sdk_updateIssue client issueId (labels_update labelIds)) ;;;
      Sdk.ret tt
  | None => Sdk.ret tt
  end.

Definition setLabelsOnIssue (issueId : str) (labelNames : list str) : Sdk.t W unit :=
  existingLabels <- Sdk.call (SdkIssueLabels issueId) (sdk_issueLabels client issueId) ;;
  Sdk.for_each (fun label => removeLabelFromIssue issueId (label_name label))
               (or_nil existingLabels) ;;;
  addLabelsToIssue issueId labelNames.

Definition updateTaskEffort (taskID : str) (payload : EffortPayload) : Sdk.t W unit :=
  let effort := payload_effort payload in
  let effortReason := payload_effortReason payload in
  let complexityBias := payload_complexityBias payload in
  if negb (is_some effort) && negb (is_some effortReason) && negb (is_some complexityBias)
  then Sdk.ret tt
  else
    match effort with
    | Some e =>
        if negb (isFibonacciEffort e)
        then Sdk.throw (External (js "Task effort must be one of "
                                  ++ join_comma (map show_int FIBONACCI_EFFORT_VALUES)
                                  ++ js ", got " ++ show_int e))
        else Sdk.ret tt
    | None => Sdk.ret tt
    end ;;;
    found <- Sdk.call (SdkIssue taskID) (sdk_issue client taskID) ;;
    match found with
    | None => Sdk.throw (TaskNotFound taskID)
    | Some iss =>
        let metadata := parseMetadata (text (issue_description iss)) in
        let metadata :=
          match effort with
          | Some e => Metadata.with_effort metadata e
          | None => metadata
          end in
        let metadata :=
          match effortReason with
          | Some r => Metadata.with_effortReason metadata (Some r)
          | None => metadata
          end in
        let metadata :=
          match complexityBias with
          | Some b => Metadata.with_complexityBias metadata (Some b)
          | None => metadata
          end in
        let plainDescription := extractPlainDescription (text (issue_description iss)) in
        let updatePayload :=
          BuildUpdate (Some (buildDescriptionWithMetadata plainDescription metadata))
                      effort None in
        labelsConnection <- Sdk.call (SdkUpdateIssue taskID updatePayload)
                                     (sdk_updateIssue client taskID updatePayload) ;;
        let existingLabelNames := map label_name (or_nil labelsConnection) in
        match effort with
        | Some e =>
            let retainedLabels :=
              filter (fun label => negb (startsWith (js "effort:") label)
                                   && negb (str_eqb label (js "needs-decomposition")))
                     existingLabelNames in
            let nextLabels := retainedLabels ++ [js "effort:" ++ show_int e] in
            let nextLabels :=
              if (3 <? e)%Z then nextLabels ++ [js "needs-decomposition"] else nextLabels in
            setLabelsOnIssue taskID nextLabels
        | None => Sdk.ret tt
        end
    end.

(** The body of the loop of [decomposeTask] over the subtasks; the
    result is [createdSubtasks] afterwards. *)
Definition decompose_one (parent : Issue) (createdSubtasks : list Task.t)
    (subtask : SubtaskInput.t) : Sdk.t W (list Task.t) :=
  let effortValue := SubtaskInput.effort subtask in
  if negb (isFibonacciEffort effortValue)
  then Sdk.throw (External (js "Subtask " ++ [dquote] ++ SubtaskInput.title subtask
                            ++ [dquote] ++ js " effort must be one of "
                            ++ join_comma (map show_int FIBONACCI_EFFORT_VALUES)
                            ++ js ", got " ++ show_int effortValue))
  else
    let normalizedSubtaskUncertainties :=
      normalizeUncertainties (SubtaskInput.uncertainties subtask) in
    let subtaskMetadata :=
      Metadata.Build (SubtaskInput.goal subtask) effortValue
        (SubtaskInput.effortReason subtask) (SubtaskInput.complexityBias subtask)
        normalizedSubtaskUncertainties [] in
    let subtaskDescription :=
      buildDescriptionWithMetadata (text (SubtaskInput.description subtask))
                                   subtaskMetadata in
    projectId <- Sdk.call (SdkIssueProject (issue_id parent))
                          (sdk_issueProject client (issue_id parent)) ;;
    let createInput :=
      BuildSubIssue teamId (SubtaskInput.title subtask) subtaskDescription
                    (issue_id parent) projectId in
    issue <- Sdk.call (SdkCreateIssue createInput) (sdk_createIssue client createInput) ;;
    match issue with
    | Some iss =>
        let subtaskLabels := [js "effort:" ++ show_int (SubtaskInput.effort subtask)] in
        let subtaskLabels :=
          if (3 <? SubtaskInput.effort subtask)%Z
          then subtaskLabels ++ [js "needs-decomposition"]
          else subtaskLabels in
        addLabelsToIssue (issue_id iss) subtaskLabels ;;;
        task <- Sdk.call (SdkIssueToTask (issue_id iss)) (sdk_issueToTask client iss) ;;
        Sdk.ret (createdSubtasks ++ [task])
    | None => Sdk.ret createdSubtasks
    end.

Fixpoint decompose_all (parent : Issue) (subtasks : list SubtaskInput.t)
    (createdSubtasks : list Task.t) : Sdk.t W (list Task.t) :=
  match subtasks with
  | [] => Sdk.ret createdSubtasks
  | subtask :: rest =>
      createdSubtasks <- decompose_one parent createdSubtasks subtask ;;
      decompose_all parent rest createdSubtasks
  end.

Definition decomposeTask (input : DecomposeTaskInput) : Sdk.t W (list Task.t) :=
  let taskID := decompose_taskID input in
  found <- Sdk.call (SdkIssue taskID) (sdk_issue client taskID) ;;
  match found with
  | None => Sdk.throw (TaskNotFound taskID)
  | Some parent =>
      let metadata := parseMetadata (text (issue_description parent)) in
      if negb (3 <? Metadata.effort metadata)%Z
      then Sdk.throw (External (js "Task " ++ taskID ++ js " (effort: "
                                ++ show_int (Metadata.effort metadata)
                                ++ js ") does not require decomposition"))
      else
        (if truthy (decompositionReason input)
         then
           let body := js "**Decomposition Reason:** " ++ text (decompositionReason input) in
           Sdk.call (SdkCreateComment (issue_id parent) body)
                    (sdk_createComment client (issue_id parent) body)
         else Sdk.ret tt) ;;;
        createdSubtasks <- decompose_all parent (decompose_subtasks input) [] ;;
        removeLabelFromIssue (issue_id parent) (js "needs-decomposition") ;;;
        Sdk.ret createdSubtasks
  end.

End Methods.
End LinearSdk.

Arguments LinearSdk.addLabelsToIssue {W} client teamId issueId labelNames.
Arguments LinearSdk.removeLabelFromIssue {W} client issueId labelName.
Arguments LinearSdk.setLabelsOnIssue {W} client teamId issueId labelNames.
Arguments LinearSdk.updateTaskEffort {W} client teamId taskID payload.
Arguments LinearSdk.decompose_one {W} client teamId parent createdSubtasks subtask.
Arguments LinearSdk.decompose_all {W} client teamId parent subtasks createdSubtasks.
Arguments LinearSdk.decomposeTask {W} client teamId input.

(** What [decomposeTask] throws at a subtask whose effort is off the
    scale. *)
Definition subtask_effort_error (subtask : SubtaskInput.t) : Error :=
  External (js "Subtask " ++ [dquote] ++ SubtaskInput.title subtask ++ [dquote]
            ++ js " effort must be one of "
            ++ join_comma (map show_int FIBONACCI_EFFORT_VALUES)
            ++ js ", got " ++ show_int (SubtaskInput.effort subtask)).

(** The metadata [decomposeTask] stores for a subtask, and the issue it
    creates for it under [parent]. *)
Definition metadata_of_subtask (subtask : SubtaskInput.t) : Metadata.t :=
  Metadata.Build (SubtaskInput.goal subtask) (SubtaskInput.effort subtask)
    (SubtaskInput.effortReason subtask) (SubtaskInput.complexityBias subtask)
    (normalizeUncertainties (SubtaskInput.uncertainties subtask)) [].

Definition issue_of_subtask (teamId : str) (parent : Issue) (projectId : option str)
    (subtask : SubtaskInput.t) : SubIssueInput :=
  BuildSubIssue teamId (SubtaskInput.title subtask)
    (buildDescriptionWithMetadata (text (SubtaskInput.description subtask))
                                  (metadata_of_subtask subtask))
    (issue_id parent) projectId.

Definition sdk_outcome {W A : Type} (r : list SdkCall * W * (Error + A)) : Error + A :=
  snd r.

Definition odd_subtask : SubtaskInput.t :=
  SubtaskInput.Build (js "Part two") None None 4 None None None None None.

(** The description [updateTaskEffort] writes over [description]. *)
Definition patch_metadata (m : Metadata.t) (payload : EffortPayload) : Metadata.t :=
  let m := match payload_effort payload with
           | Some e => Metadata.with_effort m e
           | None => m
           end in
  let m := match payload_effortReason payload with
           | Some r => Metadata.with_effortReason m (Some r)
           | None => m
           end in
  match payload_complexityBias payload with
  | Some b => Metadata.with_complexityBias m (Some b)
  | None => m
  end.

Definition effort_description (description : str) (payload : EffortPayload) : str :=
  buildDescriptionWithMetadata (extractPlainDescription description)
    (patch_metadata (parseMetadata description) payload).

(** The labels [updateTaskEffort] sets on an issue that carries [existing]. *)
Definition effort_labels (existing : list str) (e : Z) : list str :=
  let retained :=
    filter (fun label => negb (startsWith (js "effort:") label)
                         && negb (str_eqb label (js "needs-decomposition")))
           existing in
  let next := retained ++ [js "effort:" ++ show_int e] in
  if (3 <? e)%Z then next ++ [js "needs-decomposition"] else next.

(** Prefixing the trace of a run. *)
Definition after_calls {W A : Type} (calls : list SdkCall)
    (r : list SdkCall * W * (Error + A)) : list SdkCall * W * (Error + A) :=
  match r with (tr, w, x) => (calls ++ tr, w, x) end.

Definition sdk_trace {W A : Type} (r : list SdkCall * W * (Error + A)) : list SdkCall :=
  fst (fst r).

(** The test of the loop of [addLabelsToIssue]: the team's first label of
    that name. *)
Definition team_label (teamLabels : list IssueLabel) (name : str) : option IssueLabel :=
  find (fun teamLabel => str_eqb (label_name teamLabel) name) teamLabels.

(** A tracker with one issue, kept in memory: the labels of the team, the
    description of the issue and the ids of its labels. *)
Record Board : Type := BuildBoard {
  board_team : list IssueLabel;
  board_description : str;
  board_labelIds : list str
}.

Definition board_labels (b : Board) : list IssueLabel :=
  flat_map (fun id => filter (fun l => str_eqb (label_id l) id) (board_team b))
           (board_labelIds b).

Definition board_update (b : Board) (input : IssueUpdate) : Board :=
  BuildBoard (board_team b)
             (match input_description input with
              | Some d => d
              | None => board_description b
              end)
             (match input_labelIds input with
              | Some ids => ids
              | None => board_labelIds b
              end).

Definition board_sdk : SdkClient Board :=
  BuildSdk
    (fun _ b => (inr (Some (board_team b)), b))
    (fun issueId b => (inr (Some (BuildIssue issueId (Some (board_description b)))), b))
    (fun _ b => (inr (Some (board_labels b)), b))
    (fun _ input b =>
       let b' := board_update b input in (inr (Some (board_labels b')), b'))
    (fun _ b => (inr None, b))
    (fun _ _ b => (inr tt, b))
    (fun input b =>
       (inr (Some (BuildIssue (js "S-" ++ sub_title input) (Some (sub_description input)))),
        b))
    (fun iss b => (inr (plain_task (issue_id iss) 0 backlog), b)).

Definition team_of_three : list IssueLabel :=
  [BuildLabel (js "L1") (js "effort:2"); BuildLabel (js "L2") (js "effort:5");
   BuildLabel (js "L3") (js "needs-decomposition"); BuildLabel (js "L4") (js "bug")].

Definition small_board : Board :=
  BuildBoard team_of_three (buildDescriptionWithMetadata (js "Plain") sample_metadata)
             [js "L4"; js "L1"].

(** A payload whose values the codec gives back unchanged. *)
Definition payload_ok (payload : EffortPayload) : bool :=
  match payload_effort payload with Some e => isFibonacciEffort e | None => true end
  && plain_opt (payload_effortReason payload)
  && bias_ok (payload_complexityBias payload).

Definition payload_empty (payload : EffortPayload) : bool :=
  negb (is_some (payload_effort payload))
  && negb (is_some (payload_effortReason payload))
  && negb (is_some (payload_complexityBias payload)).

(** The first write of [updateTaskEffort] on an issue that reads
    [description]. *)
Definition effort_update (description : option str) (payload : EffortPayload) : IssueUpdate :=
  BuildUpdate (Some (effort_description (text description) payload))
              (payload_effort payload) None.

Definition is_effort_label (label : str) : bool := startsWith (js "effort:") label.

Definition is_decomposition_label (label : str) : bool :=
  str_eqb label (js "needs-decomposition").

(** Every call of a run satisfies [P]. *)
Definition calls_all {W A : Type} (P : SdkCall -> Prop) (m : Sdk.t W A) : Prop :=
  forall w, Forall P (fst (fst (m w))).

(** A call that creates nothing but issues of the subtasks [subtasks]
    under [parent]. *)
Definition creates_only (teamId : str) (parent : Issue) (subtasks : list SubtaskInput.t)
    (c : SdkCall) : Prop :=
  forall input,
    c = SdkCreateIssue input ->
    exists subtask projectId,
      In subtask subtasks
      /\ isFibonacciEffort (SubtaskInput.effort subtask) = true
      /\ input = issue_of_subtask teamId parent projectId subtask.

(* ====================================================================== *)
(** * Properties *)
(* ====================================================================== *)

(** ** The monad *)

Lemma bind_ret_l W A B (a : A) (f : A -> M W B) (w : W) :
  bind (ret a) f w = f a w.
Proof.
  unfold bind, ret. destruct (f a w) as [[t w'] r]. reflexivity.
Qed.

Lemma bind_throw_l W A B (e : Error) (f : A -> M W B) (w : W) :
  bind (throw e) f w = ([], w, inl e).
Proof. reflexivity. Qed.

(** ** EffortPolicy *)

Lemma isFibonacciEffort_iff (value : Z) :
  isFibonacciEffort value = true <-> In value FIBONACCI_EFFORT_VALUES.
Proof.
  unfold isFibonacciEffort. rewrite existsb_exists. split.
  - intros [x [Hin Heq]]. apply Z.eqb_eq in Heq. now subst.
  - intros Hin. exists value. split; [assumption | apply Z.eqb_refl].
Qed.

Lemma needsDecomposition_iff (effort : Z) :
  needsDecomposition effort = true <-> (3 < effort)%Z.
Proof. unfold needsDecomposition. apply Z.ltb_lt. Qed.

(** ** UncertaintyPolicy *)

Lemma array_count_zero A (uncertainties : option (list A)) :
  array_count uncertainties = 0 <-> uncertainties = None \/ uncertainties = Some [].
Proof.
  destruct uncertainties as [[|a l]|]; simpl; split; intros H; auto;
    try discriminate; destruct H; discriminate.
Qed.

(** C2.  [validateForCreation] throws exactly when the effort exceeds 3
    and the uncertainty list is empty or absent, and what it throws is the
    missing-uncertainties error; for an effort of at most 3 it never
    throws; and whenever it does not throw it returns without logging
    anything and without touching the outside state. *)
Theorem validateForCreation_spec (W A : Type) (taskTitle : str) (effort : Z)
    (uncertainties : option (list A)) (w : W) :
  let r := validateForCreation taskTitle effort uncertainties w in
  ((exists e, outcome r = inl e) <->
     (3 < effort)%Z /\ (uncertainties = None \/ uncertainties = Some []))
  /\ (forall e, outcome r = inl e -> e = MissingUncertainties taskTitle effort)
  /\ ((effort <= 3)%Z -> forall e, outcome r <> inl e)
  /\ ((forall e, outcome r <> inl e) -> r = ([], w, inr tt)).
Proof.
  unfold validateForCreation, needsDecomposition.
  destruct (3 <? effort)%Z eqn:He; simpl.
  - apply Z.ltb_lt in He.
    destruct (Nat.eqb (array_count uncertainties) 0) eqn:Hc.
    + apply Nat.eqb_eq in Hc. apply array_count_zero in Hc.
      split; [|split; [|split]].
      * split; [intros _; split; assumption | intros _; eexists; reflexivity].
      * intros e Heq. cbv in Heq. congruence.
      * intros Hle. lia.
      * intros Hno. exfalso. eapply Hno. reflexivity.
    + apply Nat.eqb_neq in Hc. rewrite array_count_zero in Hc.
      split; [|split; [|split]].
      * split; [intros [e Heq]; discriminate Heq | intros [_ Hempty]; contradiction].
      * intros e Heq. discriminate Heq.
      * intros _ e Heq. discriminate Heq.
      * intros _. reflexivity.
  - apply Z.ltb_ge in He.
    split; [|split; [|split]].
    + split; [intros [e Heq]; discriminate Heq | intros [Hlt _]; lia].
    + intros e Heq. discriminate Heq.
    + intros _ e Heq. discriminate Heq.
    + intros _. reflexivity.
Qed.

(** C3.  [handleDecompositionGuard] counts the uncertainties of the task
    that have neither a resolution nor a resolvedAt.  In mode off it never
    throws; in mode block it throws the unresolved-uncertainties error
    exactly when the count is positive; in mode warn it never throws and
    hands the logger exactly one advisory when the count is positive and
    none when it is zero. *)
Theorem handleDecompositionGuard_spec (W : Type) (mode : UncertaintyResolutionMode)
    (task : Task.t) (w : W) :
  let n :=
    length (filter (fun u => negb (truthy (Uncertainty.resolution u))
                             && negb (truthy (Uncertainty.resolvedAt u)))
                   (or_nil (Task.uncertainties task))) in
  let r := handleDecompositionGuard mode task w in
  unresolvedCount task = n
  /\ match mode with
     | off => r = ([], w, inr tt)
     | block =>
         ((exists e, outcome r = inl e) <-> 0 < n)
         /\ (0 < n -> r = ([], w, inl (UnresolvedUncertainties (taskKey task) n)))
         /\ (n = 0 -> r = ([], w, inr tt))
     | warn =>
         outcome r = inr tt
         /\ (0 < n -> trace r = [Warn (ProceedingAnyway (taskKey task) n)])
         /\ (n = 0 -> trace r = [])
     end.
Proof.
  cbv zeta.
  assert (Hn : unresolvedCount task =
               length (filter (fun u => negb (truthy (Uncertainty.resolution u))
                                        && negb (truthy (Uncertainty.resolvedAt u)))
                              (or_nil (Task.uncertainties task)))).
  { unfold unresolvedCount, or_nil. destruct (Task.uncertainties task); reflexivity. }
  split; [exact Hn|].
  rewrite <- Hn. unfold handleDecompositionGuard.
  destruct mode.
  - reflexivity.
  - destruct (Nat.eqb (unresolvedCount task) 0) eqn:Hz.
    + apply Nat.eqb_eq in Hz.
      split; [reflexivity | split; [intros Hpos; lia | intros _; reflexivity]].
    + apply Nat.eqb_neq in Hz.
      split; [reflexivity | split; [intros _; reflexivity | intros Hzero; contradiction]].
  - destruct (Nat.eqb (unresolvedCount task) 0) eqn:Hz.
    + apply Nat.eqb_eq in Hz. split; [|split].
      * split; [intros [e He]; discriminate He | intros Hpos; lia].
      * intros Hpos. lia.
      * intros _. reflexivity.
    + apply Nat.eqb_neq in Hz. split; [|split].
      * split; [intros _; lia | intros _; eexists; reflexivity].
      * intros _. reflexivity.
      * intros Hzero. contradiction.
Qed.

(** ** ProjectResolver *)

Lemma resolve_shape (W : Type) (cfg : ResolverConfig) (requested : option str) (w : W) :
  exists t r,
    resolve cfg requested w = (t, w, r)
    /\ (forall e, In e t ->
          (exists p, e = Log (DefaultingToSoleProject p))
          \/ (exists ks, e = Warn (MultipleProjects ks))).
Proof.
  unfold resolve.
  destruct (truthy requested).
  - destruct (negb (has_project (cfg_projects cfg) (text requested))).
    + exists [], (inl (UnknownProject (text requested) (object_keys (cfg_projects cfg)))).
      split; [reflexivity | intros e []].
    + exists [], (inr requested). split; [reflexivity | intros e []].
  - destruct (truthy (cfg_defaultProject cfg)
              && has_project (cfg_projects cfg) (text (cfg_defaultProject cfg))).
    + exists [], (inr (cfg_defaultProject cfg)). split; [reflexivity | intros e []].
    + destruct (object_keys (cfg_projects cfg)) as [|k [|k' ks]].
      * exists [], (inr None). split; [reflexivity | intros e []].
      * exists [Log (DefaultingToSoleProject k)], (inr (Some k)).
        split; [reflexivity |].
        intros e [He | []]. left. exists k. now symmetry.
      * exists [Warn (MultipleProjects (k :: k' :: ks))], (inr None).
        split; [reflexivity |].
        intros e [He | []]. right. eexists. symmetry. exact He.
Qed.

(** ** WorkflowOrchestrator *)

Lemma before_creation_quiet (t0 pre' : list Event) (e : Event) :
  (forall e0, In e0 t0 ->
     (exists p, e0 = Log (DefaultingToSoleProject p))
     \/ (exists ks, e0 = Warn (MultipleProjects ks))) ->
  (forall e', In e' pre' -> exists v, e' = Log (EffortReasonAdvisory v)) ->
  In e (t0 ++ pre') ->
  (forall c, e <> Called c) /\ ~ decomposition_advisory e.
Proof.
  intros Ht0 Hpre' Hin. apply in_app_or in Hin.
  assert (Hcases : (exists p, e = Log (DefaultingToSoleProject p))
                   \/ (exists ks, e = Warn (MultipleProjects ks))
                   \/ (exists v, e = Log (EffortReasonAdvisory v))).
  { destruct Hin as [Hin | Hin].
    - destruct (Ht0 e Hin) as [H | H]; auto.
    - right. right. now apply Hpre'. }
  destruct Hcases as [[p ->] | [[ks ->] | [v ->]]];
    (split; [intros c Hc; discriminate Hc |
             intros [[k [n Hd]] | [n Hd]]; discriminate Hd]).
Qed.

(** C5, counterexample.  With three uncertainties and effort 8 the input
    passes validation, the creation is delegated, and the escalated
    advisory is logged although the count is below 4. *)
Lemma createTask_escalates_at_three :
  let r := createTask stub_orchestrator three_risks tt in
  outcome r = inr (plain_task (js "task-123") 8 todo)
  /\ (3 < TaskInput.effort three_risks)%Z
  /\ length (or_nil (TaskInput.uncertainties three_risks)) = 3
  /\ In (Log (HighUncertaintyCount 3)) (trace r)
  /\ ~ (4 <= length (or_nil (TaskInput.uncertainties three_risks))).
Proof.
  vm_compute. repeat split; auto. intros H. do 3 apply le_S_n in H. inversion H.
Qed.

(** C5, amended.  When [createTask] returns a task for an input with
    effort above 3, its trace is: events none of which is a call or a
    decomposition advisory, then the delegated creation, then the
    decomposition advisory, then the escalated advisory exactly when the
    input has at least 3 uncertainties. *)
Theorem createTask_advisories (W : Type) (this : Orchestrator W) (input : TaskInput.t)
    (w : W) (task : Task.t)
    (Hok : outcome (createTask this input w) = inr task)
    (Heffort : (3 < TaskInput.effort input)%Z) :
  let count := length (or_nil (TaskInput.uncertainties input)) in
  exists pre createInput,
    trace (createTask this input w) =
      pre
      ++ [Called (CallLinearCreateTask createInput);
          Log (RequiresDecomposition (taskKey task) (TaskInput.effort input))]
      ++ (if 3 <=? count then [Log (HighUncertaintyCount count)] else [])
    /\ (forall e, In e pre -> (forall c, e <> Called c) /\ ~ decomposition_advisory e)
    /\ ((exists n, In (Log (HighUncertaintyCount n)) (trace (createTask this input w)))
        <-> 3 <= count).
Proof.
  cbv zeta.
  assert (Hshape : exists pre createInput,
    trace (createTask this input w) =
      pre
      ++ [Called (CallLinearCreateTask createInput);
          Log (RequiresDecomposition (taskKey task) (TaskInput.effort input))]
      ++ (if 3 <=? length (or_nil (TaskInput.uncertainties input))
          then [Log (HighUncertaintyCount (length (or_nil (TaskInput.uncertainties input))))]
          else [])
    /\ (forall e, In e pre -> (forall c, e <> Called c) /\ ~ decomposition_advisory e)).
  { remember (createTask this input w) as r eqn:Hr.
    unfold createTask in Hr.
    destruct (resolve_shape (resolverConfig this) (TaskInput.project input) w)
      as (t0 & r0 & Hres & Ht0).
    unfold bind at 1 in Hr. rewrite Hres in Hr.
    destruct r0 as [e0 | projectKey]; [subst r; unfold outcome in Hok; simpl in Hok; discriminate Hok|].
    set (createInput :=
           if truthy projectKey
              && negb (option_str_eqb projectKey (TaskInput.project input))
           then TaskInput.with_project input projectKey else input) in Hr.
    assert (Heff : TaskInput.effort createInput = TaskInput.effort input).
    { unfold createInput. destruct (_ && _); reflexivity. }
    assert (Hunc : TaskInput.uncertainties createInput = TaskInput.uncertainties input).
    { unfold createInput. destruct (_ && _); reflexivity. }
    rewrite Heff, Hunc in Hr.
    set (count := length (or_nil (TaskInput.uncertainties input))).
    assert (Hcount : match TaskInput.uncertainties input with
                     | Some us =>
                         when (W:=W) (3 <=? length us)
                              (emit (Log (HighUncertaintyCount (length us))))
                     | None => ret tt
                     end
                     = when (3 <=? count) (emit (Log (HighUncertaintyCount count)))).
    { unfold count. destruct (TaskInput.uncertainties input); reflexivity. }
    rewrite Hcount in Hr. clearbody count. clear Hcount.
    destruct (3 <=? count) eqn:Hc.
    all: unfold assertValidEffort, validateForCreation, validateEffortReason,
      needsDecomposition, when in Hr.
    all: assert (H3 : (3 <? TaskInput.effort input)%Z = true) by now apply Z.ltb_lt.
    all: assert (Hlow : (TaskInput.effort input <? 3)%Z = false) by (apply Z.ltb_ge; lia).
    all: rewrite H3, Hlow in Hr; simpl negb in Hr.
    all: destruct (isFibonacciEffort (TaskInput.effort input));
      [| subst r; unfold outcome in Hok; simpl in Hok; discriminate Hok].
    all: simpl negb in Hr; cbv iota in Hr.
    all: destruct (Nat.eqb (array_count (Some (or_nil (TaskInput.uncertainties input)))) 0);
      [subst r; unfold outcome in Hok; simpl in Hok; discriminate Hok|].
    all: unfold bind, ret, emit, call, throw in Hr.
    all: destruct (truthy (TaskInput.effortReason createInput)) eqn:Hreason;
      simpl in Hr;
      (destruct (linear_createTask this createInput w) as [[e1 | task'] w1] eqn:Hcreate;
       [subst r; unfold outcome in Hok; simpl in Hok; discriminate Hok|]).
    all: subst r; unfold outcome in Hok; simpl in Hok; injection Hok as <-;
      unfold trace; simpl fst.
    all: first
      [ exists (t0 ++ []), createInput; split;
        [ rewrite <- !app_assoc; reflexivity
        | intros e Hin; apply (@before_creation_quiet t0 [] e Ht0);
          [intros e' []| exact Hin] ]
      | exists (t0 ++ [Log (EffortReasonAdvisory (TaskInput.effort input))]), createInput;
        split;
        [ rewrite <- !app_assoc; reflexivity
        | intros e Hin;
          apply (@before_creation_quiet t0
                   [Log (EffortReasonAdvisory (TaskInput.effort input))] e Ht0);
          [ intros e' [<- | []]; eexists; reflexivity | exact Hin ] ] ]. }
  destruct Hshape as (pre & createInput & Htrace & Hpre).
  exists pre, createInput. split; [exact Htrace | split; [exact Hpre |]].
  rewrite Htrace. split.
  - intros [n Hin]. apply in_app_or in Hin. destruct Hin as [Hin | Hin].
    + exfalso. apply (proj2 (Hpre _ Hin)). right. now exists n.
    + destruct (3 <=? length (or_nil (TaskInput.uncertainties input))) eqn:Hc.
      * now apply Nat.leb_le.
      * simpl in Hin. destruct Hin as [Hin | [Hin | []]]; discriminate Hin.
  - intros Hc. apply Nat.leb_le in Hc. rewrite Hc. eexists.
    apply in_or_app. right. simpl. right. right. left. reflexivity.
Qed.

(** A witness of [createTask_advisories]: the input of the repository's
    own test, three uncertainties at effort 8. *)
Lemma createTask_advisories_witness :
  exists pre createInput,
    trace (createTask stub_orchestrator three_risks tt) =
      pre
      ++ [Called (CallLinearCreateTask createInput);
          Log (RequiresDecomposition (js "task-123") 8)]
      ++ [Log (HighUncertaintyCount 3)]
    /\ (forall e, In e pre -> (forall c, e <> Called c) /\ ~ decomposition_advisory e)
    /\ ((exists n, In (Log (HighUncertaintyCount n))
                      (trace (createTask stub_orchestrator three_risks tt)))
        <-> 3 <= 3).
Proof.
  exact (@createTask_advisories unit stub_orchestrator three_risks tt
           (plain_task (js "task-123") 8 todo) eq_refl eq_refl).
Defined.

(** ** TaskTreeEvaluator *)

Section TreeFacts.

Variable W : Type.
Variable loader : Loader W.

Lemma isEntireTreeDone_not_done (fuel : nat) (task : Task.t) (w : W) :
  status_eqb (Task.status task) done = false ->
  isEntireTreeDone (S fuel) task loader w = Some ([], w, inr false).
Proof. intros H. simpl. rewrite H. reflexivity. Qed.

Lemma isEntireTreeDone_leaf (fuel : nat) (task : Task.t) (w : W) :
  status_eqb (Task.status task) done = true ->
  is_leaf task ->
  isEntireTreeDone (S fuel) task loader w = Some ([], w, inr true).
Proof.
  intros H [Hs | Hs]; simpl; rewrite H, Hs; reflexivity.
Qed.

Lemma isEntireTreeDone_parent (fuel : nat) (task : Task.t) (sub : Task.t)
    (subs : list Task.t) (w : W) :
  status_eqb (Task.status task) done = true ->
  Task.subtasks task = Some (sub :: subs) ->
  isEntireTreeDone (S fuel) task loader w =
  subtasks_done (fun k => isEntireTreeDone fuel k loader) loader (sub :: subs) w.
Proof. intros H Hs. cbn [isEntireTreeDone]. rewrite H, Hs. reflexivity. Qed.

(** The loop stops at the first subtree that is not done: what follows
    it in the list is never looked at. *)
Lemma subtasks_done_short_circuit (self : Task.t -> Partial W bool)
    (before_ rest : list Task.t) (sub : Task.t) (w w0 w1 w2 : W)
    (t0 t1 t2 : list Event) (enriched : Task.t) :
  subtasks_done self loader before_ w = Some (t0, w0, inr true) ->
  enrich loader sub w0 = (t1, w1, inr enriched) ->
  self enriched w1 = Some (t2, w2, inr false) ->
  subtasks_done self loader (before_ ++ sub :: rest) w
  = Some (t0 ++ t1 ++ t2, w2, inr false).
Proof.
  revert w t0. induction before_ as [|b bs IH]; intros w t0 Hb He Hs.
  - simpl in Hb. injection Hb as <- <-. simpl. rewrite He, Hs. reflexivity.
  - simpl in Hb |- *.
    destruct (enrich loader b w) as [[tb wb] [eb | kb]]; [discriminate Hb|].
    destruct (self kb wb) as [[[tb2 wb2] [eb2 | [|]]]|]; try discriminate Hb.
    destruct (subtasks_done self loader bs wb2) as [[[tb3 wb3] rb3]|] eqn:Hbs;
      [|discriminate Hb].
    injection Hb as <- <- ->.
    rewrite (IH wb2 tb3 Hbs He Hs).
    rewrite <- !app_assoc. reflexivity.
Qed.

End TreeFacts.

(** C7.  [isEntireTreeDone] returns false when the root is not done; true
    for a done task without subtasks; true for a done parent whose only
    child is a leaf that the loader shows as a done leaf (or does not know,
    the stub itself being a done leaf); and false for a done parent as soon
    as the copy of a direct child the recursion continues with is not
    done, whatever that child's own subtasks are, the subtasks after it
    being neither loaded nor visited.  [fuel] bounds the recursion depth
    and every result holds from the stated depth on. *)
Theorem isEntireTreeDone_spec (W : Type) (loader : Loader W) :
  (forall fuel task w,
      status_eqb (Task.status task) done = false ->
      isEntireTreeDone (S fuel) task loader w = Some ([], w, inr false))
  /\ (forall fuel task w,
        status_eqb (Task.status task) done = true ->
        is_leaf task ->
        isEntireTreeDone (S fuel) task loader w = Some ([], w, inr true))
  /\ (forall fuel task child loaded w w1,
        status_eqb (Task.status task) done = true ->
        Task.subtasks task = Some [child] ->
        is_leaf child ->
        loader (Task.taskID child) w = (inr loaded, w1) ->
        let enriched := match loaded with Some k => k | None => child end in
        status_eqb (Task.status enriched) done = true ->
        is_leaf enriched ->
        isEntireTreeDone (S (S fuel)) task loader w
        = Some ([Called (CallLoader (Task.taskID child))], w1, inr true))
  /\ (forall fuel task before_ child rest w t0 w0 t1 w1 enriched,
        status_eqb (Task.status task) done = true ->
        Task.subtasks task = Some (before_ ++ child :: rest) ->
        subtasks_done (fun k => isEntireTreeDone (S fuel) k loader) loader before_ w
        = Some (t0, w0, inr true) ->
        enrich loader child w0 = (t1, w1, inr enriched) ->
        status_eqb (Task.status enriched) done = false ->
        isEntireTreeDone (S (S fuel)) task loader w = Some (t0 ++ t1, w1, inr false))
  /\ (forall fuel task child rest w,
        status_eqb (Task.status task) done = true ->
        Task.subtasks task = Some (child :: rest) ->
        populated child = true ->
        status_eqb (Task.status child) done = false ->
        isEntireTreeDone (S (S fuel)) task loader w = Some ([], w, inr false)).
Proof.
  split; [|split; [|split; [|split]]].
  - intros. now apply isEntireTreeDone_not_done.
  - intros. now apply isEntireTreeDone_leaf.
  - intros fuel task child loaded w w1 Hdone Hsubs Hleaf Hload enriched He Hel.
    rewrite (@isEntireTreeDone_parent W loader (S fuel) task _ _ w Hdone Hsubs).
    cbn [subtasks_done]. unfold enrich.
    assert (Hpop : populated child = false).
    { unfold populated. destruct Hleaf as [-> | ->]; reflexivity. }
    rewrite Hpop. unfold bind, call, ret. rewrite Hload. fold enriched.
    rewrite (@isEntireTreeDone_leaf W loader fuel enriched w1 He Hel).
    reflexivity.
  - intros fuel task before_ child rest w t0 w0 t1 w1 enriched Hdone Hsubs Hb He Hs.
    assert (Hne : exists s ss, before_ ++ child :: rest = s :: ss).
    { destruct before_; simpl; eauto. }
    destruct Hne as (s & ss & Hne). rewrite Hne in Hsubs.
    rewrite (@isEntireTreeDone_parent W loader (S fuel) task _ _ w Hdone Hsubs).
    rewrite <- Hne.
    rewrite (@subtasks_done_short_circuit W loader _ before_ rest child w w0 w1 w1
               t0 t1 [] enriched Hb He
               (@isEntireTreeDone_not_done W loader fuel enriched w1 Hs)).
    rewrite app_nil_r. reflexivity.
  - intros fuel task child rest w Hdone Hsubs Hpop Hs.
    rewrite (@isEntireTreeDone_parent W loader (S fuel) task _ _ w Hdone Hsubs).
    cbn [subtasks_done]. unfold enrich. rewrite Hpop. unfold ret.
    rewrite (@isEntireTreeDone_not_done W loader fuel child w Hs). reflexivity.
Qed.

(** A witness of [isEntireTreeDone_spec]: the tree of the repository's
    test, a done root whose child stub the loader completes. *)
Lemma isEntireTreeDone_spec_witness :
  isEntireTreeDone 2 (root_over child_done) (table_loader [child_done]) tt
  = Some ([Called (CallLoader (js "child"))], tt, inr true)
  /\ isEntireTreeDone 2 (root_over child_todo) (table_loader [child_todo]) tt
     = Some ([Called (CallLoader (js "child"))], tt, inr false).
Proof.
  split.
  - exact (proj1 (proj2 (proj2 (isEntireTreeDone_spec (table_loader [child_done]))))
             0 (root_over child_done) child_done (Some child_done) tt tt
             eq_refl eq_refl (or_introl eq_refl) eq_refl eq_refl (or_introl eq_refl)).
  - exact (proj1 (proj2 (proj2 (proj2 (isEntireTreeDone_spec (table_loader [child_todo])))))
             0 (root_over child_todo) [] child_todo [] tt [] tt
             [Called (CallLoader (js "child"))] tt child_todo
             eq_refl eq_refl eq_refl eq_refl eq_refl).
Defined.

(** ** TaskFilter *)

Lemma filter_map_commute (A : Type) (p : A -> bool) (h : A -> A) (l : list A) :
  (forall a, p (h a) = p a) ->
  filter p (map h l) = map h (filter p l).
Proof.
  intros Hp. induction l as [|a l IH]; simpl; [reflexivity|].
  rewrite Hp. destruct (p a); simpl; now rewrite IH.
Qed.

Lemma hasUnresolved_set_resolvedAt (g : Uncertainty.t -> option str) (task : Task.t) :
  hasUnresolved (set_resolvedAt g task) = hasUnresolved task.
Proof.
  unfold hasUnresolved, set_resolvedAt. simpl.
  destruct (Task.uncertainties task) as [us|]; simpl; [|reflexivity].
  induction us as [|u us IH]; simpl; [reflexivity|]. now rewrite IH.
Qed.

Lemma hasUnresolved_iff (task : Task.t) :
  hasUnresolved task = true <->
  exists u, In u (or_nil (Task.uncertainties task))
            /\ truthy (Uncertainty.resolution u) = false.
Proof.
  unfold hasUnresolved. rewrite existsb_exists. split; intros [u [Hin Hu]]; exists u.
  - split; [assumption|]. now apply negb_true_iff.
  - split; [assumption|]. now apply negb_true_iff.
Qed.

Lemma filterTasks_set_resolvedAt (g : Uncertainty.t -> option str)
    (tasks : list Task.t) (f : option TaskFilter) (context : TaskFilterContext) :
  filterTasks (map (set_resolvedAt g) tasks) f context
  = map (set_resolvedAt g) (filterTasks tasks f context).
Proof.
  destruct f as [f|]; [|reflexivity]. unfold filterTasks.
  repeat match goal with
  | |- context [match ?x with _ => _ end] =>
      match x with
      | context [filter] => fail 1
      | context [map] => fail 1
      | _ => destruct x
      end
  end;
  repeat (rewrite filter_map_commute;
          [| intros a; try rewrite hasUnresolved_set_resolvedAt; reflexivity]);
  reflexivity.
Qed.

Lemma filterTasks_subset (tasks : list Task.t) (f : TaskFilter)
    (context : TaskFilterContext) (wanted : bool) (task : Task.t) :
  has_unresolved_uncertainties f = Some wanted ->
  In task (filterTasks tasks (Some f) context) ->
  In task tasks /\ hasUnresolved task = wanted.
Proof.
  intros Hf. unfold filterTasks. rewrite Hf.
  repeat match goal with
  | |- context [match ?x with _ => _ end] =>
      match x with
      | context [filter] => fail 1
      | _ => destruct x
      end
  end;
  repeat (rewrite filter_In; intros [? ?]);
  repeat match goal with
  | H : In _ (filter _ _) |- _ => apply filter_In in H; destruct H
  end;
  (split; [assumption|]);
  repeat match goal with
  | H : negb _ = true |- _ => apply negb_true_iff in H
  | H : _ && _ = true |- _ => apply andb_true_iff in H; destruct H
  end; try assumption; try (intros Hin; exact Hin).
Qed.


(** ** LinearService.batchCreateTasks *)

Section BatchFacts.

Variable W : Type.
Variable this : LinearService W.

Lemma for_each_index_check (size i : nat) (batchIndexes : list nat) (w : W) :
  for_each
    (fun idx : nat =>
       if size <=? idx then throw (BatchIndexOutOfRange i idx size)
       else if Nat.eqb idx i then throw (SelfDependency i)
       else if i <? idx then throw (ForwardDependency i idx)
       else ret tt)
    batchIndexes w
  = ([], w, match index_error size i batchIndexes with
            | Some e => inl e
            | None => inr tt
            end).
Proof.
  induction batchIndexes as [|idx rest IH]; simpl; [reflexivity|].
  unfold bind.
  destruct (size <=? idx); [reflexivity|].
  destruct (Nat.eqb idx i); [reflexivity|].
  destruct (i <? idx); [reflexivity|].
  unfold ret at 1. rewrite IH. reflexivity.
Qed.

(** Validating an item neither logs, nor calls out, nor changes the
    outside state. *)
Lemma validate_item_run (size i : nat) (task : TaskInput.t) (w : W) :
  validate_item (W:=W) size i task w
  = ([], w, match item_error size i task with
            | Some e => inl e
            | None => inr tt
            end).
Proof.
  unfold validate_item, item_error, bind.
  destruct (negb (isFibonacciEffort (TaskInput.effort task))); [reflexivity|].
  unfold ret at 1.
  destruct ((3 <? TaskInput.effort task)%Z
            && Nat.eqb (length (normalizeUncertainties (TaskInput.uncertainties task))) 0);
    [reflexivity|].
  unfold ret at 1. rewrite for_each_index_check. reflexivity.
Qed.

Lemma validate_all_run (size i : nat) (tasks : list TaskInput.t) (w : W) :
  for_indexed (validate_item (W:=W) size) i tasks w
  = ([], w, match batch_error size i tasks with
            | Some e => inl e
            | None => inr tt
            end).
Proof.
  revert i. induction tasks as [|task rest IH]; intros i; simpl; [reflexivity|].
  unfold bind. rewrite validate_item_run.
  destruct (item_error size i task); [reflexivity|].
  rewrite IH. reflexivity.
Qed.

Lemma batchCreateTasks_invalid (tasks : list TaskInput.t) (w : W) (e : Error) :
  0 < length tasks <= 50 ->
  batch_error (length tasks) 0 tasks = Some e ->
  batchCreateTasks this tasks w = ([], w, inl e).
Proof.
  intros [Hpos Hmax] He. unfold batchCreateTasks.
  destruct (Nat.eqb (length tasks) 0) eqn:H0; [apply Nat.eqb_eq in H0; lia|].
  destruct (50 <? length tasks) eqn:H50; [apply Nat.ltb_lt in H50; lia|].
  unfold bind at 1. rewrite validate_all_run, He. reflexivity.
Qed.

Lemma batchCreateTasks_valid (tasks : list TaskInput.t) (w : W) :
  0 < length tasks <= 50 ->
  batch_error (length tasks) 0 tasks = None ->
  batchCreateTasks this tasks w
  = (created <- create_all this 0 tasks [] [] ;;
     for_indexed (annotate_item this (snd created)) 0 tasks ;;;
     ret (fst created)) w.
Proof.
  intros [Hpos Hmax] He. unfold batchCreateTasks.
  destruct (Nat.eqb (length tasks) 0) eqn:H0; [apply Nat.eqb_eq in H0; lia|].
  destruct (50 <? length tasks) eqn:H50; [apply Nat.ltb_lt in H50; lia|].
  unfold bind at 1. rewrite validate_all_run, He.
  match goal with
  | |- match ?m w with _ => _ end = _ => destruct (m w) as [[t w'] r]
  end.
  reflexivity.
Qed.

End BatchFacts.

Lemma index_error_None (size i : nat) (batchIndexes : list nat) :
  index_error size i batchIndexes = None <->
  forall idx, In idx batchIndexes -> idx < size /\ idx <> i /\ idx < i.
Proof.
  induction batchIndexes as [|idx rest IH]; simpl.
  - split; [intros _ idx [] | reflexivity].
  - destruct (size <=? idx) eqn:H1.
    { apply Nat.leb_le in H1. split; [discriminate|].
      intros H. destruct (H idx (or_introl eq_refl)). lia. }
    apply Nat.leb_gt in H1.
    destruct (Nat.eqb idx i) eqn:H2.
    { apply Nat.eqb_eq in H2. split; [discriminate|].
      intros H. destruct (H idx (or_introl eq_refl)) as (_ & Hne & _). contradiction. }
    apply Nat.eqb_neq in H2.
    destruct (i <? idx) eqn:H3.
    { apply Nat.ltb_lt in H3. split; [discriminate|].
      intros H. destruct (H idx (or_introl eq_refl)) as (_ & _ & Hlt). lia. }
    apply Nat.ltb_ge in H3.
    rewrite IH. split.
    + intros H idx' [<- | Hin]; [lia | now apply H].
    + intros H idx' Hin. apply H. now right.
Qed.

Lemma item_error_None (size i : nat) (task : TaskInput.t) :
  item_error size i task = None <-> item_valid size i task.
Proof.
  unfold item_error, item_valid.
  destruct (isFibonacciEffort (TaskInput.effort task)); simpl.
  2: { split; [discriminate | intros [H _]; discriminate H]. }
  destruct (3 <? TaskInput.effort task)%Z eqn:H3; simpl.
  - apply Z.ltb_lt in H3.
    destruct (normalizeUncertainties (TaskInput.uncertainties task)) as [|u us]; simpl.
    + split; [discriminate|]. intros (_ & H & _). exfalso. now apply H.
    + rewrite index_error_None. split.
      * intros H. repeat split; try discriminate; now apply H.
      * intros (_ & _ & H). exact H.
  - apply Z.ltb_ge in H3. rewrite index_error_None. split.
    + intros H. split; [reflexivity|]. split; [intros; lia | exact H].
    + intros (_ & _ & H). exact H.
Qed.

Lemma batch_error_None (size i : nat) (tasks : list TaskInput.t) :
  batch_error size i tasks = None <->
  forall j task, nth_error tasks j = Some task -> item_valid size (i + j) task.
Proof.
  revert i. induction tasks as [|t rest IH]; intros i; simpl.
  - split; [|reflexivity]. intros _ [|j] task H; discriminate H.
  - destruct (item_error size i t) eqn:He.
    + split; [discriminate|]. intros H.
      assert (Hv : item_valid size (i + 0) t) by (apply H; reflexivity).
      rewrite Nat.add_0_r in Hv. apply item_error_None in Hv. congruence.
    + apply item_error_None in He. rewrite IH. split.
      * intros H [|j] task Hn; simpl in Hn.
        -- injection Hn as <-. now rewrite Nat.add_0_r.
        -- rewrite <- Nat.add_succ_comm. now apply H.
      * intros H j task Hn. rewrite Nat.add_succ_comm. now apply (H (S j)).
Qed.

Lemma index_error_forward (size i idx : nat) (earlier rest : list nat) :
  (forall d, In d earlier -> d < i) ->
  i < idx < size ->
  index_error size i (earlier ++ idx :: rest) = Some (ForwardDependency i idx).
Proof.
  intros Hearlier [Hlt Hsize].
  induction earlier as [|d ds IH]; simpl.
  - assert (H1 : (size <=? idx) = false) by (apply Nat.leb_gt; lia).
    assert (H2 : Nat.eqb idx i = false) by (apply Nat.eqb_neq; lia).
    assert (H3 : (i <? idx) = true) by (apply Nat.ltb_lt; lia).
    now rewrite H1, H2, H3.
  - assert (Hd : d < i) by (apply Hearlier; now left).
    assert (H1 : (size <=? d) = false) by (apply Nat.leb_gt; lia).
    assert (H2 : Nat.eqb d i = false) by (apply Nat.eqb_neq; lia).
    assert (H3 : (i <? d) = false) by (apply Nat.ltb_ge; lia).
    rewrite H1, H2, H3. apply IH. intros d' Hin. apply Hearlier. now right.
Qed.

Lemma batch_error_at (size i0 i : nat) (tasks : list TaskInput.t) (task : TaskInput.t)
    (e : Error) :
  nth_error tasks i = Some task ->
  (forall j t, j < i -> nth_error tasks j = Some t -> item_valid size (i0 + j) t) ->
  item_error size (i0 + i) task = Some e ->
  batch_error size i0 tasks = Some e.
Proof.
  revert i0 i. induction tasks as [|t rest IH]; intros i0 i Hn Hbefore He.
  - destruct i; discriminate Hn.
  - destruct i as [|i]; simpl in Hn |- *.
    + injection Hn as ->. rewrite Nat.add_0_r in He. now rewrite He.
    + assert (Ht : item_error size i0 t = None).
      { apply item_error_None. rewrite <- (Nat.add_0_r i0).
        apply Hbefore; [lia | reflexivity]. }
      rewrite Ht. apply (IH (S i0) i Hn).
      * intros j t' Hj Hnj. rewrite Nat.add_succ_comm. apply Hbefore; [lia | exact Hnj].
      * now rewrite Nat.add_succ_comm.
Qed.

(** C4.  [batchCreateTasks] validates every item before it creates
    anything: when some item is invalid the call fails with that item's
    error without a single outside call and with the outside state
    untouched, and only when every item is valid does creation start.  An
    item is valid when its effort is on the scale, an effort above 3 comes
    with an uncertainty, and every index in [dependsOnBatchIndex] is in
    range, is not the item's own position and is strictly earlier.  A
    dependency on a later position of the batch fails with
    [ForwardDependency].  The batch [A; B depending on 0] is created;
    the same batch with A depending on 1 fails with
    [ForwardDependency 0 1]. *)
Theorem batchCreateTasks_validates_first (W : Type) (this : LinearService W) :
  (forall tasks w e,
      0 < length tasks <= 50 ->
      batch_error (length tasks) 0 tasks = Some e ->
      batchCreateTasks this tasks w = ([], w, inl e))
  /\ (forall tasks w,
        0 < length tasks <= 50 ->
        batch_error (length tasks) 0 tasks = None ->
        batchCreateTasks this tasks w
        = (created <- create_all this 0 tasks [] [] ;;
           for_indexed (annotate_item this (snd created)) 0 tasks ;;;
           ret (fst created)) w)
  /\ (forall tasks,
        batch_error (length tasks) 0 tasks = None <->
        forall i task, nth_error tasks i = Some task -> item_valid (length tasks) i task)
  /\ (forall tasks w i task earlier idx rest,
        0 < length tasks <= 50 ->
        nth_error tasks i = Some task ->
        (forall j t, j < i -> nth_error tasks j = Some t -> item_valid (length tasks) j t) ->
        isFibonacciEffort (TaskInput.effort task) = true ->
        ((3 < TaskInput.effort task)%Z ->
         normalizeUncertainties (TaskInput.uncertainties task) <> []) ->
        TaskInput.dependsOnBatchIndex task = Some (earlier ++ idx :: rest) ->
        (forall d, In d earlier -> d < i) ->
        i < idx < length tasks ->
        batchCreateTasks this tasks w = ([], w, inl (ForwardDependency i idx)))
  /\ (forall w, batchCreateTasks this batch_forward w
                = ([], w, inl (ForwardDependency 0 1)))
  /\ (batch_error 2 0 batch_backward = None
      /\ exists a b,
           outcome (batchCreateTasks counting_service batch_backward 0) = inr [a; b]).
Proof.
  split; [|split; [|split; [|split; [|split]]]].
  - intros. now apply batchCreateTasks_invalid.
  - intros. now apply batchCreateTasks_valid.
  - intros tasks. apply (batch_error_None (length tasks) 0 tasks).
  - intros tasks w i task earlier idx rest Hlen Hn Hbefore Hfib Hunc Hdeps Hearlier Hidx.
    apply batchCreateTasks_invalid; [exact Hlen|].
    apply (@batch_error_at (length tasks) 0 i tasks task); [exact Hn | exact Hbefore |].
    unfold item_error. rewrite Hfib. simpl.
    assert (Hu : (3 <? TaskInput.effort task)%Z
                 && Nat.eqb (length (normalizeUncertainties (TaskInput.uncertainties task))) 0
                 = false).
    { destruct (3 <? TaskInput.effort task)%Z eqn:H3; [|reflexivity].
      apply Z.ltb_lt in H3. specialize (Hunc H3).
      destruct (normalizeUncertainties (TaskInput.uncertainties task));
        [contradiction | reflexivity]. }
    rewrite Hu, Hdeps. simpl. now apply index_error_forward.
  - intros w. apply batchCreateTasks_invalid; [simpl; lia | reflexivity].
  - split; [reflexivity|]. vm_compute. eexists. eexists. reflexivity.
Qed.

(** A witness of [batchCreateTasks_validates_first]: the forward batch on
    the counting tracker fails before the tracker is asked anything. *)
Lemma batchCreateTasks_validates_first_witness :
  batchCreateTasks counting_service batch_forward 0 = ([], 0, inl (ForwardDependency 0 1)).
Proof.
  apply (proj1 (batchCreateTasks_validates_first counting_service)
           batch_forward 0 (ForwardDependency 0 1)).
  - simpl. lia.
  - reflexivity.
Defined.

(* ====================================================================== *)
(** ** Strings *)
(* ====================================================================== *)

Lemma str_eqb_eq (a b : str) : str_eqb a b = true <-> a = b.
Proof.
  unfold str_eqb. destruct (list_eq_dec ascii_dec a b); split; congruence.
Qed.

Lemma str_eqb_refl (a : str) : str_eqb a a = true.
Proof. now apply str_eqb_eq. Qed.

Lemma str_eqb_neq (a b : str) : str_eqb a b = false <-> a <> b.
Proof.
  unfold str_eqb. destruct (list_eq_dec ascii_dec a b); split; congruence.
Qed.

Lemma strip_prefix_app (p s : str) : strip_prefix p (p ++ s) = Some s.
Proof.
  induction p as [|a p IH]; simpl; [reflexivity|].
  now rewrite Ascii.eqb_refl.
Qed.

Lemma strip_prefix_Some (p s r : str) : strip_prefix p s = Some r -> s = p ++ r.
Proof.
  revert s. induction p as [|a p IH]; intros s H; simpl in H.
  - now injection H as ->.
  - destruct s as [|b s]; [discriminate|].
    destruct (Ascii.eqb a b) eqn:E; [|discriminate].
    apply Ascii.eqb_eq in E. subst b. simpl. f_equal. now apply IH.
Qed.

Lemma clash_sound (p s t : str) : clash p s = true -> strip_prefix p (s ++ t) = None.
Proof.
  revert s. induction p as [|a p IH]; intros s H; simpl in H; [discriminate|].
  destruct s as [|b s]; [discriminate|]. simpl.
  destruct (Ascii.eqb a b); [now apply IH | reflexivity].
Qed.

Lemma clash_app (p s t : str) : clash p s = true -> clash p (s ++ t) = true.
Proof.
  revert s. induction p as [|a p IH]; intros s H; simpl in H; [discriminate|].
  destruct s as [|b s]; [discriminate|]. simpl.
  destruct (Ascii.eqb a b); [now apply IH | reflexivity].
Qed.

Lemma keyfree_nowhere (p b t : str) : keyfree p b = true -> nowhere p b t.
Proof.
  induction b as [|c b IH]; simpl; [trivial|].
  intros H. apply andb_true_iff in H. destruct H as [Hc Hk]. split.
  - now apply (clash_sound p (c :: b) t).
  - now apply IH.
Qed.

Lemma nowhere_app (p b1 b2 t : str) :
  nowhere p b1 (b2 ++ t) -> nowhere p b2 t -> nowhere p (b1 ++ b2) t.
Proof.
  induction b1 as [|c b1 IH]; simpl; [trivial|].
  intros [H1 H2] H3. split.
  - now rewrite <- app_assoc.
  - now apply IH.
Qed.

(** A literal cannot start where its first character does not occur. *)
Lemma nowhere_without_head (c : ascii) (p b t : str) :
  forallb (fun x => negb (Ascii.eqb c x)) b = true -> nowhere (c :: p) b t.
Proof.
  induction b as [|x b IH]; simpl; [trivial|].
  intros H. apply andb_true_iff in H. destruct H as [Hx Hb]. split.
  - apply negb_true_iff in Hx. now rewrite Hx.
  - now apply IH.
Qed.

Lemma strip_prefix_split (p f t r : str) :
  strip_prefix p (f ++ t) = Some r ->
  startsWith p f = true
  \/ exists p2, p2 <> [] /\ p = f ++ p2 /\ strip_prefix p2 t = Some r.
Proof.
  revert f. induction p as [|a p IH]; intros f H.
  - left. reflexivity.
  - destruct f as [|b f].
    + right. exists (a :: p). split; [discriminate | split; [reflexivity | exact H]].
    + simpl in H. unfold startsWith. simpl.
      destruct (Ascii.eqb a b) eqn:E; [|discriminate].
      apply Ascii.eqb_eq in E. subst b.
      destruct (IH f H) as [Hs | (p2 & Hne & Hp & Hr)].
      * left. exact Hs.
      * right. exists p2. split; [exact Hne | split; [now rewrite Hp | exact Hr]].
Qed.

(** A literal that does not occur inside [f] cannot start inside [f]
    either when the text after [f] is empty or begins with a character the
    literal does not have. *)
Lemma nowhere_not_included (p f t : str) :
  includes p f = false ->
  match t with [] => True | c :: _ => ~ In c p end ->
  nowhere p f t.
Proof.
  intros Hinc Ht. induction f as [|b f IH]; simpl; [trivial|].
  simpl in Hinc. apply orb_false_iff in Hinc. destruct Hinc as [Hs Hinc].
  split; [|now apply IH].
  change (strip_prefix p ((b :: f) ++ t) = None).
  destruct (strip_prefix p ((b :: f) ++ t)) as [r|] eqn:E; [|reflexivity].
  exfalso. destruct (strip_prefix_split p (b :: f) t E) as [H | (p2 & Hne & Hp & Hr)].
  - congruence.
  - destruct p2 as [|c2 p2]; [now apply Hne|].
    destruct t as [|c t]; [discriminate Hr|].
    simpl in Hr. destruct (Ascii.eqb c2 c) eqn:Ec; [|discriminate].
    apply Ascii.eqb_eq in Ec. subst c2. apply Ht. rewrite Hp.
    apply in_or_app. right. now left.
Qed.

(** *** [trim] *)

Lemma trimStart_solid (s : str) : starts_solid s = true -> trimStart s = s.
Proof.
  destruct s as [|c s]; simpl; [discriminate|].
  intros H. apply negb_true_iff in H. unfold trimStart. simpl. now rewrite H.
Qed.

Lemma trimEnd_solid (s : str) : ends_solid s = true -> trimEnd s = s.
Proof.
  unfold ends_solid, trimEnd. intros H.
  fold (trimStart (rev s)). rewrite (trimStart_solid (rev s) H). apply rev_involutive.
Qed.

Lemma trim_solid (s : str) : starts_solid s = true -> ends_solid s = true -> trim s = s.
Proof.
  intros H1 H2. unfold trim. rewrite (trimStart_solid s H1). now apply trimEnd_solid.
Qed.

Lemma ends_solid_app (a b : str) : ends_solid b = true -> ends_solid (a ++ b) = true.
Proof.
  unfold ends_solid. rewrite rev_app_distr.
  destruct (rev b) as [|c r]; simpl; [discriminate | trivial].
Qed.

Lemma trimStart_spaces (a s : str) :
  forallb is_space a = true -> trimStart (a ++ s) = trimStart s.
Proof.
  induction a as [|c a IH]; simpl; [reflexivity|].
  intros H. apply andb_true_iff in H. destruct H as [Hc Ha].
  unfold trimStart in *. simpl. rewrite Hc. now apply IH.
Qed.

Lemma trim_empty : trim [] = [].
Proof. reflexivity. Qed.

Lemma drop_while_idem (p : ascii -> bool) (s : str) :
  drop_while p (drop_while p s) = drop_while p s.
Proof.
  induction s as [|c s IH]; simpl; [reflexivity|].
  destruct (p c) eqn:E; [exact IH | simpl; now rewrite E].
Qed.

Lemma drop_while_suffix (p : ascii -> bool) (s : str) :
  exists a, s = a ++ drop_while p s /\ forallb p a = true.
Proof.
  induction s as [|c s (a & Hs & Ha)]; simpl.
  - exists []. split; reflexivity.
  - destruct (p c) eqn:E.
    + exists (c :: a). split; [simpl; now f_equal | simpl; now rewrite E].
    + exists []. split; reflexivity.
Qed.

Lemma starts_solid_drop_while (s : str) :
  drop_while is_space s = [] \/ starts_solid (drop_while is_space s) = true.
Proof.
  induction s as [|c s IH]; simpl; [now left|].
  destruct (is_space c) eqn:E; [exact IH|]. right. simpl. now rewrite E.
Qed.

(** [trim] is idempotent. *)
Lemma trim_idem (s : str) : trim (trim s) = trim s.
Proof.
  unfold trim, trimEnd, trimStart.
  set (u := drop_while is_space s).
  set (v := drop_while is_space (rev u)).
  destruct (starts_solid_drop_while (rev u)) as [Hv | Hv]; fold v in Hv.
  - rewrite Hv. reflexivity.
  - assert (Hrv : drop_while is_space (rev v) = rev v).
    { destruct (starts_solid_drop_while s) as [Hu | Hu]; fold u in Hu.
      - unfold v. rewrite Hu. reflexivity.
      - destruct (drop_while_suffix is_space (rev u)) as (a & Hs & Ha). fold v in Hs.
        assert (Hu' : u = rev v ++ rev a).
        { rewrite <- (rev_involutive u), Hs, rev_app_distr. reflexivity. }
        destruct (rev v) as [|c r] eqn:Erv.
        + reflexivity.
        + rewrite Hu' in Hu. simpl in Hu. simpl. apply negb_true_iff in Hu.
          now rewrite Hu. }
    rewrite Hrv, rev_involutive. fold (drop_while is_space v).
    unfold v at 1. rewrite drop_while_idem. reflexivity.
Qed.

(* ====================================================================== *)
(** ** The matcher *)
(* ====================================================================== *)

Lemma firstn_consumed (l s : str) : firstn (length (l ++ s) - length s) (l ++ s) = l.
Proof.
  rewrite length_app, Nat.add_sub.
  rewrite firstn_app, Nat.sub_diag, firstn_all. simpl. apply app_nil_r.
Qed.

Lemma stops_app (p : ascii -> bool) (a s : str) :
  starts_solid a = true -> stops is_space (a ++ s).
Proof.
  destruct a as [|c a]; simpl; [discriminate|]. intros H. now apply negb_true_iff.
Qed.

(** A greedy star over a run of class characters that ends where the
    class stops: when the continuation succeeds there, that is the
    result. *)
Lemma star_greedy_run (p : ascii -> bool) (k : cont) (l s : str) (c : caps)
    (x : caps * str) :
  forallb p l = true ->
  stops p s ->
  k s c = Some x ->
  star_greedy p k (l ++ s) c = Some x.
Proof.
  intros Hl Hs Hk. induction l as [|a l IH]; simpl.
  - destruct s as [|b s]; simpl; [exact Hk|]. simpl in Hs. now rewrite Hs.
  - simpl in Hl. apply andb_true_iff in Hl. destruct Hl as [Ha Hl].
    rewrite Ha, (IH Hl). reflexivity.
Qed.

Lemma plus_run (p : ascii -> bool) (k : cont) (l s : str) (c : caps) (x : caps * str) :
  l <> [] ->
  forallb p l = true ->
  stops p s ->
  k s c = Some x ->
  rmatch (Plus p) k (l ++ s) c = Some x.
Proof.
  intros Hne Hl Hs Hk. destruct l as [|a l]; [contradiction|].
  simpl in Hl. apply andb_true_iff in Hl. destruct Hl as [Ha Hl].
  simpl. rewrite Ha. now apply star_greedy_run.
Qed.

(** A captured greedy run. *)
Lemma group_plus_run (n : nat) (p : ascii -> bool) (k : cont) (l s : str) (c : caps)
    (x : caps * str) :
  l <> [] ->
  forallb p l = true ->
  stops p s ->
  k s ((n, l) :: c) = Some x ->
  rmatch (Grp n (Plus p)) k (l ++ s) c = Some x.
Proof.
  intros Hne Hl Hs Hk. cbn [rmatch].
  change (rmatch (Plus p)
            (fun s' c' => k s' ((n, firstn (length (l ++ s) - length s') (l ++ s)) :: c'))
            (l ++ s) c = Some x).
  apply plus_run; try assumption. now rewrite firstn_consumed.
Qed.

Lemma group_star_run (n : nat) (p : ascii -> bool) (k : cont) (l s : str) (c : caps)
    (x : caps * str) :
  forallb p l = true ->
  stops p s ->
  k s ((n, l) :: c) = Some x ->
  rmatch (Grp n (Star p)) k (l ++ s) c = Some x.
Proof.
  intros Hl Hs Hk. cbn [rmatch].
  apply star_greedy_run; try assumption. now rewrite firstn_consumed.
Qed.

Lemma lit_app (l : str) (k : cont) (s : str) (c : caps) :
  rmatch (Lit l) k (l ++ s) c = k s c.
Proof. cbn [rmatch]. now rewrite strip_prefix_app. Qed.

Lemma seq_step (r1 r2 : re) (k : cont) (s : str) (c : caps) :
  rmatch (r1 >> r2) k s c = rmatch r1 (rmatch r2 k) s c.
Proof. reflexivity. Qed.

(** *** Leftmost search *)

Lemma find_match_here (r : re) (s : str) (m : match_result) :
  match_here r s = Some m -> find_match r s = Some m.
Proof. intros H. destruct s; simpl; now rewrite H. Qed.

Lemma match_here_lit_none (key : str) (r : re) (s : str) :
  strip_prefix key s = None -> match_here (Lit key >> r) s = None.
Proof. intros H. unfold match_here. cbn [rmatch]. now rewrite H. Qed.

Lemma find_match_skip (key : str) (r : re) (b t : str) :
  nowhere key b t ->
  find_match (Lit key >> r) (b ++ t)
  = option_map (prepend b) (find_match (Lit key >> r) t).
Proof.
  induction b as [|a b IH]; intros H.
  - simpl. destruct (find_match (Lit key >> r) t) as [[x y z]|]; reflexivity.
  - destruct H as [H1 H2].
    change ((a :: b) ++ t) with (a :: b ++ t) in *.
    cbn [find_match]. rewrite (match_here_lit_none key r _ H1), (IH H2).
    destruct (find_match (Lit key >> r) t) as [[x y z]|]; reflexivity.
Qed.

Lemma find_match_absent (key : str) (r : re) (b : str) :
  key <> [] -> nowhere key b [] -> find_match (Lit key >> r) b = None.
Proof.
  intros Hkey H. rewrite <- (app_nil_r b), (find_match_skip key r b [] H).
  simpl. rewrite match_here_lit_none; [reflexivity|].
  destruct key; [contradiction | reflexivity].
Qed.

Lemma finds_here (r : re) (s : str) (n : nat) (v : str) (m : match_result) :
  match_here r s = Some m -> group n (groups m) = Some v -> finds r s n v.
Proof. intros H Hg. exists m. split; [now apply find_match_here | exact Hg]. Qed.

Lemma finds_skip (key : str) (r : re) (b t : str) (n : nat) (v : str) :
  nowhere key b t -> finds (Lit key >> r) t n v -> finds (Lit key >> r) (b ++ t) n v.
Proof.
  intros H (m & Hm & Hg). exists (prepend b m). split; [|exact Hg].
  rewrite (find_match_skip key r b t H), Hm. reflexivity.
Qed.

(** *** The lazy star before a literal or before the end of a section *)

Lemma star_lazy_skip (key : str) (K : cont) (b t : str) (c : caps) :
  (forall s c', s <> [] -> strip_prefix key s = None -> K s c' = None) ->
  nowhere key b t ->
  star_lazy is_any K (b ++ t) c = star_lazy is_any K t c.
Proof.
  intros HK. induction b as [|a b IH]; intros H; [reflexivity|].
  destruct H as [H1 H2].
  change ((a :: b) ++ t) with (a :: b ++ t) in *.
  cbn [star_lazy]. rewrite (HK _ c); [|discriminate | exact H1].
  cbn [is_any]. now apply IH.
Qed.

Lemma star_lazy_stop (k : cont) (s : str) (c : caps) (x : caps * str) :
  k s c = Some x -> star_lazy is_any k s c = Some x.
Proof. intros H. destruct s; simpl; now rewrite H. Qed.

Lemma section_end_inside (k : cont) (s : str) (c : caps) :
  s <> [] -> strip_prefix (js "**") s = None -> rmatch re_section_end k s c = None.
Proof.
  intros Hne H. unfold re_section_end. cbn [rmatch]. rewrite H.
  destruct s; [contradiction | reflexivity].
Qed.

(** The text up to the next [**], or up to the end of the input. *)
Lemma section_capture (key b t : str) :
  nowhere (js "**") b t ->
  t = [] \/ startsWith (js "**") t = true ->
  match_here (Lit key >> Grp 1 (LazyStar is_any) >> re_section_end) (key ++ b ++ t)
  = Some (MatchResult [] [(1, b)] t).
Proof.
  intros H Ht. unfold match_here. cbn [rmatch]. rewrite strip_prefix_app.
  rewrite (@star_lazy_skip (js "**")); [| | exact H].
  - rewrite (@star_lazy_stop _ _ _ ([(1, b)], t)); [reflexivity|].
    rewrite firstn_consumed. unfold re_section_end. cbn [rmatch].
    destruct Ht as [-> | Ht].
    + reflexivity.
    + unfold startsWith in Ht.
      destruct (strip_prefix (js "**") t); [reflexivity | discriminate].
  - intros s c' Hne Hs. now apply section_end_inside.
Qed.

Lemma section_until_end (key b : str) :
  nowhere (js "**") b [] ->
  match_here (Lit key >> Grp 1 (LazyStar is_any) >> re_section_end) (key ++ b)
  = Some (MatchResult [] [(1, b)] []).
Proof.
  intros H. rewrite <- (app_nil_r b) at 1.
  apply section_capture; [exact H | now left].
Qed.

(** The text between a literal and the first occurrence of another. *)
Lemma between_literals (open close b t : str) (r : re) (k : cont) (x : caps * str) :
  nowhere close b (close ++ t) ->
  rmatch r k t [(1, b)] = Some x ->
  rmatch (Lit open >> Grp 1 (LazyStar is_any) >> Lit close >> r) k
         (open ++ b ++ close ++ t) []
  = Some x.
Proof.
  intros H Hr. cbn [rmatch]. rewrite strip_prefix_app.
  rewrite (@star_lazy_skip close); [| | exact H].
  - apply star_lazy_stop. rewrite strip_prefix_app, firstn_consumed. exact Hr.
  - intros s c' Hne Hs. now rewrite Hs.
Qed.

Lemma between_literals_uncaptured (open close b t : str) (r : re) (k : cont)
    (x : caps * str) :
  nowhere close b (close ++ t) ->
  rmatch r k t [] = Some x ->
  rmatch (Lit open >> LazyStar is_any >> Lit close >> r) k (open ++ b ++ close ++ t) []
  = Some x.
Proof.
  intros H Hr. cbn [rmatch]. rewrite strip_prefix_app.
  rewrite (@star_lazy_skip close); [| | exact H].
  - apply star_lazy_stop. rewrite strip_prefix_app. exact Hr.
  - intros s c' Hne Hs. now rewrite Hs.
Qed.

(** A literal followed by a captured greedy run. *)
Lemma key_capture_then (key v t : str) (n : nat) (p : ascii -> bool) (r : re) (k : cont)
    (x : caps * str) :
  v <> [] ->
  forallb p v = true ->
  stops p t ->
  rmatch r k t [(n, v)] = Some x ->
  rmatch (Lit key >> Grp n (Plus p) >> r) k (key ++ v ++ t) [] = Some x.
Proof.
  intros Hne Hp Ht Hr. rewrite seq_step, lit_app, seq_step.
  now apply group_plus_run.
Qed.

(** *** A key followed by white space and a captured run *)

Lemma key_value_here (key : str) (p : ascii -> bool) (v t : str) :
  starts_solid v = true ->
  forallb p v = true ->
  stops p t ->
  match_here (Lit key >> Star is_space >> Grp 1 (Plus p)) (key ++ js " " ++ v ++ t)
  = Some (MatchResult [] [(1, v)] t).
Proof.
  intros Hv Hp Ht. unfold match_here. cbn [rmatch]. rewrite strip_prefix_app.
  rewrite (@star_greedy_run is_space _ (js " ") (v ++ t) _ ([(1, v)], t));
    [reflexivity | reflexivity | | ].
  - now apply stops_app.
  - apply group_plus_run; try assumption; [|reflexivity].
    destruct v; [discriminate Hv | discriminate].
Qed.

(* ====================================================================== *)
(** ** The layout of an encoded description *)
(* ====================================================================== *)

Lemma lines_text_cons (l : str) (ls : list str) :
  lines_text (l :: ls) = nl ++ l ++ lines_text ls.
Proof. unfold lines_text. cbn [map concat]. now rewrite <- app_assoc. Qed.

Lemma lines_text_app (l1 l2 : list str) :
  lines_text (l1 ++ l2) = lines_text l1 ++ lines_text l2.
Proof. unfold lines_text. now rewrite map_app, concat_app. Qed.

Lemma lines_text_nil : lines_text [] = [].
Proof. reflexivity. Qed.

Lemma join_nl_cons (l : str) (ls : list str) : join_nl (l :: ls) = l ++ lines_text ls.
Proof.
  revert l. induction ls as [|l' ls IH]; intros l.
  - simpl. now rewrite app_nil_r.
  - change (join_nl (l :: l' :: ls)) with (l ++ nl ++ join_nl (l' :: ls)).
    now rewrite IH, lines_text_cons.
Qed.

Lemma metadata_lines_eq (metadata : Metadata.t) :
  metadata_lines metadata = METADATA_SEPARATOR :: body_lines metadata ++ [METADATA_END].
Proof.
  unfold metadata_lines, body_lines.
  repeat rewrite <- app_assoc. reflexivity.
Qed.

Lemma build_layout (plain : str) (metadata : Metadata.t) :
  buildDescriptionWithMetadata plain metadata
  = METADATA_SEPARATOR ++ block_text metadata ++ METADATA_END ++ (nl ++ nl) ++ plain.
Proof.
  unfold buildDescriptionWithMetadata, block_text.
  rewrite metadata_lines_eq, join_nl_cons, lines_text_app.
  rewrite lines_text_cons, lines_text_nil, app_nil_r.
  repeat rewrite <- app_assoc. reflexivity.
Qed.

Lemma lines_text_then_nl (ls : list str) (t : str) :
  exists t', lines_text ls ++ nl ++ t = nl ++ t'.
Proof.
  destruct ls as [|l ls].
  - exists t. reflexivity.
  - rewrite lines_text_cons. repeat rewrite <- app_assoc. eexists. reflexivity.
Qed.

(** *** Decimal numerals *)

Lemma chars_of_uint_digits (d : Decimal.uint) : forallb is_digit (chars_of_uint d) = true.
Proof. induction d; simpl; trivial. Qed.

Lemma parse_chars_of_uint_acc (d : Decimal.uint) (acc : positive) :
  parse_digits (Npos acc) (chars_of_uint d) = Npos (Pos.of_uint_acc d acc).
Proof.
  revert acc. induction d; intros acc; cbn [chars_of_uint parse_digits Pos.of_uint_acc];
    [reflexivity | ..];
    (match goal with
     | |- context [is_digit ?c] => change (is_digit c) with true
     end; cbv iota; rewrite <- IHd; f_equal; unfold digit_val; simpl N_of_ascii; lia).
Qed.

Lemma parse_chars_of_uint (d : Decimal.uint) :
  parse_digits 0 (chars_of_uint d) = N.of_uint d.
Proof.
  unfold N.of_uint.
  induction d; cbn [chars_of_uint parse_digits Pos.of_uint];
    [reflexivity | ..];
    (match goal with
     | |- context [is_digit ?c] => change (is_digit c) with true
     end; cbv iota).
  all: first [exact IHd | apply parse_chars_of_uint_acc].
Qed.

Lemma parseInt_show_N (n : N) : parse_digits 0 (show_N n) = n.
Proof.
  unfold show_N. rewrite parse_chars_of_uint. apply DecimalN.Unsigned.of_to.
Qed.

Lemma to_uint_not_nil (n : N) : N.to_uint n <> Decimal.Nil.
Proof.
  intros H. assert (E := DecimalN.Unsigned.of_to n). 
  destruct n as [|p]; [discriminate H|].
  rewrite H in E. discriminate E.
Qed.

Lemma show_N_digits (n : N) : forallb is_digit (show_N n) = true.
Proof. apply chars_of_uint_digits. Qed.

Lemma show_N_nonempty (n : N) : show_N n <> [].
Proof.
  unfold show_N. generalize (to_uint_not_nil n).
  destruct (N.to_uint n); simpl; intros H; try discriminate. now contradiction H.
Qed.

Lemma parseInt_show_int (z : Z) : (0 <= z)%Z -> parseInt (show_int z) = z.
Proof.
  intros Hz. unfold parseInt, show_int.
  destruct z as [|p|p]; [| |lia]; rewrite parseInt_show_N; reflexivity.
Qed.

Lemma forallb_weaken (p q : ascii -> bool) (s : str) :
  (forall c, p c = true -> q c = true) -> forallb p s = true -> forallb q s = true.
Proof.
  intros Hpq. induction s as [|c s IH]; simpl; [trivial|].
  intros H. apply andb_true_iff in H. destruct H as [Hc Hs].
  now rewrite (Hpq c Hc), IH.
Qed.

Lemma digit_cases (c : ascii) :
  is_digit c = true ->
  is_space c = false /\ is_dot c = true /\ Ascii.eqb star c = false
  /\ Ascii.eqb "-"%char c = false.
Proof.
  destruct c as [[] [] [] [] [] [] [] []]; intros H; try discriminate H;
    repeat split.
Qed.

Lemma show_int_solid (z : Z) : (0 <= z)%Z -> starts_solid (show_int z) = true.
Proof.
  intros Hz. assert (Hd := show_N_digits (Z.to_N z)).
  assert (Hne := show_N_nonempty (Z.to_N z)).
  assert (E : show_int z = show_N (Z.to_N z)) by (destruct z; [reflexivity..|lia]).
  rewrite E. destruct (show_N (Z.to_N z)) as [|c s]; [contradiction|].
  simpl in Hd |- *. apply andb_true_iff in Hd. destruct Hd as [Hc _].
  destruct (digit_cases c Hc) as (H & _). now rewrite H.
Qed.

Lemma show_int_digits (z : Z) : (0 <= z)%Z -> forallb is_digit (show_int z) = true.
Proof.
  intros Hz. destruct z; [apply show_N_digits.. | lia].
Qed.

(* ====================================================================== *)
(** ** Stripping the block *)
(* ====================================================================== *)

Lemma not_in_by_forallb (c : ascii) (l : str) :
  forallb (fun x => negb (Ascii.eqb x c)) l = true -> ~ In c l.
Proof.
  induction l as [|x l IH]; simpl; [tauto|].
  intros H. apply andb_true_iff in H. destruct H as [Hx Hl].
  intros [-> | Hin]; [|now apply IH].
  rewrite Ascii.eqb_refl in Hx. discriminate Hx.
Qed.

Lemma line_safe_field (f : str) : sentinel_free f = true -> line_safe f.
Proof.
  intros H t. apply nowhere_not_included.
  - unfold sentinel_free in H. now apply negb_true_iff.
  - change (~ In LF METADATA_END). apply not_in_by_forallb. reflexivity.
Qed.

Lemma line_safe_app_closed (a rest : str) :
  keyfree METADATA_END a = true -> line_safe rest -> line_safe (a ++ rest).
Proof.
  intros Ha Hrest t. apply nowhere_app; [now apply keyfree_nowhere | apply Hrest].
Qed.

Lemma line_safe_closed (l : str) : keyfree METADATA_END l = true -> line_safe l.
Proof. intros H t. now apply keyfree_nowhere. Qed.

Lemma line_safe_show_N (n : N) : line_safe (show_N n).
Proof.
  intros t. change METADATA_END with ("-"%char :: js "--END-METADATA---").
  apply nowhere_without_head.
  apply forallb_weaken with (p := is_digit); [|apply show_N_digits].
  intros c Hc. destruct (digit_cases c Hc) as (_ & _ & _ & H). now rewrite H.
Qed.

Lemma line_safe_show_int (z : Z) : line_safe (show_int z).
Proof.
  destruct z as [|p|p]; try apply line_safe_show_N.
  intros t. unfold show_int.
  assert (Hd := show_N_digits (Npos p)). assert (Hne := show_N_nonempty (Npos p)).
  split; [|apply line_safe_show_N].
  destruct (show_N (Npos p)) as [|c s]; [contradiction|].
  simpl in Hd. apply andb_true_iff in Hd. destruct Hd as [Hc _].
  destruct (digit_cases c Hc) as (_ & _ & _ & H).
  change (strip_prefix METADATA_END (("-"%char :: c :: s) ++ nl ++ t))
    with (if Ascii.eqb "-"%char c
          then strip_prefix (js "-END-METADATA---") (s ++ nl ++ t) else None).
  now rewrite H.
Qed.

Lemma truthy_text (o : option str) (P : str -> bool) :
  truthy o = true -> match o with Some s => P s | None => true end = true ->
  P (text o) = true.
Proof. destruct o as [s|]; simpl; [trivial | discriminate]. Qed.

Lemma Forall_app_intro (A : Type) (P : A -> Prop) (a b : list A) :
  Forall P a -> Forall P b -> Forall P (a ++ b).
Proof. intros Ha Hb. apply Forall_app. now split. Qed.

Ltac split_lines :=
  repeat match goal with
  | |- Forall _ (?a ++ _) => apply (@Forall_app_intro _ _ a)
  end.

Ltac closed_prefixes :=
  repeat match goal with
  | |- line_safe (?a ++ _) => apply (@line_safe_app_closed a); [vm_compute; reflexivity|]
  end.

Lemma detail_line_safe (label : string) (o : option str) :
  keyfree METADATA_END (js label) = true ->
  sentinel_free_opt o = true ->
  Forall line_safe (if truthy o then [js label ++ text o] else []).
Proof.
  intros Hl Ho. destruct (truthy o) eqn:E; [|constructor].
  constructor; [|constructor].
  apply (@line_safe_app_closed (js label)); [exact Hl|]. apply line_safe_field.
  now apply (truthy_text o sentinel_free).
Qed.

Lemma uncertainty_lines_safe (u : Uncertainty.t) :
  uncertainty_sentinel_free u = true -> Forall line_safe (uncertainty_lines u).
Proof.
  unfold uncertainty_sentinel_free. intros H.
  repeat (apply andb_true_iff in H; destruct H as [H ?]).
  unfold uncertainty_lines. cbv zeta.
  split_lines;
    try (apply detail_line_safe; [vm_compute; reflexivity | assumption]).
  constructor; [|constructor].
  destruct (truthy (Uncertainty.resolution u)); closed_prefixes;
    now apply line_safe_field.
Qed.

Lemma lesson_line_safe (l : Lesson.t) :
  sentinel_free (Lesson.content l) = true -> line_safe (lesson_line l).
Proof.
  intros H. unfold lesson_line. cbv zeta.
  destruct (Lesson.category l) as [[]|]; unfold category_name;
    closed_prefixes; now apply line_safe_field.
Qed.

Lemma body_lines_safe (metadata : Metadata.t) :
  metadata_sentinel_free metadata = true -> Forall line_safe (body_lines metadata).
Proof.
  unfold metadata_sentinel_free. intros H.
  repeat (apply andb_true_iff in H; destruct H as [H ?]).
  unfold body_lines.
  split_lines.
  - constructor; [|constructor; [|constructor]].
    + apply (@line_safe_app_closed (js "**Goal:** ")); [vm_compute; reflexivity|].
      destruct (truthy (Metadata.goal metadata)) eqn:E.
      * apply line_safe_field. now apply (truthy_text _ sentinel_free).
      * apply line_safe_closed. vm_compute. reflexivity.
    + apply (@line_safe_app_closed (js "**Effort:** ")); [vm_compute; reflexivity|].
      apply line_safe_show_int.
  - apply detail_line_safe; [vm_compute; reflexivity | assumption].
  - apply detail_line_safe; [vm_compute; reflexivity | assumption].
  - constructor; [|constructor; [|constructor]]; apply line_safe_closed; reflexivity.
  - apply Forall_flat_map. rewrite forallb_forall in *.
    apply Forall_forall. intros u Hu. apply uncertainty_lines_safe. auto.
  - constructor; [|constructor; [|constructor]]; apply line_safe_closed; reflexivity.
  - apply Forall_map. rewrite forallb_forall in *.
    apply Forall_forall. intros l Hl. apply lesson_line_safe. auto.
Qed.

Lemma lines_safe (ls : list str) (t : str) :
  Forall line_safe ls -> nowhere METADATA_END (lines_text ls ++ nl) t.
Proof.
  intros H. induction H as [|l ls Hl Hls IH].
  - apply keyfree_nowhere. reflexivity.
  - rewrite lines_text_cons. repeat rewrite <- app_assoc.
    apply nowhere_app; [apply keyfree_nowhere; reflexivity|].
    apply nowhere_app; [|exact IH].
    destruct (lines_text_then_nl ls t) as (t' & E).
    rewrite <- app_assoc, E. apply Hl.
Qed.

(** The end sentinel does not start anywhere inside the block. *)
Lemma block_no_end (metadata : Metadata.t) (t : str) :
  metadata_sentinel_free metadata = true ->
  nowhere METADATA_END (block_text metadata) t.
Proof.
  intros H. unfold block_text. apply lines_safe. now apply body_lines_safe.
Qed.

Lemma exec_strip (plain : str) (metadata : Metadata.t) :
  metadata_sentinel_free metadata = true ->
  exec re_strip (buildDescriptionWithMetadata plain metadata)
  = Some (MatchResult [] [] plain).
Proof.
  intros H. rewrite build_layout. unfold exec, re_strip. cbn [anchored body].
  apply find_match_here. unfold match_here.
  rewrite (@between_literals_uncaptured METADATA_SEPARATOR METADATA_END
             (block_text metadata) ((nl ++ nl) ++ plain) (Lit (nl ++ nl)) accept
             ([], plain)).
  - reflexivity.
  - now apply block_no_end.
  - apply lit_app.
Qed.

(** C9, counterexample.  When the effort reason ends with the end sentinel,
    the blank line after the header completes the pattern early and the
    rest of the block is left in front of the plain text. *)
Lemma extractPlainDescription_keeps_block :
  includes METADATA_SEPARATOR (js "p") = false
  /\ includes METADATA_END (js "p") = false
  /\ extractPlainDescription (buildDescriptionWithMetadata (js "p") sentinel_in_reason)
     <> trim (js "p").
Proof. split; [reflexivity|]. split; [reflexivity|]. vm_compute. discriminate. Qed.

(** C9, amended.  For metadata none of whose strings contains the end
    sentinel, and for every plain text, stripping the encoded description
    gives the plain text trimmed: the block and the blank line after it are
    removed and nothing else. *)
Theorem extractPlainDescription_build (plain : str) (metadata : Metadata.t)
    (Hfree : metadata_sentinel_free metadata = true) :
  extractPlainDescription (buildDescriptionWithMetadata plain metadata) = trim plain.
Proof.
  unfold extractPlainDescription, replace_first.
  rewrite (exec_strip plain metadata Hfree). reflexivity.
Qed.

(** A witness of [extractPlainDescription_build]: the metadata of the
    repository's round-trip test around a padded plain text. *)
Lemma extractPlainDescription_build_witness :
  extractPlainDescription
    (buildDescriptionWithMetadata (js "  Plain description ") sample_metadata)
  = trim (js "  Plain description ").
Proof.
  exact (extractPlainDescription_build (js "  Plain description ") sample_metadata
           eq_refl).
Defined.

(* ====================================================================== *)
(** ** Decoding *)
(* ====================================================================== *)

Lemma inert_app (key a b : str) : inert key a -> inert key b -> inert key (a ++ b).
Proof. intros Ha Hb t. apply nowhere_app; [apply Ha | apply Hb]. Qed.

Lemma inert_closed (key a : str) : keyfree key a = true -> inert key a.
Proof. intros H t. now apply keyfree_nowhere. Qed.

Lemma inert_nil (key : str) : inert key [].
Proof. intros t. exact I. Qed.

Lemma inert_starless (key s : str) :
  startsWith [star] key = true -> no_star s = true -> inert key s.
Proof.
  intros Hk Hs t. unfold startsWith in Hk.
  destruct (strip_prefix [star] key) as [rest|] eqn:E; [|discriminate Hk].
  apply strip_prefix_Some in E. subst key. now apply nowhere_without_head.
Qed.

Lemma finds_after (key : str) (r : re) (b t : str) (n : nat) (v : str) :
  inert key b -> finds (Lit key >> r) t n v -> finds (Lit key >> r) (b ++ t) n v.
Proof. intros H. apply finds_skip. apply H. Qed.

Lemma find_match_inert (key : str) (r : re) (b : str) :
  key <> [] -> inert key b -> find_match (Lit key >> r) b = None.
Proof. intros Hk H. apply find_match_absent; [exact Hk | apply H]. Qed.

Lemma no_star_app (a b : str) : no_star (a ++ b) = no_star a && no_star b.
Proof. unfold no_star. apply forallb_app. Qed.

Lemma digits_no_star (s : str) : forallb is_digit s = true -> no_star s = true.
Proof.
  apply forallb_weaken. intros c Hc.
  destruct (digit_cases c Hc) as (_ & _ & H & _). now rewrite H.
Qed.

Lemma digits_single_line (s : str) : forallb is_digit s = true -> forallb is_dot s = true.
Proof.
  apply forallb_weaken. intros c Hc. now destruct (digit_cases c Hc) as (_ & H & _).
Qed.

(** The whole block is what the first pattern captures. *)
Lemma exec_block (b t : str) :
  nowhere METADATA_END b (METADATA_END ++ t) ->
  exec re_block (METADATA_SEPARATOR ++ b ++ METADATA_END ++ t)
  = Some (MatchResult [] [(1, b)] t).
Proof.
  intros H. unfold exec, re_block. cbn [anchored body].
  apply find_match_here. unfold match_here. cbn [rmatch].
  rewrite strip_prefix_app.
  rewrite (@star_lazy_skip METADATA_END); [| | exact H].
  - rewrite (@star_lazy_stop _ _ _ ([(1, b)], t)); [reflexivity|].
    now rewrite strip_prefix_app, firstn_consumed.
  - intros s c' Hne Hs. now rewrite Hs.
Qed.

Ltac inert_pieces :=
  repeat match goal with
  | |- inert _ (?a ++ _) => apply (@inert_app _ a)
  end.

Ltac closed_inert := apply inert_closed; vm_compute; reflexivity.


(* ====================================================================== *)
(** ** The block of well-formed metadata, piece by piece *)
(* ====================================================================== *)

Lemma block_layout (m : Metadata.t) :
  block_text m
  = nl ++ js "**Goal:** " ++ goal_text m ++ nl ++ js "**Effort:** "
    ++ show_int (Metadata.effort m) ++ after_effort m.
Proof.
  unfold block_text, body_lines, after_effort, goal_text, reason_part, bias_part,
    uncertainties_text, lessons_text.
  repeat rewrite lines_text_app. repeat rewrite lines_text_cons.
  destruct (truthy (Metadata.effortReason m)), (truthy (Metadata.complexityBias m));
    repeat rewrite lines_text_cons; repeat rewrite lines_text_nil;
    repeat rewrite <- app_assoc; repeat rewrite app_nil_l; repeat rewrite app_nil_r;
    reflexivity.
Qed.

Lemma plain_field_facts (s : str) :
  plain_field s = true ->
  starts_solid s = true /\ ends_solid s = true /\ single_line s = true
  /\ no_star s = true /\ sentinel_free s = true.
Proof.
  unfold plain_field, sentinel_free. intros H.
  repeat (apply andb_true_iff in H; destruct H as [H ?]). auto.
Qed.

Lemma plain_opt_cases (o : option str) :
  plain_opt o = true ->
  (o = None /\ truthy o = false)
  \/ (exists s, o = Some s /\ truthy o = true /\ text o = s /\ plain_field s = true).
Proof.
  destruct o as [s|]; simpl; intros H; [right | left; auto].
  exists s. repeat split; try assumption.
  destruct s; [discriminate H | reflexivity].
Qed.

Lemma word_cases (c : ascii) :
  is_word c = true ->
  is_space c = false /\ is_dot c = true /\ Ascii.eqb star c = false
  /\ Ascii.eqb "-"%char c = false.
Proof.
  destruct c as [[] [] [] [] [] [] [] []]; intros H; try discriminate H;
    repeat split.
Qed.

Lemma includes_without_head (c : ascii) (p s : str) :
  forallb (fun x => negb (Ascii.eqb c x)) s = true -> includes (c :: p) s = false.
Proof.
  induction s as [|x s IH]; simpl; [reflexivity|].
  intros H. apply andb_true_iff in H. destruct H as [Hx Hs].
  apply negb_true_iff in Hx. unfold startsWith. simpl. rewrite Hx. simpl. now apply IH.
Qed.

Lemma word_sentinel_free (b : str) : forallb is_word b = true -> sentinel_free b = true.
Proof.
  intros H. unfold sentinel_free. apply negb_true_iff.
  change METADATA_END with ("-"%char :: js "--END-METADATA---").
  apply includes_without_head. revert H. apply forallb_weaken.
  intros c Hc. destruct (word_cases c Hc) as (_ & _ & _ & H). now rewrite H.
Qed.

Lemma word_no_star (b : str) : forallb is_word b = true -> no_star b = true.
Proof.
  apply forallb_weaken. intros c Hc.
  destruct (word_cases c Hc) as (_ & _ & H & _). now rewrite H.
Qed.

Lemma plain_opt_sentinel_free (o : option str) :
  plain_opt o = true -> sentinel_free_opt o = true.
Proof.
  destruct o as [s|]; simpl; [|trivial]. intros H.
  now destruct (plain_field_facts s H) as (_ & _ & _ & _ & Hs).
Qed.

Lemma uncertainty_ok_sentinel_free (u : Uncertainty.t) :
  uncertainty_ok u = true -> uncertainty_sentinel_free u = true.
Proof.
  unfold uncertainty_ok, uncertainty_sentinel_free. intros H.
  repeat (apply andb_true_iff in H; destruct H as [H ?]).
  repeat (apply andb_true_iff; split); try now apply plain_opt_sentinel_free.
  unfold sentinel_free. assumption.
Qed.

Lemma metadata_ok_sentinel_free (m : Metadata.t) :
  metadata_ok m = true -> metadata_sentinel_free m = true.
Proof.
  unfold metadata_ok, metadata_sentinel_free, goal_ok. intros H.
  repeat (apply andb_true_iff in H; destruct H as [H ?]).
  repeat (apply andb_true_iff; split).
  - now apply plain_opt_sentinel_free.
  - now apply plain_opt_sentinel_free.
  - destruct (Metadata.complexityBias m) as [b|]; simpl in *; [|trivial].
    match goal with
    | Hb : nonempty b && _ = true |- _ =>
        apply andb_true_iff in Hb; destruct Hb as [_ Hb]; now apply word_sentinel_free
    end.
  - rewrite forallb_forall in *. intros u Hu. apply uncertainty_ok_sentinel_free. auto.
  - rewrite forallb_forall in *. intros l Hl.
    match goal with
    | Hls : forall x, In x (Metadata.lessonsLearned m) -> lesson_ok x = true |- _ =>
        specialize (Hls l Hl); unfold lesson_ok in Hls;
        repeat (apply andb_true_iff in Hls; destruct Hls as [Hls ?]);
        unfold sentinel_free; assumption
    end.
Qed.

(* ====================================================================== *)
(** ** The uncertainties section *)
(* ====================================================================== *)

Lemma strip_prefix_ci_app (p s : str) : strip_prefix_ci p (p ++ s) = Some s.
Proof.
  induction p as [|a p IH]; simpl; [reflexivity|]. now rewrite Ascii.eqb_refl.
Qed.

Lemma grp_cls_cons (n : nat) (p : ascii -> bool) (k : cont) (a : ascii) (s : str)
    (c : caps) :
  rmatch (Grp n (Cls p)) k (a :: s) c = if p a then k s ((n, [a]) :: c) else None.
Proof.
  cbn [rmatch]. destruct (p a); [|reflexivity].
  pose proof (firstn_consumed [a] s) as E.
  change ([a] ++ s) with (a :: s) in E. now rewrite E.
Qed.

Lemma single_line_app (a b : str) : single_line (a ++ b) = single_line a && single_line b.
Proof. unfold single_line. apply forallb_app. Qed.

(** A checklist line matches the bullet pattern, which captures the box
    and the title. *)
Lemma exec_bullet (box : ascii) (title : str) :
  is_space_or_x box = true ->
  starts_solid title = true ->
  single_line title = true ->
  exec re_bullet (js "- [" ++ [box] ++ js "] " ++ title)
  = Some (MatchResult [] [(2, title); (1, [box])] []).
Proof.
  intros Hbox Hs Hl. unfold exec, re_bullet, match_here. cbn [anchored body].
  rewrite seq_step, lit_app.
  change ([box] ++ js "] " ++ title) with (box :: js "]" ++ js " " ++ title).
  rewrite seq_step, grp_cls_cons, Hbox.
  rewrite seq_step, lit_app. cbn [rmatch].
  rewrite (@star_greedy_run is_space _ (js " ") title _
             ([(2, title); (1, [box])], [])); [reflexivity | reflexivity | | ].
  - destruct title as [|c t]; [discriminate Hs|]. simpl in Hs |- *.
    now apply negb_true_iff.
  - assert (E : rmatch (Grp 2 (Plus is_dot)) (rmatch Eoi accept) (title ++ [])
                        [(1, [box])]
                 = Some ([(2, title); (1, [box])], [])).
    { apply group_plus_run; [|exact Hl | exact I | reflexivity].
      destruct title; [discriminate Hs | discriminate]. }
    rewrite app_nil_r in E. exact E.
Qed.

(** An indented detail line matches the detail pattern, which captures
    what follows the dash. *)
Lemma exec_detail (rest : str) :
  starts_solid rest = true ->
  single_line rest = true ->
  startsWith (js "[") rest = false ->
  exec re_detail (js "  - " ++ rest) = Some (MatchResult [] [(1, rest)] []).
Proof.
  intros Hs Hl Hb. unfold exec, re_detail, match_here. cbn [anchored body].
  change (js "  - " ++ rest) with (js "  " ++ js "-" ++ js " " ++ rest).
  rewrite seq_step. change (rmatch (Star ?p) ?k ?s ?c) with (star_greedy p k s c).
  rewrite (@star_greedy_run is_space _ (js "  ") (js "-" ++ js " " ++ rest) _
             ([(1, rest)], [])); [reflexivity | reflexivity | reflexivity |].
  rewrite seq_step, lit_app, seq_step.
  apply plus_run; [discriminate | reflexivity | |].
  - destruct rest as [|c t]; [discriminate Hs|]. simpl in Hs |- *.
    now apply negb_true_iff.
  - unfold startsWith in Hb. cbn [rmatch].
    destruct (strip_prefix (js "[") rest) as [x|] eqn:E; [discriminate Hb|].
    assert (E' : rmatch (Grp 1 (Star is_dot)) (rmatch Eoi accept) (rest ++ []) []
                 = Some ([(1, rest)], [])).
    { apply group_star_run; [exact Hl | exact I | reflexivity]. }
    rewrite app_nil_r in E'. exact E'.
Qed.

Lemma exec_key_hit (key : string) (v : str) :
  starts_solid v = true ->
  exec (re_key key) (js key ++ js " " ++ v) = Some (MatchResult [] [] v).
Proof.
  intros Hs. unfold exec, re_key, match_here. cbn [anchored body rmatch].
  rewrite strip_prefix_ci_app.
  rewrite (@star_greedy_run is_space _ (js " ") v _ ([], v));
    [reflexivity | reflexivity | | reflexivity].
  destruct v as [|c t]; [discriminate Hs|]. simpl in Hs |- *. now apply negb_true_iff.
Qed.

Lemma key_hit (key : string) (v : str) :
  plain_field v = true ->
  test (re_key key) (js key ++ js " " ++ v) = true
  /\ trim (replace_first (re_key key) (js key ++ js " " ++ v)) = v.
Proof.
  intros Hv. destruct (plain_field_facts v Hv) as (Hs & He & _).
  unfold test, replace_first. rewrite (exec_key_hit key v Hs).
  split; [reflexivity|]. cbn [before after app]. now apply trim_solid.
Qed.

Lemma update_description (cur : Uncertainty.t) (v : str) :
  plain_field v = true ->
  detail_update cur (js "Description: " ++ v) = Uncertainty.with_description cur (Some v).
Proof.
  intros Hv. unfold detail_update.
  change (test (re_key "Resolution:") (js "Description: " ++ v)) with false.
  change (test (re_key "Resolved By:") (js "Description: " ++ v)) with false.
  change (test (re_key "Resolved At:") (js "Description: " ++ v)) with false.
  change (js "Description: " ++ v) with (js "Description:" ++ js " " ++ v).
  destruct (key_hit "Description:" v Hv) as [-> ->]. reflexivity.
Qed.

Lemma update_resolution (cur : Uncertainty.t) (v : str) :
  plain_field v = true ->
  detail_update cur (js "Resolution: " ++ v) = Uncertainty.with_resolution cur (Some v).
Proof.
  intros Hv. unfold detail_update.
  change (js "Resolution: " ++ v) with (js "Resolution:" ++ js " " ++ v).
  destruct (key_hit "Resolution:" v Hv) as [-> ->]. reflexivity.
Qed.

Lemma update_resolvedBy (cur : Uncertainty.t) (v : str) :
  plain_field v = true ->
  detail_update cur (js "Resolved By: " ++ v) = Uncertainty.with_resolvedBy cur (Some v).
Proof.
  intros Hv. unfold detail_update.
  change (test (re_key "Resolution:") (js "Resolved By: " ++ v)) with false.
  change (js "Resolved By: " ++ v) with (js "Resolved By:" ++ js " " ++ v).
  destruct (key_hit "Resolved By:" v Hv) as [-> ->]. reflexivity.
Qed.

Lemma update_resolvedAt (cur : Uncertainty.t) (v : str) :
  plain_field v = true ->
  detail_update cur (js "Resolved At: " ++ v) = Uncertainty.with_resolvedAt cur (Some v).
Proof.
  intros Hv. unfold detail_update.
  change (test (re_key "Resolution:") (js "Resolved At: " ++ v)) with false.
  change (test (re_key "Resolved By:") (js "Resolved At: " ++ v)) with false.
  change (js "Resolved At: " ++ v) with (js "Resolved At:" ++ js " " ++ v).
  destruct (key_hit "Resolved At:" v Hv) as [-> ->]. reflexivity.
Qed.

(** The step of the loop on a checklist line. *)
Lemma step_bullet (st : uloop) (box : ascii) (title : str) :
  is_space_or_x box = true ->
  plain_field title = true ->
  uncertainty_step st (js "- [" ++ [box] ++ js "] " ++ title)
  = ULoop (out (flushCurrent st)) (Some (Uncertainty.of_title title))
          (str_eqb [box] (js "x")).
Proof.
  intros Hbox Ht. destruct (plain_field_facts title Ht) as (Hs & He & Hl & _).
  unfold uncertainty_step.
  assert (Htrim : trim (js "- [" ++ [box] ++ js "] " ++ title)
                  = js "- [" ++ [box] ++ js "] " ++ title).
  { apply trim_solid; [reflexivity|]. now repeat apply ends_solid_app. }
  rewrite Htrim. cbv zeta.
  change (nonempty (js "- [" ++ [box] ++ js "] " ++ title)) with true.
  cbv iota. cbn [negb].
  rewrite (exec_bullet box title Hbox Hs Hl).
  cbn [group_or_empty groups group Nat.eqb]. now rewrite (trim_solid title Hs He).
Qed.

(** The step of the loop on a detail line. *)
Lemma step_detail (o : list Uncertainty.t) (cur : Uncertainty.t) (f : bool) (rest : str) :
  starts_solid rest = true ->
  ends_solid rest = true ->
  single_line rest = true ->
  startsWith (js "[") rest = false ->
  uncertainty_step (ULoop o (Some cur) f) (js "  - " ++ rest)
  = ULoop o (Some (detail_update cur rest)) f.
Proof.
  intros Hs He Hl Hb. unfold uncertainty_step.
  assert (Htrim : trim (js "  - " ++ rest) = js "- " ++ rest).
  { unfold trim. change (js "  - " ++ rest) with (js "  " ++ js "- " ++ rest).
    rewrite trimStart_spaces by reflexivity.
    rewrite trimStart_solid by reflexivity.
    apply trimEnd_solid. now apply ends_solid_app. }
  rewrite Htrim. cbv zeta.
  change (nonempty (js "- " ++ rest)) with true. cbv iota. cbn [negb].
  assert (Hnb : exec re_bullet (js "- " ++ rest) = None).
  { unfold exec, re_bullet, match_here. cbn [anchored body rmatch].
    destruct rest as [|c t]; [discriminate Hs|].
    unfold startsWith in Hb.
    change (strip_prefix (js "[") (c :: t))
      with (if Ascii.eqb "["%char c then Some t else None) in Hb.
    change (strip_prefix (js "- [") (js "- " ++ c :: t))
      with (if Ascii.eqb "["%char c then Some t else None).
    destruct (Ascii.eqb "["%char c); [discriminate Hb | reflexivity]. }
  rewrite Hnb, (exec_detail rest Hs Hl Hb).
  cbn [current out currentResolved group_or_empty groups group Nat.eqb].
  rewrite (trim_solid rest Hs He).
  destruct rest as [|c t]; [discriminate Hs|]. reflexivity.
Qed.

Lemma step_description (o : list Uncertainty.t) (cur : Uncertainty.t) (f : bool) (v : str) :
  plain_field v = true ->
  uncertainty_step (ULoop o (Some cur) f) (js "  - Description: " ++ v)
  = ULoop o (Some (Uncertainty.with_description cur (Some v))) f.
Proof.
  intros Hv. destruct (plain_field_facts v Hv) as (Hs & He & Hl & _).
  change (js "  - Description: " ++ v) with (js "  - " ++ js "Description: " ++ v).
  rewrite step_detail, update_description; try reflexivity; try assumption.
  now apply ends_solid_app.
Qed.

Lemma step_resolution (o : list Uncertainty.t) (cur : Uncertainty.t) (f : bool) (v : str) :
  plain_field v = true ->
  uncertainty_step (ULoop o (Some cur) f) (js "  - Resolution: " ++ v)
  = ULoop o (Some (Uncertainty.with_resolution cur (Some v))) f.
Proof.
  intros Hv. destruct (plain_field_facts v Hv) as (Hs & He & Hl & _).
  change (js "  - Resolution: " ++ v) with (js "  - " ++ js "Resolution: " ++ v).
  rewrite step_detail, update_resolution; try reflexivity; try assumption.
  now apply ends_solid_app.
Qed.

Lemma step_resolvedBy (o : list Uncertainty.t) (cur : Uncertainty.t) (f : bool) (v : str) :
  plain_field v = true ->
  uncertainty_step (ULoop o (Some cur) f) (js "  - Resolved By: " ++ v)
  = ULoop o (Some (Uncertainty.with_resolvedBy cur (Some v))) f.
Proof.
  intros Hv. destruct (plain_field_facts v Hv) as (Hs & He & Hl & _).
  change (js "  - Resolved By: " ++ v) with (js "  - " ++ js "Resolved By: " ++ v).
  rewrite step_detail, update_resolvedBy; try reflexivity; try assumption.
  now apply ends_solid_app.
Qed.

Lemma step_resolvedAt (o : list Uncertainty.t) (cur : Uncertainty.t) (f : bool) (v : str) :
  plain_field v = true ->
  uncertainty_step (ULoop o (Some cur) f) (js "  - Resolved At: " ++ v)
  = ULoop o (Some (Uncertainty.with_resolvedAt cur (Some v))) f.
Proof.
  intros Hv. destruct (plain_field_facts v Hv) as (Hs & He & Hl & _).
  change (js "  - Resolved At: " ++ v) with (js "  - " ++ js "Resolved At: " ++ v).
  rewrite step_detail, update_resolvedAt; try reflexivity; try assumption.
  now apply ends_solid_app.
Qed.

Lemma step_empty (st : uloop) : uncertainty_step st [] = st.
Proof. reflexivity. Qed.

(** The lines of one uncertainty leave it in [current], after flushing
    what was there. *)
Lemma lines_of_uncertainty (st : uloop) (u : Uncertainty.t) :
  uncertainty_ok u = true ->
  fold_left uncertainty_step (uncertainty_lines u) st
  = ULoop (out (flushCurrent st)) (Some u) (truthy (Uncertainty.resolution u)).
Proof.
  destruct u as [title d r a b]. unfold uncertainty_ok, uncertainty_lines.
  cbn [Uncertainty.title Uncertainty.description Uncertainty.resolution
       Uncertainty.resolvedAt Uncertainty.resolvedBy].
  intros H.
  apply andb_true_iff in H. destruct H as [H Hb].
  apply andb_true_iff in H. destruct H as [H Ha].
  apply andb_true_iff in H. destruct H as [H Hr].
  apply andb_true_iff in H. destruct H as [Ht Hd].
  cbv zeta.
  destruct (plain_opt_cases d Hd) as [[-> Hd1] | (sd & -> & Hd1 & _ & Hd2)];
  destruct (plain_opt_cases r Hr) as [[-> Hr1] | (sr & -> & Hr1 & _ & Hr2)];
  destruct (plain_opt_cases a Ha) as [[-> Ha1] | (sa & -> & Ha1 & _ & Ha2)];
  destruct (plain_opt_cases b Hb) as [[-> Hb1] | (sb & -> & Hb1 & _ & Hb2)];
  rewrite ?Hd1, ?Hr1, ?Ha1, ?Hb1; cbn [text app fold_left];
  try change (js "x") with ["x"%char]; try change (js " ") with [" "%char];
  rewrite step_bullet by (reflexivity || assumption);
  rewrite ?step_description, ?step_resolution, ?step_resolvedBy, ?step_resolvedAt
    by assumption;
  reflexivity.
Qed.

Lemma flush_after_uncertainty (o : list Uncertainty.t) (u : Uncertainty.t) :
  flushCurrent (ULoop o (Some u) (truthy (Uncertainty.resolution u)))
  = ULoop (o ++ [u]) None false.
Proof.
  unfold flushCurrent. cbn [current currentResolved out].
  destruct (truthy (Uncertainty.resolution u)); reflexivity.
Qed.

Lemma flush_idle (o : list Uncertainty.t) :
  flushCurrent (ULoop o None false) = ULoop o None false.
Proof. reflexivity. Qed.

Lemma lines_of_uncertainties (us : list Uncertainty.t) (st : uloop) :
  forallb uncertainty_ok us = true ->
  out (flushCurrent (fold_left uncertainty_step (flat_map uncertainty_lines us) st))
  = out (flushCurrent st) ++ us.
Proof.
  revert st. induction us as [|u us IH]; intros st H.
  - simpl. now rewrite app_nil_r.
  - simpl in H. apply andb_true_iff in H. destruct H as [Hu Hus].
    cbn [flat_map]. rewrite fold_left_app, (lines_of_uncertainty st u Hu).
    rewrite (IH _ Hus), flush_after_uncertainty. cbn [out].
    now rewrite <- app_assoc.
Qed.

(** *** Splitting a section into lines *)

Lemma split_nl_line (l t : str) :
  lf_free l = true -> split_nl (l ++ nl ++ t) = l :: split_nl t.
Proof.
  induction l as [|c l IH]; intros H.
  - reflexivity.
  - simpl in H. apply andb_true_iff in H. destruct H as [Hc Hl].
    apply negb_true_iff in Hc.
    change ((c :: l) ++ nl ++ t) with (c :: l ++ nl ++ t).
    cbn [split_nl]. rewrite Hc, (IH Hl). reflexivity.
Qed.

Lemma split_nl_lines (ls : list str) (l t : str) :
  lf_free l = true ->
  forallb lf_free ls = true ->
  split_nl (l ++ lines_text ls ++ nl ++ t) = (l :: ls) ++ split_nl t.
Proof.
  revert l. induction ls as [|l' ls IH]; intros l Hl Hls.
  - rewrite lines_text_nil, app_nil_l. now apply split_nl_line.
  - simpl in Hls. apply andb_true_iff in Hls. destruct Hls as [Hl' Hls].
    rewrite lines_text_cons. repeat rewrite <- app_assoc.
    rewrite (split_nl_line l _ Hl), (IH l' Hl' Hls). reflexivity.
Qed.

Lemma single_line_lf_free (s : str) : single_line s = true -> lf_free s = true.
Proof.
  apply forallb_weaken. intros c Hc.
  destruct (Ascii.eqb c LF) eqn:E; [|reflexivity].
  apply Ascii.eqb_eq in E. subst c. discriminate Hc.
Qed.

Lemma lf_free_app (a b : str) : lf_free (a ++ b) = lf_free a && lf_free b.
Proof. unfold lf_free. apply forallb_app. Qed.

Lemma plain_field_lf_free (s : str) : plain_field s = true -> lf_free s = true.
Proof.
  intros H. destruct (plain_field_facts s H) as (_ & _ & Hl & _).
  now apply single_line_lf_free.
Qed.

Lemma detail_lf_free (label : string) (o : option str) :
  lf_free (js label) = true ->
  plain_opt o = true ->
  forallb lf_free (if truthy o then [js label ++ text o] else []) = true.
Proof.
  intros Hl Ho.
  destruct (plain_opt_cases o Ho) as [[-> Ht] | (s & -> & Ht & _ & Hs)]; rewrite Ht.
  - reflexivity.
  - cbn [forallb text]. rewrite lf_free_app, Hl, (plain_field_lf_free s Hs). reflexivity.
Qed.

Lemma uncertainty_lines_lf_free (u : Uncertainty.t) :
  uncertainty_ok u = true -> forallb lf_free (uncertainty_lines u) = true.
Proof.
  unfold uncertainty_ok, uncertainty_lines. intros H.
  apply andb_true_iff in H. destruct H as [H Hb].
  apply andb_true_iff in H. destruct H as [H Ha].
  apply andb_true_iff in H. destruct H as [H Hr].
  apply andb_true_iff in H. destruct H as [Ht Hd].
  cbv zeta. repeat rewrite forallb_app.
  rewrite !detail_lf_free by (reflexivity || assumption).
  cbn [forallb]. rewrite !lf_free_app, (plain_field_lf_free _ Ht).
  destruct (truthy (Uncertainty.resolution u)); reflexivity.
Qed.

Lemma flat_map_lf_free (us : list Uncertainty.t) :
  forallb uncertainty_ok us = true ->
  forallb lf_free (flat_map uncertainty_lines us) = true.
Proof.
  induction us as [|u us IH]; intros H; [reflexivity|].
  simpl in H. apply andb_true_iff in H. destruct H as [Hu Hus].
  cbn [flat_map]. now rewrite forallb_app, (uncertainty_lines_lf_free u Hu), IH.
Qed.

(** The uncertainties section decodes to the list it was written from. *)
Lemma parse_uncertainties_section (us : list Uncertainty.t) :
  forallb uncertainty_ok us = true ->
  parse_uncertainties (lines_text (flat_map uncertainty_lines us) ++ nl ++ nl) = us.
Proof.
  intros H. unfold parse_uncertainties.
  pose proof (split_nl_lines (flat_map uncertainty_lines us) [] nl eq_refl
                (flat_map_lf_free us H)) as E.
  rewrite app_nil_l in E. rewrite E.
  change (split_nl nl) with ([[]; []] : list str).
  cbn [app fold_left]. rewrite step_empty, fold_left_app.
  cbn [fold_left]. rewrite !step_empty.
  now rewrite (lines_of_uncertainties us _ H).
Qed.

(* ====================================================================== *)
(** ** The lessons section *)
(* ====================================================================== *)

Lemma category_name_facts (c : LessonCategory) :
  category_name c <> [] /\ forallb is_word (category_name c) = true
  /\ trim (category_name c) = category_name c
  /\ safeParse_category (category_name c) = Some c
  /\ lf_free (category_name c) = true.
Proof. destruct c; repeat split; discriminate. Qed.

Lemma exec_category_hit (c : LessonCategory) (content : str) :
  starts_solid content = true ->
  single_line content = true ->
  exec re_category (js "- [" ++ category_name c ++ js "]" ++ js " " ++ content)
  = Some (MatchResult [] [(2, content); (1, category_name c)] []).
Proof.
  intros Hs Hl. destruct (category_name_facts c) as (Hne & Hw & _).
  unfold exec, re_category. cbn [anchored body].
  apply find_match_here. unfold match_here.
  rewrite (@key_capture_then (js "- [") (category_name c)
             (js "]" ++ js " " ++ content) 1 is_word _ accept
             ([(2, content); (1, category_name c)], [])); try assumption; try reflexivity.
  rewrite seq_step, lit_app, seq_step.
  change (rmatch (Star ?p) ?k ?s ?c) with (star_greedy p k s c).
  rewrite (@star_greedy_run is_space _ (js " ") content _
             ([(2, content); (1, category_name c)], []));
    [reflexivity | reflexivity | | ].
  - destruct content as [|x t]; [discriminate Hs|]. simpl in Hs |- *.
    now apply negb_true_iff.
  - assert (E : rmatch (Grp 2 (Plus is_dot)) accept (content ++ [])
                       [(1, category_name c)]
                 = Some ([(2, content); (1, category_name c)], [])).
    { apply group_plus_run; [|exact Hl | exact I | reflexivity].
      destruct content; [discriminate Hs | discriminate]. }
    rewrite app_nil_r in E. exact E.
Qed.

Lemma lesson_line_categorized (c : LessonCategory) (content : str) (tags : option (list str)) :
  lesson_line (Lesson.Build content (Some c) tags)
  = js "- [" ++ category_name c ++ js "]" ++ js " " ++ content.
Proof.
  unfold lesson_line. cbn [Lesson.category Lesson.content].
  repeat rewrite <- app_assoc. reflexivity.
Qed.

Lemma lesson_line_plain (content : str) (tags : option (list str)) :
  lesson_line (Lesson.Build content None tags) = js "- " ++ js " " ++ content.
Proof. reflexivity. Qed.

Lemma lesson_step_categorized (acc : list Lesson.t) (c : LessonCategory) (content : str) :
  plain_field content = true ->
  lesson_step acc (lesson_line (Lesson.Build content (Some c) None))
  = acc ++ [Lesson.Build content (Some c) None].
Proof.
  intros H. destruct (plain_field_facts content H) as (Hs & He & Hl & _).
  destruct (category_name_facts c) as (_ & _ & Ht & Hp & _).
  rewrite lesson_line_categorized. unfold lesson_step.
  rewrite (exec_category_hit c content Hs Hl).
  cbn [group_or_empty groups group Nat.eqb].
  now rewrite Ht, Hp, (trim_solid content Hs He).
Qed.

Lemma lesson_step_plain (acc : list Lesson.t) (content : str) :
  plain_field content = true ->
  includes (js "- [") content = false ->
  lesson_step acc (lesson_line (Lesson.Build content None None))
  = acc ++ [Lesson.Build content None None].
Proof.
  intros H Hinc. destruct (plain_field_facts content H) as (Hs & He & Hl & _).
  rewrite lesson_line_plain. unfold lesson_step.
  assert (Hnone : exec re_category (js "- " ++ js " " ++ content) = None).
  { unfold exec, re_category. cbn [anchored body].
    apply find_match_absent; [discriminate|].
    change (js "- " ++ js " " ++ content) with (js "-  " ++ content).
    apply nowhere_app; [apply keyfree_nowhere; reflexivity|].
    now apply nowhere_not_included. }
  rewrite Hnone.
  assert (Hdash : replace_first re_dash (js "- " ++ js " " ++ content)
                  = js " " ++ content).
  { unfold replace_first, exec, re_dash, match_here. cbn [anchored body].
    now rewrite lit_app. }
  rewrite Hdash. cbv zeta.
  assert (Htrim : trim (js " " ++ content) = content).
  { unfold trim. rewrite trimStart_spaces by reflexivity.
    rewrite (trimStart_solid content Hs). now apply trimEnd_solid. }
  rewrite Htrim. destruct content; [discriminate Hs | reflexivity].
Qed.

Lemma lesson_step_line (acc : list Lesson.t) (l : Lesson.t) :
  lesson_ok l = true -> lesson_step acc (lesson_line l) = acc ++ [l].
Proof.
  destruct l as [content cat tags]. unfold lesson_ok.
  cbn [Lesson.content Lesson.category Lesson.tags]. intros H.
  apply andb_true_iff in H. destruct H as [H Htags].
  apply andb_true_iff in H. destruct H as [Hc Hcat].
  destruct tags; [discriminate Htags|].
  destruct cat as [c|].
  - now apply lesson_step_categorized.
  - apply lesson_step_plain; [exact Hc | now apply negb_true_iff].
Qed.

Lemma lesson_lines_fold (ls acc : list Lesson.t) :
  forallb lesson_ok ls = true ->
  fold_left lesson_step (map lesson_line ls) acc = acc ++ ls.
Proof.
  revert acc. induction ls as [|l ls IH]; intros acc H.
  - simpl. now rewrite app_nil_r.
  - simpl in H. apply andb_true_iff in H. destruct H as [Hl Hls].
    cbn [map fold_left]. rewrite (lesson_step_line acc l Hl), (IH _ Hls).
    now rewrite <- app_assoc.
Qed.

Lemma lesson_line_shape (l : Lesson.t) :
  lesson_ok l = true ->
  lf_free (lesson_line l) = true
  /\ startsWith (js "- ") (trim (lesson_line l)) = true.
Proof.
  destruct l as [content cat tags]. unfold lesson_ok.
  cbn [Lesson.content Lesson.category Lesson.tags]. intros H.
  apply andb_true_iff in H. destruct H as [H _].
  apply andb_true_iff in H. destruct H as [Hc _].
  destruct (plain_field_facts content Hc) as (Hs & He & Hl & _).
  assert (Hlf := single_line_lf_free content Hl).
  unfold lesson_line. cbn [Lesson.content Lesson.category].
  split.
  - destruct cat as [c|].
    + destruct (category_name_facts c) as (_ & _ & _ & _ & Hn).
      now rewrite !lf_free_app, Hn, Hlf.
    + now rewrite !lf_free_app, Hlf.
  - rewrite trim_solid.
    + unfold startsWith. now rewrite strip_prefix_app.
    + reflexivity.
    + now repeat apply ends_solid_app.
Qed.

Lemma lesson_lines_kept (ls : list Lesson.t) :
  forallb lesson_ok ls = true ->
  filter (fun line => startsWith (js "- ") (trim line)) (map lesson_line ls)
  = map lesson_line ls.
Proof.
  induction ls as [|l ls IH]; intros H; [reflexivity|].
  simpl in H. apply andb_true_iff in H. destruct H as [Hl Hls].
  cbn [map filter]. destruct (lesson_line_shape l Hl) as [_ ->]. now rewrite IH.
Qed.

Lemma lesson_lines_lf_free (ls : list Lesson.t) :
  forallb lesson_ok ls = true -> forallb lf_free (map lesson_line ls) = true.
Proof.
  induction ls as [|l ls IH]; intros H; [reflexivity|].
  simpl in H. apply andb_true_iff in H. destruct H as [Hl Hls].
  cbn [map forallb]. destruct (lesson_line_shape l Hl) as [-> _]. now rewrite IH.
Qed.

(** The lessons section decodes to the list it was written from. *)
Lemma parse_lessons_section (ls : list Lesson.t) :
  forallb lesson_ok ls = true ->
  parse_lessons (lines_text (map lesson_line ls) ++ nl) = ls.
Proof.
  intros H. unfold parse_lessons.
  pose proof (split_nl_lines (map lesson_line ls) [] [] eq_refl
                (lesson_lines_lf_free ls H)) as E.
  rewrite app_nil_l, app_nil_r in E. rewrite E.
  change (split_nl []) with ([[]] : list str).
  cbn [app filter]. change (startsWith (js "- ") (trim [])) with false. cbv iota.
  rewrite filter_app, (lesson_lines_kept ls H). cbn [filter].
  change (startsWith (js "- ") (trim [])) with false. cbv iota.
  rewrite app_nil_r. apply (lesson_lines_fold ls [] H).
Qed.

(* ====================================================================== *)
(** ** Decoding an encoded description *)
(* ====================================================================== *)

Lemma after_effort_pieces (m : Metadata.t) :
  after_effort m
  = reason_part m ++ bias_part m ++ nl ++ nl ++ uncertainties_piece m ++ nl
    ++ lessons_piece m.
Proof.
  unfold after_effort, uncertainties_piece, lessons_piece.
  repeat rewrite <- app_assoc. reflexivity.
Qed.

Lemma after_bias_nl (m : Metadata.t) (t : str) :
  exists t', bias_part m ++ nl ++ t = nl ++ t'.
Proof.
  unfold bias_part. destruct (truthy (Metadata.complexityBias m)).
  - repeat rewrite <- app_assoc. eexists. reflexivity.
  - eexists. reflexivity.
Qed.

Lemma after_effort_nl (m : Metadata.t) : exists t', after_effort m = nl ++ t'.
Proof.
  rewrite after_effort_pieces. unfold reason_part.
  destruct (truthy (Metadata.effortReason m)).
  - repeat rewrite <- app_assoc. eexists. reflexivity.
  - apply after_bias_nl.
Qed.

(** *** What well-formedness gives for each piece *)

Lemma goal_text_facts (m : Metadata.t) :
  goal_ok (Metadata.goal m) = true ->
  starts_solid (goal_text m) = true /\ single_line (goal_text m) = true
  /\ no_star (goal_text m) = true
  /\ (if negb (str_eqb (goal_text m) (js "Not specified"))
      then Some (trim (goal_text m)) else None) = Metadata.goal m.
Proof.
  unfold goal_ok, goal_text. intros H.
  apply andb_true_iff in H. destruct H as [Hp Hn].
  destruct (plain_opt_cases _ Hp) as [[Hg Ht] | (s & Hg & Ht & Hx & Hs)];
    rewrite Ht, Hg in *.
  - repeat split.
  - cbn [text]. destruct (plain_field_facts s Hs) as (H1 & H2 & H3 & H4 & _).
    repeat split; try assumption.
    unfold option_str_eqb in Hn. rewrite Hn. now rewrite (trim_solid s H1 H2).
Qed.

Lemma no_star_lines (ls : list str) :
  forallb no_star ls = true -> no_star (lines_text ls) = true.
Proof.
  induction ls as [|l ls IH]; intros H; [reflexivity|].
  simpl in H. apply andb_true_iff in H. destruct H as [Hl Hls].
  rewrite lines_text_cons, !no_star_app, Hl, (IH Hls). reflexivity.
Qed.

Lemma detail_no_star (label : string) (o : option str) :
  no_star (js label) = true ->
  plain_opt o = true ->
  forallb no_star (if truthy o then [js label ++ text o] else []) = true.
Proof.
  intros Hl Ho.
  destruct (plain_opt_cases o Ho) as [[-> Ht] | (s & -> & Ht & _ & Hs)]; rewrite Ht.
  - reflexivity.
  - cbn [forallb text]. destruct (plain_field_facts s Hs) as (_ & _ & _ & H & _).
    now rewrite no_star_app, Hl, H.
Qed.

Lemma uncertainty_lines_no_star (u : Uncertainty.t) :
  uncertainty_ok u = true -> forallb no_star (uncertainty_lines u) = true.
Proof.
  unfold uncertainty_ok, uncertainty_lines. intros H.
  apply andb_true_iff in H. destruct H as [H Hb].
  apply andb_true_iff in H. destruct H as [H Ha].
  apply andb_true_iff in H. destruct H as [H Hr].
  apply andb_true_iff in H. destruct H as [Ht Hd].
  destruct (plain_field_facts _ Ht) as (_ & _ & _ & Hs & _).
  cbv zeta. repeat rewrite forallb_app.
  rewrite !detail_no_star by (reflexivity || assumption).
  cbn [forallb]. rewrite !no_star_app, Hs.
  destruct (truthy (Uncertainty.resolution u)); reflexivity.
Qed.

Lemma uncertainties_text_no_star (m : Metadata.t) :
  forallb uncertainty_ok (Metadata.uncertainties m) = true ->
  no_star (uncertainties_text m) = true.
Proof.
  intros H. unfold uncertainties_text. apply no_star_lines.
  induction (Metadata.uncertainties m) as [|u us IH]; [reflexivity|].
  simpl in H. apply andb_true_iff in H. destruct H as [Hu Hus].
  cbn [flat_map]. now rewrite forallb_app, (uncertainty_lines_no_star u Hu), IH.
Qed.

Lemma lesson_line_no_star (l : Lesson.t) :
  lesson_ok l = true -> no_star (lesson_line l) = true.
Proof.
  unfold lesson_ok, lesson_line. intros H.
  apply andb_true_iff in H. destruct H as [H _].
  apply andb_true_iff in H. destruct H as [Hc _].
  destruct (plain_field_facts _ Hc) as (_ & _ & _ & Hs & _).
  cbv zeta. destruct (Lesson.category l) as [[]|]; rewrite !no_star_app, Hs; reflexivity.
Qed.

Lemma lessons_text_no_star (m : Metadata.t) :
  forallb lesson_ok (Metadata.lessonsLearned m) = true ->
  no_star (lessons_text m) = true.
Proof.
  intros H. unfold lessons_text. apply no_star_lines.
  induction (Metadata.lessonsLearned m) as [|l ls IH]; [reflexivity|].
  simpl in H. apply andb_true_iff in H. destruct H as [Hl Hls].
  cbn [map forallb]. now rewrite (lesson_line_no_star l Hl), IH.
Qed.

(** A header on a line of its own, the lines after it and the line feed
    that ends them. *)
Lemma inert_header_lines (key header body : str) :
  startsWith [star] key = true ->
  keyfree key (header ++ nl) = true ->
  no_star body = true ->
  (body = [] \/ exists body', body = nl ++ body') ->
  inert key (header ++ body ++ nl).
Proof.
  intros Hk Hh Hb [-> | (body' & ->)].
  - now apply inert_closed.
  - rewrite no_star_app in Hb. apply andb_true_iff in Hb. destruct Hb as [_ Hb].
    replace (header ++ (nl ++ body') ++ nl) with ((header ++ nl) ++ body' ++ nl)
      by (repeat rewrite <- app_assoc; reflexivity).
    apply inert_app; [now apply inert_closed|].
    apply inert_app; apply inert_starless; try assumption. reflexivity.
Qed.

Lemma lines_text_shape (ls : list str) :
  lines_text ls = [] \/ exists body', lines_text ls = nl ++ body'.
Proof.
  destruct ls as [|l ls]; [now left | right].
  rewrite lines_text_cons. eexists. reflexivity.
Qed.

Section Pieces.

Variable m : Metadata.t.
Hypothesis Hok : metadata_ok m = true.

Variable key : str.
Hypothesis Hkey : startsWith [star] key = true.

Lemma ok_parts :
  goal_ok (Metadata.goal m) = true
  /\ (0 <= Metadata.effort m)%Z
  /\ plain_opt (Metadata.effortReason m) = true
  /\ bias_ok (Metadata.complexityBias m) = true
  /\ forallb uncertainty_ok (Metadata.uncertainties m) = true
  /\ forallb lesson_ok (Metadata.lessonsLearned m) = true.
Proof.
  pose proof Hok as H. unfold metadata_ok in H.
  apply andb_true_iff in H. destruct H as [H H6].
  apply andb_true_iff in H. destruct H as [H H5].
  apply andb_true_iff in H. destruct H as [H H4].
  apply andb_true_iff in H. destruct H as [H H3].
  apply andb_true_iff in H. destruct H as [H1 H2].
  apply Z.leb_le in H2. auto 10.
Qed.

Lemma ok_goal : goal_ok (Metadata.goal m) = true.
Proof. apply ok_parts. Qed.

Lemma ok_effort : (0 <= Metadata.effort m)%Z.
Proof. apply ok_parts. Qed.

Lemma ok_reason : plain_opt (Metadata.effortReason m) = true.
Proof. apply ok_parts. Qed.

Lemma ok_bias : bias_ok (Metadata.complexityBias m) = true.
Proof. apply ok_parts. Qed.

Lemma ok_uncertainties : forallb uncertainty_ok (Metadata.uncertainties m) = true.
Proof. apply ok_parts. Qed.

Lemma ok_lessons : forallb lesson_ok (Metadata.lessonsLearned m) = true.
Proof. apply ok_parts. Qed.

Lemma inert_goal_text : inert key (goal_text m).
Proof.
  apply inert_starless; [exact Hkey|].
  now destruct (goal_text_facts m ok_goal) as (_ & _ & H & _).
Qed.

Lemma inert_effort : inert key (show_int (Metadata.effort m)).
Proof.
  apply inert_starless; [exact Hkey|].
  apply digits_no_star. apply show_int_digits. exact ok_effort.
Qed.

Lemma inert_reason_part :
  keyfree key (js "**Effort Reason:** ") = true -> inert key (reason_part m).
Proof.
  intros Hh. unfold reason_part.
  destruct (plain_opt_cases _ ok_reason) as [[_ Ht] | (s & _ & Ht & -> & Hs)];
    rewrite Ht; [apply inert_nil|].
  apply inert_app; [apply inert_starless; [exact Hkey | reflexivity]|].
  apply inert_app; [now apply inert_closed|].
  apply inert_starless; [exact Hkey|].
  now destruct (plain_field_facts s Hs) as (_ & _ & _ & H & _).
Qed.

Lemma inert_bias_part :
  keyfree key (js "**Complexity Bias:** ") = true -> inert key (bias_part m).
Proof.
  intros Hh. unfold bias_part. generalize ok_bias.
  destruct (Metadata.complexityBias m) as [b|]; [|intros _; apply inert_nil].
  cbn [bias_ok text]. intros Hb. apply andb_true_iff in Hb. destruct Hb as [Hne Hw].
  destruct b as [|c b]; [discriminate Hne|]. cbn [truthy].
  apply inert_app; [apply inert_starless; [exact Hkey | reflexivity]|].
  apply inert_app; [now apply inert_closed|].
  apply inert_starless; [exact Hkey | now apply word_no_star].
Qed.

Lemma inert_uncertainties_piece :
  keyfree key (js "**Uncertainties:**" ++ nl) = true -> inert key (uncertainties_piece m).
Proof.
  intros Hh. unfold uncertainties_piece. apply inert_header_lines; try assumption.
  - apply uncertainties_text_no_star. exact ok_uncertainties.
  - apply lines_text_shape.
Qed.

Lemma inert_lessons_piece :
  keyfree key (js "**Lessons Learned:**" ++ nl) = true -> inert key (lessons_piece m).
Proof.
  intros Hh. unfold lessons_piece. apply inert_header_lines; try assumption.
  - apply lessons_text_no_star. exact ok_lessons.
  - apply lines_text_shape.
Qed.

Lemma inert_nl : inert key nl.
Proof. apply inert_starless; [exact Hkey | reflexivity]. Qed.

End Pieces.

Lemma block_pieces (m : Metadata.t) :
  block_text m
  = nl ++ js "**Goal:** " ++ goal_text m ++ nl ++ js "**Effort:** "
    ++ show_int (Metadata.effort m) ++ reason_part m ++ bias_part m ++ nl ++ nl
    ++ uncertainties_piece m ++ nl ++ lessons_piece m.
Proof. now rewrite block_layout, after_effort_pieces. Qed.

Ltac solve_inert Hok :=
  match goal with
  | |- inert _ (goal_text _) => apply inert_goal_text; [exact Hok | reflexivity]
  | |- inert _ (show_int _) => apply inert_effort; [exact Hok | reflexivity]
  | |- inert _ (reason_part _) =>
      apply inert_reason_part; [exact Hok | reflexivity | reflexivity]
  | |- inert _ (bias_part _) =>
      apply inert_bias_part; [exact Hok | reflexivity | reflexivity]
  | |- inert _ (uncertainties_piece _) =>
      apply inert_uncertainties_piece; [exact Hok | reflexivity | reflexivity]
  | |- inert _ (lessons_piece _) =>
      apply inert_lessons_piece; [exact Hok | reflexivity | reflexivity]
  | |- inert _ _ => apply inert_closed; reflexivity
  end.

Ltac skip_pieces Hok :=
  repeat match goal with
  | |- finds (Lit ?k >> _) (?p ++ _) _ _ =>
      lazymatch p with
      | context [k] => fail
      | _ => apply (@finds_after k _ p); [solve_inert Hok|]
      end
  end.

Section RoundTrip.

Variable m : Metadata.t.
Hypothesis Hok : metadata_ok m = true.

Lemma finds_goal : finds (body re_goal) (block_text m) 1 (goal_text m).
Proof.
  rewrite block_pieces. unfold re_goal. cbn [body].
  apply finds_after; [solve_inert Hok|].
  destruct (goal_text_facts m (@ok_goal m Hok)) as (Hs & Hl & _).
  apply finds_here with (m := MatchResult [] [(1, goal_text m)]
    (nl ++ js "**Effort:** " ++ show_int (Metadata.effort m) ++ reason_part m
     ++ bias_part m ++ nl ++ nl ++ uncertainties_piece m ++ nl ++ lessons_piece m));
    [|reflexivity].
  change (js "**Goal:** " ++ goal_text m ++ ?t)
    with (js "**Goal:**" ++ js " " ++ goal_text m ++ t).
  apply key_value_here; [exact Hs | exact Hl | reflexivity].
Qed.

Lemma finds_effort :
  finds (body re_effort) (block_text m) 1 (show_int (Metadata.effort m)).
Proof.
  rewrite block_layout. unfold re_effort. cbn [body].
  do 4 (apply finds_after; [solve_inert Hok|]).
  destruct (after_effort_nl m) as (t' & ->).
  apply finds_here with (m := MatchResult [] [(1, show_int (Metadata.effort m))] (nl ++ t'));
    [|reflexivity].
  change (js "**Effort:** " ++ ?v ++ ?t) with (js "**Effort:**" ++ js " " ++ v ++ t).
  apply key_value_here; [| | reflexivity].
  - apply show_int_solid. exact (@ok_effort m Hok).
  - apply show_int_digits. exact (@ok_effort m Hok).
Qed.

Lemma finds_effortReason :
  truthy (Metadata.effortReason m) = true ->
  finds (body re_effortReason) (block_text m) 1 (text (Metadata.effortReason m)).
Proof.
  intros Ht. rewrite block_pieces. unfold re_effortReason. cbn [body].
  do 6 (apply finds_after; [solve_inert Hok|]).
  unfold reason_part. rewrite Ht. repeat rewrite <- app_assoc.
  apply finds_after; [solve_inert Hok|].
  destruct (plain_opt_cases _ (@ok_reason m Hok)) as [[_ Hf] | (s & _ & _ & -> & Hs)];
    [congruence|].
  destruct (plain_field_facts s Hs) as (H1 & _ & H3 & _).
  match goal with
  | |- context [bias_part m ++ nl ++ ?X] =>
      destruct (after_bias_nl m X) as (t' & ->)
  end.
  apply finds_here with (m := MatchResult [] [(1, s)] (nl ++ t')); [|reflexivity].
  change (js "**Effort Reason:** " ++ ?v ++ ?t)
    with (js "**Effort Reason:**" ++ js " " ++ v ++ t).
  apply key_value_here; [exact H1 | exact H3 | reflexivity].
Qed.

Lemma absent_effortReason :
  truthy (Metadata.effortReason m) = false ->
  find_match (body re_effortReason) (block_text m) = None.
Proof.
  intros Ht. rewrite block_pieces. unfold re_effortReason. cbn [body].
  apply find_match_inert; [discriminate|].
  unfold reason_part. rewrite Ht, app_nil_l.
  inert_pieces; solve_inert Hok.
Qed.

Lemma finds_complexityBias :
  truthy (Metadata.complexityBias m) = true ->
  finds (body re_complexityBias) (block_text m) 1 (text (Metadata.complexityBias m)).
Proof.
  intros Ht. rewrite block_pieces. unfold re_complexityBias. cbn [body].
  do 7 (apply finds_after; [solve_inert Hok|]).
  unfold bias_part. rewrite Ht. repeat rewrite <- app_assoc.
  apply finds_after; [solve_inert Hok|].
  generalize (@ok_bias m Hok). destruct (Metadata.complexityBias m) as [b|];
    [|discriminate Ht].
  cbn [bias_ok text]. intros Hb. apply andb_true_iff in Hb. destruct Hb as [Hne Hw].
  apply finds_here
    with (m := MatchResult [] [(1, b)]
                 (nl ++ nl ++ uncertainties_piece m ++ nl ++ lessons_piece m));
    [|reflexivity].
  change (js "**Complexity Bias:** " ++ ?v ++ ?t)
    with (js "**Complexity Bias:**" ++ js " " ++ v ++ t).
  apply key_value_here; [| exact Hw | reflexivity].
  destruct b as [|c b]; [discriminate Hne|].
  simpl in Hw. apply andb_true_iff in Hw. destruct Hw as [Hc _].
  destruct (word_cases c Hc) as (H & _). simpl. now rewrite H.
Qed.

Lemma absent_complexityBias :
  truthy (Metadata.complexityBias m) = false ->
  find_match (body re_complexityBias) (block_text m) = None.
Proof.
  intros Ht. rewrite block_pieces. unfold re_complexityBias. cbn [body].
  apply find_match_inert; [discriminate|].
  unfold bias_part. rewrite Ht, app_nil_l.
  inert_pieces; solve_inert Hok.
Qed.

Lemma finds_uncertainties :
  finds (body re_uncertainties) (block_text m) 1 (uncertainties_text m ++ nl ++ nl).
Proof.
  rewrite block_pieces. unfold re_uncertainties. cbn [body].
  do 10 (apply finds_after; [solve_inert Hok|]).
  replace (uncertainties_piece m ++ nl ++ lessons_piece m)
    with (js "**Uncertainties:**" ++ (uncertainties_text m ++ nl ++ nl) ++ lessons_piece m)
    by (unfold uncertainties_piece; repeat rewrite <- app_assoc; reflexivity).
  apply finds_here
    with (m := MatchResult [] [(1, uncertainties_text m ++ nl ++ nl)] (lessons_piece m));
    [|reflexivity].
  apply section_capture; [|right; reflexivity].
  apply inert_starless; [reflexivity|].
  rewrite !no_star_app, (uncertainties_text_no_star m (@ok_uncertainties m Hok)).
  reflexivity.
Qed.

Lemma finds_lessons :
  finds (body re_lessons) (block_text m) 1 (lessons_text m ++ nl).
Proof.
  rewrite block_pieces. unfold re_lessons. cbn [body].
  do 12 (apply finds_after; [solve_inert Hok|]).
  unfold lessons_piece.
  apply finds_here with (m := MatchResult [] [(1, lessons_text m ++ nl)] []);
    [|reflexivity].
  apply section_until_end.
  apply inert_starless; [reflexivity|].
  rewrite !no_star_app, (lessons_text_no_star m (@ok_lessons m Hok)). reflexivity.
Qed.

End RoundTrip.

Lemma exec_unanchored (r : re) (s : str) : exec (Regex false r) s = find_match r s.
Proof. reflexivity. Qed.

Lemma group_or_empty_found (n : nat) (mr : match_result) (v : str) :
  group n (groups mr) = Some v -> group_or_empty n mr = v.
Proof. intros H. unfold group_or_empty. now rewrite H. Qed.

Section Steps.

Variable m : Metadata.t.
Hypothesis Hok : metadata_ok m = true.
Variable md : Metadata.t.

Lemma parse_goal_block :
  parse_goal (block_text m) md
  = if negb (str_eqb (goal_text m) (js "Not specified"))
    then Metadata.with_goal md (Some (trim (goal_text m))) else md.
Proof.
  unfold parse_goal. destruct (@finds_goal m Hok) as (mr & Hm & Hg).
  change (exec re_goal (block_text m)) with (find_match (body re_goal) (block_text m)).
  rewrite Hm. now rewrite (group_or_empty_found 1 mr Hg).
Qed.

Lemma parse_effort_block :
  parse_effort (block_text m) md = Metadata.with_effort md (Metadata.effort m).
Proof.
  unfold parse_effort. destruct (@finds_effort m Hok) as (mr & Hm & Hg).
  change (exec re_effort (block_text m))
    with (find_match (body re_effort) (block_text m)).
  rewrite Hm, (group_or_empty_found 1 mr Hg).
  now rewrite (parseInt_show_int (@ok_effort m Hok)).
Qed.

Lemma parse_effortReason_block :
  parse_effortReason (block_text m) md
  = Metadata.with_effortReason md (Metadata.effortReason m)
  \/ (Metadata.effortReason m = None /\ parse_effortReason (block_text m) md = md).
Proof.
  unfold parse_effortReason.
  change (exec re_effortReason (block_text m))
    with (find_match (body re_effortReason) (block_text m)).
  destruct (plain_opt_cases _ (@ok_reason m Hok)) as [[E Ht] | (s & E & Ht & Hx & Hs)].
  - right. split; [exact E|]. now rewrite (@absent_effortReason m Hok Ht).
  - left. destruct (@finds_effortReason m Hok Ht) as (mr & Hm & Hg).
    rewrite Hm, (group_or_empty_found 1 mr Hg), Hx. cbv zeta.
    destruct (plain_field_facts s Hs) as (H1 & H2 & _).
    rewrite (trim_solid s H1 H2), E.
    destruct s; [discriminate H1 | reflexivity].
Qed.

Lemma parse_complexityBias_block :
  parse_complexityBias (block_text m) md
  = Metadata.with_complexityBias md (Metadata.complexityBias m)
  \/ (Metadata.complexityBias m = None /\ parse_complexityBias (block_text m) md = md).
Proof.
  unfold parse_complexityBias.
  change (exec re_complexityBias (block_text m))
    with (find_match (body re_complexityBias) (block_text m)).
  generalize (@ok_bias m Hok).
  destruct (Metadata.complexityBias m) as [b|] eqn:E.
  - intros Hb. left. cbn [bias_ok] in Hb. apply andb_true_iff in Hb.
    destruct Hb as [Hne _].
    assert (Ht : truthy (Metadata.complexityBias m) = true).
    { rewrite E. destruct b; [discriminate Hne | reflexivity]. }
    destruct (@finds_complexityBias m Hok Ht) as (mr & Hm & Hg).
    rewrite Hm, (group_or_empty_found 1 mr Hg), E. reflexivity.
  - intros _. right. split; [reflexivity|].
    assert (Ht : truthy (Metadata.complexityBias m) = false) by now rewrite E.
    now rewrite (@absent_complexityBias m Hok Ht).
Qed.

Lemma parse_uncertaintiesSection_block :
  parse_uncertaintiesSection (block_text m) md
  = Metadata.with_uncertainties md (Metadata.uncertainties m).
Proof.
  unfold parse_uncertaintiesSection. destruct (@finds_uncertainties m Hok) as (mr & Hm & Hg).
  change (exec re_uncertainties (block_text m))
    with (find_match (body re_uncertainties) (block_text m)).
  rewrite Hm, (group_or_empty_found 1 mr Hg). unfold uncertainties_text.
  now rewrite (parse_uncertainties_section _ (@ok_uncertainties m Hok)).
Qed.

Lemma parse_lessonsSection_block :
  parse_lessonsSection (block_text m) md
  = Metadata.with_lessonsLearned md (Metadata.lessonsLearned m).
Proof.
  unfold parse_lessonsSection. destruct (@finds_lessons m Hok) as (mr & Hm & Hg).
  change (exec re_lessons (block_text m))
    with (find_match (body re_lessons) (block_text m)).
  rewrite Hm, (group_or_empty_found 1 mr Hg). unfold lessons_text.
  now rewrite (parse_lessons_section _ (@ok_lessons m Hok)).
Qed.

End Steps.


(** Decoding an encoded description gives a well-formed metadata value
    back. *)
Lemma decode_encode (plain : str) (m : Metadata.t) (Hok : metadata_ok m = true) :
  parseMetadata (buildDescriptionWithMetadata plain m) = m.
Proof.
  unfold parseMetadata. rewrite build_layout.
  rewrite exec_block
    by (apply block_no_end; now apply metadata_ok_sentinel_free).
  cbn [group_or_empty groups group Nat.eqb]. cbv zeta. unfold parse_block.
  rewrite (@parse_lessonsSection_block m Hok), (@parse_uncertaintiesSection_block m Hok).
  rewrite (@parse_goal_block m Hok), (@parse_effort_block m Hok).
  destruct (goal_text_facts m (@ok_goal m Hok)) as (_ & _ & _ & Hgoal).
  assert (Hg : (if negb (str_eqb (goal_text m) (js "Not specified"))
                then Metadata.with_goal default_metadata (Some (trim (goal_text m)))
                else default_metadata)
               = Metadata.with_goal default_metadata (Metadata.goal m)).
  { rewrite <- Hgoal. destruct (negb (str_eqb (goal_text m) (js "Not specified")));
      reflexivity. }
  rewrite Hg.
  destruct (@parse_effortReason_block m Hok
              (Metadata.with_effort (Metadata.with_goal default_metadata (Metadata.goal m))
                                    (Metadata.effort m)))
    as [Hr | [Hr0 Hr]]; rewrite Hr;
  match goal with
  | |- context [parse_complexityBias (block_text m) ?x] =>
      destruct (@parse_complexityBias_block m Hok x) as [Hb | [Hb0 Hb]]; rewrite Hb
  end;
  destruct m as [g e r b us ls]; cbn in *; subst; reflexivity.
Qed.



(* ====================================================================== *)
(** ** LinearService.addUncertainties *)
(* ====================================================================== *)

Lemma array_includes_In (l : list str) (x : str) : array_includes l x = true <-> In x l.
Proof.
  unfold array_includes. rewrite existsb_exists. split.
  - intros (y & Hy & E). apply str_eqb_eq in E. now subst.
  - intros H. exists x. split; [exact H | apply str_eqb_refl].
Qed.

Lemma toLowerCase_nil (s : str) : toLowerCase s = [] -> s = [].
Proof. destruct s; [reflexivity | discriminate]. Qed.

Lemma key_of_trimmed (title : str) (d r a b : option str) :
  key_of (Uncertainty.Build (trim title) d r a b) = normalized_key title.
Proof. unfold key_of, normalized_key. cbn [Uncertainty.title]. now rewrite trim_idem. Qed.

Lemma merge_is_append (existing : list Uncertainty.t) (seen : list str)
    (inputs : list Uncertainty.t) :
  merge_uncertainties existing seen inputs = existing ++ fresh seen inputs.
Proof.
  revert existing seen. induction inputs as [|u rest IH]; intros existing seen.
  - simpl. now rewrite app_nil_r.
  - cbn [merge_uncertainties fresh]. cbv zeta.
    destruct (negb (nonempty (trim (Uncertainty.title u)))
              || array_includes seen (toLowerCase (trim (Uncertainty.title u)))).
    + apply IH.
    + rewrite IH, <- app_assoc. reflexivity.
Qed.

Lemma fresh_keys (seen : list str) (inputs : list Uncertainty.t) :
  NoDup (map key_of (fresh seen inputs))
  /\ (forall k, In k (map key_of (fresh seen inputs)) -> ~ In k seen)
  /\ (forall u, In u inputs -> trim (Uncertainty.title u) <> [] ->
        In (key_of u) seen \/ In (key_of u) (map key_of (fresh seen inputs)))
  /\ (forall r, In r (fresh seen inputs) ->
        exists u, In u inputs
                  /\ r = Uncertainty.Build (trim (Uncertainty.title u))
                           (Uncertainty.description u) None None None).
Proof.
  revert seen. induction inputs as [|u rest IH]; intros seen.
  - simpl. repeat split; try constructor; intros; contradiction.
  - cbn [fresh]. cbv zeta.
    destruct (nonempty (trim (Uncertainty.title u))) eqn:Hne; cbn [negb orb].
    + destruct (array_includes seen (toLowerCase (trim (Uncertainty.title u)))) eqn:Hin.
      * destruct (IH seen) as (H1 & H2 & H3 & H4).
        split; [exact H1 | split; [exact H2 | split]].
        -- intros v [<- | Hv] Hv'.
           ++ left. now apply array_includes_In.
           ++ now apply H3.
        -- intros r Hr. destruct (H4 r Hr) as (v & Hv & E). exists v. split; [now right | exact E].
      * destruct (IH (seen ++ [toLowerCase (trim (Uncertainty.title u))]))
          as (H1 & H2 & H3 & H4).
        assert (Hk : forall d r a b,
                   key_of (Uncertainty.Build (trim (Uncertainty.title u)) d r a b)
                   = toLowerCase (trim (Uncertainty.title u))).
        { intros. apply key_of_trimmed. }
        cbn [map]. rewrite Hk.
        split; [|split; [|split]].
        -- constructor; [|exact H1].
           intros Habs. apply (H2 _ Habs). apply in_or_app. right. now left.
        -- intros k [<- | Hk'].
           ++ intros Habs. apply array_includes_In in Habs. congruence.
           ++ intros Habs. apply (H2 _ Hk'). apply in_or_app. now left.
        -- intros v [<- | Hv] Hv'.
           ++ right. left. reflexivity.
           ++ destruct (H3 v Hv Hv') as [Hs | Hs].
              ** apply in_app_or in Hs. destruct Hs as [Hs | [Hs | []]].
                 --- now left.
                 --- right. left. exact Hs.
              ** right. right. exact Hs.
        -- intros r [<- | Hr].
           ++ exists u. split; [now left | reflexivity].
           ++ destruct (H4 r Hr) as (v & Hv & E). exists v. split; [now right | exact E].
    + destruct (IH seen) as (H1 & H2 & H3 & H4).
      split; [exact H1 | split; [exact H2 | split]].
      * intros v [<- | Hv] Hv'.
        -- destruct (trim (Uncertainty.title u)); [now contradiction Hv' | discriminate Hne].
        -- now apply H3.
      * intros r Hr. destruct (H4 r Hr) as (v & Hv & E). exists v. split; [now right | exact E].
Qed.

Lemma fresh_nothing (seen : list str) (inputs : list Uncertainty.t) :
  (forall u, In u inputs -> trim (Uncertainty.title u) = [] \/ In (key_of u) seen) ->
  fresh seen inputs = [].
Proof.
  induction inputs as [|u rest IH]; intros H; [reflexivity|].
  cbn [fresh]. cbv zeta.
  assert (Hskip : negb (nonempty (trim (Uncertainty.title u)))
                  || array_includes seen (toLowerCase (trim (Uncertainty.title u))) = true).
  { destruct (H u (or_introl eq_refl)) as [E | Hin].
    - now rewrite E.
    - apply orb_true_iff. right. now apply array_includes_In. }
  rewrite Hskip. apply IH. intros v Hv. apply H. now right.
Qed.

Lemma add_to_metadata_uncertainties (md : Metadata.t)
    (inputs : list Uncertainty.t) :
  Metadata.uncertainties (add_to_metadata md inputs)
  = Metadata.uncertainties md
    ++ fresh (map key_of (Metadata.uncertainties md)) inputs.
Proof. unfold add_to_metadata. cbn [Metadata.uncertainties Metadata.with_uncertainties].
  apply merge_is_append.
Qed.

(** Adding a list whose titles are variants of titles already added
    changes nothing. *)
Lemma add_to_metadata_again (md : Metadata.t)
    (inputs later : list Uncertainty.t) :
  variant_of later inputs ->
  add_to_metadata (add_to_metadata md inputs) later
  = add_to_metadata md inputs.
Proof.
  intros Hvar.
  assert (Hu := add_to_metadata_uncertainties (add_to_metadata md inputs) later).
  assert (Hn : fresh (map key_of (Metadata.uncertainties (add_to_metadata md inputs)))
                     later = []).
  { apply fresh_nothing. intros u' Hu'.
    destruct (Hvar u' Hu') as (u & Hin & Hkey).
    destruct (trim (Uncertainty.title u)) as [|c t] eqn:Et.
    - left. unfold key_of, normalized_key in Hkey. rewrite Et in Hkey.
      now apply toLowerCase_nil.
    - right. rewrite Hkey, add_to_metadata_uncertainties, map_app.
      destruct (fresh_keys (map key_of (Metadata.uncertainties md)) inputs)
        as (_ & _ & H3 & _).
      apply in_or_app. apply H3; [exact Hin | rewrite Et; discriminate]. }
  rewrite Hn, app_nil_r in Hu.
  unfold add_to_metadata at 1. unfold add_to_metadata at 1 in Hu.
  cbn [Metadata.uncertainties Metadata.with_uncertainties] in Hu.
  rewrite Hu. unfold add_to_metadata.
  destruct md; reflexivity.
Qed.

Lemma fresh_first (seen : list str) (before after : list Uncertainty.t)
    (u : Uncertainty.t) :
  trim (Uncertainty.title u) <> [] ->
  ~ In (key_of u) seen ->
  (forall v, In v before -> key_of v <> key_of u) ->
  In (Uncertainty.Build (trim (Uncertainty.title u)) (Uncertainty.description u)
                        None None None)
     (fresh seen (before ++ u :: after)).
Proof.
  intros Hne. revert seen. induction before as [|v before IH]; intros seen Hseen Hbefore.
  - cbn [app fresh]. cbv zeta.
    assert (E1 : nonempty (trim (Uncertainty.title u)) = true).
    { destruct (trim (Uncertainty.title u)); [now contradiction Hne | reflexivity]. }
    assert (E2 : array_includes seen (toLowerCase (trim (Uncertainty.title u))) = false).
    { apply not_true_is_false. intros H. apply Hseen. now apply array_includes_In. }
    rewrite E1, E2. cbn [negb orb]. now left.
  - cbn [app fresh]. cbv zeta.
    assert (Hrest : forall w, In w before -> key_of w <> key_of u).
    { intros w Hw. apply Hbefore. now right. }
    destruct (negb (nonempty (trim (Uncertainty.title v)))
              || array_includes seen (toLowerCase (trim (Uncertainty.title v)))).
    + now apply IH.
    + right. apply IH; [|exact Hrest].
      intros Hin. apply in_app_or in Hin. destruct Hin as [Hin | [Hin | []]].
      * now apply Hseen.
      * apply (Hbefore v (or_introl eq_refl)). exact Hin.
Qed.

Lemma add_to_metadata_eq (md : Metadata.t) (inputs : list Uncertainty.t) :
  add_to_metadata md inputs
  = Metadata.with_uncertainties md
      (Metadata.uncertainties md
       ++ fresh (map key_of (Metadata.uncertainties md)) inputs).
Proof. unfold add_to_metadata. now rewrite merge_is_append. Qed.

Lemma addUncertainties_run (W : Type) (this : LinearService W) (taskID : str)
    (inputs : list UncertaintyInput) (w w1 w2 : W) (iss : Issue) :
  normalizeUncertainties (Some inputs) <> [] ->
  issue (client this) taskID w = (inr (Some iss), w1) ->
  updateIssue (client this) taskID
    (add_to_description (text (issue_description iss))
                        (normalizeUncertainties (Some inputs))) w1
  = (inr tt, w2) ->
  addUncertainties this taskID inputs w
  = ([Called (CallIssue taskID);
      Called (CallUpdateIssue taskID
                (add_to_description (text (issue_description iss))
                                    (normalizeUncertainties (Some inputs))))],
     w2, inr tt).
Proof.
  intros Hne Hissue Hupdate. unfold addUncertainties.
  destruct (normalizeUncertainties (Some inputs)) as [|n ns] eqn:En;
    [now contradiction Hne|].
  cbn [length Nat.eqb]. unfold bind, call. rewrite Hissue.
  fold (add_to_description (text (issue_description iss)) (n :: ns)).
  rewrite Hupdate. reflexivity.
Qed.

Lemma add_to_description_again (description : str)
    (inputs later : list Uncertainty.t) :
  metadata_ok (add_to_metadata (parseMetadata description) inputs) = true ->
  variant_of later inputs ->
  add_to_description (add_to_description description inputs) later
  = add_to_description description inputs.
Proof.
  intros Hok Hvar. unfold add_to_description at 1.
  unfold add_to_description at 1 2.
  rewrite (@decode_encode _ _ Hok), (add_to_metadata_again _ Hvar).
  unfold extractPlainDescription at 1, replace_first.
  rewrite (exec_strip _ _ (metadata_ok_sentinel_free _ Hok)).
  cbn [before after app]. unfold extractPlainDescription. now rewrite trim_idem.
Qed.




(* ====================================================================== *)
(** ** Descriptions without a metadata block *)
(* ====================================================================== *)

Lemma includes_cons (p : str) (a : ascii) (s : str) :
  includes p (a :: s) = false ->
  strip_prefix p (a :: s) = None /\ includes p s = false.
Proof.
  cbn [includes]. unfold startsWith. intros H. apply orb_false_iff in H.
  destruct H as [H1 H2]. split; [|exact H2].
  destruct (strip_prefix p (a :: s)); [discriminate H1 | reflexivity].
Qed.

Lemma includes_here (p s : str) : includes p s = false -> strip_prefix p s = None.
Proof.
  destruct s as [|a s]; [|intros H; now apply includes_cons in H].
  cbn [includes]. unfold startsWith. rewrite orb_false_r.
  destruct (strip_prefix p []); [discriminate | reflexivity].
Qed.

Lemma includes_app_r (p a b : str) : includes p (a ++ b) = false -> includes p b = false.
Proof.
  induction a as [|x a IH]; [trivial|]. cbn [app]. intros H.
  apply includes_cons in H. now apply IH.
Qed.

Lemma strip_prefix_app_split (a b s : str) :
  strip_prefix (a ++ b) s
  = match strip_prefix a s with Some s1 => strip_prefix b s1 | None => None end.
Proof.
  revert s. induction a as [|x a IH]; intros s; [reflexivity|].
  cbn [app strip_prefix]. destruct s as [|y s]; [reflexivity|].
  destruct (Ascii.eqb x y); [apply IH | reflexivity].
Qed.

(** A lazy run followed by a literal fails when the literal is nowhere. *)
Lemma star_lazy_fails (close : str) (K : cont) (s : str) (c : caps) :
  (forall s' c', strip_prefix close s' = None -> K s' c' = None) ->
  includes close s = false ->
  star_lazy is_any K s c = None.
Proof.
  intros HK. induction s as [|a s IH]; intros H.
  - cbn [star_lazy]. now rewrite (HK [] c (includes_here _ _ H)).
  - cbn [star_lazy]. destruct (includes_cons _ _ _ H) as [H1 H2].
    rewrite (HK (a :: s) c H1). cbn [is_any]. now apply IH.
Qed.

Lemma find_match_none (r : re) (s : str) :
  (forall a b, s = a ++ b -> match_here r b = None) -> find_match r s = None.
Proof.
  induction s as [|x s IH]; intros H.
  - cbn [find_match]. now rewrite (H [] [] eq_refl).
  - cbn [find_match]. rewrite (H [] (x :: s) eq_refl).
    rewrite IH; [reflexivity|]. intros a b ->. now apply (H (x :: a) b).
Qed.

Lemma block_needs_end (s : str) :
  includes METADATA_END s = false -> match_here (body re_block) s = None.
Proof.
  intros H. unfold match_here, re_block. cbn [body rmatch].
  destruct (strip_prefix METADATA_SEPARATOR s) as [s1|] eqn:E; [|reflexivity].
  apply strip_prefix_Some in E. subst s. apply includes_app_r in H.
  rewrite (@star_lazy_fails METADATA_END _ s1 [] ); [reflexivity| |exact H].
  intros s' c' E'. now rewrite E'.
Qed.

Lemma strip_needs_end (s : str) :
  includes (METADATA_END ++ nl ++ nl) s = false -> match_here (body re_strip) s = None.
Proof.
  intros H. unfold match_here, re_strip. cbn [body rmatch].
  destruct (strip_prefix METADATA_SEPARATOR s) as [s1|] eqn:E; [|reflexivity].
  apply strip_prefix_Some in E. subst s. apply includes_app_r in H.
  rewrite (@star_lazy_fails (METADATA_END ++ nl ++ nl) _ s1 []); [reflexivity| |exact H].
  intros s' c' E'. rewrite strip_prefix_app_split in E'.
  destruct (strip_prefix METADATA_END s') as [s2|]; [|reflexivity].
  now rewrite E'.
Qed.

Lemma needs_separator (r : re) (s : str) :
  includes METADATA_SEPARATOR s = false ->
  find_match (Lit METADATA_SEPARATOR >> r) s = None.
Proof.
  intros H. apply find_match_none. intros a b ->.
  apply match_here_lit_none. apply includes_here. now apply includes_app_r in H.
Qed.

(** X1.  A description that does not contain the opening sentinel, or
    does not contain the closing one, decodes to the default metadata:
    no goal, effort 5, no reason, no bias and empty lists. *)
Theorem parseMetadata_without_block (description : str) :
  includes METADATA_SEPARATOR description = false
  \/ includes METADATA_END description = false ->
  parseMetadata description = Metadata.Build None 5 None None [] [].
Proof.
  intros H. unfold parseMetadata.
  assert (E : exec re_block description = None).
  { unfold exec. cbn [anchored re_block]. destruct H as [H | H].
    - now apply needs_separator.
    - apply find_match_none. intros a b ->. apply block_needs_end.
      now apply includes_app_r in H. }
  now rewrite E.
Qed.

Lemma parseMetadata_without_block_witness :
  parseMetadata bare_description = Metadata.Build None 5 None None [] [].
Proof.
  exact (@parseMetadata_without_block bare_description (or_introl eq_refl)).
Defined.

(** X2.  A description that does not contain the opening sentinel, or in
    which no closing sentinel is followed by an empty line, is its own
    plain text: [extractPlainDescription] only trims it. *)
Theorem extractPlainDescription_without_block (description : str) :
  includes METADATA_SEPARATOR description = false
  \/ includes (METADATA_END ++ nl ++ nl) description = false ->
  extractPlainDescription description = trim description.
Proof.
  intros H. unfold extractPlainDescription, replace_first.
  assert (E : exec re_strip description = None).
  { unfold exec. cbn [anchored re_strip]. destruct H as [H | H].
    - now apply needs_separator.
    - apply find_match_none. intros a b ->. apply strip_needs_end.
      now apply includes_app_r in H. }
  now rewrite E.
Qed.

Lemma extractPlainDescription_without_block_witness :
  extractPlainDescription bare_description = trim bare_description
  /\ extractPlainDescription tight_block = trim tight_block.
Proof.
  split.
  - exact (@extractPlainDescription_without_block bare_description (or_introl eq_refl)).
  - exact (@extractPlainDescription_without_block tight_block (or_intror eq_refl)).
Defined.

(* ====================================================================== *)
(** ** Decoding and encoding again *)
(* ====================================================================== *)

Lemma strip_encode (plain : str) (m : Metadata.t) :
  metadata_ok m = true ->
  extractPlainDescription (buildDescriptionWithMetadata plain m) = trim plain.
Proof.
  intros Hok. unfold extractPlainDescription, replace_first.
  now rewrite (exec_strip plain m (metadata_ok_sentinel_free m Hok)).
Qed.

Lemma reencode_encoded (plain : str) (m : Metadata.t) :
  metadata_ok m = true ->
  reencode (buildDescriptionWithMetadata plain m)
  = buildDescriptionWithMetadata (trim plain) m.
Proof.
  intros Hok. unfold reencode.
  now rewrite (@decode_encode plain m Hok), (@strip_encode plain m Hok).
Qed.



(* ====================================================================== *)
(** ** normalizeUncertainties *)
(* ====================================================================== *)

Lemma starts_solid_prefix (a b : str) :
  a <> [] -> starts_solid (a ++ b) = true -> starts_solid a = true.
Proof. destruct a; [congruence | trivial]. Qed.

Lemma trim_tidy (s : str) : trim s <> [] -> tidy (trim s) = true.
Proof.
  unfold trim, trimEnd, trimStart, tidy, ends_solid.
  set (u := drop_while is_space s).
  destruct (drop_while_suffix is_space (rev u)) as (a & Ha & _).
  set (v := drop_while is_space (rev u)) in *.
  intros Hne. rewrite rev_involutive.
  assert (Hv : starts_solid v = true).
  { destruct (starts_solid_drop_while (rev u)) as [E | E]; [|exact E].
    fold v in E. rewrite E in Hne. now contradiction Hne. }
  rewrite Hv, andb_true_r.
  assert (Hu : u = rev v ++ rev a).
  { rewrite <- rev_app_distr, <- Ha. now rewrite rev_involutive. }
  apply (@starts_solid_prefix (rev v) (rev a) Hne). rewrite <- Hu.
  destruct (starts_solid_drop_while s) as [E | E]; [|exact E].
  fold u in E. rewrite E in Hu. symmetry in Hu. apply app_eq_nil in Hu.
  destruct Hu as [Hu _]. now contradiction Hne.
Qed.

Lemma tidy_trim (s : str) : tidy s = true -> trim s = s /\ nonempty s = true.
Proof.
  unfold tidy. intros H. apply andb_true_iff in H. destruct H as [H1 H2].
  split; [now apply trim_solid|]. destruct s; [discriminate H1 | reflexivity].
Qed.

Lemma nonempty_iff (s : str) : nonempty s = true <-> s <> [].
Proof. destruct s; split; try congruence; try reflexivity; intros; discriminate. Qed.

Lemma trimmed_field_tidy (o : option str) : tidy_opt (trimmed_field o) = true.
Proof.
  destruct o as [v|]; [|reflexivity]. unfold trimmed_field. cbv zeta.
  destruct (nonempty (trim v)) eqn:E; [|reflexivity].
  apply trim_tidy. now apply nonempty_iff.
Qed.

Lemma trimmed_field_fixed (o : option str) : tidy_opt o = true -> trimmed_field o = o.
Proof.
  destruct o as [v|]; [|reflexivity]. cbn [tidy_opt]. intros H.
  destruct (tidy_trim v H) as [E1 E2]. unfold trimmed_field. cbv zeta.
  now rewrite E1, E2.
Qed.

Lemma normalize_one_normalized (candidate : UncertaintyInput) (u : Uncertainty.t) :
  normalize_one candidate = Some u ->
  normalized u = true /\ Uncertainty.title u = trim (input_title candidate).
Proof.
  destruct candidate as [s | v]; cbn [normalize_one input_title]; cbv zeta.
  - destruct (nonempty (trim s)) eqn:E; [|discriminate].
    intros [= <-]. split; [|reflexivity]. unfold normalized, Uncertainty.of_title.
    cbn [Uncertainty.title Uncertainty.description Uncertainty.resolution
         Uncertainty.resolvedAt Uncertainty.resolvedBy tidy_opt].
    rewrite trim_tidy; [reflexivity | now apply nonempty_iff].
  - destruct (nonempty (trim (Uncertainty.title v))) eqn:E; cbn [negb]; [|discriminate].
    intros [= <-]. split; [|reflexivity]. unfold normalized.
    cbn [Uncertainty.title Uncertainty.description Uncertainty.resolution
         Uncertainty.resolvedAt Uncertainty.resolvedBy].
    rewrite !trimmed_field_tidy, trim_tidy; [reflexivity | now apply nonempty_iff].
Qed.

Lemma normalize_one_dropped (candidate : UncertaintyInput) :
  normalize_one candidate = None <-> trim (input_title candidate) = [].
Proof.
  destruct candidate as [s | v]; cbn [normalize_one input_title]; cbv zeta.
  - destruct (trim s); cbn [nonempty]; split; congruence.
  - destruct (trim (Uncertainty.title v)); cbn [nonempty negb]; split; congruence.
Qed.

Lemma normalize_one_fixed (u : Uncertainty.t) :
  normalized u = true -> normalize_one (UObject u) = Some u.
Proof.
  unfold normalized. intros H.
  apply andb_true_iff in H. destruct H as [H H5].
  apply andb_true_iff in H. destruct H as [H H4].
  apply andb_true_iff in H. destruct H as [H H3].
  apply andb_true_iff in H. destruct H as [H1 H2].
  cbn [normalize_one]. cbv zeta. destruct (tidy_trim _ H1) as [E1 E2].
  rewrite E1, E2. cbn [negb].
  rewrite !trimmed_field_fixed by assumption. now destruct u.
Qed.

Lemma normalize_titles (l : list UncertaintyInput) :
  map Uncertainty.title (normalizeUncertainties (Some l))
  = filter nonempty (map (fun candidate => trim (input_title candidate)) l).
Proof.
  cbn [normalizeUncertainties]. induction l as [|c l IH]; [reflexivity|].
  cbn [map filter_some filter].
  destruct (normalize_one c) as [u|] eqn:E.
  - destruct (normalize_one_normalized c E) as [Hn Ht].
    cbn [map]. rewrite IH, <- Ht.
    unfold normalized in Hn. do 4 (apply andb_true_iff in Hn; destruct Hn as [Hn _]).
    destruct (tidy_trim _ Hn) as [_ ->]. reflexivity.
  - apply normalize_one_dropped in E. rewrite E. cbn [nonempty]. exact IH.
Qed.

Lemma normalize_all_normalized (input : option (list UncertaintyInput)) :
  Forall (fun u => normalized u = true) (normalizeUncertainties input).
Proof.
  destruct input as [l|]; [|constructor]. cbn [normalizeUncertainties].
  induction l as [|c l IH]; [constructor|]. cbn [map filter_some].
  destruct (normalize_one c) as [u|] eqn:E; [|exact IH].
  constructor; [|exact IH]. now destruct (normalize_one_normalized c E).
Qed.

Lemma normalize_fixed (us : list Uncertainty.t) :
  Forall (fun u => normalized u = true) us ->
  normalizeUncertainties (Some (map UObject us)) = us.
Proof.
  cbn [normalizeUncertainties]. induction 1 as [|u us Hu _ IH]; [reflexivity|].
  cbn [map filter_some]. rewrite (normalize_one_fixed u Hu). cbn [filter_some].
  now rewrite IH.
Qed.

(** X4.  Whatever list of titles and uncertainty objects is passed,
    [normalizeUncertainties] returns uncertainties whose title is not empty
    and whose title and optional fields, where present, are non-empty and
    free of white space at both ends; their titles are the trimmed input
    titles that are not blank, in input order; normalising the result
    again gives the result; and an absent list gives the empty list. *)
Theorem normalizeUncertainties_spec (l : list UncertaintyInput) :
  Forall (fun u => normalized u = true) (normalizeUncertainties (Some l))
  /\ map Uncertainty.title (normalizeUncertainties (Some l))
     = filter nonempty (map (fun candidate => trim (input_title candidate)) l)
  /\ normalizeUncertainties (Some (map UObject (normalizeUncertainties (Some l))))
     = normalizeUncertainties (Some l)
  /\ normalizeUncertainties None = [].
Proof.
  split; [apply normalize_all_normalized|].
  split; [apply normalize_titles|].
  split; [|reflexivity].
  apply normalize_fixed, normalize_all_normalized.
Qed.

(* ====================================================================== *)
(** ** What the decoder returns on arbitrary text *)
(* ====================================================================== *)

Lemma star_greedy_inv (p : ascii -> bool) (k : cont) (s : str) (c : caps)
    (x : caps * str) :
  star_greedy p k s c = Some x ->
  exists a b, s = a ++ b /\ forallb p a = true /\ k b c = Some x.
Proof.
  induction s as [|h s IH]; cbn [star_greedy].
  - intros H. now exists [], [].
  - destruct (p h) eqn:Hp.
    + destruct (star_greedy p k s c) as [r|] eqn:E.
      * intros [= <-]. destruct (IH eq_refl) as (a & b & -> & Ha & Hk).
        exists (h :: a), b. cbn [app forallb]. now rewrite Hp, Ha.
      * intros H. now exists [], (h :: s).
    + intros H. now exists [], (h :: s).
Qed.

Lemma group_plus_inv (n : nat) (p : ascii -> bool) (k : cont) (s : str) (c : caps)
    (x : caps * str) :
  rmatch (Grp n (Plus p)) k s c = Some x ->
  exists a b, s = a ++ b /\ a <> [] /\ forallb p a = true
              /\ k b ((n, a) :: c) = Some x.
Proof.
  cbn [rmatch]. destruct s as [|h s]; [discriminate|].
  destruct (p h) eqn:Hp; [|discriminate]. intros H.
  apply star_greedy_inv in H. destruct H as (a & b & -> & Ha & Hk).
  exists (h :: a), b. split; [reflexivity|]. split; [discriminate|].
  split; [cbn [forallb]; now rewrite Hp, Ha|].
  change (h :: a ++ b) with ((h :: a) ++ b) in Hk.
  now rewrite firstn_consumed in Hk.
Qed.

Lemma lit_inv (l : str) (k : cont) (s : str) (c : caps) (x : caps * str) :
  rmatch (Lit l) k s c = Some x -> exists s', s = l ++ s' /\ k s' c = Some x.
Proof.
  cbn [rmatch]. destruct (strip_prefix l s) as [s'|] eqn:E; [|discriminate].
  intros H. exists s'. split; [now apply strip_prefix_Some | exact H].
Qed.

(** What a match of the checklist pattern says about the line. *)
Lemma bullet_inv (line : str) (m : match_result) :
  exec re_bullet line = Some m ->
  exists box spaces title,
    line = js "- [" ++ [box] ++ js "]" ++ spaces ++ title
    /\ title <> [] /\ forallb is_space spaces = true
    /\ group_or_empty 2 m = title /\ group_or_empty 1 m = [box].
Proof.
  unfold exec, re_bullet, match_here. cbn [anchored body].
  destruct (rmatch _ accept line []) as [[c rest]|] eqn:E; [|discriminate].
  intros [= <-]. rewrite seq_step in E. apply lit_inv in E.
  destruct E as (s1 & -> & E). rewrite seq_step in E.
  destruct s1 as [|box s1]; [discriminate E|]. rewrite grp_cls_cons in E.
  destruct (is_space_or_x box); [|discriminate E].
  rewrite seq_step in E. apply lit_inv in E. destruct E as (s2 & -> & E).
  rewrite seq_step in E. cbn [rmatch] in E. apply star_greedy_inv in E.
  destruct E as (spaces & s3 & -> & Hsp & E).
  change (rmatch (Grp 2 (Plus is_dot)) (rmatch Eoi accept) s3 [(1, [box])] = Some (c, rest))
    in E.
  apply group_plus_inv in E. destruct E as (title & b & -> & Hne & _ & E).
  cbn [rmatch] in E. destruct b; [|discriminate E]. injection E as <- <-.
  exists box, spaces, title. rewrite app_nil_r.
  repeat split; try assumption; reflexivity.
Qed.

Lemma ends_solid_suffix (a b : str) :
  b <> [] -> ends_solid (a ++ b) = true -> ends_solid b = true.
Proof.
  unfold ends_solid. rewrite rev_app_distr. intros Hb.
  apply starts_solid_prefix. intros E. apply Hb.
  rewrite <- (rev_involutive b), E. reflexivity.
Qed.

Lemma spaces_not_solid (s : str) : forallb is_space s = true -> ends_solid s = false.
Proof.
  unfold ends_solid. intros H.
  assert (Hr : forallb is_space (rev s) = true).
  { apply forallb_forall. intros x Hx. apply in_rev in Hx.
    rewrite forallb_forall in H. now apply H. }
  destruct (rev s) as [|h t]; [reflexivity|]. cbn [forallb] in Hr.
  apply andb_true_iff in Hr. destruct Hr as [Hh _]. cbn [starts_solid].
  now rewrite Hh.
Qed.

Lemma ends_solid_trim (t : str) : ends_solid t = true -> tidy (trim t) = true.
Proof.
  intros H. apply trim_tidy. unfold trim, trimStart.
  destruct (drop_while_suffix is_space t) as (a & Ha & Hsp).
  set (u := drop_while is_space t) in *.
  assert (Hu : u <> []).
  { intros E. rewrite E, app_nil_r in Ha. subst a.
    rewrite (spaces_not_solid _ Hsp) in H. discriminate H. }
  rewrite Ha in H. apply (ends_solid_suffix _ Hu) in H.
  now rewrite (trimEnd_solid _ H).
Qed.

Lemma bullet_title_tidy (rawLine : str) (m : match_result) :
  trim rawLine <> [] ->
  exec re_bullet (trim rawLine) = Some m ->
  tidy (trim (group_or_empty 2 m)) = true.
Proof.
  intros Hne Hm. apply bullet_inv in Hm.
  destruct Hm as (box & spaces & title & Hline & Ht & _ & -> & _).
  apply ends_solid_trim.
  assert (Htidy := trim_tidy rawLine Hne). unfold tidy in Htidy.
  apply andb_true_iff in Htidy. destruct Htidy as [_ He].
  rewrite Hline in He. rewrite !app_assoc in He.
  now apply (ends_solid_suffix _ Ht) in He.
Qed.

Lemma detail_update_title (cur : Uncertainty.t) (detail : str) :
  Uncertainty.title (detail_update cur detail) = Uncertainty.title cur.
Proof.
  unfold detail_update.
  repeat match goal with |- context [if ?b then _ else _] => destruct b end;
  reflexivity.
Qed.

Lemma flushCurrent_titled (st : uloop) : loop_titled st -> loop_titled (flushCurrent st).
Proof.
  unfold loop_titled, flushCurrent. intros [Hout Hcur].
  destruct (current st) as [cur|]; cbn [out current]; [|now split].
  split; [|exact I]. apply Forall_app. split; [exact Hout|].
  constructor; [|constructor].
  destruct (currentResolved st && negb (truthy (Uncertainty.resolution cur)));
    exact Hcur.
Qed.

Lemma uncertainty_step_titled (st : uloop) (rawLine : str) :
  loop_titled st -> loop_titled (uncertainty_step st rawLine).
Proof.
  intros Hst. unfold uncertainty_step. cbv zeta.
  destruct (nonempty (trim rawLine)) eqn:Hne; cbn [negb]; [|exact Hst].
  apply nonempty_iff in Hne.
  destruct (exec re_bullet (trim rawLine)) as [m|] eqn:Hm.
  - destruct (flushCurrent_titled Hst) as [Hout _].
    split; cbn [out current]; [exact Hout|].
    unfold titled, Uncertainty.of_title. cbn [Uncertainty.title].
    now apply (bullet_title_tidy rawLine).
  - destruct (exec re_detail rawLine) as [dm|]; [|exact Hst].
    destruct (current st) as [cur|] eqn:Hc; [|exact Hst].
    destruct (negb (nonempty (trim (group_or_empty 1 dm)))); [exact Hst|].
    destruct Hst as [Hout Hcur]. rewrite Hc in Hcur.
    split; cbn [out current]; [exact Hout|].
    unfold titled. now rewrite detail_update_title.
Qed.

Lemma parse_uncertainties_titled (section : str) :
  Forall (fun u => titled u = true) (parse_uncertainties section).
Proof.
  unfold parse_uncertainties.
  assert (H : forall ls st, loop_titled st ->
                            loop_titled (fold_left uncertainty_step ls st)).
  { induction ls as [|l ls IH]; intros st Hst; [exact Hst|].
    cbn [fold_left]. apply IH. now apply uncertainty_step_titled. }
  apply flushCurrent_titled, H. split; [constructor | exact I].
Qed.

Lemma parse_block_uncertainties (metadataText : str) (metadata : Metadata.t) :
  Metadata.uncertainties (parse_block metadataText metadata)
  = Metadata.uncertainties metadata
  \/ exists section,
       Metadata.uncertainties (parse_block metadataText metadata)
       = parse_uncertainties section.
Proof.
  unfold parse_block, parse_lessonsSection.
  assert (H : Metadata.uncertainties
                (parse_uncertaintiesSection metadataText
                   (parse_complexityBias metadataText
                      (parse_effortReason metadataText
                         (parse_effort metadataText (parse_goal metadataText metadata)))))
              = Metadata.uncertainties metadata
              \/ exists section,
                   Metadata.uncertainties
                     (parse_uncertaintiesSection metadataText
                        (parse_complexityBias metadataText
                           (parse_effortReason metadataText
                              (parse_effort metadataText
                                 (parse_goal metadataText metadata)))))
                   = parse_uncertainties section).
  { unfold parse_uncertaintiesSection.
    destruct (exec re_uncertainties metadataText) as [m|].
    - right. eexists. reflexivity.
    - left. unfold parse_complexityBias, parse_effortReason, parse_effort, parse_goal.
      repeat match goal with
      | |- context [match ?x with _ => _ end] =>
          match x with
          | context [match _ with _ => _ end] => fail 1
          | _ => destruct x
          end
      end; reflexivity. }
  destruct (exec re_lessons metadataText); exact H.
Qed.

(** X5.  Whatever text is stored as a description, every uncertainty that
    [parseMetadata] returns has a title that is not empty and has no white
    space at either end. *)
Theorem parseMetadata_titles (description : str) :
  Forall (fun u => Uncertainty.title u <> []
                   /\ trim (Uncertainty.title u) = Uncertainty.title u)
         (Metadata.uncertainties (parseMetadata description)).
Proof.
  assert (H : Forall (fun u => titled u = true)
                     (Metadata.uncertainties (parseMetadata description))).
  { unfold parseMetadata. cbv zeta.
    destruct (exec re_block description) as [m|]; [|constructor].
    destruct (parse_block_uncertainties (group_or_empty 1 m) default_metadata)
      as [E | [section E]]; rewrite E; [constructor|].
    apply parse_uncertainties_titled. }
  eapply Forall_impl; [|exact H]. intros u Hu. unfold titled in Hu.
  destruct (tidy_trim _ Hu) as [E1 E2]. split; [now apply nonempty_iff | exact E1].
Qed.

(* ====================================================================== *)
(** ** Lessons decoded from arbitrary text *)
(* ====================================================================== *)

Lemma lesson_step_kept (acc : list Lesson.t) (line : str) :
  Forall (fun l => Lesson.tags l = None
                   /\ trim (Lesson.content l) = Lesson.content l
                   /\ (Lesson.category l = None -> Lesson.content l <> [])) acc ->
  Forall (fun l => Lesson.tags l = None
                   /\ trim (Lesson.content l) = Lesson.content l
                   /\ (Lesson.category l = None -> Lesson.content l <> []))
         (lesson_step acc line).
Proof.
  intros Hacc. unfold lesson_step. cbv zeta.
  destruct (exec re_category line) as [m|].
  - destruct (safeParse_category (trim (group_or_empty 1 m))) as [c|].
    + apply Forall_app. split; [exact Hacc|]. constructor; [|constructor].
      cbn [Lesson.tags Lesson.content Lesson.category].
      split; [reflexivity|]. split; [apply trim_idem | discriminate].
    + destruct (nonempty (trim (group_or_empty 2 m))) eqn:E; [|exact Hacc].
      apply Forall_app. split; [exact Hacc|]. constructor; [|constructor].
      cbn [Lesson.tags Lesson.content Lesson.category].
      split; [reflexivity|]. split; [apply trim_idem|]. intros _.
      now apply nonempty_iff.
  - destruct (nonempty (trim (replace_first re_dash line))) eqn:E; [|exact Hacc].
    apply Forall_app. split; [exact Hacc|]. constructor; [|constructor].
    cbn [Lesson.tags Lesson.content Lesson.category].
    split; [reflexivity|]. split; [apply trim_idem|]. intros _.
    now apply nonempty_iff.
Qed.

Lemma parse_block_lessons (metadataText : str) :
  Metadata.lessonsLearned (parse_block metadataText default_metadata) = []
  \/ exists section,
       Metadata.lessonsLearned (parse_block metadataText default_metadata)
       = parse_lessons section.
Proof.
  unfold parse_block, parse_lessonsSection.
  destruct (exec re_lessons metadataText) as [m|].
  - right. eexists. reflexivity.
  - left. unfold parse_uncertaintiesSection, parse_complexityBias, parse_effortReason,
      parse_effort, parse_goal.
    repeat match goal with
    | |- context [match ?x with _ => _ end] =>
        match x with
        | context [match _ with _ => _ end] => fail 1
        | _ => destruct x
        end
    end; reflexivity.
Qed.

(** X6.  Whatever text is stored as a description, every lesson that
    [parseMetadata] returns is without tags, its content has no white
    space at either end, and an uncategorised lesson has a content that is
    not empty. *)
Theorem parseMetadata_lessons (description : str) :
  Forall (fun l => Lesson.tags l = None
                   /\ trim (Lesson.content l) = Lesson.content l
                   /\ (Lesson.category l = None -> Lesson.content l <> []))
         (Metadata.lessonsLearned (parseMetadata description)).
Proof.
  unfold parseMetadata. cbv zeta.
  destruct (exec re_block description) as [m|]; [|constructor].
  destruct (parse_block_lessons (group_or_empty 1 m)) as [E | [section E]];
    rewrite E; [constructor|].
  unfold parse_lessons. cbv zeta.
  generalize (filter (fun line => startsWith (js "- ") (trim line)) (split_nl section)).
  intros ls.
  assert (H : forall acc,
             Forall (fun l => Lesson.tags l = None
                              /\ trim (Lesson.content l) = Lesson.content l
                              /\ (Lesson.category l = None -> Lesson.content l <> []))
                    acc ->
             Forall (fun l => Lesson.tags l = None
                              /\ trim (Lesson.content l) = Lesson.content l
                              /\ (Lesson.category l = None -> Lesson.content l <> []))
                    (fold_left lesson_step ls acc)).
  { induction ls as [|l ls IH]; intros acc Hacc; [exact Hacc|].
    cbn [fold_left]. apply IH. now apply lesson_step_kept. }
  apply H. constructor.
Qed.

Lemma word_tidy (w : str) : w <> [] -> forallb is_word w = true -> tidy w = true.
Proof.
  intros Hne Hw. unfold tidy, ends_solid.
  assert (Hs : forall v, v <> [] -> forallb is_word v = true -> starts_solid v = true).
  { intros [|c v] Hv Hall; [congruence|]. cbn [forallb] in Hall.
    apply andb_true_iff in Hall. destruct Hall as [Hc _].
    destruct (word_cases c Hc) as (Hsp & _). cbn [starts_solid]. now rewrite Hsp. }
  rewrite (Hs w Hne Hw). cbn [andb]. apply Hs.
  - intros E. apply Hne. rewrite <- (rev_involutive w), E. reflexivity.
  - apply forallb_forall. intros x Hx. apply in_rev in Hx.
    rewrite forallb_forall in Hw. now apply Hw.
Qed.

Lemma exec_category_word (w content : str) :
  w <> [] -> forallb is_word w = true ->
  starts_solid content = true ->
  single_line content = true ->
  exec re_category (js "- [" ++ w ++ js "]" ++ js " " ++ content)
  = Some (MatchResult [] [(2, content); (1, w)] []).
Proof.
  intros Hne Hw Hs Hl.
  unfold exec, re_category. cbn [anchored body].
  apply find_match_here. unfold match_here.
  rewrite (@key_capture_then (js "- [") w
             (js "]" ++ js " " ++ content) 1 is_word _ accept
             ([(2, content); (1, w)], [])); try assumption; try reflexivity.
  rewrite seq_step, lit_app, seq_step.
  change (rmatch (Star ?p) ?k ?s ?c) with (star_greedy p k s c).
  rewrite (@star_greedy_run is_space _ (js " ") content _
             ([(2, content); (1, w)], []));
    [reflexivity | reflexivity | | ].
  - destruct content as [|x t]; [discriminate Hs|]. simpl in Hs |- *.
    now apply negb_true_iff.
  - assert (E : rmatch (Grp 2 (Plus is_dot)) accept (content ++ []) [(1, w)]
                 = Some ([(2, content); (1, w)], [])).
    { apply group_plus_run; [|exact Hl | exact I | reflexivity].
      destruct content; [discriminate Hs | discriminate]. }
    rewrite app_nil_r in E. exact E.
Qed.

Lemma word_lf_free (w : str) : forallb is_word w = true -> lf_free w = true.
Proof.
  intros H. apply forallb_forall. intros x Hx. rewrite forallb_forall in H.
  specialize (H x Hx). destruct x as [[] [] [] [] [] [] [] []];
    try discriminate H; reflexivity.
Qed.

(** X7.  A lesson bullet whose bracketed token is a word that names no
    category decodes to an uncategorised lesson holding the text after the
    bracket: the token itself is dropped. *)
Theorem parse_lessons_unknown_category (w content : str)
    (Hne : w <> []) (Hword : forallb is_word w = true)
    (Hunknown : safeParse_category w = None)
    (Hcontent : plain_field content = true) :
  parse_lessons (nl ++ (js "- [" ++ w ++ js "] " ++ content) ++ nl)
  = [Lesson.Build content None None].
Proof.
  destruct (plain_field_facts content Hcontent) as (Hs & He & Hl & _).
  assert (Hlf : lf_free (js "- [" ++ w ++ js "] " ++ content) = true).
  { rewrite !lf_free_app, (word_lf_free w Hword), (single_line_lf_free content Hl).
    reflexivity. }
  unfold parse_lessons. cbv zeta.
  change (nl ++ (js "- [" ++ w ++ js "] " ++ content) ++ nl)
    with ([] ++ nl ++ (js "- [" ++ w ++ js "] " ++ content) ++ nl).
  rewrite split_nl_line by reflexivity.
  rewrite <- (app_nil_r ((js "- [" ++ w ++ js "] " ++ content) ++ nl)).
  rewrite <- app_assoc. rewrite split_nl_line by exact Hlf.
  cbn [split_nl filter].
  assert (Htrim : trim (js "- [" ++ w ++ js "] " ++ content)
                  = js "- [" ++ w ++ js "] " ++ content).
  { apply trim_solid; [reflexivity|]. now repeat apply ends_solid_app. }
  rewrite trim_empty, Htrim.
  change (startsWith (js "- ") []) with false.
  change (startsWith (js "- ") (js "- [" ++ w ++ js "] " ++ content)) with true.
  cbn [fold_left]. unfold lesson_step.
  change (js "- [" ++ w ++ js "] " ++ content)
    with (js "- [" ++ w ++ (js "]" ++ js " ") ++ content).
  rewrite <- (app_assoc (js "]")).
  rewrite (@exec_category_word w content Hne Hword Hs Hl).
  cbn [group_or_empty groups group Nat.eqb]. cbv zeta.
  destruct (tidy_trim w (@word_tidy w Hne Hword)) as [-> _].
  rewrite Hunknown, (trim_solid content Hs He).
  destruct content; [discriminate Hs | reflexivity].
Qed.

Lemma parse_lessons_unknown_category_witness :
  parse_lessons (nl ++ (js "- [" ++ unknown_token ++ js "] " ++ js "Cache the lookup") ++ nl)
  = [Lesson.Build (js "Cache the lookup") None None].
Proof.
  apply (@parse_lessons_unknown_category unknown_token (js "Cache the lookup")).
  - discriminate.
  - reflexivity.
  - reflexivity.
  - reflexivity.
Defined.

(* ====================================================================== *)
(** ** ProjectResolver.resolveFromLinearProjectId *)
(* ====================================================================== *)

Lemma first_project_sound (projects : ProjectsConfig) (id key : str) :
  first_project_with projects id = Some key ->
  exists mapping, In (key, mapping) projects /\ linearProjectId mapping = id.
Proof.
  induction projects as [|[k v] rest IH]; cbn [first_project_with]; [discriminate|].
  destruct (str_eqb (linearProjectId v) id) eqn:E.
  - intros [= <-]. exists v. split; [now left | now apply str_eqb_eq].
  - intros H. destruct (IH H) as (m & Hin & Hm). exists m. split; [now right | exact Hm].
Qed.

Lemma first_project_complete (projects : ProjectsConfig) (key : str)
    (mapping : ProjectMapping) :
  In (key, mapping) projects ->
  exists key', first_project_with projects (linearProjectId mapping) = Some key'.
Proof.
  induction projects as [|[k v] rest IH]; [intros []|].
  cbn [first_project_with]. intros [H | H].
  - injection H as -> ->. rewrite str_eqb_refl. now exists key.
  - destruct (str_eqb (linearProjectId v) (linearProjectId mapping));
      [now exists k | now apply IH].
Qed.

Lemma first_project_unique (projects : ProjectsConfig) (key : str)
    (mapping : ProjectMapping) :
  NoDup (map (fun entry => linearProjectId (snd entry)) projects) ->
  In (key, mapping) projects ->
  first_project_with projects (linearProjectId mapping) = Some key.
Proof.
  induction projects as [|[k v] rest IH]; [intros _ []|].
  cbn [map snd first_project_with]. intros Hnd [H | H].
  - injection H as -> ->. now rewrite str_eqb_refl.
  - inversion Hnd as [|x xs Hx Hxs]; subst.
    destruct (str_eqb (linearProjectId v) (linearProjectId mapping)) eqn:E.
    + apply str_eqb_eq in E. exfalso. apply Hx. rewrite E.
      change (linearProjectId mapping)
        with ((fun entry : str * ProjectMapping => linearProjectId (snd entry))
                (key, mapping)).
      now apply in_map.
    + now apply IH.
Qed.

(** X8.  [resolveFromLinearProjectId] answers nothing for an absent or
    empty identifier; a key it returns is configured with that identifier;
    it finds a key whenever some project carries the identifier; and when
    no two projects share an identifier it returns the very key the
    identifier was configured under. *)
Theorem resolveFromLinearProjectId_spec (projects : ProjectsConfig) :
  resolveFromLinearProjectId projects None = None
  /\ resolveFromLinearProjectId projects (Some []) = None
  /\ (forall id key,
        resolveFromLinearProjectId projects (Some id) = Some key ->
        exists mapping, In (key, mapping) projects /\ linearProjectId mapping = id)
  /\ (forall key mapping,
        In (key, mapping) projects -> linearProjectId mapping <> [] ->
        exists key',
          resolveFromLinearProjectId projects (Some (linearProjectId mapping))
          = Some key')
  /\ (forall key mapping,
        NoDup (map (fun entry => linearProjectId (snd entry)) projects) ->
        In (key, mapping) projects -> linearProjectId mapping <> [] ->
        resolveFromLinearProjectId projects (Some (linearProjectId mapping))
        = Some key).
Proof.
  split; [reflexivity|]. split; [reflexivity|]. split; [|split].
  - intros id key. unfold resolveFromLinearProjectId.
    destruct id as [|c id]; [discriminate|]. cbn [truthy negb text].
    apply first_project_sound.
  - intros key mapping Hin Hne. unfold resolveFromLinearProjectId.
    destruct (linearProjectId mapping) as [|c id] eqn:E; [congruence|].
    cbn [truthy negb text]. rewrite <- E. now apply first_project_complete with key.
  - intros key mapping Hnd Hin Hne. unfold resolveFromLinearProjectId.
    destruct (linearProjectId mapping) as [|c id] eqn:E; [congruence|].
    cbn [truthy negb text]. rewrite <- E. now apply first_project_unique.
Qed.

Lemma resolveFromLinearProjectId_spec_witness :
  resolveFromLinearProjectId two_projects (Some (js "uuid-api")) = Some (js "api").
Proof.
  apply (proj2 (proj2 (proj2 (proj2 (resolveFromLinearProjectId_spec two_projects))))
           (js "api") (Mapping (js "uuid-api"))).
  - repeat constructor; simpl; intuition discriminate.
  - right. left. reflexivity.
  - discriminate.
Defined.

(* ====================================================================== *)
(** ** filterTasks as one pass *)
(* ====================================================================== *)

Lemma filter_and (A : Type) (p q : A -> bool) (l : list A) :
  filter q (filter p l) = filter (fun a => p a && q a) l.
Proof.
  induction l as [|a l IH]; [reflexivity|]. cbn [filter].
  destruct (p a); cbn [filter andb]; [destruct (q a)|]; now rewrite IH.
Qed.

Lemma filter_all (A : Type) (l : list A) : filter (fun _ => true) l = l.
Proof. induction l as [|a l IH]; [reflexivity|]. cbn [filter]. now rewrite IH. Qed.

Lemma filterTasks_filter (tasks : list Task.t) (f : TaskFilter)
    (context : TaskFilterContext) :
  TaskFilters.filterTasks tasks (Some f) context = filter (keeps f context) tasks.
Proof.
  assert (H : forall (b : bool) (p : Task.t -> bool) (l : list Task.t),
             (if b then filter p l else l)
             = filter (fun task => if b then p task else true) l).
  { intros [] p l; [reflexivity | now rewrite filter_all]. }
  unfold TaskFilters.filterTasks. cbv zeta. rewrite !H.
  assert (Hs : match status_in f with
               | Some ((_ :: _) as desired) =>
                   filter (fun task => set_has desired (Task.status task)) tasks
               | _ =>
                   match is_true (ready f), readyStatuses context with
                   | true, Some desired =>
                       filter (fun task => set_has desired (Task.status task)) tasks
                   | _, _ => tasks
                   end
               end = filter (status_clause f context) tasks).
  { unfold status_clause. destruct (status_in f) as [[|s ss]|];
      try reflexivity;
      destruct (is_true (ready f)); destruct (readyStatuses context);
      try reflexivity; now rewrite filter_all. }
  rewrite Hs.
  assert (Hl : forall l,
             match labels_has_every f with
             | Some ((_ :: _) as wanted) =>
                 filter
                   (fun task =>
                      forallb (fun label => array_includes (or_nil (Task.labels task)) label)
                              wanted) l
             | _ => l
             end = filter (labels_clause f) l).
  { intros l. unfold labels_clause. destruct (labels_has_every f) as [[|x xs]|];
      try reflexivity; now rewrite filter_all. }
  rewrite Hl.
  assert (Hu : forall l,
             match has_unresolved_uncertainties f with
             | Some wanted =>
                 filter (fun task => if wanted then hasUnresolved task
                                     else negb (hasUnresolved task)) l
             | None => l
             end = filter (unresolved_clause f) l).
  { intros l. unfold unresolved_clause. destruct (has_unresolved_uncertainties f);
      [reflexivity | now rewrite filter_all]. }
  rewrite Hu. rewrite !filter_and. apply filter_ext. intros task.
  unfold keeps, ready_clause, search_clause, matches_search.
  now rewrite !andb_assoc.
Qed.

(** The two definitions agree on every filter that lists no status and
    no label. *)
Lemma filterTasks_agree (tasks : list Task.t) (f : TaskFilter)
    (context : TaskFilterContext) :
  or_nil (status_in f) = [] -> or_nil (labels_has_every f) = [] ->
  filterTasks tasks (Some f) context = TaskFilters.filterTasks tasks (Some f) context.
Proof.
  unfold filterTasks, TaskFilters.filterTasks.
  destruct (status_in f) as [[|s ss]|]; cbn [or_nil]; try discriminate;
    destruct (labels_has_every f) as [[|x xs]|]; cbn [or_nil]; try discriminate;
    reflexivity.
Qed.

(** X9.  [filterTasks] judges every task on its own and keeps the order
    of the list: it is one pass that keeps the tasks satisfying all clauses
    of the filter; so it returns tasks of the list only, the result for a
    concatenation is the concatenation of the results, and filtering a
    result again with the same filter changes nothing.  Without a filter
    the list comes back as it is. *)
Theorem filterTasks_pointwise (f : TaskFilter) (context : TaskFilterContext) :
  (forall tasks, TaskFilters.filterTasks tasks (Some f) context = filter (keeps f context) tasks)
  /\ (forall tasks task,
        In task (TaskFilters.filterTasks tasks (Some f) context) <->
        In task tasks /\ keeps f context task = true)
  /\ (forall tasks1 tasks2,
        TaskFilters.filterTasks (tasks1 ++ tasks2) (Some f) context
        = TaskFilters.filterTasks tasks1 (Some f) context
          ++ TaskFilters.filterTasks tasks2 (Some f) context)
  /\ (forall tasks,
        TaskFilters.filterTasks (TaskFilters.filterTasks tasks (Some f) context)
                                (Some f) context
        = TaskFilters.filterTasks tasks (Some f) context)
  /\ (forall tasks, TaskFilters.filterTasks tasks None context = tasks).
Proof.
  split; [intros; apply filterTasks_filter|].
  split; [intros; rewrite filterTasks_filter; apply filter_In|].
  split; [intros; rewrite !filterTasks_filter; apply filter_app|].
  split; [|reflexivity].
  intros tasks. rewrite !filterTasks_filter, filter_and. apply filter_ext.
  intros task. now destruct (keeps f context task).
Qed.

Lemma status_eqb_eq (a b : TaskStatus) : status_eqb a b = true <-> a = b.
Proof. destruct a, b; split; intros H; try reflexivity; discriminate H. Qed.

Lemma set_has_In (desired : list TaskStatus) (s : TaskStatus) :
  set_has desired s = true <-> In s desired.
Proof.
  unfold set_has. rewrite existsb_exists. split.
  - intros (x & Hx & E). apply status_eqb_eq in E. now subst.
  - intros H. exists s. split; [exact H | now apply status_eqb_eq].
Qed.

Lemma hasUnresolved_false (task : Task.t) :
  hasUnresolved task = false <->
  forall u, In u (or_nil (Task.uncertainties task)) ->
            truthy (Uncertainty.resolution u) = true.
Proof.
  unfold hasUnresolved. split.
  - intros H u Hu. destruct (truthy (Uncertainty.resolution u)) eqn:E; [reflexivity|].
    assert (Hex : existsb (fun uncertainty => negb (truthy (Uncertainty.resolution uncertainty)))
                          (or_nil (Task.uncertainties task)) = true).
    { apply existsb_exists. exists u. split; [exact Hu | now rewrite E]. }
    rewrite Hex in H. discriminate H.
  - intros H. apply not_true_is_false. intros Hex. apply existsb_exists in Hex.
    destruct Hex as (u & Hu & E). rewrite (H u Hu) in E. discriminate E.
Qed.

(** X10.  Under a filter with [ready] set, every task returned has a
    resolution on each of its uncertainties and does not carry the
    [needs-decomposition] label; its status is one of [status_in] when that
    list is given and not empty, and otherwise one of the context's ready
    statuses when the context gives them. *)
Theorem filterTasks_ready (tasks : list Task.t) (f : TaskFilter)
    (context : TaskFilterContext) (task : Task.t)
    (Hready : ready f = Some true)
    (Hin : In task (TaskFilters.filterTasks tasks (Some f) context)) :
  In task tasks
  /\ (forall u, In u (or_nil (Task.uncertainties task)) ->
                truthy (Uncertainty.resolution u) = true)
  /\ ~ In (js "needs-decomposition") (or_nil (Task.labels task))
  /\ match or_nil (status_in f), readyStatuses context with
     | _ :: _, _ => In (Task.status task) (or_nil (status_in f))
     | [], Some desired => In (Task.status task) desired
     | [], None => True
     end.
Proof.
  rewrite filterTasks_filter in Hin. apply filter_In in Hin.
  destruct Hin as [Hin Hk]. split; [exact Hin|].
  unfold keeps in Hk.
  apply andb_true_iff in Hk. destruct Hk as [Hk _].
  apply andb_true_iff in Hk. destruct Hk as [Hk Hr].
  apply andb_true_iff in Hk. destruct Hk as [Hk _].
  apply andb_true_iff in Hk. destruct Hk as [Hs _].
  unfold ready_clause in Hr. rewrite Hready in Hr. cbn [is_true] in Hr.
  apply andb_true_iff in Hr. destruct Hr as [Hu Hd].
  apply negb_true_iff in Hu, Hd.
  split; [now apply hasUnresolved_false|]. split.
  - intros Hl. unfold hasNeedsDecomposition in Hd.
    apply array_includes_In in Hl. rewrite Hl in Hd. discriminate Hd.
  - unfold status_clause in Hs. rewrite Hready in Hs. cbn [is_true] in Hs.
    destruct (status_in f) as [[|s ss]|]; cbn [or_nil].
    + destruct (readyStatuses context); [now apply set_has_In | exact I].
    + now apply set_has_In.
    + destruct (readyStatuses context); [now apply set_has_In | exact I].
Qed.

Lemma filterTasks_ready_witness :
  In ready_task [ready_task]
  /\ (forall u, In u (or_nil (Task.uncertainties ready_task)) ->
                truthy (Uncertainty.resolution u) = true)
  /\ ~ In (js "needs-decomposition") (or_nil (Task.labels ready_task))
  /\ In (Task.status ready_task) [todo; backlog].
Proof.
  exact (@filterTasks_ready [ready_task] ready_filter (BuildContext (Some [todo; backlog]))
           ready_task eq_refl (or_introl eq_refl)).
Defined.

Lemma toLowerCase_empty (s1 s2 : str) :
  toLowerCase s1 = toLowerCase s2 -> truthy (Some s1) = truthy (Some s2).
Proof.
  destruct s1, s2; try reflexivity; intros H; discriminate H.
Qed.

(** X11.  The search clause ignores the case of the search term: two
    terms with the same lower-case form select the same tasks, whatever
    the other clauses; an empty term selects as no term does; and a task
    returned under a term has the lower-case term inside its lower-case
    title or inside its lower-case description. *)
Theorem filterTasks_search (tasks : list Task.t) (f : TaskFilter)
    (context : TaskFilterContext) :
  (forall term1 term2,
      toLowerCase term1 = toLowerCase term2 ->
      TaskFilters.filterTasks tasks (Some (with_search f (Some term1))) context
      = TaskFilters.filterTasks tasks (Some (with_search f (Some term2))) context)
  /\ TaskFilters.filterTasks tasks (Some (with_search f (Some []))) context
     = TaskFilters.filterTasks tasks (Some (with_search f None)) context
  /\ (forall term task,
        term <> [] ->
        In task (TaskFilters.filterTasks tasks (Some (with_search f (Some term))) context) ->
        includes (toLowerCase term) (toLowerCase (Task.title task)) = true
        \/ exists d, Task.description task = Some d
                     /\ includes (toLowerCase term) (toLowerCase d) = true).
Proof.
  split; [|split].
  - intros term1 term2 E. rewrite !filterTasks_filter. apply filter_ext.
    intros task. unfold keeps, search_clause, matches_search, status_clause,
      labels_clause, unresolved_clause, ready_clause, with_search.
    cbn [search status_in labels_has_every has_unresolved_uncertainties ready text].
    now rewrite (toLowerCase_empty term1 term2 E), E.
  - rewrite !filterTasks_filter. apply filter_ext. intros task. reflexivity.
  - intros term task Hne Hin. rewrite filterTasks_filter in Hin.
    apply filter_In in Hin. destruct Hin as [_ Hk]. unfold keeps in Hk.
    apply andb_true_iff in Hk. destruct Hk as [_ Hs].
    unfold search_clause, with_search in Hs. cbn [search text] in Hs.
    destruct term as [|c term]; [congruence|]. cbn [truthy] in Hs.
    unfold matches_search in Hs. apply orb_true_iff in Hs.
    destruct Hs as [Hs | Hs]; [now left|]. right.
    destruct (Task.description task) as [d|]; [|discriminate Hs].
    now exists d.
Qed.

Lemma filterTasks_search_witness :
  TaskFilters.filterTasks [dark_task] (Some (with_search no_filter (Some (js "DARK"))))
                          (BuildContext None)
  = TaskFilters.filterTasks [dark_task] (Some (with_search no_filter (Some (js "dark"))))
                            (BuildContext None).
Proof.
  exact (proj1 (filterTasks_search [dark_task] no_filter (BuildContext None))
           (js "DARK") (js "dark") eq_refl).
Defined.

(* ====================================================================== *)
(** ** LinearService.addLessonLearned *)
(* ====================================================================== *)

Lemma metadata_ok_with_lessons (m : Metadata.t) (ls : list Lesson.t) :
  metadata_ok m = true -> forallb lesson_ok ls = true ->
  metadata_ok (Metadata.with_lessonsLearned m ls) = true.
Proof.
  unfold metadata_ok. destruct m as [g e r b us old].
  cbn [Metadata.with_lessonsLearned Metadata.goal Metadata.effort Metadata.effortReason
       Metadata.complexityBias Metadata.uncertainties Metadata.lessonsLearned].
  intros H Hls. apply andb_true_iff in H. destruct H as [H _].
  now rewrite H, Hls.
Qed.

Lemma metadata_ok_lessons (m : Metadata.t) :
  metadata_ok m = true -> forallb lesson_ok (Metadata.lessonsLearned m) = true.
Proof. unfold metadata_ok. intros H. apply andb_true_iff in H. now destruct H. Qed.

Lemma lesson_description_encoded (plain : str) (m : Metadata.t) (lesson : Lesson.t) :
  metadata_ok m = true ->
  lesson_description (buildDescriptionWithMetadata plain m) lesson
  = buildDescriptionWithMetadata (trim plain)
      (Metadata.with_lessonsLearned m (Metadata.lessonsLearned m ++ [lesson])).
Proof.
  intros Hok. unfold lesson_description. cbv zeta.
  now rewrite (@decode_encode plain m Hok), (@strip_encode plain m Hok).
Qed.

Lemma addLessonLearned_missing (W : Type) (this : LinearService W) (taskID : str)
    (lesson : Lesson.t) (w w1 : W) :
  issue (client this) taskID w = (inr None, w1) ->
  Linear.addLessonLearned this taskID lesson w
  = ([Called (CallIssue taskID)], w1, inl (TaskNotFound taskID)).
Proof.
  intros H. unfold Linear.addLessonLearned, bind, call. now rewrite H.
Qed.

Lemma addLessonLearned_run (W : Type) (this : LinearService W) (taskID : str)
    (lesson : Lesson.t) (w w1 w2 : W) (iss : Issue) :
  issue (client this) taskID w = (inr (Some iss), w1) ->
  updateIssue (client this) taskID
    (lesson_description (text (issue_description iss)) lesson) w1 = (inr tt, w2) ->
  Linear.addLessonLearned this taskID lesson w
  = ([Called (CallIssue taskID);
      Called (CallUpdateIssue taskID
                (lesson_description (text (issue_description iss)) lesson))],
     w2, inr tt).
Proof.
  intros H1 H2. unfold Linear.addLessonLearned, bind, call. rewrite H1. cbv zeta.
  fold (lesson_description (text (issue_description iss)) lesson).
  now rewrite H2.
Qed.



(* ====================================================================== *)
(** ** LinearService.resolveUncertainty *)
(* ====================================================================== *)

Lemma resolve_first_none (us : list Uncertainty.t) (t r now : str) :
  resolve_first us t r now = None <-> (forall u, In u us -> Uncertainty.title u <> t).
Proof.
  induction us as [|u us IH]; cbn [resolve_first].
  - split; [intros _ u [] | reflexivity].
  - destruct (str_eqb (Uncertainty.title u) t) eqn:E.
    + split; [discriminate|]. intros H. apply str_eqb_eq in E.
      now contradiction (H u (or_introl eq_refl)).
    + apply str_eqb_neq in E. destruct (resolve_first us t r now) as [us'|].
      * split; [discriminate|]. intros H. exfalso.
        assert (Hn : Some us' = None); [|discriminate Hn].
        apply IH. intros v Hv. apply H. now right.
      * split; [|reflexivity]. intros _ v [<- | Hv]; [exact E|].
        now apply (proj1 IH eq_refl).
Qed.

Lemma resolve_first_some (us us' : list Uncertainty.t) (t r now : str) :
  resolve_first us t r now = Some us' ->
  exists before u after,
    us = before ++ u :: after /\ Uncertainty.title u = t
    /\ (forall v, In v before -> Uncertainty.title v <> t)
    /\ us' = before ++ resolved_with u r now :: after.
Proof.
  revert us'. induction us as [|u us IH]; intros us'; cbn [resolve_first]; [discriminate|].
  destruct (str_eqb (Uncertainty.title u) t) eqn:E.
  - intros [= <-]. apply str_eqb_eq in E. exists [], u, us.
    repeat split; try assumption. intros v [].
  - apply str_eqb_neq in E. destruct (resolve_first us t r now) as [us1|]; [|discriminate].
    cbn [option_map]. intros [= <-].
    destruct (IH us1 eq_refl) as (b & x & a & -> & Hx & Hb & ->).
    exists (u :: b), x, a. repeat split; try assumption.
    intros v [<- | Hv]; [exact E | now apply Hb].
Qed.

Lemma metadata_ok_with_uncertainties (m : Metadata.t) (us : list Uncertainty.t) :
  metadata_ok m = true -> forallb uncertainty_ok us = true ->
  metadata_ok (Metadata.with_uncertainties m us) = true.
Proof.
  unfold metadata_ok. destruct m as [g e r b old ls].
  cbn [Metadata.with_uncertainties Metadata.goal Metadata.effort Metadata.effortReason
       Metadata.complexityBias Metadata.uncertainties Metadata.lessonsLearned].
  intros H Hus. apply andb_true_iff in H. destruct H as [H Hls].
  apply andb_true_iff in H. destruct H as [H _].
  now rewrite H, Hus, Hls.
Qed.

Lemma metadata_ok_uncertainties (m : Metadata.t) :
  metadata_ok m = true -> forallb uncertainty_ok (Metadata.uncertainties m) = true.
Proof.
  unfold metadata_ok. intros H. apply andb_true_iff in H. destruct H as [H _].
  apply andb_true_iff in H. now destruct H.
Qed.

Lemma resolved_with_ok (u : Uncertainty.t) (r now : str) :
  uncertainty_ok u = true -> plain_field r = true -> plain_field now = true ->
  uncertainty_ok (resolved_with u r now) = true.
Proof.
  unfold uncertainty_ok, resolved_with. destruct u as [t d res at_ by_].
  cbn [Uncertainty.with_resolvedAt Uncertainty.with_resolution Uncertainty.title
       Uncertainty.description Uncertainty.resolution Uncertainty.resolvedAt
       Uncertainty.resolvedBy plain_opt].
  intros H Hr Hn.
  apply andb_true_iff in H. destruct H as [H H5].
  apply andb_true_iff in H. destruct H as [H _].
  apply andb_true_iff in H. destruct H as [H _].
  apply andb_true_iff in H. destruct H as [H1 H2].
  now rewrite H1, H2, Hr, Hn, H5.
Qed.

Lemma resolve_first_ok (us us' : list Uncertainty.t) (t r now : str) :
  forallb uncertainty_ok us = true -> plain_field r = true -> plain_field now = true ->
  resolve_first us t r now = Some us' ->
  forallb uncertainty_ok us' = true.
Proof.
  intros Hus Hr Hn H. apply resolve_first_some in H.
  destruct H as (b & u & a & -> & _ & _ & ->).
  rewrite forallb_app in Hus |- *. cbn [forallb] in Hus |- *.
  apply andb_true_iff in Hus. destruct Hus as [Hb Hua].
  apply andb_true_iff in Hua. destruct Hua as [Hu Ha].
  now rewrite Hb, Ha, (@resolved_with_ok u r now Hu Hr Hn).
Qed.

Lemma resolveUncertainty_unknown (W : Type) (this : LinearService W)
    (now taskID title resolution : str) (w w1 : W) (iss : Issue) :
  issue (client this) taskID w = (inr (Some iss), w1) ->
  (forall u, In u (Metadata.uncertainties (parseMetadata (text (issue_description iss)))) ->
             Uncertainty.title u <> title) ->
  Linear.resolveUncertainty this now taskID title resolution w
  = ([Called (CallIssue taskID)], w1,
     inl (External (js "Uncertainty " ++ [dquote] ++ title ++ [dquote]
                    ++ js " not found in task " ++ taskID))).
Proof.
  intros H1 H2. unfold Linear.resolveUncertainty, bind, call. rewrite H1. cbv zeta.
  now rewrite (proj2 (resolve_first_none _ title resolution now) H2).
Qed.

Lemma resolveUncertainty_run (W : Type) (this : LinearService W)
    (now taskID title resolution : str) (w w1 w2 w3 : W) (iss : Issue)
    (us : list Uncertainty.t) :
  issue (client this) taskID w = (inr (Some iss), w1) ->
  resolve_first (Metadata.uncertainties (parseMetadata (text (issue_description iss))))
                title resolution now = Some us ->
  updateIssue (client this) taskID
    (resolved_description (text (issue_description iss)) us) w1 = (inr tt, w2) ->
  createComment (client this) taskID [title; resolution] w2 = (inr tt, w3) ->
  Linear.resolveUncertainty this now taskID title resolution w
  = ([Called (CallIssue taskID);
      Called (CallUpdateIssue taskID
                (resolved_description (text (issue_description iss)) us));
      Called (CallCreateComment taskID [title; resolution])],
     w3, inr tt).
Proof.
  intros H1 H2 H3 H4. unfold Linear.resolveUncertainty, bind, call. rewrite H1. cbv zeta.
  rewrite H2. fold (resolved_description (text (issue_description iss)) us).
  now rewrite H3, H4.
Qed.



(* ====================================================================== *)
(** ** Creating a task and reading it back *)
(* ====================================================================== *)

Lemma build_labels_nonempty (input : TaskInput.t) : (0 <? length (build_labels input)) = true.
Proof.
  unfold build_labels. cbv zeta.
  destruct (needsDecomposition (TaskInput.effort input));
    rewrite !length_app; cbn [length]; apply Nat.ltb_lt; lia.
Qed.

Lemma createTask_description (W : Type) (this : LinearService W) (input : TaskInput.t) :
  ci_description (build_createInput this input)
  = buildDescriptionWithMetadata (text (TaskInput.description input))
                                 (metadata_of_input input).
Proof. reflexivity. Qed.

Lemma Linear_createTask_run (W : Type) (this : LinearService W) (input : TaskInput.t)
    (w w1 w2 w3 : W) (iss : Issue) (task : Task.t) :
  isFibonacciEffort (TaskInput.effort input) = true ->
  createIssue (client this) (build_createInput this input) w = (inr (Some iss), w1) ->
  addLabelsToIssue (client this) (issue_id iss) (build_labels input) w1 = (inr tt, w2) ->
  issueToTask (client this) iss w2 = (inr task, w3) ->
  Linear.createTask this input w
  = ([Called (CallCreateIssue (build_createInput this input));
      Called (CallAddLabelsToIssue (issue_id iss) (build_labels input));
      Called (CallIssueToTask (issue_id iss))],
     w3, inr task).
Proof.
  intros He H1 H2 H3. unfold Linear.createTask. rewrite He. cbn [negb]. cbv zeta.
  unfold bind, call, when. rewrite H1, build_labels_nonempty, H2, H3. reflexivity.
Qed.

(** X14.  [LinearService.createTask] rejects an effort off the scale
    before it calls the tracker.  Otherwise it creates the issue, always
    adds labels (the effort label is always among them) and converts the
    issue.  When the metadata of the input is well formed, converting an
    issue that carries the description just written gives a task with the
    goal, effort, effort reason and complexity bias of the input, the
    normalised uncertainties of the input, no lessons, and the trimmed
    description of the input. *)
Theorem createTask_read_back (W : Type) (this : LinearService W) (input : TaskInput.t) :
  (isFibonacciEffort (TaskInput.effort input) = false ->
   forall w, trace (Linear.createTask this input w) = []
             /\ world (Linear.createTask this input w) = w
             /\ exists message,
                  outcome (Linear.createTask this input w) = inl (External message))
  /\ (forall (w w1 w2 w3 : W) (iss : Issue) (task : Task.t),
         isFibonacciEffort (TaskInput.effort input) = true ->
         createIssue (client this) (build_createInput this input) w
         = (inr (Some iss), w1) ->
         addLabelsToIssue (client this) (issue_id iss) (build_labels input) w1
         = (inr tt, w2) ->
         issueToTask (client this) iss w2 = (inr task, w3) ->
         Linear.createTask this input w
         = ([Called (CallCreateIssue (build_createInput this input));
             Called (CallAddLabelsToIssue (issue_id iss) (build_labels input));
             Called (CallIssueToTask (issue_id iss))],
            w3, inr task))
  /\ In (js "effort:" ++ show_int (TaskInput.effort input)) (build_labels input)
  /\ (metadata_ok (metadata_of_input input) = true ->
      forall data,
        IssueData.description data = Some (ci_description (build_createInput this input)) ->
        let task := IssueData.issueToTask data in
        Task.goal task = TaskInput.goal input
        /\ Task.effort task = TaskInput.effort input
        /\ Task.effortReason task = TaskInput.effortReason input
        /\ Task.complexityBias task = TaskInput.complexityBias input
        /\ Task.uncertainties task
           = Some (normalizeUncertainties (TaskInput.uncertainties input))
        /\ Task.lessonsLearned task = Some []
        /\ Task.description task = Some (trim (text (TaskInput.description input)))).
Proof.
  split; [|split; [|split]].
  - intros He w. unfold Linear.createTask. rewrite He. cbn [negb].
    unfold throw, trace, world, outcome. cbn [fst snd].
    repeat split. eexists. reflexivity.
  - intros w w1 w2 w3 iss task. apply Linear_createTask_run.
  - unfold build_labels. cbv zeta.
    destruct (needsDecomposition (TaskInput.effort input)).
    + apply in_or_app. left. apply in_or_app. right. now left.
    + apply in_or_app. right. now left.
  - intros Hok data Hd task. subst task. unfold IssueData.issueToTask. cbv zeta.
    rewrite Hd. cbn [text]. rewrite createTask_description.
    rewrite (@decode_encode _ _ Hok), (@strip_encode _ _ Hok).
    cbn [Task.goal Task.effort Task.effortReason Task.complexityBias Task.uncertainties
         Task.lessonsLearned Task.description].
    unfold metadata_of_input.
    cbn [Metadata.goal Metadata.effort Metadata.effortReason Metadata.complexityBias
         Metadata.uncertainties Metadata.lessonsLearned].
    repeat split.
Qed.

Lemma createTask_read_back_witness :
  trace (Linear.createTask counting_service off_scale 0) = []
  /\ Task.uncertainties
       (IssueData.issueToTask
          (fetched (ci_description (build_createInput counting_service sample_input))))
     = Some (normalizeUncertainties (TaskInput.uncertainties sample_input)).
Proof.
  split.
  - exact (proj1 (proj1 (createTask_read_back counting_service off_scale) eq_refl 0)).
  - destruct (proj2 (proj2 (proj2 (createTask_read_back counting_service sample_input)))
                eq_refl
                (fetched (ci_description (build_createInput counting_service sample_input)))
                eq_refl)
      as (_ & _ & _ & _ & E & _).
    exact E.
Defined.

(* ====================================================================== *)
(** ** WorkflowOrchestrator.createTask: validation before creation *)
(* ====================================================================== *)

Lemma createTask_rejects (W : Type) (this : Orchestrator W) (input : TaskInput.t) (w : W) :
  isFibonacciEffort (TaskInput.effort input) = false
  \/ ((3 < TaskInput.effort input)%Z /\ or_nil (TaskInput.uncertainties input) = []) ->
  exists t e,
    createTask this input w = (t, w, inl e)
    /\ (forall c, ~ In (Called c) t)
    /\ (e = InvalidEffort (TaskInput.effort input)
        \/ e = MissingUncertainties (TaskInput.title input) (TaskInput.effort input)
        \/ exists available, e = UnknownProject (text (TaskInput.project input)) available).
Proof.
  intros H. unfold createTask.
  destruct (resolve_shape (resolverConfig this) (TaskInput.project input) w)
    as (t0 & r0 & Hres & Ht0).
  assert (Hquiet : forall c, ~ In (Called c) t0).
  { intros c Hc. destruct (Ht0 _ Hc) as [[p Hp] | [ks Hk]]; discriminate. }
  unfold bind at 1. rewrite Hres.
  destruct r0 as [e0 | projectKey].
  - exists t0, e0. split; [reflexivity|]. split; [exact Hquiet|].
    right. right. revert Hres. unfold resolve.
    destruct (truthy (TaskInput.project input)).
    + destruct (negb (has_project _ _)); intros [= <- <-].
      eexists. reflexivity.
    + destruct (truthy (cfg_defaultProject (resolverConfig this)) && _);
        [intros [= _ E]; discriminate E|].
      destruct (object_keys (cfg_projects (resolverConfig this))) as [|k [|k' ks]];
        intros [= _ E]; discriminate E.
  - set (createInput :=
           if truthy projectKey
              && negb (option_str_eqb projectKey (TaskInput.project input))
           then TaskInput.with_project input projectKey else input).
    assert (Heff : TaskInput.effort createInput = TaskInput.effort input).
    { unfold createInput. destruct (_ && _); reflexivity. }
    assert (Hunc : TaskInput.uncertainties createInput = TaskInput.uncertainties input).
    { unfold createInput. destruct (_ && _); reflexivity. }
    assert (Htitle : TaskInput.title createInput = TaskInput.title input).
    { unfold createInput. destruct (_ && _); reflexivity. }
    rewrite Heff, Hunc, Htitle.
    unfold assertValidEffort.
    destruct (isFibonacciEffort (TaskInput.effort input)) eqn:Hfib; cbn [negb].
    + destruct H as [H | [H3 Hnil]]; [discriminate H|].
      unfold validateForCreation, needsDecomposition, array_count.
      apply Z.ltb_lt in H3. rewrite H3, Hnil. cbn [negb length Nat.eqb].
      exists (t0 ++ []), (MissingUncertainties (TaskInput.title input)
                                               (TaskInput.effort input)).
      split; [reflexivity|]. split; [|now right; left].
      intros c Hc. rewrite app_nil_r in Hc. now apply (Hquiet c).
    + exists (t0 ++ []), (InvalidEffort (TaskInput.effort input)).
      split; [reflexivity|]. split; [|now left].
      intros c Hc. rewrite app_nil_r in Hc. now apply (Hquiet c).
Qed.

(** X15.  [WorkflowOrchestrator.createTask] on an input whose effort is
    off the scale, or whose effort exceeds 3 without any uncertainty,
    fails before the creation is delegated: nothing is called, the outside
    state is untouched, and the error is the invalid-effort error, the
    missing-uncertainties error, or the unknown-project error of the
    resolution that comes first. *)
Theorem createTask_validates_first (W : Type) (this : Orchestrator W)
    (input : TaskInput.t) (w : W)
    (Hbad : isFibonacciEffort (TaskInput.effort input) = false
            \/ ((3 < TaskInput.effort input)%Z
                /\ or_nil (TaskInput.uncertainties input) = [])) :
  (forall c, ~ In (Called c) (trace (createTask this input w)))
  /\ world (createTask this input w) = w
  /\ exists e,
       outcome (createTask this input w) = inl e
       /\ (e = InvalidEffort (TaskInput.effort input)
           \/ e = MissingUncertainties (TaskInput.title input) (TaskInput.effort input)
           \/ exists available,
                e = UnknownProject (text (TaskInput.project input)) available).
Proof.
  destruct (createTask_rejects this input w Hbad) as (t & e & E & Hq & He).
  rewrite E. unfold trace, world, outcome. cbn [fst snd].
  split; [exact Hq|]. split; [reflexivity|]. now exists e.
Qed.

Lemma createTask_validates_first_witness :
  (forall c, ~ In (Called c) (trace (createTask stub_orchestrator off_scale tt)))
  /\ world (createTask stub_orchestrator off_scale tt) = tt
  /\ exists e,
       outcome (createTask stub_orchestrator off_scale tt) = inl e
       /\ (e = InvalidEffort (TaskInput.effort off_scale)
           \/ e = MissingUncertainties (TaskInput.title off_scale)
                                       (TaskInput.effort off_scale)
           \/ exists available,
                e = UnknownProject (text (TaskInput.project off_scale)) available).
Proof.
  exact (@createTask_validates_first unit stub_orchestrator off_scale tt
           (or_introl eq_refl)).
Defined.

(** X16.  Uncertainties whose titles are blank count for the creation
    policy but are not stored.  For an input of valid effort above 3 whose
    uncertainties are all blank: the check [createTask] runs passes; the
    description the service then writes encodes no uncertainty; and the
    validation of [batchCreateTasks], which counts the normalised list,
    rejects the same input. *)
Theorem blank_uncertainties (W : Type) (this : LinearService W) (input : TaskInput.t)
    (size i : nat) (w : W)
    (Hfib : isFibonacciEffort (TaskInput.effort input) = true)
    (Hhigh : (3 < TaskInput.effort input)%Z)
    (Hsome : or_nil (TaskInput.uncertainties input) <> [])
    (Hblank : normalizeUncertainties (TaskInput.uncertainties input) = []) :
  validateForCreation (TaskInput.title input) (TaskInput.effort input)
                      (Some (or_nil (TaskInput.uncertainties input))) w
  = ([], w, inr tt)
  /\ ci_description (build_createInput this input)
     = buildDescriptionWithMetadata (text (TaskInput.description input))
         (Metadata.Build (TaskInput.goal input) (TaskInput.effort input)
            (TaskInput.effortReason input) (TaskInput.complexityBias input) [] [])
  /\ validate_item size i input w
     = ([], w, inl (BatchMissingUncertainties i (TaskInput.title input))).
Proof.
  split; [|split].
  - unfold validateForCreation, needsDecomposition, array_count.
    apply Z.ltb_lt in Hhigh. rewrite Hhigh. cbn [negb].
    destruct (or_nil (TaskInput.uncertainties input)); [congruence | reflexivity].
  - rewrite createTask_description. unfold metadata_of_input. now rewrite Hblank.
  - unfold validate_item. rewrite Hfib, Hblank. cbn [negb].
    apply Z.ltb_lt in Hhigh. rewrite Hhigh. reflexivity.
Qed.

Lemma blank_uncertainties_witness :
  validateForCreation (TaskInput.title blank_risk) (TaskInput.effort blank_risk)
                      (Some (or_nil (TaskInput.uncertainties blank_risk))) 0
  = ([], 0, inr tt)
  /\ ci_description (build_createInput counting_service blank_risk)
     = buildDescriptionWithMetadata (text (TaskInput.description blank_risk))
         (Metadata.Build (TaskInput.goal blank_risk) (TaskInput.effort blank_risk)
            (TaskInput.effortReason blank_risk) (TaskInput.complexityBias blank_risk)
            [] [])
  /\ validate_item 1 0 blank_risk 0
     = ([], 0, inl (BatchMissingUncertainties 0 (TaskInput.title blank_risk))).
Proof.
  apply (@blank_uncertainties nat counting_service blank_risk 1 0 0).
  - reflexivity.
  - reflexivity.
  - discriminate.
  - reflexivity.
Defined.

(* ====================================================================== *)
(** ** applyTaskUpdates *)
(* ====================================================================== *)

Section StepsAll.

Variable W : Type.
Variable P : Step -> Prop.

Lemma steps_ret (A : Type) (a : A) : steps_all P (Svc.ret (W:=W) a).
Proof. intros w. constructor. Qed.

Lemma steps_throw (A : Type) (e : Error) : steps_all P (Svc.throw (W:=W) (A:=A) e).
Proof. intros w. constructor. Qed.

Lemma steps_bind (A B : Type) (m : Svc.t W A) (f : A -> Svc.t W B) :
  steps_all P m -> (forall a, steps_all P (f a)) -> steps_all P (Svc.bind m f).
Proof.
  intros Hm Hf w. unfold Svc.bind. specialize (Hm w).
  destruct (m w) as [[tr w'] [e | a]]; [exact Hm|].
  specialize (Hf a w'). destruct (f a w') as [[tr' w''] r].
  cbn [fst] in *. apply Forall_app. now split.
Qed.

Lemma steps_ask (A : Type) (r : Request) (f : W -> (Error + A) * W) :
  P (Asked r) -> steps_all P (Svc.ask r f).
Proof.
  intros H w. unfold Svc.ask. destruct (f w) as [x w']. cbn [fst].
  constructor; [exact H | constructor].
Qed.

Lemma steps_note (n : Notice) : P (Noted n) -> steps_all P (Svc.note (W:=W) n).
Proof. intros H w. cbn. constructor; [exact H | constructor]. Qed.

Lemma steps_lift (A : Type) (m : M W A) :
  (forall w e, In e (trace (m w)) -> P (Core e)) -> steps_all P (Svc.lift m).
Proof.
  intros H w. unfold Svc.lift. specialize (H w). unfold trace in H.
  destruct (m w) as [[tr w'] x]. cbn [fst] in *.
  apply Forall_forall. intros s Hs. apply in_map_iff in Hs.
  destruct Hs as (e & <- & He). now apply H.
Qed.

Lemma steps_for_each (A : Type) (f : A -> Svc.t W unit) (l : list A) :
  (forall a, In a l -> steps_all P (f a)) -> steps_all P (Svc.for_each f l).
Proof.
  induction l as [|a l IH]; intros H; cbn [Svc.for_each].
  - apply steps_ret.
  - apply steps_bind; [apply H; now left|]. intros _. apply IH.
    intros b Hb. apply H. now right.
Qed.

Lemma steps_for_indexed (A : Type) (f : nat -> A -> Svc.t W unit) (i : nat) (l : list A) :
  (forall j a, In a l -> steps_all P (f j a)) -> steps_all P (Svc.for_indexed f i l).
Proof.
  revert i. induction l as [|a l IH]; intros i H; cbn [Svc.for_indexed].
  - apply steps_ret.
  - apply steps_bind; [apply H; now left|]. intros _. apply IH.
    intros j b Hb. apply H. now right.
Qed.

Lemma steps_map_each (A B : Type) (f : A -> Svc.t W B) (l : list A) :
  (forall a, In a l -> steps_all P (f a)) -> steps_all P (Svc.map_each f l).
Proof.
  induction l as [|a l IH]; intros H; cbn [Svc.map_each].
  - apply steps_ret.
  - apply steps_bind; [apply H; now left|]. intros b.
    apply steps_bind; [|intros bs; apply steps_ret].
    apply IH. intros c Hc. apply H. now right.
Qed.

End StepsAll.

Lemma steps_weaken (W A : Type) (P Q : Step -> Prop) (m : Svc.t W A) :
  (forall s, P s -> Q s) -> steps_all P m -> steps_all Q m.
Proof. intros H Hm w. eapply Forall_impl; [exact H | apply Hm]. Qed.

Section UpdateFacts.

Variable W : Type.
Variable linear : LinearPort W.

(** Every step of the update of one task is a request about that task. *)
Lemma apply_one_about (taskUpdate : TaskUpdateOperation) :
  steps_all (fun s => exists r, s = Asked r
                                /\ request_task r = Some (op_taskID taskUpdate))
            (apply_one linear taskUpdate).
Proof.
  unfold apply_one. cbv zeta.
  apply steps_bind; [apply steps_ask; eexists; split; reflexivity|].
  intros [task|]; [|apply steps_throw].
  apply steps_bind.
  { destruct (op_set taskUpdate) as [set|]; [|apply steps_ret].
    unfold apply_set. cbv zeta. apply steps_bind.
    - destruct (_ || _); [apply steps_ask; eexists; split; reflexivity | apply steps_ret].
    - intros k. apply steps_bind; [|intros _; apply steps_ret].
      destruct (_ || _); [apply steps_ask; eexists; split; reflexivity | apply steps_ret]. }
  intros task1. apply steps_bind.
  { destruct (op_add taskUpdate) as [add|]; [|apply steps_ret].
    unfold apply_add. apply steps_bind.
    - destruct (add_lessonsLearned add) as [lessons|]; [|apply steps_ret].
      apply steps_for_each. intros lesson _. apply steps_ask.
      eexists; split; reflexivity.
    - intros _. apply steps_bind.
      + destruct (add_uncertainties add) as [us|]; [|apply steps_ret].
        destruct (0 <? length us);
          [apply steps_ask; eexists; split; reflexivity | apply steps_ret].
      + intros _. destruct (add_labels add) as [labels|]; [|apply steps_ret].
        destruct (0 <? length labels);
          [apply steps_ask; eexists; split; reflexivity | apply steps_ret]. }
  intros task2. apply steps_bind.
  { unfold apply_remove. destruct (op_remove taskUpdate) as [r|]; [|apply steps_ret].
    destruct (remove_labels r) as [labels|]; [|apply steps_ret].
    apply steps_ask. eexists; split; reflexivity. }
  intros task3. apply steps_bind.
  { unfold apply_resolve. destruct (op_resolve taskUpdate) as [r|]; [|apply steps_ret].
    apply steps_for_each. intros u _. apply steps_ask. eexists; split; reflexivity. }
  intros _. apply steps_bind; [apply steps_ask; eexists; split; reflexivity|].
  intros [task4|]; [apply steps_ret | apply steps_throw].
Qed.

Lemma apply_all_about (updates : list TaskUpdateOperation) (acc : list Task.t) :
  steps_all (fun s => exists r taskUpdate,
                 s = Asked r /\ In taskUpdate updates
                 /\ request_task r = Some (op_taskID taskUpdate))
            (apply_all linear updates acc).
Proof.
  revert acc. induction updates as [|u updates IH]; intros acc; cbn [apply_all].
  - apply steps_ret.
  - apply steps_bind.
    + eapply steps_weaken; [|apply apply_one_about].
      intros s (r & -> & Hr). exists r, u. split; [reflexivity|]. split; [now left | exact Hr].
    + intros task. eapply steps_weaken; [|apply IH].
      intros s (r & v & -> & Hv & Hr). exists r, v.
      split; [reflexivity|]. split; [now right | exact Hr].
Qed.

Lemma apply_all_length (updates : list TaskUpdateOperation) (acc tasks : list Task.t)
    (w : W) :
  svc_outcome (apply_all linear updates acc w) = inr tasks ->
  length tasks = length acc + length updates.
Proof.
  revert acc w. induction updates as [|u updates IH]; intros acc w; cbn [apply_all].
  - unfold Svc.ret, svc_outcome. cbn [snd]. intros [= <-]. cbn [length]. lia.
  - unfold Svc.bind. destruct (apply_one linear u w) as [[tr w1] [e | task]];
      [unfold svc_outcome; cbn [snd]; discriminate|].
    specialize (IH (acc ++ [task]) w1).
    destruct (apply_all linear updates (acc ++ [task]) w1) as [[tr' w2] r].
    unfold svc_outcome in *. cbn [snd] in *. intros H. rewrite (IH H).
    rewrite length_app. cbn [length]. lia.
Qed.

Lemma apply_all_app (done rest : list TaskUpdateOperation) (acc : list Task.t) (w : W) :
  apply_all linear (done ++ rest) acc w
  = match apply_all linear done acc w with
    | (tr, w1, inl e) => (tr, w1, inl e)
    | (tr, w1, inr tasks) =>
        match apply_all linear rest tasks w1 with
        | (tr', w2, r) => (tr ++ tr', w2, r)
        end
    end.
Proof.
  revert acc w. induction done as [|u done IH]; intros acc w; cbn [app apply_all].
  - unfold Svc.ret. destruct (apply_all linear rest acc w) as [[tr' w2] r]. reflexivity.
  - unfold Svc.bind. destruct (apply_one linear u w) as [[tr w1] [e | task]];
      [reflexivity|].
    rewrite IH. destruct (apply_all linear done (acc ++ [task]) w1) as [[tr1 w2] [e | ts]];
      [reflexivity|].
    destruct (apply_all linear rest ts w2) as [[tr2 w3] r].
    now rewrite app_assoc.
Qed.

End UpdateFacts.

(** X17.  In [applyTaskUpdates] a task that cannot be loaded stops the
    batch at once: the update of a missing task asks for the task and
    nothing else and fails with "not found"; and when an update fails, the
    whole call fails with that error after the requests of the earlier
    updates and of the failing one, in the state they left; the earlier
    updates are not undone and the later ones are not started. *)
Theorem applyTaskUpdates_stops (W : Type) (linear : LinearPort W) :
  (forall (taskUpdate : TaskUpdateOperation) (w w1 : W),
      port_getTask linear (op_taskID taskUpdate) w = (inr None, w1) ->
      apply_one linear taskUpdate w
      = ([Asked (ReqGetTask (op_taskID taskUpdate))], w1,
         inl (TaskNotFound (op_taskID taskUpdate))))
  /\ (forall (before : list TaskUpdateOperation) (taskUpdate : TaskUpdateOperation)
             (after : list TaskUpdateOperation) (w w1 w2 : W)
             (tr tr' : list Step) (tasks : list Task.t) (e : Error),
         applyTaskUpdates linear before w = (tr, w1, inr tasks) ->
         apply_one linear taskUpdate w1 = (tr', w2, inl e) ->
         applyTaskUpdates linear (before ++ taskUpdate :: after) w
         = (tr ++ tr', w2, inl e)).
Proof.
  split.
  - intros u w w1 H. unfold apply_one, Svc.bind, Svc.ask. cbv zeta. now rewrite H.
  - intros before u after w w1 w2 tr tr' tasks e H1 H2. unfold applyTaskUpdates in *.
    rewrite apply_all_app, H1. cbn [apply_all]. unfold Svc.bind. now rewrite H2.
Qed.

Lemma applyTaskUpdates_stops_witness :
  applyTaskUpdates table_port ([full_update] ++ missing_update :: [full_update])
                   [legacy_task]
  = (svc_trace (applyTaskUpdates table_port [full_update] [legacy_task])
     ++ [Asked (ReqGetTask (js "missing"))],
     snd (fst (applyTaskUpdates table_port [full_update] [legacy_task])),
     inl (TaskNotFound (js "missing"))).
Proof.
  apply (proj2 (applyTaskUpdates_stops table_port) [full_update] missing_update
           [full_update] [legacy_task]
           (snd (fst (applyTaskUpdates table_port [full_update] [legacy_task])))
           (snd (fst (applyTaskUpdates table_port [full_update] [legacy_task])))
           (svc_trace (applyTaskUpdates table_port [full_update] [legacy_task]))
           [Asked (ReqGetTask (js "missing"))]
           (match svc_outcome (applyTaskUpdates table_port [full_update] [legacy_task]) with
            | inr tasks => tasks
            | inl _ => []
            end)).
  - vm_compute. reflexivity.
  - vm_compute. reflexivity.
Defined.

(** X18.  Whatever the service answers, [applyTaskUpdates] logs nothing
    and asks the service only about tasks the input names; and when it
    succeeds it returns exactly one task per update. *)
Theorem applyTaskUpdates_scope (W : Type) (linear : LinearPort W)
    (updates : list TaskUpdateOperation) (w : W) :
  (forall s, In s (svc_trace (applyTaskUpdates linear updates w)) ->
             exists r taskUpdate,
               s = Asked r /\ In taskUpdate updates
               /\ request_task r = Some (op_taskID taskUpdate))
  /\ (forall tasks,
        svc_outcome (applyTaskUpdates linear updates w) = inr tasks ->
        length tasks = length updates).
Proof.
  split.
  - apply Forall_forall. apply (apply_all_about linear updates [] w).
  - intros tasks H. unfold applyTaskUpdates in H.
    now rewrite (apply_all_length linear updates [] w H).
Qed.

(** *** Labels *)

Lemma spread_set_from_In (seen values : list str) (x : str) :
  In x (spread_set_from seen values) <-> In x values /\ ~ In x seen.
Proof.
  revert seen. induction values as [|v values IH]; intros seen; cbn [spread_set_from].
  - split; [intros [] | intros [[] _]].
  - destruct (array_includes seen v) eqn:E.
    + apply array_includes_In in E. rewrite IH. split.
      * intros [H1 H2]. split; [now right | exact H2].
      * intros [[<- | H1] H2]; [contradiction | now split].
    + assert (Hv : ~ In v seen).
      { intros H. apply array_includes_In in H. congruence. }
      cbn [In]. rewrite IH. split.
      * intros [<- | [H1 H2]]; [split; [now left | exact Hv]|].
        split; [now right|]. intros H. apply H2. apply in_or_app. now left.
      * intros [[<- | H1] H2]; [now left|].
        destruct (list_eq_dec ascii_dec v x) as [-> | Hne]; [now left|].
        right. split; [exact H1|]. intros H. apply in_app_or in H.
        destruct H as [H | [H | []]]; [contradiction | congruence].
Qed.

Lemma spread_set_from_NoDup (seen values : list str) : NoDup (spread_set_from seen values).
Proof.
  revert seen. induction values as [|v values IH]; intros seen; cbn [spread_set_from].
  - constructor.
  - destruct (array_includes seen v); [apply IH|]. constructor; [|apply IH].
    rewrite spread_set_from_In. intros [_ H]. apply H. apply in_or_app. right. now left.
Qed.

Lemma spread_set_from_prefix (seen current values : list str) :
  NoDup current -> (forall x, In x current -> ~ In x seen) ->
  spread_set_from seen (current ++ values)
  = current ++ spread_set_from (seen ++ current) values.
Proof.
  revert seen. induction current as [|c current IH]; intros seen Hnd Hdis.
  - cbn [app]. now rewrite app_nil_r.
  - cbn [app spread_set_from]. inversion Hnd as [|x xs Hx Hxs]; subst.
    assert (E : array_includes seen c = false).
    { apply not_true_is_false. intros H. apply array_includes_In in H.
      now apply (Hdis c (or_introl eq_refl)). }
    rewrite E. f_equal. rewrite IH; [now rewrite <- app_assoc | exact Hxs |].
    intros y Hy H. apply in_app_or in H. destruct H as [H | [<- | []]].
    + apply (Hdis y); [now right | exact H].
    + contradiction.
Qed.

Lemma patches_of (W A : Type) (Q : TaskPatch -> Prop) (m : Svc.t W A) (w : W)
    (p : TaskPatch) :
  steps_all (fun s => forall q, s = Asked (ReqUpdateTask q) -> Q q) m ->
  In (Asked (ReqUpdateTask p)) (svc_trace (m w)) -> Q p.
Proof.
  intros H Hin. specialize (H w). rewrite Forall_forall in H.
  now apply (H _ Hin).
Qed.

Ltac not_a_patch := intros ? [=].

Ltac by_patches w p Hin :=
  pattern p;
  match goal with
  | |- ?Q p => refine (@patches_of _ _ Q _ w p _ Hin)
  end.



(* ====================================================================== *)
(** ** WorkflowOrchestrator.decomposeTask *)
(* ====================================================================== *)

Lemma creation_error_None (title : str) (effort : Z) (us : list UncertaintyInput) :
  creation_error title effort us = None <-> creation_valid effort us.
Proof.
  unfold creation_error, creation_valid.
  destruct (isFibonacciEffort effort); cbn [negb];
    [|split; [discriminate | intros [H _]; discriminate H]].
  destruct (3 <? effort)%Z eqn:E; cbn [andb].
  - apply Z.ltb_lt in E. destruct us as [|u us]; cbn [length Nat.eqb].
    + split; [discriminate | intros [_ H]; now contradiction (H E)].
    + split; [intros _; split; [reflexivity | intros _; discriminate] | reflexivity].
  - apply Z.ltb_ge in E. split; [|reflexivity]. intros _. split; [reflexivity|]. lia.
Qed.

Lemma creation_checks_run (W : Type) (title : str) (effort : Z)
    (us : list UncertaintyInput) (w : W) :
  Svc.bind (Svc.lift (assertValidEffort effort))
           (fun _ => Svc.lift (validateForCreation title effort (Some us))) w
  = ([], w, match creation_error title effort us with
            | Some e => inl e
            | None => inr tt
            end).
Proof.
  unfold Svc.bind, Svc.lift, assertValidEffort, validateForCreation, creation_error,
    needsDecomposition, array_count.
  destruct (isFibonacciEffort effort); cbn [negb]; [|reflexivity].
  unfold ret. destruct (3 <? effort)%Z; cbn [negb andb map app]; [|reflexivity].
  destruct (Nat.eqb (length us) 0); reflexivity.
Qed.

Lemma validate_subtask_run (W : Type) (subtask : SubtaskInput.t) (w : W) :
  exists tr,
    Workflow.validate_subtask subtask w
    = (tr, w, match subtask_error subtask with Some e => inl e | None => inr tt end)
    /\ Forall is_noted tr.
Proof.
  unfold Workflow.validate_subtask.
  assert (E := creation_checks_run (SubtaskInput.title subtask) (SubtaskInput.effort subtask)
                 (or_nil (SubtaskInput.uncertainties subtask)) w).
  unfold Svc.bind in E |- *. unfold assertSubtaskEffort.
  destruct (Svc.lift (assertValidEffort (SubtaskInput.effort subtask)) w)
    as [[t1 w1] [e1 | []]].
  - exists t1. unfold subtask_error. injection E as -> -> E. rewrite <- E.
    split; [reflexivity | constructor].
  - destruct (Svc.lift (validateForCreation _ _ _) w1) as [[t2 w2] r2].
    injection E as E1 -> E2. unfold subtask_error. rewrite <- E2.
    apply app_eq_nil in E1. destruct E1 as [-> ->].
    destruct r2 as [e2 | []]; [exists []; split; [reflexivity | constructor]|].
    destruct (validateEffortReason _ _).
    + eexists. split; [reflexivity|]. constructor; [eexists; reflexivity | constructor].
    + exists []. split; [reflexivity | constructor].
Qed.

Lemma validate_subtasks_run (W : Type) (subtasks : list SubtaskInput.t) (w : W) :
  exists tr r,
    Svc.for_each Workflow.validate_subtask subtasks w = (tr, w, r)
    /\ Forall is_noted tr
    /\ (r = inr tt -> forall s, In s subtasks -> subtask_valid s).
Proof.
  induction subtasks as [|s subtasks IH]; cbn [Svc.for_each].
  - exists [], (inr tt). split; [reflexivity|]. split; [constructor|]. intros _ s [].
  - unfold Svc.bind. destruct (validate_subtask_run s w) as (t1 & E1 & H1). rewrite E1.
    destruct (subtask_error s) as [e|] eqn:Es.
    + exists t1, (inl e). split; [reflexivity|]. split; [exact H1 | discriminate].
    + destruct IH as (t2 & r2 & E2 & H2 & Hv). rewrite E2.
      exists (t1 ++ t2), r2. split; [reflexivity|]. split; [apply Forall_app; now split|].
      intros Hr x [<- | Hx]; [|now apply Hv].
      now apply creation_error_None in Es.
Qed.

Lemma guard_run (W : Type) (mode : UncertaintyResolutionMode) (task : Task.t) (w : W) :
  exists tr r,
    Svc.lift (handleDecompositionGuard mode task) w = (tr, w, r)
    /\ Forall (fun s => exists e, s = Core e) tr
    /\ (r = inr tt -> mode = block -> unresolvedCount task = 0)
    /\ (mode = block -> 0 < unresolvedCount task ->
        tr = [] /\ r = inl (UnresolvedUncertainties (taskKey task) (unresolvedCount task))).
Proof.
  unfold Svc.lift, handleDecompositionGuard.
  destruct mode.
  - eexists. eexists. split; [reflexivity|]. split; [constructor|].
    split; intros; discriminate.
  - cbv zeta. destruct (Nat.eqb (unresolvedCount task) 0) eqn:E.
    + eexists. eexists. split; [reflexivity|]. split; [constructor|].
      split; intros; discriminate.
    + eexists. eexists. split; [reflexivity|]. split.
      * constructor; [eexists; reflexivity | constructor].
      * split; intros; discriminate.
  - cbv zeta. destruct (Nat.eqb (unresolvedCount task) 0) eqn:E.
    + apply Nat.eqb_eq in E. eexists. eexists. split; [reflexivity|].
      split; [constructor|]. split; [intros; exact E | intros _ H; lia].
    + eexists. eexists. split; [reflexivity|]. split; [constructor|].
      split; [discriminate | intros _ _; split; reflexivity].
Qed.

Lemma noted_not_decompose (tr : list Step) : Forall is_noted tr -> Forall not_decompose tr.
Proof.
  apply Forall_impl. intros s [n ->] input. discriminate.
Qed.

Lemma core_not_decompose (tr : list Step) :
  Forall (fun s => exists e, s = Core e) tr -> Forall not_decompose tr.
Proof.
  apply Forall_impl. intros s [e ->] input. discriminate.
Qed.

Lemma not_decompose_absent (tr : list Step) (input : DecomposeTaskInput) :
  Forall not_decompose tr -> ~ In (Asked (ReqDecomposeTask input)) tr.
Proof.
  intros H Hin. rewrite Forall_forall in H. now apply (H _ Hin input).
Qed.

(** X20.  [decomposeTask] delegates the decomposition only after the
    parent was found, the guard let it pass and every subtask was
    validated.  When the parent is missing it fails after the one read.
    In block mode a parent with unresolved uncertainties is refused before
    any subtask is looked at.  And whenever the service is asked to
    decompose, it is asked with the input as given, every subtask has an
    effort on the scale and, above 3, at least one uncertainty, and in
    block mode the parent had no unresolved uncertainty. *)
Theorem decomposeTask_guarded (W : Type) (this : Orchestrator W) (linear : LinearPort W)
    (input : DecomposeTaskInput) (w : W) :
  (forall w1,
      port_getTask linear (decompose_taskID input) w = (inr None, w1) ->
      Workflow.decomposeTask this linear input w
      = ([Asked (ReqGetTask (decompose_taskID input))], w1,
         inl (TaskNotFound (decompose_taskID input))))
  /\ (forall parent w1,
         port_getTask linear (decompose_taskID input) w = (inr (Some parent), w1) ->
         uncertaintyMode this = block -> 0 < unresolvedCount parent ->
         Workflow.decomposeTask this linear input w
         = ([Asked (ReqGetTask (decompose_taskID input))], w1,
            inl (UnresolvedUncertainties (taskKey parent) (unresolvedCount parent))))
  /\ (forall asked,
         In (Asked (ReqDecomposeTask asked))
            (svc_trace (Workflow.decomposeTask this linear input w)) ->
         asked = input
         /\ (forall s, In s (decompose_subtasks input) -> subtask_valid s)
         /\ exists parent w1,
              port_getTask linear (decompose_taskID input) w = (inr (Some parent), w1)
              /\ (uncertaintyMode this = block -> unresolvedCount parent = 0)).
Proof.
  split; [|split].
  - intros w1 H. unfold Workflow.decomposeTask, Svc.bind, Svc.ask. now rewrite H.
  - intros parent w1 H Hmode Hcount.
    unfold Workflow.decomposeTask, Svc.bind, Svc.ask. rewrite H.
    destruct (guard_run (uncertaintyMode this) parent w1) as (tr & r & E & _ & _ & Hb).
    rewrite E. destruct (Hb Hmode Hcount) as [-> ->]. reflexivity.
  - intros asked. unfold Workflow.decomposeTask, Svc.bind, Svc.ask.
    destruct (port_getTask linear (decompose_taskID input) w) as [[e | [parent|]] w1];
      try (cbn; intros [H | []]; discriminate H).
    destruct (guard_run (uncertaintyMode this) parent w1) as (tg & rg & Eg & Hg & Hpass & _).
    rewrite Eg.
    destruct rg as [eg | []].
    { unfold svc_trace. cbn [fst app]. intros [H | H]; [discriminate H|].
      now contradiction (not_decompose_absent asked (core_not_decompose Hg)). }
    destruct (validate_subtasks_run (decompose_subtasks input) w1) as (tv & rv & Ev & Hv & Hok).
    rewrite Ev. destruct rv as [ev | []].
    { unfold svc_trace. cbn [fst app]. intros [H | H]; [discriminate H|].
      apply in_app_or in H. destruct H as [H | H].
      - now contradiction (not_decompose_absent asked (core_not_decompose Hg)).
      - now contradiction (not_decompose_absent asked (noted_not_decompose Hv)). }
    destruct (port_decomposeTask linear input w1) as [[ed | subtasks] w2];
      unfold svc_trace; cbn [fst app Svc.note Svc.ret]; intros [H | H]; try discriminate H;
      (apply in_app_or in H; destruct H as [H | H];
       [now contradiction (not_decompose_absent asked (core_not_decompose Hg))|]);
      (apply in_app_or in H; destruct H as [H | H];
       [now contradiction (not_decompose_absent asked (noted_not_decompose Hv))|]).
    + destruct H as [H | []]. injection H as <-.
      split; [reflexivity|]. split; [now apply Hok|].
      exists parent, w1. split; [reflexivity | now apply Hpass].
    + destruct H as [H | [H | []]]; [|discriminate H]. injection H as <-.
      split; [reflexivity|]. split; [now apply Hok|].
      exists parent, w1. split; [reflexivity | now apply Hpass].
Qed.

Lemma decomposeTask_guarded_witness :
  Workflow.decomposeTask blocking_orchestrator table_port
    (BuildDecompose (js "task-1") None [small_subtask]) [open_parent]
  = ([Asked (ReqGetTask (js "task-1"))], [open_parent],
     inl (UnresolvedUncertainties (js "task-1") 1))
  /\ forall s, In s [small_subtask] -> subtask_valid s.
Proof.
  split.
  - apply (proj1 (proj2 (decomposeTask_guarded blocking_orchestrator table_port
                           (BuildDecompose (js "task-1") None [small_subtask])
                           [open_parent]))
             open_parent [open_parent]).
    + reflexivity.
    + reflexivity.
    + vm_compute. lia.
  - apply (proj2 (proj2 (decomposeTask_guarded warning_orchestrator table_port
                           (BuildDecompose (js "task-1") None [small_subtask])
                           [open_parent]))
             (BuildDecompose (js "task-1") None [small_subtask])).
    vm_compute. right. right. left. reflexivity.
Defined.

(* ====================================================================== *)
(** ** WorkflowOrchestrator.batchCreateTasks *)
(* ====================================================================== *)

Lemma resolve_lifted (W : Type) (cfg : ResolverConfig) (requested : option str) (w : W) :
  exists tr r, Svc.lift (resolve cfg requested) w = (tr, w, r) /\ Forall is_core tr.
Proof.
  unfold Svc.lift. destruct (resolve_shape cfg requested w) as (t & r & E & _).
  rewrite E. exists (map Core t), r. split; [reflexivity|].
  apply Forall_forall. intros s Hs. apply in_map_iff in Hs.
  destruct Hs as (e & <- & _). now exists e.
Qed.

Lemma with_project_same (task : TaskInput.t) (p : option str) :
  same_but_project (TaskInput.with_project task p) task.
Proof. unfold same_but_project. now destruct task. Qed.

Lemma same_but_project_refl (task : TaskInput.t) : same_but_project task task.
Proof. unfold same_but_project. now destruct task. Qed.

Lemma resolve_batch_project_run (W : Type) (this : Orchestrator W) (task : TaskInput.t)
    (w : W) :
  exists tr r,
    Workflow.resolve_batch_project this task w = (tr, w, r)
    /\ Forall is_core tr
    /\ (forall resolved, r = inr resolved -> same_but_project resolved task).
Proof.
  unfold Workflow.resolve_batch_project, Svc.bind.
  destruct (negb (truthy (TaskInput.project task))).
  - destruct (resolve_lifted (resolverConfig this) None w) as (tr & r & E & Hc).
    rewrite E. destruct r as [e | defaultProject].
    + exists tr, (inl e). split; [reflexivity|]. split; [exact Hc | discriminate].
    + eexists. eexists. split; [reflexivity|]. rewrite app_nil_r. split; [exact Hc|].
      intros resolved [= <-]. destruct (truthy defaultProject);
        [apply with_project_same | apply same_but_project_refl].
  - destruct (resolve_lifted (resolverConfig this) (TaskInput.project task) w)
      as (tr & r & E & Hc).
    rewrite E. destruct r as [e | resolvedProject].
    + exists tr, (inl e). split; [reflexivity|]. split; [exact Hc | discriminate].
    + eexists. eexists. split; [reflexivity|]. rewrite app_nil_r. split; [exact Hc|].
      intros resolved [= <-].
      destruct (negb (option_str_eqb resolvedProject (TaskInput.project task)));
        [apply with_project_same | apply same_but_project_refl].
Qed.

Lemma resolve_projects_run (W : Type) (this : Orchestrator W) (tasks : list TaskInput.t)
    (w : W) :
  exists tr r,
    Svc.map_each (Workflow.resolve_batch_project this) tasks w = (tr, w, r)
    /\ Forall is_core tr
    /\ (forall resolved, r = inr resolved -> Forall2 same_but_project resolved tasks).
Proof.
  induction tasks as [|task tasks IH]; cbn [Svc.map_each].
  - exists [], (inr []). split; [reflexivity|]. split; [constructor|].
    intros resolved [= <-]. constructor.
  - unfold Svc.bind.
    destruct (resolve_batch_project_run this task w) as (t1 & r1 & E1 & H1 & Hs1).
    rewrite E1. destruct r1 as [e | first].
    + exists t1, (inl e). split; [reflexivity|]. split; [exact H1 | discriminate].
    + destruct IH as (t2 & r2 & E2 & H2 & Hs2). rewrite E2.
      destruct r2 as [e | others].
      * exists (t1 ++ t2), (inl e). split; [reflexivity|].
        split; [apply Forall_app; now split | discriminate].
      * eexists. eexists. split; [reflexivity|]. cbn [app]. rewrite app_nil_r.
        split; [apply Forall_app; now split|].
        intros resolved [= <-]. constructor; [now apply Hs1 | now apply Hs2].
Qed.

Lemma validate_batch_item_run (W : Type) (i : nat) (task : TaskInput.t) (w : W) :
  exists tr,
    Workflow.validate_batch_item i task w
    = (tr, w, match input_error task with Some e => inl e | None => inr tt end)
    /\ Forall is_noted tr.
Proof.
  unfold Workflow.validate_batch_item.
  assert (E := creation_checks_run (TaskInput.title task) (TaskInput.effort task)
                 (or_nil (TaskInput.uncertainties task)) w).
  unfold Svc.bind in E |- *.
  destruct (Svc.lift (assertValidEffort (TaskInput.effort task)) w)
    as [[t1 w1] [e1 | []]].
  - exists t1. unfold input_error. injection E as -> -> E. rewrite <- E.
    split; [reflexivity | constructor].
  - destruct (Svc.lift (validateForCreation _ _ _) w1) as [[t2 w2] r2].
    injection E as E1 -> E2. unfold input_error. rewrite <- E2.
    apply app_eq_nil in E1. destruct E1 as [-> ->].
    destruct r2 as [e2 | []]; [exists []; split; [reflexivity | constructor]|].
    destruct (validateEffortReason _ _).
    + eexists. split; [reflexivity|]. constructor; [eexists; reflexivity | constructor].
    + exists []. split; [reflexivity | constructor].
Qed.

Lemma validate_batch_run (W : Type) (tasks : list TaskInput.t) (i : nat) (w : W) :
  exists tr r,
    Svc.for_indexed Workflow.validate_batch_item i tasks w = (tr, w, r)
    /\ Forall is_noted tr
    /\ (r = inr tt -> forall task, In task tasks -> input_valid task).
Proof.
  revert i. induction tasks as [|task tasks IH]; intros i; cbn [Svc.for_indexed].
  - exists [], (inr tt). split; [reflexivity|]. split; [constructor|]. intros _ s [].
  - unfold Svc.bind. destruct (validate_batch_item_run i task w) as (t1 & E1 & H1).
    rewrite E1. destruct (input_error task) as [e|] eqn:Es.
    + exists t1, (inl e). split; [reflexivity|]. split; [exact H1 | discriminate].
    + destruct (IH (S i)) as (t2 & r2 & E2 & H2 & Hv). rewrite E2.
      exists (t1 ++ t2), r2. split; [reflexivity|]. split; [apply Forall_app; now split|].
      intros Hr x [<- | Hx]; [|now apply Hv].
      now apply creation_error_None in Es.
Qed.

Lemma not_batch_absent (tr : list Step) (tasks : list TaskInput.t) :
  Forall not_batch_create tr -> ~ In (Asked (ReqBatchCreateTasks tasks)) tr.
Proof.
  intros H Hin. rewrite Forall_forall in H. now apply (H _ Hin tasks).
Qed.

Lemma core_not_batch (tr : list Step) : Forall is_core tr -> Forall not_batch_create tr.
Proof. apply Forall_impl. intros s [e ->] tasks. discriminate. Qed.

Lemma noted_not_batch (tr : list Step) : Forall is_noted tr -> Forall not_batch_create tr.
Proof. apply Forall_impl. intros s [n ->] tasks. discriminate. Qed.

(** X21.  The orchestrator's [batchCreateTasks] returns the empty list for
    an empty batch without resolving, logging or asking anything.
    Otherwise, whenever it asks the service to create a batch, the batch is
    the input with at most the projects replaced, item by item, and every
    item has an effort on the scale and, above 3, at least one
    uncertainty: nothing is delegated while one item fails the checks. *)
Theorem batchCreateTasks_checked (W : Type) (this : Orchestrator W)
    (linear : LinearPort W) (tasks : list TaskInput.t) (w : W) :
  Workflow.batchCreateTasks this linear [] w = ([], w, inr [])
  /\ (forall asked,
         In (Asked (ReqBatchCreateTasks asked))
            (svc_trace (Workflow.batchCreateTasks this linear tasks w)) ->
         Forall2 same_but_project asked tasks
         /\ (forall task, In task asked -> input_valid task))
  /\ ((exists task, In task tasks /\ ~ input_valid task) ->
      forall asked,
        ~ In (Asked (ReqBatchCreateTasks asked))
             (svc_trace (Workflow.batchCreateTasks this linear tasks w))).
Proof.
  assert (Hmain : forall asked,
             In (Asked (ReqBatchCreateTasks asked))
                (svc_trace (Workflow.batchCreateTasks this linear tasks w)) ->
             Forall2 same_but_project asked tasks
             /\ (forall task, In task asked -> input_valid task)).
  { intros asked. unfold Workflow.batchCreateTasks.
    destruct (Nat.eqb (length tasks) 0); [intros []|].
    unfold Svc.bind, Svc.ask.
    destruct (resolve_projects_run this tasks w) as (tp & rp & Ep & Hp & Hsame).
    rewrite Ep. destruct rp as [ep | resolved].
    { unfold svc_trace. cbn [fst]. intros H.
      now contradiction (not_batch_absent asked (core_not_batch Hp)). }
    destruct (validate_batch_run resolved 0 w) as (tv & rv & Ev & Hv & Hok).
    rewrite Ev. destruct rv as [ev | []].
    { unfold svc_trace. cbn [fst]. intros H. apply in_app_or in H. destruct H as [H | H].
      - now contradiction (not_batch_absent asked (core_not_batch Hp)).
      - now contradiction (not_batch_absent asked (noted_not_batch Hv)). }
    destruct (port_batchCreateTasks linear resolved w) as [[ec | created] w2];
      [|destruct (0 <? length (filter _ created))];
      unfold svc_trace, Svc.note, Svc.ret; cbn [fst app]; intros H;
      (apply in_app_or in H; destruct H as [H | H];
       [now contradiction (not_batch_absent asked (core_not_batch Hp))|]);
      (apply in_app_or in H; destruct H as [H | H];
       [now contradiction (not_batch_absent asked (noted_not_batch Hv))|]);
      (destruct H as [H | H];
       [injection H as <-; split; [now apply Hsame | now apply Hok]|]);
      exfalso; cbn in H;
      repeat (destruct H as [H | H]; [discriminate H|]); exact H. }
  split; [reflexivity|]. split; [exact Hmain|].
  intros (task & Hin & Hbad) asked Hasked.
  destruct (Hmain asked Hasked) as [Hsame Hvalid].
  apply Hbad.
  assert (Hex : exists resolved, In resolved asked /\ same_but_project resolved task).
  { clear Hvalid Hasked Hbad Hmain. induction Hsame as [|a t asked' tasks' Hat _ IH];
      [destruct Hin|].
    destruct Hin as [<- | Hin]; [exists a; split; [now left | exact Hat]|].
    destruct (IH Hin) as (x & Hx & Hsx). exists x. split; [now right | exact Hsx]. }
  destruct Hex as (resolved & Hr & Hs). specialize (Hvalid resolved Hr).
  unfold input_valid in *. unfold same_but_project in Hs. rewrite Hs in Hvalid.
  now destruct task.
Qed.

Lemma batchCreateTasks_checked_witness :
  ~ In (Asked (ReqBatchCreateTasks odd_inputs))
       (svc_trace (Workflow.batchCreateTasks warning_orchestrator table_port
                                             odd_inputs [])).
Proof.
  apply (proj2 (proj2 (batchCreateTasks_checked warning_orchestrator table_port
                         odd_inputs []))).
  exists (plain_input (js "B") 4 None None). split; [right; now left|].
  intros [H _]. discriminate H.
Defined.

(* ====================================================================== *)
(** ** WorkflowOrchestrator.getReadyTasks *)
(* ====================================================================== *)

Lemma keeps_ready_filter (context : TaskFilterContext) (task : Task.t) :
  keeps ready_filter context task = true <->
  In (Task.status task) [todo; backlog]
  /\ (forall u, In u (or_nil (Task.uncertainties task)) ->
                truthy (Uncertainty.resolution u) = true)
  /\ ~ In (js "needs-decomposition") (or_nil (Task.labels task)).
Proof.
  unfold keeps, ready_filter, status_clause, labels_clause, unresolved_clause,
    ready_clause, search_clause.
  cbn [status_in labels_has_every has_unresolved_uncertainties ready search is_true].
  rewrite !andb_true_r, andb_true_iff, andb_true_iff, !negb_true_iff.
  rewrite set_has_In, hasUnresolved_false.
  unfold hasNeedsDecomposition. rewrite <- array_includes_In.
  split; intros (Hs & Hu & Hd); (split; [exact Hs|]); (split; [exact Hu|]).
  - now rewrite Hd.
  - now apply not_true_is_false.
Qed.

(** X22.  [getReadyTasks] sends the service exactly one list request, for
    no project, with the given limit or 10 and without cursor.  If the
    service fails, so does the call; otherwise it returns the tasks of that
    page, in the service's order, that pass one test: the status is [todo]
    or [backlog], every uncertainty has a resolution and the
    [needs-decomposition] label is absent. *)
Theorem getReadyTasks_spec (W : Type) (this : Orchestrator W) (linear : LinearPort W)
    (limit : option Z) (w : W) :
  let n := match limit with Some n => n | None => 10%Z end in
  svc_trace (Workflow.getReadyTasks this linear limit w)
  = [Asked (ReqListTasks None (Some n) None)]
  /\ match port_listTasks linear None (Some n) None w with
     | (inl e, _) => svc_outcome (Workflow.getReadyTasks this linear limit w) = inl e
     | (inr page, _) =>
         exists keep,
           svc_outcome (Workflow.getReadyTasks this linear limit w)
           = inr (filter keep (fst page))
           /\ forall task,
                keep task = true <->
                In (Task.status task) [todo; backlog]
                /\ (forall u, In u (or_nil (Task.uncertainties task)) ->
                              truthy (Uncertainty.resolution u) = true)
                /\ ~ In (js "needs-decomposition") (or_nil (Task.labels task))
     end.
Proof.
  intros n. unfold Workflow.getReadyTasks, Workflow.listTasks.
  fold n. cbn [filter_project truthy ready is_true].
  unfold Svc.bind, Svc.ask, Svc.ret, svc_trace, svc_outcome.
  destruct (port_listTasks linear None (Some n) None w) as [[e | page] w'];
    cbn [fst snd app]; (split; [reflexivity|]); [reflexivity|].
  exists (keeps ready_filter (BuildContext (Some [todo; backlog]))).
  split; [|intros task; apply keeps_ready_filter].
  f_equal. apply filterTasks_filter.
Qed.

(* ====================================================================== *)
(** ** LinearService.addLabelsToIssue *)
(* ====================================================================== *)

Lemma add_label_id_grows (teamLabels : list IssueLabel) (labelIds : list str) (name : str) :
  add_label_id teamLabels labelIds name = labelIds
  \/ exists label,
       team_label teamLabels name = Some label
       /\ ~ In (label_id label) labelIds
       /\ add_label_id teamLabels labelIds name = labelIds ++ [label_id label].
Proof.
  unfold add_label_id, team_label.
  destruct (find _ teamLabels) as [label|]; [|now left].
  destruct (array_includes labelIds (label_id label)) eqn:E; cbn [negb]; [now left|].
  right. exists label. split; [reflexivity|]. split; [|reflexivity].
  intros Hin. apply array_includes_In in Hin. rewrite Hin in E. discriminate E.
Qed.

Lemma add_label_id_has (teamLabels : list IssueLabel) (labelIds : list str) (name : str)
    (label : IssueLabel) :
  team_label teamLabels name = Some label ->
  In (label_id label) (add_label_id teamLabels labelIds name).
Proof.
  unfold add_label_id, team_label. intros ->.
  destruct (array_includes labelIds (label_id label)) eqn:E; cbn [negb].
  - now apply array_includes_In.
  - apply in_or_app. right. now left.
Qed.

Lemma add_label_ids_keep (teamLabels : list IssueLabel) (names : list str)
    (labelIds : list str) (id : str) :
  In id labelIds -> In id (fold_left (add_label_id teamLabels) names labelIds).
Proof.
  revert labelIds. induction names as [|name names IH]; intros labelIds Hin; [exact Hin|].
  cbn [fold_left]. apply IH.
  destruct (add_label_id_grows teamLabels labelIds name) as [-> | (l & _ & _ & ->)];
    [exact Hin | apply in_or_app; now left].
Qed.

Lemma add_label_ids_added (teamLabels : list IssueLabel) (names : list str)
    (labelIds : list str) :
  exists added,
    fold_left (add_label_id teamLabels) names labelIds = labelIds ++ added
    /\ NoDup added
    /\ forall id, In id added ->
         ~ In id labelIds
         /\ exists name label,
              In name names /\ team_label teamLabels name = Some label
              /\ label_id label = id.
Proof.
  revert labelIds. induction names as [|name names IH]; intros labelIds.
  - exists []. cbn [fold_left]. rewrite app_nil_r. split; [reflexivity|].
    split; [constructor | intros id []].
  - cbn [fold_left].
    destruct (add_label_id_grows teamLabels labelIds name) as [-> | (l & Hl & Hnew & ->)].
    + destruct (IH labelIds) as (added & E & Hnd & Hfrom). exists added.
      split; [exact E|]. split; [exact Hnd|].
      intros id Hid. destruct (Hfrom id Hid) as (Hn & n & lb & Hin & Hf & Hi).
      split; [exact Hn|]. exists n, lb. split; [now right | now split].
    + destruct (IH (labelIds ++ [label_id l])) as (added & E & Hnd & Hfrom).
      exists (label_id l :: added). rewrite E, <- app_assoc. split; [reflexivity|].
      split.
      * constructor; [|exact Hnd]. intros Hin. destruct (Hfrom _ Hin) as [Hn _].
        apply Hn. apply in_or_app. right. now left.
      * intros id [<- | Hid].
        -- split; [exact Hnew|]. exists name, l. split; [now left | now split].
        -- destruct (Hfrom id Hid) as (Hn & n & lb & Hin & Hf & Hi). split.
           ++ intros H. apply Hn. apply in_or_app. now left.
           ++ exists n, lb. split; [now right | now split].
Qed.

Lemma add_label_ids_complete (teamLabels : list IssueLabel) (names : list str)
    (labelIds : list str) (name : str) (label : IssueLabel) :
  In name names -> team_label teamLabels name = Some label ->
  In (label_id label) (fold_left (add_label_id teamLabels) names labelIds).
Proof.
  revert labelIds. induction names as [|n names IH]; intros labelIds Hin Hf; [destruct Hin|].
  cbn [fold_left]. destruct Hin as [-> | Hin]; [|now apply IH].
  apply add_label_ids_keep. now apply add_label_id_has.
Qed.

(** X23.  [addLabelsToIssue] reads the labels of the team, then those of
    the issue, and writes one list of label ids: the ids the issue has, in
    their order, followed by new ones.  An id is new exactly when the issue
    does not have it and it is the id of the team's first label of one of
    the names asked for; no new id comes twice.  A name the team has no
    label for adds nothing: no label is created. *)
Theorem addLabelsToIssue_spec (W : Type) (client : SdkClient W) (teamId issueId : str)
    (labelNames : list str) (w w1 w2 : W) (teamLabels issueLabels : option (list IssueLabel))
    (Hteam : sdk_teamLabels client teamId w = (inr teamLabels, w1))
    (Hissue : sdk_issueLabels client issueId w1 = (inr issueLabels, w2)) :
  exists added,
    sdk_trace (LinearSdk.addLabelsToIssue client teamId issueId labelNames w)
    = [SdkTeamLabels teamId; SdkIssueLabels issueId;
       SdkUpdateIssue issueId
         (labels_update (map label_id (or_nil issueLabels) ++ added))]
    /\ NoDup added
    /\ forall id,
         In id added <->
         ~ In id (map label_id (or_nil issueLabels))
         /\ exists name label,
              In name labelNames /\ team_label (or_nil teamLabels) name = Some label
              /\ label_id label = id.
Proof.
  destruct (add_label_ids_added (or_nil teamLabels) labelNames
              (map label_id (or_nil issueLabels))) as (added & E & Hnd & Hfrom).
  exists added. split; [|split; [exact Hnd|]].
  - unfold LinearSdk.addLabelsToIssue, Sdk.bind, Sdk.call, Sdk.ret, sdk_trace.
    rewrite Hteam, Hissue. cbv zeta. rewrite E.
    destruct (sdk_updateIssue client issueId _ w2) as [[e | answer] w3]; reflexivity.
  - intros id. split; [apply Hfrom|].
    intros (Hn & name & label & Hin & Hf & <-).
    assert (H := add_label_ids_complete (or_nil teamLabels) labelNames
                   (map label_id (or_nil issueLabels)) name Hin Hf).
    rewrite E in H. apply in_app_or in H. destruct H as [H | H]; [contradiction | exact H].
Qed.

Lemma addLabelsToIssue_spec_witness :
  exists added,
    sdk_trace (LinearSdk.addLabelsToIssue board_sdk (js "team") (js "T-1")
                 [js "bug"; js "unknown"; js "effort:5"] small_board)
    = [SdkTeamLabels (js "team"); SdkIssueLabels (js "T-1");
       SdkUpdateIssue (js "T-1") (labels_update ([js "L4"; js "L1"] ++ added))]
    /\ NoDup added
    /\ forall id,
         In id added <->
         ~ In id [js "L4"; js "L1"]
         /\ exists name label,
              In name [js "bug"; js "unknown"; js "effort:5"]
              /\ team_label team_of_three name = Some label
              /\ label_id label = id.
Proof.
  exact (@addLabelsToIssue_spec Board board_sdk (js "team") (js "T-1")
           [js "bug"; js "unknown"; js "effort:5"] small_board small_board small_board
           (Some team_of_three)
           (Some [BuildLabel (js "L4") (js "bug"); BuildLabel (js "L1") (js "effort:2")])
           eq_refl eq_refl).
Defined.

(* ====================================================================== *)
(** ** LinearService.updateTaskEffort *)
(* ====================================================================== *)

Lemma fibonacci_nonneg (e : Z) : isFibonacciEffort e = true -> (0 <=? e)%Z = true.
Proof.
  unfold isFibonacciEffort, FIBONACCI_EFFORT_VALUES. cbn [existsb].
  rewrite !orb_true_iff, !Z.eqb_eq. intros H. apply Z.leb_le. lia.
Qed.

Lemma patch_metadata_ok (m : Metadata.t) (payload : EffortPayload) :
  metadata_ok m = true -> payload_ok payload = true ->
  metadata_ok (patch_metadata m payload) = true.
Proof.
  unfold metadata_ok, payload_ok, patch_metadata. intros Hm Hp.
  destruct m as [g e r b us ls]. destruct payload as [pe pr pb].
  cbn [Metadata.goal Metadata.effort Metadata.effortReason Metadata.complexityBias
       Metadata.uncertainties Metadata.lessonsLearned payload_effort
       payload_effortReason payload_complexityBias] in *.
  repeat rewrite andb_true_iff in Hm. repeat rewrite andb_true_iff in Hp.
  destruct Hm as (((((Hg & He) & Hr) & Hb) & Hu) & Hl). destruct Hp as ((Hpe & Hpr) & Hpb).
  destruct pe as [e'|], pr as [r'|], pb as [b'|];
    cbn [Metadata.with_effort Metadata.with_effortReason Metadata.with_complexityBias
         Metadata.goal Metadata.effort Metadata.effortReason Metadata.complexityBias
         Metadata.uncertainties Metadata.lessonsLearned];
    repeat rewrite andb_true_iff; repeat split; try assumption;
    now apply fibonacci_nonneg.
Qed.

Lemma updateTaskEffort_found (W : Type) (client : SdkClient W) (teamId taskID : str)
    (payload : EffortPayload) (w w1 w2 : W) (iss : Issue)
    (labelsConnection : option (list IssueLabel)) :
  payload_empty payload = false ->
  match payload_effort payload with Some e => isFibonacciEffort e | None => true end = true ->
  sdk_issue client taskID w = (inr (Some iss), w1) ->
  sdk_updateIssue client taskID (effort_update (issue_description iss) payload) w1
  = (inr labelsConnection, w2) ->
  LinearSdk.updateTaskEffort client teamId taskID payload w
  = after_calls [SdkIssue taskID;
                 SdkUpdateIssue taskID (effort_update (issue_description iss) payload)]
      (match payload_effort payload with
       | Some e =>
           LinearSdk.setLabelsOnIssue client teamId taskID
             (effort_labels (map label_name (or_nil labelsConnection)) e) w2
       | None => ([], w2, inr tt)
       end).
Proof.
  unfold payload_empty. intros Hne Hfib Hi Hu.
  unfold LinearSdk.updateTaskEffort. cbv zeta. rewrite Hne.
  unfold effort_update, effort_description, patch_metadata in Hu |- *.
  unfold Sdk.bind at 1.
  destruct (payload_effort payload) as [e|].
  - rewrite Hfib. cbn [negb]. unfold Sdk.ret at 1. unfold Sdk.bind at 1, Sdk.call at 1.
    rewrite Hi. unfold Sdk.bind at 1, Sdk.call at 1. rewrite Hu.
    unfold effort_labels, after_calls.
    destruct (LinearSdk.setLabelsOnIssue client teamId taskID _ w2) as [[tr w3] r].
    reflexivity.
  - unfold Sdk.ret at 1. unfold Sdk.bind at 1, Sdk.call at 1.
    rewrite Hi. unfold Sdk.bind at 1, Sdk.call at 1. rewrite Hu. reflexivity.
Qed.

(** X24.  [updateTaskEffort] contacts the tracker only for a payload that
    sets something and whose effort, if any, is on the scale: an empty
    payload returns at once, an effort off the scale is refused with the
    scale in the message before anything is read.  When the tracker has no
    such issue the call fails after that one read and writes nothing. *)
Theorem updateTaskEffort_guards (W : Type) (client : SdkClient W) (teamId taskID : str)
    (payload : EffortPayload) (w : W) :
  (payload_empty payload = true ->
   LinearSdk.updateTaskEffort client teamId taskID payload w = ([], w, inr tt))
  /\ (forall e,
         payload_effort payload = Some e -> isFibonacciEffort e = false ->
         LinearSdk.updateTaskEffort client teamId taskID payload w
         = ([], w,
            inl (External (js "Task effort must be one of 1, 2, 3, 5, 8, 13, 21, got "
                           ++ show_int e))))
  /\ (forall w1,
         payload_empty payload = false ->
         match payload_effort payload with
         | Some e => isFibonacciEffort e
         | None => true
         end = true ->
         sdk_issue client taskID w = (inr None, w1) ->
         LinearSdk.updateTaskEffort client teamId taskID payload w
         = ([SdkIssue taskID], w1, inl (TaskNotFound taskID))).
Proof.
  unfold payload_empty. split; [|split].
  - intros He. unfold LinearSdk.updateTaskEffort. cbv zeta. now rewrite He.
  - intros e He Hbad. unfold LinearSdk.updateTaskEffort. cbv zeta.
    rewrite He. cbn [is_some negb andb]. rewrite Hbad. cbn [negb].
    unfold Sdk.bind, Sdk.throw. reflexivity.
  - intros w1 Hne Hfib Hi. unfold LinearSdk.updateTaskEffort. cbv zeta. rewrite Hne.
    unfold Sdk.bind at 1.
    destruct (payload_effort payload) as [e|];
      [rewrite Hfib; cbn [negb]|]; unfold Sdk.ret at 1;
      unfold Sdk.bind, Sdk.call, Sdk.throw; now rewrite Hi.
Qed.

Lemma updateTaskEffort_guards_witness :
  LinearSdk.updateTaskEffort board_sdk (js "team") (js "T-1")
    (BuildPayload (Some 4%Z) None None) small_board
  = ([], small_board,
     inl (External (js "Task effort must be one of 1, 2, 3, 5, 8, 13, 21, got 4"))).
Proof.
  exact (proj1 (proj2 (updateTaskEffort_guards board_sdk (js "team") (js "T-1")
                         (BuildPayload (Some 4%Z) None None) small_board))
               4%Z eq_refl eq_refl).
Defined.



Lemma filter_filter_none (A : Type) (p q : A -> bool) (l : list A) :
  (forall x, q x = true -> p x = false) -> filter p (filter q l) = [].
Proof.
  intros H. induction l as [|x l IH]; [reflexivity|]. cbn [filter].
  destruct (q x) eqn:E; [cbn [filter]; now rewrite (H x E) | exact IH].
Qed.

Lemma filter_filter_same (A : Type) (p : A -> bool) (l : list A) :
  filter p (filter p l) = filter p l.
Proof.
  induction l as [|x l IH]; [reflexivity|]. cbn [filter].
  destruct (p x) eqn:E; [cbn [filter]; now rewrite E, IH | exact IH].
Qed.

(** X26.  The labels [updateTaskEffort] sets for an effort [e] hold exactly
    one label that begins with [effort:], namely [effort:e]; they hold
    [needs-decomposition] once when [e] is above 3 and not at all
    otherwise; and the other labels of the issue are all kept, in their
    order, before those. *)
Theorem effort_labels_spec (existing : list str) (e : Z) :
  let other label := negb (is_effort_label label) && negb (is_decomposition_label label) in
  filter is_effort_label (effort_labels existing e) = [js "effort:" ++ show_int e]
  /\ filter is_decomposition_label (effort_labels existing e)
     = (if (3 <? e)%Z then [js "needs-decomposition"] else [])
  /\ filter other (effort_labels existing e) = filter other existing
  /\ exists tail, effort_labels existing e = filter other existing ++ tail.
Proof.
  intros other.
  assert (He : is_effort_label (js "effort:" ++ show_int e) = true).
  { unfold is_effort_label, startsWith. now rewrite strip_prefix_app. }
  assert (Hd : is_decomposition_label (js "effort:" ++ show_int e) = false).
  { unfold is_decomposition_label. apply str_eqb_neq. discriminate. }
  assert (Ho : other (js "effort:" ++ show_int e) = false).
  { unfold other. now rewrite He. }
  assert (Hfe : filter is_effort_label (filter other existing) = []).
  { apply filter_filter_none. intros x Hx. unfold other in Hx.
    apply andb_true_iff in Hx. destruct Hx as [Hx _]. now apply negb_true_iff in Hx. }
  assert (Hfd : filter is_decomposition_label (filter other existing) = []).
  { apply filter_filter_none. intros x Hx. unfold other in Hx.
    apply andb_true_iff in Hx. destruct Hx as [_ Hx]. now apply negb_true_iff in Hx. }
  assert (E : effort_labels existing e
              = filter other existing
                ++ [js "effort:" ++ show_int e]
                ++ (if (3 <? e)%Z then [js "needs-decomposition"] else [])).
  { unfold effort_labels. cbv zeta. fold is_effort_label.
    destruct (3 <? e)%Z; [now rewrite <- app_assoc | now rewrite app_nil_r]. }
  rewrite E. rewrite !filter_app, Hfe, Hfd, filter_filter_same. cbn [filter app].
  rewrite He, Hd, Ho.
  destruct (3 <? e)%Z; cbn [filter app]; repeat split;
    try reflexivity; try (now rewrite app_nil_r); try (eexists; reflexivity).
Qed.

(* ====================================================================== *)
(** ** LinearService.decomposeTask *)
(* ====================================================================== *)

Section CallsAll.

Variable W : Type.
Variable P : SdkCall -> Prop.

Lemma calls_ret (A : Type) (a : A) : calls_all P (Sdk.ret (W:=W) a).
Proof. intros w. constructor. Qed.

Lemma calls_throw (A : Type) (e : Error) : calls_all P (Sdk.throw (W:=W) (A:=A) e).
Proof. intros w. constructor. Qed.

Lemma calls_bind (A B : Type) (m : Sdk.t W A) (f : A -> Sdk.t W B) :
  calls_all P m -> (forall a, calls_all P (f a)) -> calls_all P (Sdk.bind m f).
Proof.
  intros Hm Hf w. unfold Sdk.bind. specialize (Hm w).
  destruct (m w) as [[tr w'] [e | a]]; [exact Hm|].
  specialize (Hf a w'). destruct (f a w') as [[tr' w''] r].
  cbn [fst] in *. apply Forall_app. now split.
Qed.

Lemma calls_call (A : Type) (c : SdkCall) (f : W -> (Error + A) * W) :
  P c -> calls_all P (Sdk.call c f).
Proof.
  intros H w. unfold Sdk.call. destruct (f w) as [x w']. cbn [fst].
  constructor; [exact H | constructor].
Qed.

Lemma calls_for_each (A : Type) (f : A -> Sdk.t W unit) (l : list A) :
  (forall a, In a l -> calls_all P (f a)) -> calls_all P (Sdk.for_each f l).
Proof.
  induction l as [|a l IH]; intros H; cbn [Sdk.for_each]; [apply calls_ret|].
  apply calls_bind; [apply H; now left|]. intros _. apply IH.
  intros b Hb. apply H. now right.
Qed.

End CallsAll.

Lemma calls_weaken (W A : Type) (P Q : SdkCall -> Prop) (m : Sdk.t W A) :
  (forall c, P c -> Q c) -> calls_all P m -> calls_all Q m.
Proof. intros H Hm w. eapply Forall_impl; [exact H | apply Hm]. Qed.

Lemma bind_fails (W A B : Type) (m : Sdk.t W A) (f : A -> Sdk.t W B) (w : W) :
  (forall a w', exists e, sdk_outcome (f a w') = inl e) ->
  exists e, sdk_outcome (Sdk.bind m f w) = inl e.
Proof.
  intros H. unfold Sdk.bind. destruct (m w) as [[tr w'] [e | a]]; [now exists e|].
  destruct (H a w') as [e He]. destruct (f a w') as [[tr' w''] r]. now exists e.
Qed.

Lemma bind_fails_first (W A B : Type) (m : Sdk.t W A) (f : A -> Sdk.t W B) (w : W) :
  (exists e, sdk_outcome (m w) = inl e) ->
  exists e, sdk_outcome (Sdk.bind m f w) = inl e.
Proof.
  intros [e He]. unfold Sdk.bind. destruct (m w) as [[tr w'] [e' | a]];
    [now exists e' | discriminate He].
Qed.

Section DecomposeFacts.

Variable W : Type.
Variable client : SdkClient W.
Variable teamId : str.

Lemma addLabelsToIssue_creates_nothing (issueId : str) (labelNames : list str) :
  calls_all (fun c => forall input, c <> SdkCreateIssue input)
            (LinearSdk.addLabelsToIssue client teamId issueId labelNames).
Proof.
  unfold LinearSdk.addLabelsToIssue.
  apply calls_bind; [apply calls_call; discriminate|]. intros teamLabels.
  apply calls_bind; [apply calls_call; discriminate|]. intros issueLabels. cbv zeta.
  apply calls_bind; [apply calls_call; discriminate|]. intros _. apply calls_ret.
Qed.

Lemma removeLabelFromIssue_creates_nothing (issueId labelName : str) :
  calls_all (fun c => forall input, c <> SdkCreateIssue input)
            (LinearSdk.removeLabelFromIssue client issueId labelName).
Proof.
  unfold LinearSdk.removeLabelFromIssue.
  apply calls_bind; [apply calls_call; discriminate|]. intros labelsConnection.
  destruct (find _ _); [|apply calls_ret]. cbv zeta.
  apply calls_bind; [apply calls_call; discriminate|]. intros _. apply calls_ret.
Qed.

Lemma decompose_one_creates (parent : Issue) (created : list Task.t)
    (subtask : SubtaskInput.t) :
  calls_all (creates_only teamId parent [subtask])
            (LinearSdk.decompose_one client teamId parent created subtask).
Proof.
  unfold LinearSdk.decompose_one. cbv zeta.
  destruct (isFibonacciEffort (SubtaskInput.effort subtask)) eqn:E; cbn [negb];
    [|apply calls_throw].
  apply calls_bind; [apply calls_call; intros input; discriminate|]. intros projectId.
  apply calls_bind.
  { apply calls_call. intros input [= <-]. exists subtask, projectId.
    split; [now left|]. split; [exact E | reflexivity]. }
  intros [iss|]; [|apply calls_ret].
  apply calls_bind.
  { apply (@calls_weaken W unit (fun c => forall input, c <> SdkCreateIssue input));
      [|apply addLabelsToIssue_creates_nothing].
    intros c Hc input Hi. now contradiction (Hc input). }
  intros _. apply calls_bind; [apply calls_call; intros input; discriminate|].
  intros task. apply calls_ret.
Qed.

Lemma decompose_all_creates (parent : Issue) (subtasks : list SubtaskInput.t)
    (created : list Task.t) :
  calls_all (creates_only teamId parent subtasks)
            (LinearSdk.decompose_all client teamId parent subtasks created).
Proof.
  revert created. induction subtasks as [|subtask rest IH]; intros created;
    cbn [LinearSdk.decompose_all]; [apply calls_ret|].
  apply calls_bind.
  - apply (@calls_weaken W _ (creates_only teamId parent [subtask]));
      [|apply decompose_one_creates].
    intros c Hc input Hi. destruct (Hc input Hi) as (s & p & [<- | []] & Hf & ->).
    exists subtask, p. split; [now left | now split].
  - intros created'.
    apply (@calls_weaken W _ (creates_only teamId parent rest)); [|apply IH].
    intros c Hc input Hi. destruct (Hc input Hi) as (s & p & Hin & Hf & ->).
    exists s, p. split; [now right | now split].
Qed.

Lemma decompose_all_app (before rest : list SubtaskInput.t) (parent : Issue)
    (created : list Task.t) (w : W) :
  LinearSdk.decompose_all client teamId parent (before ++ rest) created w
  = match LinearSdk.decompose_all client teamId parent before created w with
    | (tr, w1, inl e) => (tr, w1, inl e)
    | (tr, w1, inr tasks) =>
        match LinearSdk.decompose_all client teamId parent rest tasks w1 with
        | (tr', w2, r) => (tr ++ tr', w2, r)
        end
    end.
Proof.
  revert created w. induction before as [|s before IH]; intros created w;
    cbn [app LinearSdk.decompose_all].
  - unfold Sdk.ret.
    destruct (LinearSdk.decompose_all client teamId parent rest created w) as [[tr' w2] r].
    reflexivity.
  - unfold Sdk.bind.
    destruct (LinearSdk.decompose_one client teamId parent created s w)
      as [[tr w1] [e | tasks]]; [reflexivity|].
    rewrite IH.
    destruct (LinearSdk.decompose_all client teamId parent before tasks w1)
      as [[tr1 w2] [e | ts]]; [reflexivity|].
    destruct (LinearSdk.decompose_all client teamId parent rest ts w2) as [[tr2 w3] r].
    now rewrite app_assoc.
Qed.

Lemma decompose_all_stops (before after : list SubtaskInput.t) (bad : SubtaskInput.t)
    (parent : Issue) (created : list Task.t) (w : W) :
  isFibonacciEffort (SubtaskInput.effort bad) = false ->
  LinearSdk.decompose_all client teamId parent (before ++ bad :: after) created w
  = match LinearSdk.decompose_all client teamId parent before created w with
    | (tr, w1, inl e) => (tr, w1, inl e)
    | (tr, w1, inr _) => (tr, w1, inl (subtask_effort_error bad))
    end.
Proof.
  intros Hbad. rewrite decompose_all_app.
  destruct (LinearSdk.decompose_all client teamId parent before created w)
    as [[tr w1] [e | tasks]]; [reflexivity|].
  cbn [LinearSdk.decompose_all]. unfold Sdk.bind, LinearSdk.decompose_one. cbv zeta.
  rewrite Hbad. cbn [negb]. unfold Sdk.throw, subtask_effort_error.
  now rewrite app_nil_r.
Qed.

End DecomposeFacts.

(** X27.  The service's [decomposeTask] fails after the one read when the
    parent is missing, and as well when the effort decoded from the
    parent's description is 3 or less: nothing is created then.  The
    subtasks are handled one after the other, each checked only when its
    turn comes: a subtask whose effort is off the scale stops the loop
    after the subtasks before it went through, so the call never succeeds
    when one subtask is off the scale, but the earlier ones stay created.
    Every issue it creates is the issue of one of the given subtasks with
    an effort on the scale, under the parent, with the team's id. *)
Theorem decomposeTask_stepwise (W : Type) (client : SdkClient W) (teamId : str) :
  (forall input w w1,
      sdk_issue client (decompose_taskID input) w = (inr None, w1) ->
      LinearSdk.decomposeTask client teamId input w
      = ([SdkIssue (decompose_taskID input)], w1,
         inl (TaskNotFound (decompose_taskID input))))
  /\ (forall input w w1 parent,
         sdk_issue client (decompose_taskID input) w = (inr (Some parent), w1) ->
         (Metadata.effort (parseMetadata (text (issue_description parent))) <= 3)%Z ->
         exists message,
           LinearSdk.decomposeTask client teamId input w
           = ([SdkIssue (decompose_taskID input)], w1, inl (External message)))
  /\ (forall parent before bad after created w,
         isFibonacciEffort (SubtaskInput.effort bad) = false ->
         LinearSdk.decompose_all client teamId parent (before ++ bad :: after) created w
         = match LinearSdk.decompose_all client teamId parent before created w with
           | (tr, w1, inl e) => (tr, w1, inl e)
           | (tr, w1, inr _) => (tr, w1, inl (subtask_effort_error bad))
           end)
  /\ (forall input w bad,
         In bad (decompose_subtasks input) ->
         isFibonacciEffort (SubtaskInput.effort bad) = false ->
         exists e, sdk_outcome (LinearSdk.decomposeTask client teamId input w) = inl e)
  /\ (forall input w w1 parent created,
         sdk_issue client (decompose_taskID input) w = (inr (Some parent), w1) ->
         In (SdkCreateIssue created)
            (sdk_trace (LinearSdk.decomposeTask client teamId input w)) ->
         exists subtask projectId,
           In subtask (decompose_subtasks input)
           /\ isFibonacciEffort (SubtaskInput.effort subtask) = true
           /\ created = issue_of_subtask teamId parent projectId subtask).
Proof.
  split; [|split; [|split; [|split]]].
  - intros input w w1 H. unfold LinearSdk.decomposeTask, Sdk.bind, Sdk.call. cbv zeta.
    now rewrite H.
  - intros input w w1 parent H Hsmall.
    unfold LinearSdk.decomposeTask, Sdk.bind, Sdk.call. cbv zeta. rewrite H.
    assert (E : (3 <? Metadata.effort (parseMetadata (text (issue_description parent))))%Z
                = false) by (apply Z.ltb_ge; exact Hsmall).
    rewrite E. cbn [negb]. unfold Sdk.throw. eexists. reflexivity.
  - intros parent before bad after created w Hbad. now apply decompose_all_stops.
  - intros input w bad Hin Hbad. apply in_split in Hin. destruct Hin as (before & after & E).
    unfold LinearSdk.decomposeTask. cbv zeta.
    apply bind_fails. intros [parent|] w1; [|eexists; reflexivity].
    destruct (negb _); [eexists; reflexivity|].
    apply bind_fails. intros _ w2. apply bind_fails_first.
    rewrite E, (decompose_all_stops client teamId before after bad parent [] w2 Hbad).
    destruct (LinearSdk.decompose_all client teamId parent before [] w2)
      as [[tr2 w3] [e | tasks]]; eexists; reflexivity.
  - intros input w w1 parent created H Hin.
    assert (Hall : Forall (creates_only teamId parent (decompose_subtasks input))
                          (sdk_trace (LinearSdk.decomposeTask client teamId input w))).
    { unfold LinearSdk.decomposeTask, sdk_trace, Sdk.bind at 1, Sdk.call at 1. cbv zeta.
      rewrite H.
      assert (Hrest : forall m : Sdk.t W (list Task.t),
                 calls_all (creates_only teamId parent (decompose_subtasks input)) m ->
                 Forall (creates_only teamId parent (decompose_subtasks input))
                        (fst (fst (let '(tr', w'', r) := m w1 in
                                   (SdkIssue (decompose_taskID input) :: tr', w'', r))))).
      { intros m Hm. specialize (Hm w1). destruct (m w1) as [[tr' w''] r]. cbn [fst] in *.
        constructor; [intros i Hi; discriminate Hi | exact Hm]. }
      apply Hrest.
      destruct (negb _); [apply calls_throw|].
      apply calls_bind.
      { destruct (truthy (decompositionReason input)); [|apply calls_ret].
        apply calls_call. intros i Hi. discriminate Hi. }
      intros _. apply calls_bind; [apply decompose_all_creates|].
      intros tasks. apply calls_bind; [|intros _; apply calls_ret].
      apply (@calls_weaken W unit (fun c => forall i, c <> SdkCreateIssue i));
        [|apply removeLabelFromIssue_creates_nothing].
      intros c Hc i Hi. now contradiction (Hc i). }
    rewrite Forall_forall in Hall. exact (Hall _ Hin created eq_refl).
Qed.

Lemma decomposeTask_stepwise_witness :
  let run :=
    LinearSdk.decomposeTask board_sdk (js "team")
      (BuildDecompose (js "T-1") None [small_subtask; odd_subtask; small_subtask])
      small_board in
  (exists e, sdk_outcome run = inl e)
  /\ In (SdkCreateIssue
           (issue_of_subtask (js "team")
              (BuildIssue (js "T-1") (Some (board_description small_board))) None
              small_subtask))
        (sdk_trace run).
Proof.
  split.
  - apply (proj1 (proj2 (proj2 (proj2 (decomposeTask_stepwise board_sdk (js "team")))))
             (BuildDecompose (js "T-1") None [small_subtask; odd_subtask; small_subtask])
             small_board odd_subtask).
    + right. now left.
    + reflexivity.
  - vm_compute. right. right. left. reflexivity.
Defined.
